(* ===== verification/_CoqProject ===== *)
-Q . S2P
Prelude.v
GoHeap.v
GoProg.v
GoError.v
ApiTypes.v
DeepCopy.v
ToyLibrary.v
Webhooks.v
Platform.v
Traces.v
GoPath.v
GoText.v
TestUtils.v
Helpers.v
HelpersFacts.v
Toy.v
AddonController.v
AddonFacts.v
AddonSpec.v
AddonInstall.v
AddonLiveness.v
AddonOutcome.v
AddonConvergence.v
PolicyController.v
PolicyFacts.v
PolicySpec.v
PolicyBounds.v
PolicyRefinement.v
Startup.v
EndToEnd.v
ToyServer.v
ToyCache.v
System.v
Witnesses.v
