(* ===== verification/Prelude.v ===== *)
(** * A model of the Cluster API add-on provider for Kubewarden

    The program is a Kubernetes operator.  It runs next to Cluster API in a
    management cluster and has two reconcilers.  The first (KubewardenAddon)
    installs Kubewarden on the workload clusters a selector picks: it reads the
    addon and the clusters, and for each cluster obtains a client, creates the
    namespace, downloads, unpacks and applies the CRDs of a release, renders
    and applies two Helm charts, patches tolerations, and annotates the Cluster
    object as installed.  The second (KubewardenPolicy) deploys one admission
    policy to every matching workload cluster that carries the annotation, and
    reports per cluster.  Admission webhooks default and validate both
    resources.  The annotation on the Cluster objects is the only state the two
    reconcilers share.  cmd/main.go registers all of this with the manager of
    controller-runtime and starts it.

    ** How Go is modelled

    A Go function that talks to its environment is a program tree (GoProg.v):
    it returns, or issues one action and goes on with the answer.  All loops
    of the program are over finite lists, so programs are inductive and
    terminate by construction: there is no fuel.  The actions (Platform.v) are
    the calls of controller-runtime clients, the remote client getter, the
    clock, the log of swallowed errors, net/http, os, io, gzip, filepath.Glob
    and Helm; every answer is possible, the theorems quantify over all of them.
    [runs p t a] is a complete run, [issues p t c] says that [p] issues [c]
    after the calls of [t], also in runs that are cut short.  [defer] releases
    in reverse order at the return of the function; a loop's early [return] is
    a value of [flow].  Errors are values of [error] (GoError.v): foreign,
    [fmt.Errorf] without or with [%w].  Types and pure functions of libraries
    are the fields of the class [Platform]: label selectors, decoders, error
    predicates, conditions, the results of successive YAML and tar reads.  Go's
    [for _, x := range l { out = append(out, f x) }] is a [fold_left].  Maps
    are stdpp's [gmap]; nil maps, nil pointers and empty-or-absent values are
    options; a nil slice and an empty slice are both [].  Durations are
    nanoseconds in Z.  Values are immutable except where sharing matters: the
    annotations of the cluster, which the code changes through an alias, are on
    a heap of maps, and the generated deep copies work on a heap of slices and
    pointers (GoHeap.v), where a shallow copy and a deep one differ.  Progress
    logging at the Info level is left out; errors that are logged and swallowed
    are actions.

    ** Files

    - Prelude, GoProg, GoError: tactics, list lemmas; programs, traces,
      [exec]utable environments, tactics that read traces; Go errors.  GoHeap:
      slices, pointers and the contract of a deep copy.
    - ApiTypes: api/v1alpha1/kubewardenaddon_types.go, kubewardenpolicy_types.go
      and condition_consts.go (Modules [Addon] and [Policy]), and the shapes of
      the library objects they embed.
    - DeepCopy: every method of zz_generated.deepcopy.go; the DeepCopyInto of
      the library structs it calls are fields of a class with their contract.
      ToyLibrary is a concrete such library, with the theorems run on it.
    - Webhooks: kubewardenaddon_webhook.go and kubewardenpolicy_webhook.go, one
      Module each, with the specification of a valid policy.
    - Platform: the environment's interface.  Traces: what a trace says
      (objects ensured, manifests applied, resources held, answers without
      error).  GoPath: strings.Split, strings.Join and filepath.Clean/Join.
      GoText: strings.Index, Contains, Replace, TrimPrefix and bufio.Scanner.
    - TestUtils: test/utils/utils.go, with its own signature of calls (commands,
      files, environment variables) and its concrete runs.
    - Helpers, HelpersFacts: internal/controller/helpers.go and its lemmas.
    - AddonController, AddonFacts: kubewardenaddon_controller.go, one definition
      per method (the bodies of its loops are definitions of their own), and
      the lemmas: which calls each step may make, that it releases what it
      acquires, what its success means ([kubewarden_installed]).
    - AddonSpec, AddonInstall, AddonLiveness, AddonOutcome, AddonConvergence:
      theorems about that controller (safety and event mapping; the
      installation steps; what happens without failures; every way a reconcile
      ends, with its calls; repeated reconciles against the management cluster,
      whose contract is the class [ManagementServer], as a [history] in which
      the rest of the world moves between the calls).
    - PolicyController, PolicyFacts, PolicySpec, PolicyBounds, PolicyRefinement:
      the same for kubewardenpolicy_controller.go; PolicyBounds counts calls,
      PolicyRefinement states the contract of the workload clusters' API
      servers as the class [ApiServer].
    - Startup: cmd/main.go, groupversion_info.go, the SetupWithManager and
      SetupWebhookWithManager methods and the markers of the webhooks, with the
      calls to controller-runtime as a signature of their own.
    - System: both reconcilers running concurrently.  EndToEnd: an addon's
      reconcile, the event it causes and a policy's reconcile composed, in a
      [World] that keeps both servers' contracts and has the cache which the
      manager's client reads.
    - Toy, ToyServer: a concrete platform and an executable environment, which
      keeps the contract of [ApiServer].  ToyCache: the same behind a cache
      that lags, which keeps [ApiServer], [ManagementServer] and [World].
      Witnesses: the theorems at concrete runs, stale reads among them.

    ** What the theorems show

    - Installation: the annotation is only ever set on a selected, ready,
      unannotated cluster through whose client every installation step
      succeeded; without failing answers a reconcile installs all fresh
      clusters and reports Ready; Ready is never reported otherwise; every
      opened resource is released on every path; the endings of a reconcile with
      all their calls: what stopped it, with which result, and that nothing is
      called for the clusters after it; exactly which URL, charts and temporary
      files are used;
      the exact runs of the manifest loop; what the extraction of the archive
      writes and where.
    - Repeated reconciles of addons, one after the other: whatever fails, as long
      as nobody removes annotations, a cluster is marked as installed a second
      time only by a reconcile that was shown a stale list; as long as nobody
      adds clusters or removes annotations, there is no infinite sequence of
      reconciles that each install a cluster on a current list
      (well-foundedness on the clusters not yet annotated); a reconcile that is
      shown every cluster annotated reaches no workload cluster.
    - Policies: the exact set of writes; the accuracy of the status; that no
      cluster blocks another; the specification sent states the policy (round
      trip); against any lawful API servers a reconcile refines "set this
      policy to the desired specification on these clusters and touch nothing
      else", repeated reconciles converge, and a deletion refines its removal
      (absent, or marked for deletion while finalizers are pending); a
      reconcile with [n] clusters makes at most [7 n + 3] calls.
    - The system: in every interleaving of the two controllers that starts with
      no annotated cluster, provided nobody else sets the annotation, a policy
      reaches a cluster only after Kubewarden was installed there; and, the
      other direction, when nothing fails, no annotation is removed and no
      stored policy changed by others, the reconcile of an addon whose selected
      clusters are ready and not annotated, the event of one of them and, once
      the cache has caught up, the reconcile of a policy that event enqueues
      leave the policy stored in the cluster.
    - Start-up: the manager is started exactly after every registration
      succeeded, in the code's order; every error is fatal, logged and exit
      status 1; the servers' options follow the flags.
    - Deep copies: the copy has the same value, occupies only new memory and
      leaves the old unchanged, in a well-typed heap it cannot panic, and
      writes to one of the two never show in the other.
    - Test utilities: commenting a text out and uncommenting it restores the
      file; what uncommenting loses; what the detection of CRDs answers.
    - Webhooks: acceptance is validity; which error is returned; defaulting is
      idempotent and makes one check unreachable; what is accepted is deployed
      as a complete object.
    - Event mapping: which requests a cluster event enqueues.
    - Flaws of the code are theorems too: an installed cluster stops the
      reconcile, matching clusters are never persisted, a deleted addon is
      requeued for ever, a document without a kind truncates its manifest,
      archive names can escape their directory, rendered charts are never
      removed, deletions that fail are reported as done, uncommenting loses a
      final newline.

    ** Assumptions

    The theorems about single runs and interleavings assume nothing about the
    answers.  Those about servers assume the contracts of three classes:

    - [ApiServer], the workload clusters: a call changes no policy but the one
      it addresses (nobody else writes policies there during a run, and
      finalizers complete after it); a write answered with an error may
      have been applied; an accepted deletion removes the policy or, while it
      has finalizers, marks it.
    - [ManagementServer]: a merge patch sets the annotations in which it differs
      from its base, a refused one may have been applied; a list contains each
      object once.  Reads are answered by the manager's cache, which follows
      the server with a delay: nothing is assumed about how a list relates to
      what is stored, also not that a reconcile sees the writes before it.
      Theorems that need it name it: a [current] list, a cache that has
      [caught_up].  Between the calls the rest of the world moves by
      [elsewhere]; what a theorem asks of that is a hypothesis of it.  Calls
      through the client of a workload cluster do not write Cluster objects of
      the management cluster.
    - [World]: both, with the contents of the cache; a list is complete for what
      the cache holds.

    Reconciles of addons run one after the other, as controller-runtime runs
    them with its default of one worker per controller, which main.go does not
    change; the interleavings of System do not need that.

    ** Not modelled

    The manager's work queue (a requeue is a value the reconciler returns, an
    event a list of requests), zap's own flags and the logging at Info level,
    the tests (webhook_suite_test.go, suite_test.go,
    kubewardenaddon_controller_test.go, test/e2e), manifests, scripts and docs,
    fields of library objects that the program does not touch (fields of an
    admission policy that the program leaves unset behave like [ps_Mode]).  The
    fields of a library object that a call fills in from the server's answer
    are not read again by the program and are not modelled.

    ** Order of further work

    The work queue with delayed requeues and its fairness, on top of
    AddonConvergence and EndToEnd; the records of ApiTypes as the values read
    from the heap of DeepCopy.

    This file: notations, tactics and list lemmas shared by all the others. *)
From stdpp Require Export base list gmap strings pretty.
From Stdlib Require Export Lia.

#[export] Set Default Goal Selector "!".

Declare Scope go_scope.
Delimit Scope go_scope with go.

(** ** Lists *)

Section Lists.
Context {A B : Type}.
Implicit Types (l : list A).

(** Go's [for _, x := range l { out = append(out, f(x)) }]. *)
Lemma fold_left_snoc (f : A -> B) l acc :
  fold_left (fun out x => out ++ [f x]) l acc = acc ++ map f l.
Proof.
  revert acc. induction l as [|x l IH]; intros acc; simpl; [by rewrite app_nil_r|].
  by rewrite IH, <- app_assoc.
Qed.

(** The same with a condition. *)
Lemma fold_left_filter (f : A -> bool) l acc :
  fold_left (fun out x => if f x then out ++ [x] else out) l acc = acc ++ List.filter f l.
Proof.
  revert acc. induction l as [|x l IH]; intros acc; simpl; [by rewrite app_nil_r|].
  rewrite IH. destruct (f x); [by rewrite <- app_assoc|done].
Qed.

Lemma map_pointwise_id (f : A -> A) l : (forall x, f x = x) -> map f l = l.
Proof. intros H. induction l as [|x l IH]; simpl; [done|]. by rewrite H, IH. Qed.
End Lists.
