(* ===== verification/GoHeap.v ===== *)
(** * GoHeap: Go values that contain references

    A heap of arrays, slices and pointers into it, and a small state monad of
    the operations that Go code performs on them ([make], indexing, storing;
    an access that Go would refuse is a panic, [None]).  The class [Shape] says
    what value a memory representation stands for and which locations it
    reaches; [DeepCopyable] is the contract of a [DeepCopyInto] method: the
    result stands for the same value and reaches only locations that were not
    allocated before. *)
From S2P Require Import Prelude.

Declare Scope heap_scope.
Delimit Scope heap_scope with heap.

Definition loc := positive.

(** [C] is the type of the heap's cells; a cell holds one array. *)
Notation heap C := (gmap loc C).

(** ** The monad of heap operations *)

Definition M (C A : Type) : Type := heap C -> option (heap C * A).
Definition hret {C A} (a : A) : M C A := fun h => Some (h, a).
Definition hbind {C A B} (m : M C A) (k : A -> M C B) : M C B := fun h =>
  match m h with
  | Some (h', a) => k a h'
  | None => None
  end.
Definition panic {C A} : M C A := fun _ => None.

Notation "x <- m ;; k" := (hbind m (fun x => k))
  (at level 100, m at next level, right associativity) : heap_scope.
Notation "m ;; k" := (hbind m (fun _ => k))
  (at level 100, right associativity) : heap_scope.

(** [for i := range n { body(i) }] *)
Fixpoint range {C} (i : nat) (n : nat) (body : nat -> M C unit) : M C unit :=
  match n with
  | 0 => hret ()
  | S n => hbind (body i) (fun _ => range (S i) n body)
  end.

Definition alloc {C} (c : C) : M C loc := fun h =>
  let l := fresh (dom h) in Some (<[l := c]> h, l).

(** Arrays of [T] among the cells. *)
Class Cell (C T : Type) := {
  to_cell : list T -> C;
  of_cell : C -> option (list T);
  of_to_cell xs : of_cell (to_cell xs) = Some xs;
}.

(** The zero value of a Go type. *)
Class Zero (T : Type) := zero : T.

(** A non-nil slice: a window of an array.  A slice of Go that may be nil is an
    [option (Slice T)]. *)
Record Slice (T : Type) := mk_slice { array : loc; offset : nat; len : nat; cap : nat }.
Arguments mk_slice {T} _ _ _ _.
Arguments array {T} _.
Arguments offset {T} _.
Arguments len {T} _.
Arguments cap {T} _.

(** A non-nil pointer to an element of an array; [new(T)] allocates an array of
    one element. *)
Record Ptr (T : Type) := mk_ptr { base : loc; index : nat }.
Arguments mk_ptr {T} _ _.
Arguments base {T} _.
Arguments index {T} _.

Section Operations.
Context {C T : Type} `{!Cell C T} `{!Zero T}.

Definition load_array (l : loc) : M C (list T) := fun h =>
  xs ← h !! l ≫= of_cell; Some (h, xs).
Definition store_array (l : loc) (xs : list T) : M C unit := fun h =>
  Some (<[l := to_cell xs]> h, ()).

Definition load (p : Ptr T) : M C T :=
  (xs <- load_array (base p) ;;
   match xs !! index p with
   | Some x => hret x
   | None => panic
   end)%heap.
Definition store (p : Ptr T) (x : T) : M C unit :=
  (xs <- load_array (base p) ;;
   match xs !! index p with
   | Some _ => store_array (base p) (<[index p := x]> xs)
   | None => panic
   end)%heap.

(** [new(T)] *)
Definition new : M C (Ptr T) := (l <- alloc (to_cell [zero]) ;; hret (mk_ptr l 0))%heap.

(** [make([]T, n)] *)
Definition make (n : nat) : M C (Slice T) :=
  (l <- alloc (to_cell (replicate n zero)) ;; hret (mk_slice l 0 n n))%heap.

(** [&s[i]] *)
Definition at_index (s : Slice T) (i : nat) : M C (Ptr T) :=
  if decide (i < len s)%nat then hret (mk_ptr (array s) (offset s + i)) else panic.

(** [copy(dst, src)]: the elements are copied as they are, as many as fit. *)
Definition go_copy (dst src : Slice T) : M C unit :=
  range 0 (len dst `min` len src) (fun i =>
    (p <- at_index src i ;; x <- load p ;; q <- at_index dst i ;; store q x))%heap.
End Operations.

(** ** What a representation stands for *)

(** [view h x] is the value that [x] stands for in the heap [h], when all
    references reached from [x] are live and well typed; [foot h x] the
    locations reached. *)
Class Shape (C T V : Type) := {
  view : heap C -> T -> option V;
  foot : heap C -> T -> gset loc;
  view_frame h h' x v :
    view h x = Some v -> (forall l, l ∈ foot h x -> h' !! l = h !! l) ->
    view h' x = Some v /\ foot h' x = foot h x;
  foot_dom h x v : view h x = Some v -> foot h x ⊆ dom h;
}.
#[global] Hint Mode Shape ! ! - : typeclass_instances.

Section Shapes.
Context {C : Type}.
Implicit Types h : heap C.

Lemma view_mono `{!Shape C T V} h h' (x : T) (v : V) :
  h ⊆ h' -> view h x = Some v -> view h' x = Some v /\ foot h' x = foot h x.
Proof.
  intros Hh Hx. apply (view_frame h h' x v Hx). intros l Hl.
  apply (foot_dom h x v Hx), elem_of_dom in Hl as [c Hc].
  by rewrite Hc, (lookup_weaken _ _ _ _ Hc Hh).
Qed.

Lemma view_insert `{!Shape C T V} h (x : T) (v : V) l c :
  view h x = Some v -> l ∉ foot h x ->
  view (<[l := c]> h) x = Some v /\ foot (<[l := c]> h) x = foot h x.
Proof.
  intros Hx Hl. apply (view_frame h _ x v Hx). intros l' Hl'.
  apply lookup_insert_ne. by intros ->.
Qed.

(** Types without references stand for themselves. *)
Record Flat (A : Type) := flat { unflat : A }.
#[global] Arguments flat {A} _.
#[global] Arguments unflat {A} _.
#[global] Program Instance Flat_Shape A : Shape C (Flat A) A := {|
  view _ x := Some (unflat x);
  foot _ _ := ∅;
|}.
Next Obligation. done. Qed.
Next Obligation. set_solver. Qed.

#[global] Program Instance prod_Shape {A B V W} `{!Shape C A V, !Shape C B W} :
  Shape C (A * B) (V * W) := {|
  view h x := v ← view h x.1; w ← view h x.2; Some (v, w);
  foot h x := foot h x.1 ∪ foot h x.2;
|}.
Next Obligation.
  intros A B V W ?? h h' [a b] [v w] Hv Hl; simpl in *.
  destruct (view h a) as [v'|] eqn:Ha, (view h b) as [w'|] eqn:Hb; simplify_eq/=.
  destruct (view_frame h h' a v Ha) as [-> ->]; [set_solver|].
  destruct (view_frame h h' b w Hb) as [-> ->]; [set_solver|]. done.
Qed.
Next Obligation.
  intros A B V W ?? h [a b] [v w] Hv; simpl in *. simplify_option_eq.
  apply union_subseteq. split; by eapply foot_dom.
Qed.

#[global] Program Instance option_Shape {A V} `{!Shape C A V} : Shape C (option A) (option V) := {|
  view h x := match x with None => Some None | Some a => Some <$> view h a end;
  foot h x := match x with None => ∅ | Some a => foot h a end;
|}.
Next Obligation.
  intros A V ? h h' [a|] v Hv Hl; [|done]. apply fmap_Some in Hv as (w & Hw & ->).
  simpl. by destruct (view_frame h h' a w Hw Hl) as [-> ->].
Qed.
Next Obligation.
  intros A V ? h [a|] v Hv; [|set_solver]. apply fmap_Some in Hv as (w & Hw & ->).
  by eapply foot_dom.
Qed.

#[global] Program Instance sum_Shape {A B V W} `{!Shape C A V, !Shape C B W} :
  Shape C (A + B) (V + W) := {|
  view h x := match x with inl a => inl <$> view h a | inr b => inr <$> view h b end;
  foot h x := match x with inl a => foot h a | inr b => foot h b end;
|}.
Next Obligation.
  intros A B V W ?? h h' [a|b] v Hv Hl; simpl in *;
    apply fmap_Some in Hv as (w & Hw & ->).
  - by destruct (view_frame h h' a w Hw Hl) as [-> ->].
  - by destruct (view_frame h h' b w Hw Hl) as [-> ->].
Qed.
Next Obligation.
  intros A B V W ?? h [a|b] v Hv; apply fmap_Some in Hv as (w & Hw & ->); by eapply foot_dom.
Qed.

#[global] Program Instance list_Shape {A V} `{!Shape C A V} : Shape C (list A) (list V) := {|
  view h xs := mapM (view h) xs;
  foot h xs := ⋃ (foot h <$> xs);
|}.
Next Obligation.
  intros A V ? h h' xs vs Hv Hl. rewrite mapM_Some in *.
  revert Hl. induction Hv as [|x v xs vs Hx Hxs IH]; intros Hl; csimpl in *; [done|].
  destruct (view_frame h h' x v Hx) as [Hx' Hf]; [set_solver|].
  destruct IH as [IH Hfs]; [set_solver|]. split; [by constructor|]. by rewrite Hf, Hfs.
Qed.
Next Obligation.
  intros A V ? h xs vs Hv. rewrite mapM_Some in Hv.
  induction Hv as [|x v xs vs Hx Hxs IH]; csimpl; [set_solver|].
  apply union_subseteq. split; [by eapply foot_dom|done].
Qed.

(** A record stands for what the tuple of its fields stands for. *)
Program Definition Shape_via {A B V} `{!Shape C B V} (fields : A -> B) : Shape C A V := {|
  view h x := view h (fields x);
  foot h x := foot h (fields x);
|}.
Next Obligation. intros. by apply view_frame. Qed.
Next Obligation. intros. by eapply foot_dom. Qed.

Lemma view_pair `{!Shape C A V, !Shape C B W} h (a : A) (b : B) (vw : V * W) :
  view h (a, b) = Some vw ->
  exists v w, vw = (v, w) /\ view h a = Some v /\ view h b = Some w.
Proof.
  unfold view at 1; simpl. intros (v & Hv & (w & Hw & [= <-])%bind_Some)%bind_Some.
  by exists v, w.
Qed.

Lemma view_flat {A} h (a v : A) : view h (flat a) = Some v -> v = a.
Proof. by intros [= <-]. Qed.

Lemma view_via {A} `{!Shape C B V} (fields : A -> B) h x v :
  view (Shape := Shape_via fields) h x = Some v -> view h (fields x) = Some v.
Proof. done. Qed.

Lemma view_cons `{!Shape C T V} h (x : T) xs (ws : list V) :
  view h (x :: xs) = Some ws ->
  exists v vs, ws = v :: vs /\ view h x = Some v /\ view h xs = Some vs.
Proof.
  unfold view at 1; simpl. intros (v & Hv & (vs & Hvs & [= <-])%bind_Some)%bind_Some.
  by exists v, vs.
Qed.
End Shapes.

Arguments view : simpl never.
Arguments foot : simpl never.

Section References.
Context {C T V : Type} `{!Cell C T, !Shape C T V}.
Implicit Types h : heap C.

Definition window (s : Slice T) (xs : list T) : list T := take (len s) (drop (offset s) xs).

Definition array_at h (l : loc) : option (list T) := h !! l ≫= of_cell.

Lemma array_at_frame h h' l : h' !! l = h !! l -> array_at h' l = array_at h l.
Proof. unfold array_at. by intros ->. Qed.
Lemma array_at_dom h l xs : array_at h l = Some xs -> l ∈ dom h.
Proof. unfold array_at. intros (c & Hc & _)%bind_Some. by apply elem_of_dom_2 in Hc. Qed.
Lemma array_at_insert h l xs : array_at (<[l := to_cell xs]> h) l = Some xs.
Proof. unfold array_at. rewrite lookup_insert_eq. simpl. apply of_to_cell. Qed.

#[global] Program Instance Slice_Shape : Shape C (Slice T) (list V) := {|
  view h s :=
    xs ← array_at h (array s);
    if decide (offset s + len s <= List.length xs)%nat then view h (window s xs) else None;
  foot h s :=
    {[array s]} ∪ match array_at h (array s) with
                  | Some xs => foot h (window s xs)
                  | None => ∅
                  end;
|}.
Next Obligation.
  intros h h' s vs (xs & Hxs & Hv)%bind_Some Hl; simpl in *. rewrite Hxs in *.
  rewrite (array_at_frame h h' (array s)), Hxs by (apply Hl; set_solver). simpl.
  case_decide; [|done].
  destruct (view_frame h h' (window s xs) vs) as [-> ->]; [done| |done].
  intros l Hl'. apply Hl. set_solver.
Qed.
Next Obligation.
  intros h s vs (xs & Hxs & Hv)%bind_Some; simpl in *. rewrite Hxs in *.
  case_decide; [|done]. pose proof (foot_dom h (window s xs) vs Hv).
  apply array_at_dom in Hxs. set_solver.
Qed.

Definition pointee h (p : Ptr T) : option T := xs ← array_at h (base p); xs !! index p.

Lemma pointee_frame h h' p : h' !! base p = h !! base p -> pointee h' p = pointee h p.
Proof. intros H. unfold pointee. by rewrite (array_at_frame h h'). Qed.
Lemma pointee_dom h p x : pointee h p = Some x -> base p ∈ dom h.
Proof. intros (xs & Hxs & _)%bind_Some. by eapply array_at_dom. Qed.

#[global] Program Instance Ptr_Shape : Shape C (Ptr T) V := {|
  view h p := pointee h p ≫= view h;
  foot h p :=
    {[base p]} ∪ match pointee h p with
                 | Some x => foot h x
                 | None => ∅
                 end;
|}.
Next Obligation.
  intros h h' p v (x & Hx & Hv)%bind_Some Hl; simpl in *. rewrite Hx in *.
  rewrite (pointee_frame h h' p), Hx by (apply Hl; set_solver). simpl.
  destruct (view_frame h h' x v) as [-> ->]; [done| |done].
  intros l Hl'. apply Hl. set_solver.
Qed.
Next Obligation.
  intros h p v (x & Hx & Hv)%bind_Some; simpl in *. rewrite Hx in *.
  pose proof (foot_dom h x v Hv). apply pointee_dom in Hx. set_solver.
Qed.
End References.

(** ** Well-typed heaps *)

Section Heaps.
Context {C : Type} `{!Shape C C ()}.
Implicit Types h : heap C.

(** Every cell of the heap stands for something: no reference in it is
    dangling, ill typed or out of bounds. *)
Definition well_typed h : Prop := forall l c, h !! l = Some c -> view h c = Some ().

(** The cells of [h] outside [D] are well typed and reach nothing in [D]. *)
Definition news (D : gset loc) h : Prop :=
  forall l c, l ∉ D -> h !! l = Some c -> view h c = Some () /\ foot h c ## D.

Lemma news_dom h : news (dom h) h.
Proof. intros l c Hl Hc. apply elem_of_dom_2 in Hc. done. Qed.

Lemma news_trans D h h' :
  D ⊆ dom h -> h ⊆ h' -> news D h -> news (dom h) h' -> news D h'.
Proof.
  intros HD Hh Hn Hn' l c Hl Hc. destruct (h !! l) as [c0|] eqn:H0.
  - pose proof (lookup_weaken _ _ _ _ H0 Hh) as Hc'. simplify_eq.
    destruct (Hn l c Hl H0) as [Hv Hf].
    by destruct (view_mono h h' c () Hh Hv) as [-> ->].
  - apply not_elem_of_dom in H0. destruct (Hn' l c H0 Hc). split; [done|set_solver].
Qed.

Lemma well_typed_news h h' :
  well_typed h -> h ⊆ h' -> news (dom h) h' -> well_typed h'.
Proof.
  intros Hw Hh Hn l c Hc. destruct (h !! l) as [c0|] eqn:H0.
  - pose proof (lookup_weaken _ _ _ _ H0 Hh) as Hc'. simplify_eq.
    by destruct (view_mono h h' c () Hh (Hw l c H0)).
  - apply not_elem_of_dom in H0. by apply (Hn l c).
Qed.

(** [x] stands for [v] and reaches nothing in [D]. *)
Definition owned `{!Shape C T V} (D : gset loc) h (x : T) (v : V) : Prop :=
  view h x = Some v /\ foot h x ## D.

Lemma owned_mono `{!Shape C T V} D h h' (x : T) (v : V) :
  h ⊆ h' -> owned D h x v -> owned D h' x v.
Proof. intros Hh [Hv Hf]. unfold owned. by destruct (view_mono h h' x v Hh Hv) as [-> ->]. Qed.

Lemma owned_Some `{!Shape C T V} D h (x : T) (v : V) :
  owned D h x v -> owned D h (Some x) (Some v).
Proof.
  intros [Hv Hf]. split; [|done]. change (Some <$> view h x = Some (Some v)). by rewrite Hv.
Qed.

Lemma owned_None `{!Shape C T V} D h : owned (V := option V) D h (None : option T) None.
Proof. split; [done|]. change ((∅ : gset loc) ## D). set_solver. Qed.

Lemma owned_pair `{!Shape C A V, !Shape C B W} D h (a : A) (b : B) (v : V) (w : W) :
  owned D h a v -> owned D h b w -> owned D h (a, b) (v, w).
Proof.
  intros [Ha Hfa] [Hb Hfb]. split.
  - change ((v ← view h a; w ← view h b; Some (v, w)) = Some (v, w)).
    rewrite Ha; simpl. by rewrite Hb.
  - change (foot h a ∪ foot h b ## D). set_solver.
Qed.

Lemma owned_flat {A} D h (a : A) : owned D h (flat a) a.
Proof. split; [done|]. change ((∅ : gset loc) ## D). set_solver. Qed.

Lemma owned_via {A} `{!Shape C B V} (fields : A -> B) D h x v :
  owned D h (fields x) v -> owned (Shape1 := Shape_via fields) D h x v.
Proof. done. Qed.

(** [m] succeeds in [h], leaves what is there as it is, and adds only
    well-typed cells that reach nothing in [D]. *)
Definition grows {A} (D : gset loc) h (m : M C A) (Q : heap C -> A -> Prop) : Prop :=
  exists h' a, m h = Some (h', a) /\ h ⊆ h' /\ news D h' /\ Q h' a.

(** The contract of a [DeepCopyInto]: the result stands for what the original
    stands for and reaches only new locations. *)
Definition deep `{!Shape C T V} (copy : T -> M C T) : Prop :=
  forall h x v, view h x = Some v ->
    grows (dom h) h (copy x) (fun h' x' => owned (dom h) h' x' v).

Lemma grows_ret {A} D h (a : A) (Q : heap C -> A -> Prop) :
  news D h -> Q h a -> grows D h (hret a) Q.
Proof. intros. by exists h, a. Qed.

Lemma grows_bind `{!Shape C T V} {B} (copy : T -> M C T) D h0 h x v (k : T -> M C B) Q :
  deep copy -> view h0 x = Some v -> h0 ⊆ h -> D ⊆ dom h -> news D h ->
  (forall h' x', h ⊆ h' -> h0 ⊆ h' -> D ⊆ dom h' -> news D h' -> owned D h' x' v -> grows D h' (k x') Q) ->
  grows D h (hbind (copy x) k) Q.
Proof.
  intros Hcopy Hx H0 HD Hn Hk.
  destruct (view_mono h0 h x v H0 Hx) as [Hx' _].
  destruct (Hcopy h x v Hx') as (h' & x' & Hm & Hh & Hn' & Hv & Hf).
  destruct (Hk h' x') as (h'' & b & Hb & Hh' & Hn'' & HQ).
  - done.
  - by etrans.
  - etrans; [exact HD|by apply subseteq_dom].
  - by apply (news_trans D h).
  - split; [done|set_solver].
  - exists h'', b. unfold hbind. rewrite Hm. split_and!; [done|by etrans|done|done].
Qed.

Lemma deep_ret `{!Shape C T V} : (forall h (x : T), foot h x = ∅) -> deep (T := T) hret.
Proof.
  intros Hf h x v Hx. apply grows_ret; [apply news_dom|]. split; [done|]. rewrite Hf. set_solver.
Qed.

(** [if in != nil { *out = copy(in) }] *)
Definition copy_option {T} (copy : T -> M C T) (in_ : option T) : M C (option T) :=
  match in_ with
  | None => hret None
  | Some x => (x <- copy x ;; hret (Some x))%heap
  end.

Lemma copy_option_deep `{!Shape C T V} (copy : T -> M C T) :
  deep copy -> deep (copy_option copy).
Proof.
  intros Hcopy h [x|] v Hv.
  - apply fmap_Some in Hv as (w & Hw & ->).
    eapply grows_bind; [done|exact Hw|reflexivity|reflexivity|apply news_dom|].
    intros h' x' _ _ _ Hn Hx. by apply grows_ret, owned_Some.
  - injection Hv as <-. apply grows_ret; [apply news_dom|apply owned_None].
Qed.
End Heaps.

(** Closes [h ⊆ h'] from a chain of such facts. *)
Ltac heap_sub :=
  first
    [ reflexivity | assumption
    | match goal with H : ?a ⊆ ?b |- ?a ⊆ _ => transitivity b; [exact H|heap_sub] end ].

(** For a struct's method: its fields are copied one after the other. *)
Create HintDb deep discriminated.
Ltac split_view H :=
  repeat match type of H with
  | view ?h (?a, ?b) = Some ?v =>
      let v1 := fresh "v" in let v2 := fresh "v" in let H1 := fresh "Hview" in
      let H2 := fresh "Hview" in
      apply view_pair in H as (v1 & v2 & -> & H1 & H2); split_view H1
  | view ?h (flat ?a) = Some ?v => apply view_flat in H as ->
  end.
Ltac copy_fields :=
  repeat (eapply grows_bind;
    [ solve [eauto with deep typeclass_instances] | eassumption | heap_sub
    | assumption || reflexivity | assumption || apply news_dom | intros ]).
Ltac owned_fields :=
  repeat first
    [ apply owned_pair | apply owned_flat
    | match goal with H : owned _ ?h ?x _ |- owned _ _ ?x _ =>
        refine (owned_mono _ h _ _ _ _ H); heap_sub end ].
(** [fields] is the struct as a tuple. *)
Ltac deep_struct :=
  let x := fresh "x" in let Hv := fresh "Hv" in
  intros ? x ? Hv; apply view_via in Hv; split_view Hv;
  copy_fields; apply grows_ret; [assumption|]; apply owned_via; simpl; owned_fields.

(** A cell holding an array of [T] is well typed when the array is. *)
Class CellShape (C T V : Type) `{!Cell C T, !Shape C C (), !Shape C T V} := {
  view_cell (h : heap C) (xs : list T) vs : view h xs = Some vs -> view h (to_cell xs) = Some ();
  foot_cell (h : heap C) (xs : list T) : foot h (to_cell xs) = foot h xs;
}.

(** ** Copying slices and pointers *)

Section Copies.
Context {C T V : Type} `{!Cell C T, !Zero T, !Shape C C (), !Shape C T V, !CellShape C T V}.
Implicit Types h : heap C.

(** [if *in != nil { *out = make([]T, len( *in)); for i := range *in { copy(&( *in)[i], &( *out)[i]) } }] *)
Definition copy_each (copy : T -> M C T) (in_ : option (Slice T)) : M C (option (Slice T)) :=
  match in_ with
  | None => hret None
  | Some in_ =>
      (out <- make (len in_) ;;
       range 0 (len in_) (fun i =>
         (p <- at_index in_ i ;; x <- load p ;; x <- copy x ;; q <- at_index out i ;; store q x)) ;;
       hret (Some out))%heap
  end.

(** [if *in != nil { *out = make([]T, len( *in)); copy( *out, *in) }] *)
Definition copy_flat (in_ : option (Slice T)) : M C (option (Slice T)) :=
  match in_ with
  | None => hret None
  | Some in_ =>
      (out <- make (len in_) ;; go_copy out in_ ;; hret (Some out))%heap
  end.

(** [DeepCopy] of a pointer: [if in == nil { return nil }; out := new(T);
    in.DeepCopyInto(out); return out]. *)
Definition copy_ptr (copy : T -> M C T) (in_ : option (Ptr T)) : M C (option (Ptr T)) :=
  match in_ with
  | None => hret None
  | Some in_ =>
      (out <- new ;; x <- load in_ ;; x <- copy x ;; store out x ;; hret (Some out))%heap
  end.

Lemma copy_flat_each in_ h : copy_flat in_ h = copy_each hret in_ h.
Proof.
  destruct in_ as [s|]; [|done]. cbn -[range at_index load store]. unfold go_copy.
  cbn -[range at_index load store]. by rewrite Nat.min_id.
Qed.

Section Loop.
Variables (copy : T -> M C T) (h0 : heap C) (l : loc).
Hypothesis copy_deep : deep copy.
Hypothesis l_new : l ∉ dom h0.

(** The state of the heap while the array at [l] is being filled: [ys] are
    filled in and stand for [vs], the others are [rest]. *)
Definition filling (h : heap C) (ys rest : list T) (vs : list V) : Prop :=
  h0 ⊆ h /\ h !! l = Some (to_cell (ys ++ rest)) /\
  owned ({[l]} ∪ dom h0) h ys vs /\ news ({[l]} ∪ dom h0) h.

Lemma filling_start rest : filling (<[l := to_cell rest]> h0) [] rest [].
Proof.
  assert (h0 ⊆ <[l := to_cell rest]> h0) as Hh
    by (apply insert_subseteq, not_elem_of_dom, l_new).
  split_and!; [done|by rewrite lookup_insert_eq| |].
  - split; [done|]. unfold foot; simpl. set_solver.
  - intros l' c Hl' Hc. rewrite lookup_insert_ne in Hc by set_solver.
    apply elem_of_dom_2 in Hc. set_solver.
Qed.

(** One element: copied, then stored at the next place. *)
Lemma filling_step h ys y rest vs x v :
  filling h ys (y :: rest) vs -> view h0 x = Some v ->
  exists h' x', copy x h = Some (h', x') /\
    h' !! l = Some (to_cell (ys ++ y :: rest)) /\
    filling (<[l := to_cell (ys ++ x' :: rest)]> h') (ys ++ [x']) rest (vs ++ [v]).
Proof.
  intros (H0 & Hl & [Hys Hfys] & Hn) Hx.
  destruct (view_mono h0 h x v H0 Hx) as [Hx' _].
  destruct (copy_deep h x v Hx') as (h' & x' & Hm & Hh & Hn' & Hv & Hf).
  exists h', x'. split; [done|]. split; [by eapply lookup_weaken|].
  assert ({[l]} ∪ dom h0 ⊆ dom h) as HD.
  { apply elem_of_dom_2 in Hl. apply subseteq_dom in H0. set_solver. }
  pose proof (news_trans _ h h' HD Hh Hn Hn') as Hnews.
  destruct (view_mono h h' ys vs Hh Hys) as [Hys' Hfys'].
  assert (h0 ⊆ h') as H0' by (by etrans).
  split_and!.
  - apply map_subseteq_spec. intros l' c Hc.
    rewrite lookup_insert_ne by (intros ->; by apply elem_of_dom_2 in Hc).
    by eapply lookup_weaken.
  - by rewrite lookup_insert_eq, <- app_assoc.
  - assert (owned ({[l]} ∪ dom h0) h' (ys ++ [x']) (vs ++ [v])) as [Hall Hfall].
    { split.
      - unfold view; simpl. apply mapM_Some, Forall2_app; [by apply mapM_Some|].
        by constructor.
      - unfold foot in *; simpl in *. rewrite fmap_app, union_list_app_L. csimpl. set_solver. }
    destruct (view_insert h' (ys ++ [x']) (vs ++ [v]) l (to_cell (ys ++ x' :: rest))) as [Hv' Hf'];
      [done|set_solver|]. split; [done|]. by rewrite Hf'.
  - intros l' c Hl' Hc. rewrite lookup_insert_ne in Hc by set_solver.
    destruct (Hnews l' c Hl' Hc) as [Hc1 Hc2].
    destruct (view_insert h' c () l (to_cell (ys ++ x' :: rest))) as [Hv' Hf'];
      [done|set_solver|]. split; [done|]. by rewrite Hf'.
Qed.

(** The filled array is an owned copy. *)
Lemma filling_end h ys vs :
  filling h ys [] vs ->
  h0 ⊆ h /\ news (dom h0) h /\ array_at h l = Some ys /\ owned (dom h0) h ys vs.
Proof.
  intros (H0 & Hl & [Hys Hf] & Hn). rewrite app_nil_r in Hl. split_and!; [done| | |].
  - intros l' c Hl' Hc. destruct (decide (l' = l)) as [->|Hne].
    + simplify_eq. rewrite foot_cell. split; [by eapply view_cell|set_solver].
    + destruct (Hn l' c) as [Hv Hf']; [set_solver|done|]. split; [done|set_solver].
  - unfold array_at. rewrite Hl. simpl. apply of_to_cell.
  - split; [done|set_solver].
Qed.

Lemma hbind_Some {A B} (m : M C A) (k : A -> M C B) h h' a :
  m h = Some (h', a) -> hbind m k h = k a h'.
Proof. unfold hbind. by intros ->. Qed.

Lemma at_index_lt h (s : Slice T) i :
  (i < len s)%nat -> at_index s i h = Some (h, mk_ptr (array s) (offset s + i)).
Proof. intros. unfold at_index. by rewrite decide_True. Qed.

Lemma pointee_weaken h h' (p : Ptr T) x : h ⊆ h' -> pointee h p = Some x -> pointee h' p = Some x.
Proof.
  intros Hh Hx. rewrite <- Hx. apply pointee_frame. apply pointee_dom, elem_of_dom in Hx as [c Hc].
  by rewrite Hc, (lookup_weaken _ _ _ _ Hc Hh).
Qed.

Lemma load_pointee h (p : Ptr T) x : pointee h p = Some x -> load p h = Some (h, x).
Proof.
  intros (xs & Hxs & Hx)%bind_Some. unfold load, load_array, hbind, array_at in *.
  by rewrite Hxs; simpl; rewrite Hx.
Qed.

Lemma store_next h ys y rest x :
  h !! l = Some (to_cell (ys ++ y :: rest)) ->
  store (mk_ptr l (List.length ys)) x h = Some (<[l := to_cell (ys ++ x :: rest)]> h, ()).
Proof.
  intros Hl. unfold store, load_array, hbind. simpl. rewrite Hl. simpl. rewrite of_to_cell.
  simpl. rewrite list_lookup_middle by done. unfold store_array.
  by rewrite insert_app_r_alt, Nat.sub_diag by done.
Qed.

Lemma filling_range (s : Slice T) xs rest h ys vs ws :
  array_at h0 (array s) = Some xs ->
  (List.length ys + List.length rest = len s)%nat -> (offset s + len s <= List.length xs)%nat ->
  filling h ys rest vs -> view h0 (drop (List.length ys) (window s xs)) = Some ws ->
  exists h' ys',
    range (List.length ys) (List.length rest) (fun i =>
      (p <- at_index s i ;; x <- load p ;; x <- copy x ;;
       q <- at_index (mk_slice l 0 (len s) (len s)) i ;; store q x)%heap) h
      = Some (h', ()) /\
    List.length ys' = len s /\ filling h' ys' [] (vs ++ ws).
Proof.
  intros Hxs Hlen Hbound. revert h ys vs ws Hlen.
  induction rest as [|y rest IH]; intros h ys vs ws Hlen Hfill Hws; simpl in *.
  { exists h, ys. rewrite drop_ge in Hws by (unfold window; rewrite length_take, length_drop; lia).
    unfold view in Hws; simpl in Hws. injection Hws as <-. rewrite app_nil_r.
    split_and!; [done|lia|done]. }
  destruct (lookup_lt_is_Some_2 xs (offset s + List.length ys)) as [x Hx]; [lia|].
  assert (window s xs !! List.length ys = Some x) as Hwx.
  { unfold window. rewrite lookup_take_lt by lia. by rewrite lookup_drop. }
  rewrite (drop_S _ x _ Hwx) in Hws. apply view_cons in Hws as (v & ws' & -> & Hv & Hws').
  destruct (filling_step h ys y rest vs x v Hfill Hv) as (h' & x' & Hcopy & Hl & Hfill').
  destruct (IH (<[l := to_cell (ys ++ x' :: rest)]> h') (ys ++ [x']) (vs ++ [v]) ws')
    as (h2 & ys2 & Hrange & Hlen2 & Hfill2).
  - rewrite length_app; simpl; lia.
  - done.
  - rewrite length_app; simpl. by rewrite Nat.add_1_r.
  - exists h2, ys2. split_and!; [|done|by rewrite <- app_assoc in Hfill2].
    rewrite length_app, Nat.add_1_r in Hrange. etrans; [|exact Hrange].
    simpl. erewrite (hbind_Some _ _ h (<[l := to_cell (ys ++ x' :: rest)]> h') ()); [done|].
    assert (pointee h (mk_ptr (array s) (offset s + List.length ys)) = Some x) as Hp.
    { apply (pointee_weaken h0); [by destruct Hfill|]. unfold pointee. simpl. by rewrite Hxs. }
    erewrite hbind_Some by (apply at_index_lt; lia).
    erewrite hbind_Some by (by apply load_pointee).
    erewrite hbind_Some by done.
    erewrite hbind_Some by (apply at_index_lt; simpl; lia).
    by apply (store_next h' ys y rest x').
Qed.
End Loop.

Lemma owned_array D h l ys vs n :
  array_at h l = Some ys -> l ∉ D -> List.length ys = n -> owned D h ys vs ->
  owned D h (mk_slice l 0 n n : Slice T) vs.
Proof.
  intros Hl HD <- [Hv Hf]. unfold owned, view, foot; simpl. rewrite Hl. simpl.
  unfold window; simpl. rewrite drop_0, firstn_all. rewrite decide_True by lia.
  split; [done|set_solver].
Qed.

Lemma alloc_new h (c : C) : fresh (dom h) ∉ dom h /\ alloc c h = Some (<[fresh (dom h) := c]> h, fresh (dom h)).
Proof. split; [apply is_fresh|done]. Qed.

Lemma copy_each_deep copy : deep copy -> deep (copy_each copy).
Proof.
  intros Hcopy h [s|] v Hv; [|injection Hv as <-; by apply grows_ret; [apply news_dom|apply owned_None]].
  apply fmap_Some in Hv as (vs & (xs & Hxs & Hvs)%bind_Some & ->).
  case_decide as Hbound; [|done].
  destruct (alloc_new h (to_cell (replicate (len s) (zero : T)))) as [Hnew Halloc].
  set (l := fresh (dom h)) in *.
  destruct (filling_range copy h l Hcopy Hnew s xs (replicate (len s) zero)
              (<[l := to_cell (replicate (len s) (zero : T))]> h) [] [] vs Hxs)
    as (h' & ys & Hrange & Hlen & Hfill).
  - by rewrite length_replicate.
  - done.
  - by apply (filling_start copy h l Hcopy).
  - done.
  - apply (filling_end copy h l Hcopy Hnew) in Hfill as (Hh & Hn & Hl & Hown).
    exists h', (Some (mk_slice l 0 (len s) (len s))). split_and!; [|done|done|].
    + rewrite length_replicate in Hrange. unfold copy_each.
      erewrite hbind_Some by done. by erewrite hbind_Some by done.
    + by apply owned_Some, (owned_array (dom h) h' l ys).
Qed.

Lemma copy_flat_deep : (forall h (x : T), foot h x = ∅) -> deep copy_flat.
Proof.
  intros Hf h x v Hv. unfold grows. setoid_rewrite copy_flat_each.
  by apply (copy_each_deep hret (deep_ret Hf)).
Qed.

Lemma copy_ptr_deep copy : deep copy -> deep (copy_ptr copy).
Proof.
  intros Hcopy h [p|] v Hv; [|injection Hv as <-; by apply grows_ret; [apply news_dom|apply owned_None]].
  apply fmap_Some in Hv as (w & (x & Hx & Hw)%bind_Some & ->).
  destruct (alloc_new h (to_cell [zero : T])) as [Hnew Halloc]. set (l := fresh (dom h)) in *.
  pose proof (filling_start copy h l Hcopy Hnew [zero : T]) as Hstart.
  destruct (filling_step copy h l Hcopy Hnew _ [] zero [] [] x w Hstart Hw)
    as (h' & x' & Hm & Hl & Hfill).
  apply (filling_end copy h l Hcopy Hnew) in Hfill as (Hh & Hn & Harr & [Hys Hfoot]).
  exists (<[l := to_cell [x']]> h'), (Some (mk_ptr l 0)). split_and!; [|done|done|].
  - unfold copy_ptr. erewrite hbind_Some by done.
    erewrite hbind_Some by (by apply load_pointee, (pointee_weaken h); [apply Hstart|]).
    erewrite hbind_Some by done. by erewrite hbind_Some by (by apply (store_next l h' [] zero [] x')).
  - apply view_cons in Hys as (w' & ? & ? & Hw' & _). simplify_eq/=. apply owned_Some.
    assert (pointee (<[l := to_cell [x']]> h') (mk_ptr l 0) = Some x') as Hp
      by (unfold pointee; simpl; rewrite array_at_insert; done).
    change (foot (<[l := to_cell [x']]> h') x' ∪ ∅ ## dom h) in Hfoot.
    split; unfold view, foot; simpl; rewrite Hp; simpl; [by rewrite Hw'|set_solver].
Qed.
End Copies.
