(* ===== verification/GoProg.v ===== *)
(** * GoProg: Go programs as trees of calls to their environment

    A Go function that talks to the outside (the API servers, the file system,
    Helm, the clock) is a value of [prog A]: it either returns or issues one
    [action] and continues with the environment's answer.  [bind], [defer] and
    [for_range] are Go's sequencing, [defer] and [for ... range] with early
    [return].  The semantics is by traces: [runs p t a] says that [p], answered
    as the trace [t] records, returns [a]; [issues p t c] that after the answers
    [t] the next action of [p] is [c].  [exec] runs a program against an
    executable handler. *)
From S2P Require Import Prelude.

(** The interface between a program and its environment: what can be asked and
    the type of the answer to each question. *)
Class Signature := {
  action : Type;
  result : action -> Type;
}.

Section Prog.
Context `{Sig : Signature}.

Inductive prog (A : Type) : Type :=
| ret (a : A)
| act (c : action) (k : result c -> prog A).
#[global] Arguments ret {A} a.
#[global] Arguments act {A} c k.

Fixpoint bind {A B} (p : prog A) (f : A -> prog B) : prog B :=
  match p with
  | ret a => f a
  | act c k => act c (fun r => bind (k r) f)
  end.

(** One call to the environment. *)
Definition call (c : action) : prog (result c) := act c ret.

(** Go's [defer]: [cleanup] runs when the function whose remaining body is
    [body] returns; nested [defer]s therefore run last in, first out. *)
Definition defer {A} (cleanup : prog unit) (body : prog A) : prog A :=
  bind body (fun a => bind cleanup (fun _ => ret a)).

(** How one iteration of a [for] loop ends: with the next value of the loop's
    variables ([continue] or the end of the body), or with the enclosing
    function's [return]. *)
Inductive flow (S R : Type) : Type :=
| Next (s : S)
| Return (r : R).
#[global] Arguments Next {S R} s.
#[global] Arguments Return {S R} r.

Fixpoint for_range {X S R} (l : list X) (s : S)
    (body : X -> S -> prog (flow S R)) : prog (flow S R) :=
  match l with
  | [] => ret (Next s)
  | x :: l' =>
      bind (body x s) (fun o =>
        match o with
        | Next s' => for_range l' s' body
        | Return r => ret (Return r)
        end)
  end.

(** ** Traces *)

(** One call and its answer. *)
Record event := Ev { ev_action : action; ev_result : result ev_action }.

Fixpoint runs {A} (p : prog A) (t : list event) (a : A) : Prop :=
  match p with
  | ret a' => t = [] /\ a = a'
  | act c k => exists r t', t = Ev c r :: t' /\ runs (k r) t' a
  end.

Fixpoint issues {A} (p : prog A) (t : list event) (c : action) : Prop :=
  match p with
  | ret _ => False
  | act c' k =>
      (t = [] /\ c = c') \/ exists r t', t = Ev c' r :: t' /\ issues (k r) t' c
  end.

(** The calls [p] may issue, whatever the environment answers. *)
Fixpoint within {A} (K : action -> Prop) (p : prog A) : Prop :=
  match p with
  | ret _ => True
  | act c k => K c /\ forall r, within K (k r)
  end.

Lemma runs_bind {A B} (p : prog A) (f : A -> prog B) t b :
  runs (bind p f) t b <->
  exists t1 a t2, t = t1 ++ t2 /\ runs p t1 a /\ runs (f a) t2 b.
Proof.
  revert t. induction p as [a|c k IH]; intros t; simpl.
  - split; [by exists [], a, t|]. intros (t1 & a' & t2 & -> & [-> ->] & H). done.
  - split.
    + intros (r & t' & -> & (t1 & a & t2 & -> & H1 & H2)%IH).
      exists (Ev c r :: t1), a, t2. split_and!; [done| |done]. by exists r, t1.
    + intros (t1 & a & t2 & -> & (r & t' & -> & H1) & H2).
      exists r, (t' ++ t2). split; [done|]. apply IH. by exists t', a, t2.
Qed.

Lemma issues_bind {A B} (p : prog A) (f : A -> prog B) t c :
  issues (bind p f) t c <->
  issues p t c \/
  exists t1 a t2, t = t1 ++ t2 /\ runs p t1 a /\ issues (f a) t2 c.
Proof.
  revert t. induction p as [a|c' k IH]; intros t; simpl.
  - split; [intros H; right; by exists [], a, t|].
    intros [[]|(t1 & a' & t2 & -> & [-> ->] & H)]. done.
  - split.
    + intros [?|(r & t' & -> & [H|(t1 & a & t2 & -> & H1 & H2)]%IH)].
      * by left; left.
      * left; right. by exists r, t'.
      * right. exists (Ev c' r :: t1), a, t2. split_and!; [done| |done].
        by exists r, t1.
    + intros [[?|(r & t' & -> & H)]|(t1 & a & t2 & -> & (r & t' & -> & H1) & H2)].
      * by left.
      * right. exists r, t'. split; [done|]. apply IH. by left.
      * right. exists r, (t' ++ t2). split; [done|]. apply IH. right.
        by exists t', a, t2.
Qed.

Lemma within_bind {A B} K (p : prog A) (f : A -> prog B) :
  within K p -> (forall a, within K (f a)) -> within K (bind p f).
Proof. induction p; simpl; naive_solver. Qed.

Lemma within_weaken {A} (K K' : action -> Prop) (p : prog A) :
  (forall c, K c -> K' c) -> within K p -> within K' p.
Proof. intros HK. induction p; simpl; naive_solver. Qed.

Lemma within_defer {A} K (c : prog unit) (p : prog A) :
  within K c -> within K p -> within K (defer c p).
Proof.
  intros Hc Hp. apply within_bind; [done|]. intros a.
  by apply within_bind; [|intros []].
Qed.

Lemma within_for_range {X S R} K (l : list X) (s : S)
    (body : X -> S -> prog (flow S R)) :
  (forall x s, within K (body x s)) -> within K (for_range l s body).
Proof.
  intros Hb. revert s. induction l as [|x l IH]; intros s; simpl; [done|].
  apply within_bind; [done|]. intros [s'|r]; [apply IH|done].
Qed.

Lemma within_issues {A} K (p : prog A) t c : within K p -> issues p t c -> K c.
Proof.
  revert t. induction p as [a|c' k IH]; intros t; simpl; [done|].
  intros [HK Hw] [[-> ->]|(r & t' & -> & H)]; [done|]. by apply (IH r t').
Qed.

Lemma within_runs {A} K (p : prog A) t a :
  within K p -> runs p t a -> Forall (fun e => K (ev_action e)) t.
Proof.
  revert t. induction p as [a'|c' k IH]; intros t; simpl.
  - intros _ [-> _]. constructor.
  - intros [HK Hw] (r & t' & -> & H). constructor; [done|]. by apply (IH r t').
Qed.

(** Every call recorded in a complete run was issued at its place. *)
Lemma runs_issues {A} (p : prog A) t1 e t2 a :
  runs p (t1 ++ e :: t2) a -> issues p t1 (ev_action e).
Proof.
  revert t1. induction p as [a'|c' k IH]; intros t1; simpl.
  - intros [H _]. by destruct t1.
  - intros (r & t' & Ht & H). destruct t1 as [|e1 t1]; simplify_eq/=.
    + by left.
    + right. exists r, (t1). split; [done|]. exact (IH r (t1) H).
Qed.

(** ** Executable environments *)

Section Exec.
Context {W : Type} (handler : forall c : action, W -> result c * W).

Fixpoint exec {A} (p : prog A) (w : W) : A * list event * W :=
  match p with
  | ret a => (a, [], w)
  | act c k =>
      let '(r, w1) := handler c w in
      let '(a, t, w2) := exec (k r) w1 in
      (a, Ev c r :: t, w2)
  end.

Lemma exec_runs {A} (p : prog A) w a t w' :
  exec p w = (a, t, w') -> runs p t a.
Proof.
  revert w a t w'. induction p as [a'|c k IH]; intros w a t w'; simpl.
  - intros [= <- <- <-]. done.
  - destruct (handler c w) as [r w1]. destruct (exec (k r) w1) as [[a1 t1] w2] eqn:E.
    intros [= <- <- <-]. exists r, t1. eauto.
Qed.
End Exec.

(** The [n]-th call of an execution was issued after the [n] calls before it. *)
Lemma exec_issues {W A} (handler : forall c : action, W -> result c * W)
    (p : prog A) w a t w' n e :
  exec handler p w = (a, t, w') -> t !! n = Some e -> issues p (take n t) (ev_action e).
Proof.
  intros H Hn. apply exec_runs in H. apply take_drop_middle in Hn.
  rewrite <- Hn in H. by eapply runs_issues.
Qed.

(** ** Environments with a state

    [step w c r w']: in state [w] the environment may answer [c] with [r] and
    move to [w'].  [steps] plays a whole trace. *)
Section Steps.
Context {W : Type} (step : W -> forall c : action, result c -> W -> Prop).

Fixpoint steps (w : W) (t : list event) (w' : W) : Prop :=
  match t with
  | [] => w' = w
  | e :: t' => exists w1, step w (ev_action e) (ev_result e) w1 /\ steps w1 t' w'
  end.

Lemma steps_app w t1 t2 w' :
  steps w (t1 ++ t2) w' <-> exists w1, steps w t1 w1 /\ steps w1 t2 w'.
Proof.
  revert w. induction t1 as [|e t1 IH]; intros w; simpl.
  - split; [intros H; by exists w|]. by intros (w1 & -> & H2).
  - split.
    + intros (w1 & H1 & (w2 & H2 & H3)%IH). exists w2. split; [by exists w1|done].
    + intros (w2 & (w1 & H1 & H2) & H3). exists w1. split; [done|]. apply IH. by exists w2.
Qed.
End Steps.

Lemma exec_steps {W A} (handler : forall c : action, W -> result c * W)
    (p : prog A) w a t w' :
  exec handler p w = (a, t, w') ->
  steps (fun w c r w1 => handler c w = (r, w1)) w t w'.
Proof.
  revert w a t w'. induction p as [a'|c k IH]; intros w a t w'; simpl.
  - intros [= <- <- <-]. constructor.
  - destruct (handler c w) as [r w1] eqn:Eh.
    destruct (exec handler (k r) w1) as [[a1 t1] w2] eqn:E.
    intros [= <- <- <-]. exists w1. split; [done|]. by eapply IH.
Qed.
End Prog.

#[global] Arguments steps {_ _} step.
#[global] Arguments call : simpl never.
#[global] Arguments defer : simpl never.

Notation "x <- p ;; k" := (bind p (fun x => k))
  (at level 100, p at next level, right associativity) : go_scope.
(** [x, err := p; if err != nil { return h }; k]. *)
Notation "x <- p 'orelse' e => h ;; k" :=
  (bind p (fun r => match r with inl e => h | inr x => k end))
  (at level 100, p at next level, e binder, h at next level, right associativity) : go_scope.
(** [if err := p; err != nil { return h }; k]. *)
Notation "'check' p 'orelse' e => h ;; k" :=
  (bind p (fun r => match r with Some e => h | None => k end))
  (at level 100, p at next level, e binder, h at next level, right associativity) : go_scope.

(** ** Reading traces *)

Section Reading.
Context `{Sig : Signature}.

Lemma runs_ret {A} (a b : A) t : runs (ret a) t b <-> t = [] /\ b = a.
Proof. done. Qed.
Lemma runs_call c t a : runs (call c) t a <-> t = [Ev c a].
Proof.
  unfold call. simpl. split; [by intros (r & t' & -> & -> & ->)|].
  intros ->. by exists a, [].
Qed.
Lemma issues_ret {A} (a : A) t c : issues (ret a) t c <-> False.
Proof. done. Qed.
Lemma issues_call c t c' : issues (call c) t c' <-> t = [] /\ c' = c.
Proof. unfold call. simpl. split; [|by left]. intros [?|(r & t' & _ & [])]. done. Qed.

Lemma runs_defer {A} (cl : prog unit) (p : prog A) t a :
  runs (defer cl p) t a <->
  exists t1 t2, t = t1 ++ t2 /\ runs p t1 a /\ runs cl t2 tt.
Proof.
  unfold defer. rewrite runs_bind. split.
  - intros (t1 & a' & t2 & -> & H1 & (t3 & [] & t4 & -> & H3 & [-> ->])%runs_bind).
    exists t1, t3. by rewrite app_nil_r.
  - intros (t1 & t2 & -> & H1 & H2). exists t1, a, t2. split_and!; [done..|].
    apply runs_bind. exists t2, tt, []. by rewrite app_nil_r.
Qed.

Lemma issues_defer {A} (cl : prog unit) (p : prog A) t c :
  issues (defer cl p) t c <->
  issues p t c \/ exists t1 a t2, t = t1 ++ t2 /\ runs p t1 a /\ issues cl t2 c.
Proof.
  unfold defer. rewrite issues_bind. split; (intros [H|H]; [by left|right]).
  - destruct H as (t1 & a & t2 & -> & H1 & [H2|(t3 & [] & t4 & _ & _ & [])]%issues_bind).
    by exists t1, a, t2.
  - destruct H as (t1 & a & t2 & -> & H1 & H2). exists t1, a, t2. split_and!; [done..|].
    apply issues_bind. by left.
Qed.

(** A loop issues a call in some iteration, after complete iterations. *)
Lemma issues_for_range {X S R} (l : list X) (s : S)
    (body : X -> S -> prog (flow S R)) t c :
  issues (for_range l s body) t c ->
  exists l1 x l2 t1 s1 t2, l = l1 ++ x :: l2 /\ t = t1 ++ t2 /\
    runs (for_range l1 s body) t1 (Next s1) /\ issues (body x s1) t2 c.
Proof.
  revert s t. induction l as [|x l IH]; intros s t; simpl; [done|].
  intros [H|(t1 & [s'|r] & t2 & -> & H1 & H2)]%issues_bind.
  - by exists [], x, l, [], s, t.
  - destruct (IH _ _ H2) as (l1 & y & l2 & t3 & s1 & t4 & -> & -> & H3 & H4).
    exists (x :: l1), y, l2, (t1 ++ t3), s1, t4. rewrite <- app_assoc.
    split_and!; [done..| |done]. simpl. apply runs_bind. by exists t1, (Next s'), t3.
  - done.
Qed.

(** A loop that runs to its end ran every iteration. *)
Lemma runs_for_range_Next {X S R} (l : list X) (s s' : S)
    (body : X -> S -> prog (flow S R)) t x :
  runs (for_range l s body) t (Next s') -> In x l ->
  exists t1 t2 t3 s1 s2, t = t1 ++ t2 ++ t3 /\ runs (body x s1) t2 (Next s2).
Proof.
  revert s t. induction l as [|y l IH]; intros s t; simpl; [done|].
  intros (t1 & [s1|r] & t2 & -> & H1 & H2)%runs_bind.
  - intros [->|Hx].
    + by exists [], t1, t2, s, s1.
    + destruct (IH _ _ H2 Hx) as (t3 & t4 & t5 & s2 & s3 & -> & H3).
      exists (t1 ++ t3), t4, t5, s2, s3. by rewrite <- app_assoc.
  - by apply runs_ret in H2 as [_ ?].
Qed.

(** A loop that returns early does so in some iteration, after complete ones. *)
Lemma runs_for_range_Return {X S R} (l : list X) (s : S) (r : R)
    (body : X -> S -> prog (flow S R)) t :
  runs (for_range l s body) t (Return r) ->
  exists l1 x l2 t1 s1 t2, l = l1 ++ x :: l2 /\ t = t1 ++ t2 /\
    runs (for_range l1 s body) t1 (Next s1) /\ runs (body x s1) t2 (Return r).
Proof.
  revert s t. induction l as [|x l IH]; intros s t; simpl; [by intros [_ ?]|].
  intros (t1 & [s'|r'] & t2 & -> & H1 & H2)%runs_bind.
  - destruct (IH _ _ H2) as (l1 & y & l2 & t3 & s1 & t4 & -> & -> & H3 & H4).
    exists (x :: l1), y, l2, (t1 ++ t3), s1, t4. rewrite <- app_assoc.
    split_and!; [done..| |done]. simpl. apply runs_bind. by exists t1, (Next s'), t3.
  - apply runs_ret in H2 as [-> [= ->]]. exists [], x, l, [], s, t1.
    by rewrite app_nil_r.
Qed.
End Reading.

(** [run_inv] decomposes the hypotheses [runs p t a] along the structure of
    [p]; matches on answers are split. *)
Ltac run_step :=
  match goal with
  | H : runs (ret _) _ _ |- _ => apply runs_ret in H; destruct H; subst
  | H : runs (call ?c) ?t ?a |- _ =>
      let E := fresh in pose proof (proj1 (runs_call c t a) H) as E; clear H; subst
  | H : runs (bind _ _) _ _ |- _ =>
      apply runs_bind in H;
      let t1 := fresh "t" in let a := fresh "a" in let t2 := fresh "t" in
      let Ht := fresh "Ht" in let H1 := fresh "Hr" in let H2 := fresh "Hr" in
      destruct H as (t1 & a & t2 & Ht & H1 & H2); subst
  | H : runs (defer _ _) _ _ |- _ =>
      apply runs_defer in H;
      let t1 := fresh "t" in let t2 := fresh "t" in
      let Ht := fresh "Ht" in let H1 := fresh "Hr" in let H2 := fresh "Hr" in
      destruct H as (t1 & t2 & Ht & H1 & H2); subst
  | H : runs (match ?x with _ => _ end) _ _ |- _ => destruct x eqn:?
  end; simplify_eq.
Ltac run_inv := repeat run_step.

(** The same for [issues p t c]. *)
Ltac issue_step :=
  match goal with
  | H : issues (ret _) _ _ |- _ => by apply issues_ret in H
  | H : issues (call ?c) ?t ?c' |- _ =>
      let E := fresh in pose proof (proj1 (issues_call c t c') H) as E; clear H; destruct E; subst
  | H : issues (bind _ _) _ _ |- _ =>
      apply issues_bind in H;
      let t1 := fresh "t" in let a := fresh "a" in let t2 := fresh "t" in
      let Ht := fresh "Ht" in let H1 := fresh "Hr" in let H2 := fresh "Hi" in
      destruct H as [H|(t1 & a & t2 & Ht & H1 & H2)]; subst
  | H : issues (defer _ _) _ _ |- _ =>
      apply issues_defer in H;
      let t1 := fresh "t" in let a := fresh "a" in let t2 := fresh "t" in
      let Ht := fresh "Ht" in let H1 := fresh "Hr" in let H2 := fresh "Hi" in
      destruct H as [H|(t1 & a & t2 & Ht & H1 & H2)]; subst
  | H : issues (match ?x with _ => _ end) _ _ |- _ => destruct x eqn:?
  end; simplify_eq.

(** Footprints: [within_tac] walks the program, leaving the leaves to [auto]
    with the database [within]. *)
Create HintDb within.
Ltac within_tac :=
  repeat (cbv zeta; first
    [ assumption
    | solve [auto with within nocore]
    | apply within_bind; [|intros ?]
    | apply within_defer
    | apply within_for_range; intros ? ?
    | match goal with
      | |- within _ (match ?x with _ => _ end) => destruct x
      | |- within _ _ => progress simpl
      | |- _ /\ _ => split
      | |- forall _, _ => intros ?
      | |- True => exact I
      end ]).

(** ** Equivalence of programs

    Two programs are equivalent when they have the same complete runs. *)

#[export] Instance prog_equiv `{Sig : Signature} {A} : Equiv (prog A) :=
  fun p q => forall t a, runs p t a <-> runs q t a.

#[export] Instance prog_equivalence `{Sig : Signature} {A} : Equivalence (≡@{prog A}).
Proof.
  split.
  - by intros p t a.
  - intros p q H t a. by rewrite (H t a).
  - intros p q r H1 H2 t a. by rewrite (H1 t a), (H2 t a).
Qed.

#[export] Instance bind_proper `{Sig : Signature} {A B} :
  Proper ((≡@{prog A}) ==> pointwise_relation A (≡) ==> (≡@{prog B})) bind.
Proof.
  intros p q Hp f g Hf t b. rewrite !runs_bind. split;
    intros (t1 & a & t2 & -> & H1 & H2); exists t1, a, t2; split_and!; try done;
    first [by apply Hp | by apply Hf].
Qed.

#[export] Instance defer_proper `{Sig : Signature} {A} :
  Proper ((≡@{prog unit}) ==> (≡@{prog A}) ==> (≡)) defer.
Proof.
  intros c d Hc p q Hp. unfold defer. apply bind_proper; [done|]. intros a.
  apply bind_proper; [done|]. by intros [].
Qed.

#[export] Instance runs_proper `{Sig : Signature} {A} :
  Proper ((≡@{prog A}) ==> eq ==> eq ==> iff) runs.
Proof. intros p q Hp t ? <- a ? <-. apply Hp. Qed.

Lemma bind_assoc `{Sig : Signature} {A B C} (p : prog A) (f : A -> prog B) (g : B -> prog C) :
  bind (bind p f) g ≡ bind p (fun a => bind (f a) g).
Proof.
  intros t c. rewrite !runs_bind. split.
  - intros (t1 & b & t2 & -> & (t3 & a & t4 & -> & H1 & H2)%runs_bind & H3).
    exists t3, a, (t4 ++ t2). rewrite <- app_assoc. split_and!; [done..|].
    apply runs_bind. by exists t4, b, t2.
  - intros (t1 & a & t2 & -> & H1 & (t3 & b & t4 & -> & H2 & H3)%runs_bind).
    exists (t1 ++ t3), b, t4. rewrite <- app_assoc. split_and!; [done| |done].
    apply runs_bind. by exists t1, a, t3.
Qed.
