(* ===== verification/GoError.v ===== *)
(** * GoError: Go error values

    An error is one a library outside the program made, a fresh one
    ([fmt.Errorf] or [errors.New] without [%w]), or one the program wrapped with
    [fmt.Errorf("prefix: %w", err)]. *)
From S2P Require Import Prelude.

(** The errors of the libraries: opaque values with a message. *)
Class ForeignErrors := {
  ext_error : Type;
  ext_message : ext_error -> string;
}.

Section Errors.
Context `{FE : ForeignErrors}.

Inductive error : Type :=
| Foreign (e : ext_error)
| New (msg : string)
| Wrap (prefix : string) (e : error).

(** [err.Error()] *)
Fixpoint Error (e : error) : string :=
  match e with
  | Foreign e => ext_message e
  | New msg => msg
  | Wrap prefix e => prefix +:+ ": " +:+ Error e
  end.

(** [errors.Unwrap] down to the innermost error. *)
Fixpoint cause (e : error) : error :=
  match e with Wrap _ e => cause e | _ => e end.

(** The [fmt.Errorf] prefixes, outermost first. *)
Fixpoint prefixes (e : error) : list string :=
  match e with Wrap p e => p :: prefixes e | _ => [] end.

(** The message is the prefixes, in order, before the cause's message. *)
Lemma Error_prefixes e :
  Error e = foldr (fun p m => p +:+ ": " +:+ m) (Error (cause e)) (prefixes e).
Proof. induction e as [e|m|p e IH]; simpl; [done..|by rewrite <- IH]. Qed.
End Errors.
