(* ===== verification/ApiTypes.v ===== *)
(** * ApiTypes: the API objects of api/v1alpha1

    The two custom resources (kubewardenaddon_types.go, kubewardenpolicy_types.go)
    with their accessors, the condition constants (condition_consts.go), and the
    shapes of the Kubernetes, Cluster API and Kubewarden objects the program
    reads or writes.  Go's struct embedding is a coercion, so [Name c] is
    [c.Name].  Fields of library objects that the program neither reads nor
    writes are left out. *)
From S2P Require Import Prelude.

(** ** Library shapes: apimachinery *)

(** Instants, in nanoseconds since Go's zero [time.Time]. *)
Definition Time := Z.
Definition Time_IsZero (t : option Time) : bool :=
  match t with None => true | Some t => Z.eqb t 0 end.

Record NamespacedName := { nn_Namespace : string; nn_Name : string }.
#[export] Instance NamespacedName_eq_dec : EqDecision NamespacedName.
Proof. solve_decision. Defined.
#[export] Instance NamespacedName_countable : Countable NamespacedName.
Proof.
  refine (inj_countable' (fun k => (nn_Namespace k, nn_Name k))
            (fun p => {| nn_Namespace := p.1; nn_Name := p.2 |}) _).
  by intros [].
Defined.

Record TypeMeta := { Kind : string; APIVersion : string }.

(** [Annotations = None] is Go's nil map. *)
Record ObjectMeta := {
  Name : string;
  Namespace : string;
  Labels : gmap string string;
  Annotations : option (gmap string string);
  DeletionTimestamp : option Time;
}.

Record LabelSelectorRequirement := {
  req_Key : string;
  req_Operator : string;
  req_Values : list string;
}.
Record LabelSelector := {
  MatchLabels : gmap string string;
  MatchExpressions : list LabelSelectorRequirement;
}.

Record ObjectReference := {
  ref_Kind : string;
  ref_APIVersion : string;
  ref_Name : string;
  ref_Namespace : string;
}.

(** [runtime.RawExtension]: the undecoded bytes. *)
Record RawExtension := { Raw : string }.

(** ** Library shapes: Cluster API v1beta1 *)

Record Condition := {
  cond_Type : string;
  cond_Status : string;
  cond_Reason : string;
  cond_Message : string;
}.

Record ClusterStatus := {
  ControlPlaneReady : bool;
  Cluster_Conditions : list Condition;
}.
Record Cluster := {
  Cluster_TypeMeta :> TypeMeta;
  Cluster_ObjectMeta :> ObjectMeta;
  Cluster_Status : ClusterStatus;
}.

Definition GetAnnotations (m : ObjectMeta) : option (gmap string string) := Annotations m.

(** [client.ObjectKeyFromObject]. *)
Definition ObjectKeyFromObject (m : ObjectMeta) : NamespacedName :=
  {| nn_Namespace := Namespace m; nn_Name := Name m |}.

(** ** condition_consts.go *)

Definition KubewardenAddonSpecsUpToDateCondition : string := "KubewardenAddonSpecsUpToDate".
Definition KubewardenAddonSpecsUpdatingReason : string := "KubewardenAddonSpecsUpdating".
Definition KubewardenAddonCreationFailedReason : string := "KubewardenAddonCreationFailed".
Definition KubewardenAddonDeletionFailedReason : string := "KubewardenAddonDeletionFailed".
Definition KubewardenAddonReinstallingReason : string := "KubewardenAddonReinstalling".
Definition ClusterSelectionFailedReason : string := "ClusterSelectionFailed".
Definition KubewardenAddonsReadyCondition : string := "KubewardenAddonReady".
Definition KubewardenPolicyReadyCondition : string := "KubewardenPolicyReady".
Definition KubewardenPolicyDeploymentFailedReason : string := "KubewardenPolicyDeploymentFailed".
Definition KubewardenPolicyDeletionFailedReason : string := "KubewardenPolicyDeletionFailed".
Definition KubewardenNotInstalledReason : string := "KubewardenNotInstalled".
Definition PolicyNotActiveReason : string := "PolicyNotActive".

(** The loop that [SetMatchingClusters] of both resources runs: one reference
    appended per cluster. *)
Definition matchingClusters (clusterList : list Cluster) : list ObjectReference :=
  fold_left (fun refs (cluster : Cluster) =>
    refs ++ [{| ref_Kind := Kind cluster;
                ref_APIVersion := APIVersion cluster;
                ref_Name := Name cluster;
                ref_Namespace := Namespace cluster |}]) clusterList [].

(** ** kubewardenaddon_types.go *)

Record ResourceRequirements := { CPU : string; Memory : string }.
Record PolicyServerConfig := {
  Resources : ResourceRequirements;
  (** [int32] *)
  Replicas : Z;
}.

Module Addon.
Record KubewardenAddonSpec := {
  ClusterSelector : LabelSelector;
  Version : string;
  ImageRepository : string;
  Spec_PolicyServerConfig : PolicyServerConfig;
}.
Record KubewardenAddonStatus := {
  Ready : bool;
  Conditions : list Condition;
  MatchingClusters : list ObjectReference;
}.
Record KubewardenAddon := {
  Addon_TypeMeta :> TypeMeta;
  Addon_ObjectMeta :> ObjectMeta;
  Spec : KubewardenAddonSpec;
  Status : KubewardenAddonStatus;
}.
Record KubewardenAddonList := { Items : list KubewardenAddon }.

Definition with_Status (a : KubewardenAddon) (s : KubewardenAddonStatus) : KubewardenAddon :=
  {| Addon_TypeMeta := a; Addon_ObjectMeta := a; Spec := Spec a; Status := s |}.
Definition with_Spec (a : KubewardenAddon) (s : KubewardenAddonSpec) : KubewardenAddon :=
  {| Addon_TypeMeta := a; Addon_ObjectMeta := a; Spec := s; Status := Status a |}.

(** [c.Status.Ready = ready] *)
Definition SetReady (c : KubewardenAddon) (ready : bool) : KubewardenAddon :=
  with_Status c {| Ready := ready;
                   Conditions := Conditions (Status c);
                   MatchingClusters := MatchingClusters (Status c) |}.

Definition GetConditions (c : KubewardenAddon) : list Condition := Conditions (Status c).
Definition SetConditions (c : KubewardenAddon) (conditions : list Condition) : KubewardenAddon :=
  with_Status c {| Ready := Ready (Status c);
                   Conditions := conditions;
                   MatchingClusters := MatchingClusters (Status c) |}.
Definition SetMatchingClusters (c : KubewardenAddon) (clusterList : list Cluster) : KubewardenAddon :=
  with_Status c {| Ready := Ready (Status c);
                   Conditions := Conditions (Status c);
                   MatchingClusters := matchingClusters clusterList |}.
End Addon.

(** ** kubewardenpolicy_types.go *)

Module Policy.
Record PolicyRule := {
  APIGroups : list string;
  APIVersions : list string;
  Resources : list string;
  Operations : list string;
  Scope : string;
}.
Record MatchCondition := { mc_Name : string; mc_Expression : string }.
Record KubewardenPolicySpec := {
  ClusterSelector : LabelSelector;
  PolicyType : string;
  PolicyName : string;
  TargetNamespace : string;
  PolicyServer : string;
  Module_ : string;
  Rules : list PolicyRule;
  Mutating : bool;
  Settings : RawExtension;
  FailurePolicy : string;
  MatchConditions : list MatchCondition;
}.
Record DeployedPolicyStatus := {
  dp_ClusterName : string;
  dp_ClusterNamespace : string;
  dp_PolicyName : string;
  dp_PolicyType : string;
  dp_Active : bool;
  dp_LastTransitionTime : option Time;
  dp_Message : string;
}.
Record KubewardenPolicyStatus := {
  Ready : bool;
  Conditions : list Condition;
  MatchingClusters : list ObjectReference;
  DeployedPolicies : list DeployedPolicyStatus;
}.
Record KubewardenPolicy := {
  Policy_TypeMeta :> TypeMeta;
  Policy_ObjectMeta :> ObjectMeta;
  Spec : KubewardenPolicySpec;
  Status : KubewardenPolicyStatus;
}.
Record KubewardenPolicyList := { Items : list KubewardenPolicy }.

Definition with_Status (p : KubewardenPolicy) (s : KubewardenPolicyStatus) : KubewardenPolicy :=
  {| Policy_TypeMeta := p; Policy_ObjectMeta := p; Spec := Spec p; Status := s |}.
Definition with_Spec (p : KubewardenPolicy) (s : KubewardenPolicySpec) : KubewardenPolicy :=
  {| Policy_TypeMeta := p; Policy_ObjectMeta := p; Spec := s; Status := Status p |}.

(** [p.Status.Ready = ready; p.Status.DeployedPolicies = deployed] *)
Definition SetDeployed (p : KubewardenPolicy) (ready : bool)
    (deployed : list DeployedPolicyStatus) : KubewardenPolicy :=
  with_Status p {| Ready := ready;
                   Conditions := Conditions (Status p);
                   MatchingClusters := MatchingClusters (Status p);
                   DeployedPolicies := deployed |}.
(** [d.Active = active; d.Message = message] *)
Definition SetOutcome (d : DeployedPolicyStatus) (active : bool) (message : string) : DeployedPolicyStatus :=
  {| dp_ClusterName := dp_ClusterName d;
     dp_ClusterNamespace := dp_ClusterNamespace d;
     dp_PolicyName := dp_PolicyName d;
     dp_PolicyType := dp_PolicyType d;
     dp_Active := active;
     dp_LastTransitionTime := dp_LastTransitionTime d;
     dp_Message := message |}.

Definition GetConditions (p : KubewardenPolicy) : list Condition := Conditions (Status p).
Definition SetConditions (p : KubewardenPolicy) (conditions : list Condition) : KubewardenPolicy :=
  with_Status p {| Ready := Ready (Status p);
                   Conditions := conditions;
                   MatchingClusters := MatchingClusters (Status p);
                   DeployedPolicies := DeployedPolicies (Status p) |}.
Definition SetMatchingClusters (p : KubewardenPolicy) (clusterList : list Cluster) : KubewardenPolicy :=
  with_Status p {| Ready := Ready (Status p);
                   Conditions := Conditions (Status p);
                   MatchingClusters := matchingClusters clusterList;
                   DeployedPolicies := DeployedPolicies (Status p) |}.
End Policy.

Export (coercions) Addon.
Export (coercions) Policy.

(** ** Lemmas *)

Definition reference_to (cluster : Cluster) : ObjectReference :=
  {| ref_Kind := Kind cluster; ref_APIVersion := APIVersion cluster;
     ref_Name := Name cluster; ref_Namespace := Namespace cluster |}.

Lemma matchingClusters_map clusterList :
  matchingClusters clusterList = map reference_to clusterList.
Proof.
  exact (fold_left_snoc reference_to clusterList []).
Qed.
