(* ===== verification/DeepCopy.v ===== *)
(** * DeepCopy: the generated deep copies (zz_generated.deepcopy.go)

    The memory representation of the API objects, with their slices and
    pointers as references into a heap, and the methods DeepCopyInto, DeepCopy
    and DeepCopyObject that controller-gen generates for them.  A method
    [func (in *T) DeepCopyInto(out *T)] is [T_DeepCopyInto in], from the struct
    [*in] to the struct left in [*out]; the two do not overlap.  The structs of
    the Kubernetes libraries and their own DeepCopyInto methods are the fields
    of the classes [LibraryTypes], [LibraryShapes] and [LibraryCopies]; the
    program embeds them but does not define them. *)
From S2P Require Import Prelude ApiTypes GoHeap.

#[local] Open Scope heap_scope.

(** ** Library structs *)

(** Their representations, with zero values, and the cells they refer to.
    [Time_ref] represents a non-nil [*metav1.Time]. *)
Class LibraryTypes := {
  ObjectMeta_rep : Type;
  ListMeta_rep : Type;
  LabelSelector_rep : Type;
  RawExtension_rep : Type;
  Condition_rep : Type;
  Time_ref : Type;
  library_cell : Type;
  zero_ObjectMeta :: Zero ObjectMeta_rep;
  zero_ListMeta :: Zero ListMeta_rep;
  zero_LabelSelector :: Zero LabelSelector_rep;
  zero_RawExtension :: Zero RawExtension_rep;
  zero_Condition :: Zero Condition_rep;
  ListMeta_value : Type;
}.

(** ** The program's structs *)

Section Structs.
Context {L : LibraryTypes}.

Record PolicyRule := {
  pr_APIGroups : option (Slice string);
  pr_APIVersions : option (Slice string);
  pr_Resources : option (Slice string);
  pr_Operations : option (Slice string);
  pr_Scope : string;
}.

Record DeployedPolicyStatus := {
  ds_ClusterName : string;
  ds_ClusterNamespace : string;
  ds_PolicyName : string;
  ds_PolicyType : string;
  ds_Active : bool;
  ds_LastTransitionTime : option Time_ref;
  ds_Message : string;
}.

Record KubewardenAddonSpec := {
  as_ClusterSelector : LabelSelector_rep;
  as_Version : string;
  as_ImageRepository : string;
  as_PolicyServerConfig : PolicyServerConfig;
}.

Record KubewardenAddonStatus := {
  at_Ready : bool;
  at_Conditions : option (Slice Condition_rep);
  at_MatchingClusters : option (Slice ObjectReference);
}.

Record KubewardenAddon := {
  a_TypeMeta : TypeMeta;
  a_ObjectMeta : ObjectMeta_rep;
  a_Spec : KubewardenAddonSpec;
  a_Status : KubewardenAddonStatus;
}.

Record KubewardenAddonList := {
  al_TypeMeta : TypeMeta;
  al_ListMeta : ListMeta_rep;
  al_Items : option (Slice KubewardenAddon);
}.

Record KubewardenPolicySpec := {
  ps_ClusterSelector : LabelSelector_rep;
  ps_PolicyType : string;
  ps_PolicyName : string;
  ps_TargetNamespace : string;
  ps_PolicyServer : string;
  ps_Module : string;
  ps_Rules : option (Slice PolicyRule);
  ps_Mutating : bool;
  ps_Settings : RawExtension_rep;
  ps_FailurePolicy : string;
  ps_MatchConditions : option (Slice Policy.MatchCondition);
}.

Record KubewardenPolicyStatus := {
  pt_Ready : bool;
  pt_Conditions : option (Slice Condition_rep);
  pt_MatchingClusters : option (Slice ObjectReference);
  pt_DeployedPolicies : option (Slice DeployedPolicyStatus);
}.

Record KubewardenPolicy := {
  p_TypeMeta : TypeMeta;
  p_ObjectMeta : ObjectMeta_rep;
  p_Spec : KubewardenPolicySpec;
  p_Status : KubewardenPolicyStatus;
}.

Record KubewardenPolicyList := {
  pl_TypeMeta : TypeMeta;
  pl_ListMeta : ListMeta_rep;
  pl_Items : option (Slice KubewardenPolicy);
}.

(** *** Zero values *)

#[export] Instance zero_string : Zero string := "".
#[export] Instance zero_TypeMeta : Zero TypeMeta := {| Kind := ""; APIVersion := "" |}.
#[export] Instance zero_ObjectReference : Zero ObjectReference :=
  {| ref_Kind := ""; ref_APIVersion := ""; ref_Name := ""; ref_Namespace := "" |}.
#[export] Instance zero_ResourceRequirements : Zero ResourceRequirements :=
  {| CPU := ""; Memory := "" |}.
#[export] Instance zero_PolicyServerConfig : Zero PolicyServerConfig :=
  {| Resources := zero; Replicas := 0 |}.
#[export] Instance zero_MatchCondition : Zero Policy.MatchCondition :=
  {| Policy.mc_Name := ""; Policy.mc_Expression := "" |}.
#[export] Instance zero_PolicyRule : Zero PolicyRule :=
  {| pr_APIGroups := None; pr_APIVersions := None; pr_Resources := None;
     pr_Operations := None; pr_Scope := "" |}.
#[export] Instance zero_DeployedPolicyStatus : Zero DeployedPolicyStatus :=
  {| ds_ClusterName := ""; ds_ClusterNamespace := ""; ds_PolicyName := ""; ds_PolicyType := "";
     ds_Active := false; ds_LastTransitionTime := None; ds_Message := "" |}.
#[export] Instance zero_KubewardenAddonSpec : Zero KubewardenAddonSpec :=
  {| as_ClusterSelector := zero; as_Version := ""; as_ImageRepository := "";
     as_PolicyServerConfig := zero |}.
#[export] Instance zero_KubewardenAddonStatus : Zero KubewardenAddonStatus :=
  {| at_Ready := false; at_Conditions := None; at_MatchingClusters := None |}.
#[export] Instance zero_KubewardenAddon : Zero KubewardenAddon :=
  {| a_TypeMeta := zero; a_ObjectMeta := zero; a_Spec := zero; a_Status := zero |}.
#[export] Instance zero_KubewardenAddonList : Zero KubewardenAddonList :=
  {| al_TypeMeta := zero; al_ListMeta := zero; al_Items := None |}.
#[export] Instance zero_KubewardenPolicySpec : Zero KubewardenPolicySpec :=
  {| ps_ClusterSelector := zero; ps_PolicyType := ""; ps_PolicyName := "";
     ps_TargetNamespace := ""; ps_PolicyServer := ""; ps_Module := ""; ps_Rules := None;
     ps_Mutating := false; ps_Settings := zero; ps_FailurePolicy := "";
     ps_MatchConditions := None |}.
#[export] Instance zero_KubewardenPolicyStatus : Zero KubewardenPolicyStatus :=
  {| pt_Ready := false; pt_Conditions := None; pt_MatchingClusters := None;
     pt_DeployedPolicies := None |}.
#[export] Instance zero_KubewardenPolicy : Zero KubewardenPolicy :=
  {| p_TypeMeta := zero; p_ObjectMeta := zero; p_Spec := zero; p_Status := zero |}.
#[export] Instance zero_KubewardenPolicyList : Zero KubewardenPolicyList :=
  {| pl_TypeMeta := zero; pl_ListMeta := zero; pl_Items := None |}.

(** *** Cells *)

(** The types of which the program allocates arrays or single values. *)
Inductive elem :=
| E_string | E_Condition | E_ObjectReference | E_ResourceRequirements | E_PolicyServerConfig
| E_MatchCondition | E_PolicyRule | E_DeployedPolicyStatus
| E_KubewardenAddonSpec | E_KubewardenAddonStatus | E_KubewardenAddon | E_KubewardenAddonList
| E_KubewardenPolicySpec | E_KubewardenPolicyStatus | E_KubewardenPolicy | E_KubewardenPolicyList.
#[export] Instance elem_eq_dec : EqDecision elem.
Proof. solve_decision. Defined.

Definition elem_type (e : elem) : Type :=
  match e with
  | E_string => string
  | E_Condition => Condition_rep
  | E_ObjectReference => ObjectReference
  | E_ResourceRequirements => ResourceRequirements
  | E_PolicyServerConfig => PolicyServerConfig
  | E_MatchCondition => Policy.MatchCondition
  | E_PolicyRule => PolicyRule
  | E_DeployedPolicyStatus => DeployedPolicyStatus
  | E_KubewardenAddonSpec => KubewardenAddonSpec
  | E_KubewardenAddonStatus => KubewardenAddonStatus
  | E_KubewardenAddon => KubewardenAddon
  | E_KubewardenAddonList => KubewardenAddonList
  | E_KubewardenPolicySpec => KubewardenPolicySpec
  | E_KubewardenPolicyStatus => KubewardenPolicyStatus
  | E_KubewardenPolicy => KubewardenPolicy
  | E_KubewardenPolicyList => KubewardenPolicyList
  end.

Inductive cell :=
| Array (e : elem) (xs : list (elem_type e))
| Library (c : library_cell).

Definition as_array (e : elem) (c : cell) : option (list (elem_type e)) :=
  match c with
  | Array e' xs =>
      match decide (e' = e) with
      | left H => Some (eq_rect e' (fun e => list (elem_type e)) xs e H)
      | right _ => None
      end
  | Library _ => None
  end.

Lemma as_array_Array e xs : as_array e (Array e xs) = Some xs.
Proof. simpl. destruct (decide (e = e)) as [H|]; [|done]. by rewrite (proof_irrel H eq_refl). Qed.

Definition elem_Cell (e : elem) : Cell cell (elem_type e) :=
  {| to_cell := Array e; of_cell := as_array e; of_to_cell := as_array_Array e |}.

#[export] Instance Cell_string : Cell cell string := elem_Cell E_string.
#[export] Instance Cell_Condition : Cell cell Condition_rep := elem_Cell E_Condition.
#[export] Instance Cell_ObjectReference : Cell cell ObjectReference := elem_Cell E_ObjectReference.
#[export] Instance Cell_ResourceRequirements : Cell cell ResourceRequirements :=
  elem_Cell E_ResourceRequirements.
#[export] Instance Cell_PolicyServerConfig : Cell cell PolicyServerConfig :=
  elem_Cell E_PolicyServerConfig.
#[export] Instance Cell_MatchCondition : Cell cell Policy.MatchCondition :=
  elem_Cell E_MatchCondition.
#[export] Instance Cell_PolicyRule : Cell cell PolicyRule := elem_Cell E_PolicyRule.
#[export] Instance Cell_DeployedPolicyStatus : Cell cell DeployedPolicyStatus :=
  elem_Cell E_DeployedPolicyStatus.
#[export] Instance Cell_KubewardenAddonSpec : Cell cell KubewardenAddonSpec :=
  elem_Cell E_KubewardenAddonSpec.
#[export] Instance Cell_KubewardenAddonStatus : Cell cell KubewardenAddonStatus :=
  elem_Cell E_KubewardenAddonStatus.
#[export] Instance Cell_KubewardenAddon : Cell cell KubewardenAddon := elem_Cell E_KubewardenAddon.
#[export] Instance Cell_KubewardenAddonList : Cell cell KubewardenAddonList :=
  elem_Cell E_KubewardenAddonList.
#[export] Instance Cell_KubewardenPolicySpec : Cell cell KubewardenPolicySpec :=
  elem_Cell E_KubewardenPolicySpec.
#[export] Instance Cell_KubewardenPolicyStatus : Cell cell KubewardenPolicyStatus :=
  elem_Cell E_KubewardenPolicyStatus.
#[export] Instance Cell_KubewardenPolicy : Cell cell KubewardenPolicy :=
  elem_Cell E_KubewardenPolicy.
#[export] Instance Cell_KubewardenPolicyList : Cell cell KubewardenPolicyList :=
  elem_Cell E_KubewardenPolicyList.
End Structs.

(** ** The generated methods *)

(** The library's own methods. *)
Class LibraryMethods `{L : LibraryTypes} := {
  ObjectMeta_DeepCopyInto : ObjectMeta_rep -> M cell ObjectMeta_rep;
  ListMeta_DeepCopyInto : ListMeta_rep -> M cell ListMeta_rep;
  LabelSelector_DeepCopyInto : LabelSelector_rep -> M cell LabelSelector_rep;
  RawExtension_DeepCopyInto : RawExtension_rep -> M cell RawExtension_rep;
  Condition_DeepCopyInto : Condition_rep -> M cell Condition_rep;
  Time_DeepCopy : Time_ref -> M cell Time_ref;
}.

(** What [DeepCopyObject] returns: an interface holding a pointer, or nil. *)
Inductive Object `{L : LibraryTypes} :=
| KubewardenAddonObject (c : Ptr KubewardenAddon)
| KubewardenAddonListObject (c : Ptr KubewardenAddonList)
| KubewardenPolicyObject (c : Ptr KubewardenPolicy)
| KubewardenPolicyListObject (c : Ptr KubewardenPolicyList).

Section Methods.
Context `{LM : LibraryMethods}.

Definition DeployedPolicyStatus_DeepCopyInto (in_ : DeployedPolicyStatus)
    : M cell DeployedPolicyStatus :=
  (LastTransitionTime <- copy_option Time_DeepCopy (ds_LastTransitionTime in_) ;;
   hret {| ds_ClusterName := ds_ClusterName in_;
           ds_ClusterNamespace := ds_ClusterNamespace in_;
           ds_PolicyName := ds_PolicyName in_;
           ds_PolicyType := ds_PolicyType in_;
           ds_Active := ds_Active in_;
           ds_LastTransitionTime := LastTransitionTime;
           ds_Message := ds_Message in_ |}).

Definition DeployedPolicyStatus_DeepCopy (in_ : option (Ptr DeployedPolicyStatus))
    : M cell (option (Ptr DeployedPolicyStatus)) :=
  copy_ptr DeployedPolicyStatus_DeepCopyInto in_.

Definition ResourceRequirements_DeepCopyInto (in_ : ResourceRequirements)
    : M cell ResourceRequirements := hret in_.

Definition ResourceRequirements_DeepCopy (in_ : option (Ptr ResourceRequirements))
    : M cell (option (Ptr ResourceRequirements)) :=
  copy_ptr ResourceRequirements_DeepCopyInto in_.

Definition PolicyServerConfig_DeepCopyInto (in_ : PolicyServerConfig) : M cell PolicyServerConfig :=
  hret {| Resources := Resources in_; Replicas := Replicas in_ |}.

Definition PolicyServerConfig_DeepCopy (in_ : option (Ptr PolicyServerConfig))
    : M cell (option (Ptr PolicyServerConfig)) :=
  copy_ptr PolicyServerConfig_DeepCopyInto in_.

Definition MatchCondition_DeepCopyInto (in_ : Policy.MatchCondition) : M cell Policy.MatchCondition :=
  hret in_.

Definition MatchCondition_DeepCopy (in_ : option (Ptr Policy.MatchCondition))
    : M cell (option (Ptr Policy.MatchCondition)) :=
  copy_ptr MatchCondition_DeepCopyInto in_.

Definition PolicyRule_DeepCopyInto (in_ : PolicyRule) : M cell PolicyRule :=
  (APIGroups <- copy_flat (pr_APIGroups in_) ;;
   APIVersions <- copy_flat (pr_APIVersions in_) ;;
   Resources <- copy_flat (pr_Resources in_) ;;
   Operations <- copy_flat (pr_Operations in_) ;;
   hret {| pr_APIGroups := APIGroups;
           pr_APIVersions := APIVersions;
           pr_Resources := Resources;
           pr_Operations := Operations;
           pr_Scope := pr_Scope in_ |}).

Definition PolicyRule_DeepCopy (in_ : option (Ptr PolicyRule)) : M cell (option (Ptr PolicyRule)) :=
  copy_ptr PolicyRule_DeepCopyInto in_.

Definition KubewardenAddonSpec_DeepCopyInto (in_ : KubewardenAddonSpec)
    : M cell KubewardenAddonSpec :=
  (ClusterSelector <- LabelSelector_DeepCopyInto (as_ClusterSelector in_) ;;
   hret {| as_ClusterSelector := ClusterSelector;
           as_Version := as_Version in_;
           as_ImageRepository := as_ImageRepository in_;
           as_PolicyServerConfig := as_PolicyServerConfig in_ |}).

Definition KubewardenAddonSpec_DeepCopy (in_ : option (Ptr KubewardenAddonSpec))
    : M cell (option (Ptr KubewardenAddonSpec)) :=
  copy_ptr KubewardenAddonSpec_DeepCopyInto in_.

Definition KubewardenAddonStatus_DeepCopyInto (in_ : KubewardenAddonStatus)
    : M cell KubewardenAddonStatus :=
  (Conditions <- copy_each Condition_DeepCopyInto (at_Conditions in_) ;;
   MatchingClusters <- copy_flat (at_MatchingClusters in_) ;;
   hret {| at_Ready := at_Ready in_;
           at_Conditions := Conditions;
           at_MatchingClusters := MatchingClusters |}).

Definition KubewardenAddonStatus_DeepCopy (in_ : option (Ptr KubewardenAddonStatus))
    : M cell (option (Ptr KubewardenAddonStatus)) :=
  copy_ptr KubewardenAddonStatus_DeepCopyInto in_.

Definition KubewardenAddon_DeepCopyInto (in_ : KubewardenAddon) : M cell KubewardenAddon :=
  (ObjectMeta <- ObjectMeta_DeepCopyInto (a_ObjectMeta in_) ;;
   Spec <- KubewardenAddonSpec_DeepCopyInto (a_Spec in_) ;;
   Status <- KubewardenAddonStatus_DeepCopyInto (a_Status in_) ;;
   hret {| a_TypeMeta := a_TypeMeta in_;
           a_ObjectMeta := ObjectMeta;
           a_Spec := Spec;
           a_Status := Status |}).

Definition KubewardenAddon_DeepCopy (in_ : option (Ptr KubewardenAddon))
    : M cell (option (Ptr KubewardenAddon)) :=
  copy_ptr KubewardenAddon_DeepCopyInto in_.

Definition KubewardenAddon_DeepCopyObject (in_ : option (Ptr KubewardenAddon))
    : M cell (option Object) :=
  (c <- KubewardenAddon_DeepCopy in_ ;; hret (KubewardenAddonObject <$> c)).

Definition KubewardenAddonList_DeepCopyInto (in_ : KubewardenAddonList)
    : M cell KubewardenAddonList :=
  (ListMeta <- ListMeta_DeepCopyInto (al_ListMeta in_) ;;
   Items <- copy_each KubewardenAddon_DeepCopyInto (al_Items in_) ;;
   hret {| al_TypeMeta := al_TypeMeta in_; al_ListMeta := ListMeta; al_Items := Items |}).

Definition KubewardenAddonList_DeepCopy (in_ : option (Ptr KubewardenAddonList))
    : M cell (option (Ptr KubewardenAddonList)) :=
  copy_ptr KubewardenAddonList_DeepCopyInto in_.

Definition KubewardenAddonList_DeepCopyObject (in_ : option (Ptr KubewardenAddonList))
    : M cell (option Object) :=
  (c <- KubewardenAddonList_DeepCopy in_ ;; hret (KubewardenAddonListObject <$> c)).

Definition KubewardenPolicySpec_DeepCopyInto (in_ : KubewardenPolicySpec)
    : M cell KubewardenPolicySpec :=
  (ClusterSelector <- LabelSelector_DeepCopyInto (ps_ClusterSelector in_) ;;
   Rules <- copy_each PolicyRule_DeepCopyInto (ps_Rules in_) ;;
   Settings <- RawExtension_DeepCopyInto (ps_Settings in_) ;;
   MatchConditions <- copy_flat (ps_MatchConditions in_) ;;
   hret {| ps_ClusterSelector := ClusterSelector;
           ps_PolicyType := ps_PolicyType in_;
           ps_PolicyName := ps_PolicyName in_;
           ps_TargetNamespace := ps_TargetNamespace in_;
           ps_PolicyServer := ps_PolicyServer in_;
           ps_Module := ps_Module in_;
           ps_Rules := Rules;
           ps_Mutating := ps_Mutating in_;
           ps_Settings := Settings;
           ps_FailurePolicy := ps_FailurePolicy in_;
           ps_MatchConditions := MatchConditions |}).

Definition KubewardenPolicySpec_DeepCopy (in_ : option (Ptr KubewardenPolicySpec))
    : M cell (option (Ptr KubewardenPolicySpec)) :=
  copy_ptr KubewardenPolicySpec_DeepCopyInto in_.

Definition KubewardenPolicyStatus_DeepCopyInto (in_ : KubewardenPolicyStatus)
    : M cell KubewardenPolicyStatus :=
  (Conditions <- copy_each Condition_DeepCopyInto (pt_Conditions in_) ;;
   MatchingClusters <- copy_flat (pt_MatchingClusters in_) ;;
   DeployedPolicies <- copy_each DeployedPolicyStatus_DeepCopyInto (pt_DeployedPolicies in_) ;;
   hret {| pt_Ready := pt_Ready in_;
           pt_Conditions := Conditions;
           pt_MatchingClusters := MatchingClusters;
           pt_DeployedPolicies := DeployedPolicies |}).

Definition KubewardenPolicyStatus_DeepCopy (in_ : option (Ptr KubewardenPolicyStatus))
    : M cell (option (Ptr KubewardenPolicyStatus)) :=
  copy_ptr KubewardenPolicyStatus_DeepCopyInto in_.

Definition KubewardenPolicy_DeepCopyInto (in_ : KubewardenPolicy) : M cell KubewardenPolicy :=
  (ObjectMeta <- ObjectMeta_DeepCopyInto (p_ObjectMeta in_) ;;
   Spec <- KubewardenPolicySpec_DeepCopyInto (p_Spec in_) ;;
   Status <- KubewardenPolicyStatus_DeepCopyInto (p_Status in_) ;;
   hret {| p_TypeMeta := p_TypeMeta in_;
           p_ObjectMeta := ObjectMeta;
           p_Spec := Spec;
           p_Status := Status |}).

Definition KubewardenPolicy_DeepCopy (in_ : option (Ptr KubewardenPolicy))
    : M cell (option (Ptr KubewardenPolicy)) :=
  copy_ptr KubewardenPolicy_DeepCopyInto in_.

Definition KubewardenPolicy_DeepCopyObject (in_ : option (Ptr KubewardenPolicy))
    : M cell (option Object) :=
  (c <- KubewardenPolicy_DeepCopy in_ ;; hret (KubewardenPolicyObject <$> c)).

Definition KubewardenPolicyList_DeepCopyInto (in_ : KubewardenPolicyList)
    : M cell KubewardenPolicyList :=
  (ListMeta <- ListMeta_DeepCopyInto (pl_ListMeta in_) ;;
   Items <- copy_each KubewardenPolicy_DeepCopyInto (pl_Items in_) ;;
   hret {| pl_TypeMeta := pl_TypeMeta in_; pl_ListMeta := ListMeta; pl_Items := Items |}).

Definition KubewardenPolicyList_DeepCopy (in_ : option (Ptr KubewardenPolicyList))
    : M cell (option (Ptr KubewardenPolicyList)) :=
  copy_ptr KubewardenPolicyList_DeepCopyInto in_.

Definition KubewardenPolicyList_DeepCopyObject (in_ : option (Ptr KubewardenPolicyList))
    : M cell (option Object) :=
  (c <- KubewardenPolicyList_DeepCopy in_ ;; hret (KubewardenPolicyListObject <$> c)).

(** The call [o.DeepCopyObject()] of a [runtime.Object]: the method of the
    dynamic type. *)
Definition DeepCopyObject (o : Object) : M cell (option Object) :=
  match o with
  | KubewardenAddonObject c => KubewardenAddon_DeepCopyObject (Some c)
  | KubewardenAddonListObject c => KubewardenAddonList_DeepCopyObject (Some c)
  | KubewardenPolicyObject c => KubewardenPolicy_DeepCopyObject (Some c)
  | KubewardenPolicyListObject c => KubewardenPolicyList_DeepCopyObject (Some c)
  end.
End Methods.

(** ** What the structs stand for *)

(** The shapes of the library structs. *)
Class LibraryShapes `{L : LibraryTypes} := {
  ObjectMeta_Shape :: Shape cell ObjectMeta_rep ObjectMeta;
  ListMeta_Shape :: Shape cell ListMeta_rep ListMeta_value;
  LabelSelector_Shape :: Shape cell LabelSelector_rep LabelSelector;
  RawExtension_Shape :: Shape cell RawExtension_rep RawExtension;
  Condition_Shape :: Shape cell Condition_rep Condition;
  Time_Shape :: Shape cell Time_ref Time;
  library_cell_Shape :: Shape cell library_cell ();
}.

Section Shapes.
Context `{LS : LibraryShapes}.

Definition flat_Shape (A : Type) : Shape cell A A := Shape_via flat.
#[export] Instance string_Shape : Shape cell string string := flat_Shape _.
#[export] Instance ObjectReference_Shape : Shape cell ObjectReference ObjectReference := flat_Shape _.
#[export] Instance ResourceRequirements_Shape : Shape cell ResourceRequirements ResourceRequirements :=
  flat_Shape _.
#[export] Instance PolicyServerConfig_Shape : Shape cell PolicyServerConfig PolicyServerConfig :=
  flat_Shape _.
#[export] Instance MatchCondition_Shape : Shape cell Policy.MatchCondition Policy.MatchCondition :=
  flat_Shape _.

Definition PolicyRule_Shape := Shape_via (C := cell) (fun r =>
  (flat (pr_Scope r), pr_APIGroups r, pr_APIVersions r, pr_Resources r, pr_Operations r)).
#[export] Existing Instance PolicyRule_Shape.

Definition DeployedPolicyStatus_Shape := Shape_via (C := cell) (fun d =>
  (flat (ds_ClusterName d, ds_ClusterNamespace d, ds_PolicyName d, ds_PolicyType d,
         ds_Active d, ds_Message d),
   ds_LastTransitionTime d)).
#[export] Existing Instance DeployedPolicyStatus_Shape.

Definition KubewardenAddonSpec_Shape := Shape_via (C := cell) (fun s =>
  (flat (as_Version s, as_ImageRepository s, as_PolicyServerConfig s), as_ClusterSelector s)).
#[export] Existing Instance KubewardenAddonSpec_Shape.

Definition KubewardenAddonStatus_Shape := Shape_via (C := cell) (fun t =>
  (flat (at_Ready t), at_Conditions t, at_MatchingClusters t)).
#[export] Existing Instance KubewardenAddonStatus_Shape.

Definition KubewardenAddon_Shape := Shape_via (C := cell) (fun c =>
  (flat (a_TypeMeta c), a_ObjectMeta c, a_Spec c, a_Status c)).
#[export] Existing Instance KubewardenAddon_Shape.

Definition KubewardenAddonList_Shape := Shape_via (C := cell) (fun l =>
  (flat (al_TypeMeta l), al_ListMeta l, al_Items l)).
#[export] Existing Instance KubewardenAddonList_Shape.

Definition KubewardenPolicySpec_Shape := Shape_via (C := cell) (fun s =>
  (flat (ps_PolicyType s, ps_PolicyName s, ps_TargetNamespace s, ps_PolicyServer s, ps_Module s,
         ps_Mutating s, ps_FailurePolicy s),
   ps_ClusterSelector s, ps_Rules s, ps_Settings s, ps_MatchConditions s)).
#[export] Existing Instance KubewardenPolicySpec_Shape.

Definition KubewardenPolicyStatus_Shape := Shape_via (C := cell) (fun t =>
  (flat (pt_Ready t), pt_Conditions t, pt_MatchingClusters t, pt_DeployedPolicies t)).
#[export] Existing Instance KubewardenPolicyStatus_Shape.

Definition KubewardenPolicy_Shape := Shape_via (C := cell) (fun c =>
  (flat (p_TypeMeta c), p_ObjectMeta c, p_Spec c, p_Status c)).
#[export] Existing Instance KubewardenPolicy_Shape.

Definition KubewardenPolicyList_Shape := Shape_via (C := cell) (fun l =>
  (flat (pl_TypeMeta l), pl_ListMeta l, pl_Items l)).
#[export] Existing Instance KubewardenPolicyList_Shape.

Definition Object_Shape := Shape_via (C := cell) (fun o =>
  match o with
  | KubewardenAddonObject c => inl (inl c)
  | KubewardenAddonListObject c => inl (inr c)
  | KubewardenPolicyObject c => inr (inl c)
  | KubewardenPolicyListObject c => inr (inr c)
  end).
#[export] Existing Instance Object_Shape.

(** The type of the values that a [T] stands for. *)
Definition value (T : Type) {V} `{!Shape cell T V} : Type := V.

Definition elem_value (e : elem) : Type :=
  match e with
  | E_string => value string
  | E_Condition => value Condition_rep
  | E_ObjectReference => value ObjectReference
  | E_ResourceRequirements => value ResourceRequirements
  | E_PolicyServerConfig => value PolicyServerConfig
  | E_MatchCondition => value Policy.MatchCondition
  | E_PolicyRule => value PolicyRule
  | E_DeployedPolicyStatus => value DeployedPolicyStatus
  | E_KubewardenAddonSpec => value KubewardenAddonSpec
  | E_KubewardenAddonStatus => value KubewardenAddonStatus
  | E_KubewardenAddon => value KubewardenAddon
  | E_KubewardenAddonList => value KubewardenAddonList
  | E_KubewardenPolicySpec => value KubewardenPolicySpec
  | E_KubewardenPolicyStatus => value KubewardenPolicyStatus
  | E_KubewardenPolicy => value KubewardenPolicy
  | E_KubewardenPolicyList => value KubewardenPolicyList
  end.

Definition elem_Shape (e : elem) : Shape cell (elem_type e) (elem_value e).
Proof. destruct e; typeclasses eauto. Defined.

(** A cell is well typed when what it holds stands for something. *)
#[export] Program Instance cell_Shape : Shape cell cell () := {|
  view h c :=
    match c with
    | Array e xs => (fun _ => ()) <$> @view _ _ _ (list_Shape (Shape0 := elem_Shape e)) h xs
    | Library c => view h c
    end;
  foot h c :=
    match c with
    | Array e xs => @foot _ _ _ (list_Shape (Shape0 := elem_Shape e)) h xs
    | Library c => foot h c
    end;
|}.
Next Obligation.
  intros h h' [e xs|c] v Hv Hl; [|by apply view_frame]. apply fmap_Some in Hv as (vs & Hvs & ->).
  destruct (view_frame (Shape := list_Shape (Shape0 := elem_Shape e)) h h' xs vs Hvs Hl) as [Hv Hf].
  split; [|exact Hf].
  change ((fun _ => ()) <$> @view _ _ _ (list_Shape (Shape0 := elem_Shape e)) h' xs = Some ()).
  by rewrite Hv.
Qed.
Next Obligation.
  intros h [e xs|c] v Hv; [|by eapply foot_dom]. apply fmap_Some in Hv as (vs & Hvs & ->).
  by eapply foot_dom.
Qed.

Lemma elem_CellShape e :
  CellShape cell (elem_type e) (elem_value e)
    (Cell0 := elem_Cell e) (Shape0 := cell_Shape) (Shape1 := elem_Shape e).
Proof.
  constructor; [|done]. intros h xs vs Hvs.
  change ((fun _ => ()) <$> @view _ _ _ (list_Shape (Shape0 := elem_Shape e)) h xs = Some ()).
  by rewrite Hvs.
Qed.

#[export] Instance CellShape_string : CellShape cell string _ := elem_CellShape E_string.
#[export] Instance CellShape_Condition : CellShape cell Condition_rep _ := elem_CellShape E_Condition.
#[export] Instance CellShape_ObjectReference : CellShape cell ObjectReference _ :=
  elem_CellShape E_ObjectReference.
#[export] Instance CellShape_ResourceRequirements : CellShape cell ResourceRequirements _ :=
  elem_CellShape E_ResourceRequirements.
#[export] Instance CellShape_PolicyServerConfig : CellShape cell PolicyServerConfig _ :=
  elem_CellShape E_PolicyServerConfig.
#[export] Instance CellShape_MatchCondition : CellShape cell Policy.MatchCondition _ :=
  elem_CellShape E_MatchCondition.
#[export] Instance CellShape_PolicyRule : CellShape cell PolicyRule _ :=
  elem_CellShape E_PolicyRule.
#[export] Instance CellShape_DeployedPolicyStatus : CellShape cell DeployedPolicyStatus _ :=
  elem_CellShape E_DeployedPolicyStatus.
#[export] Instance CellShape_KubewardenAddonSpec : CellShape cell KubewardenAddonSpec _ :=
  elem_CellShape E_KubewardenAddonSpec.
#[export] Instance CellShape_KubewardenAddonStatus : CellShape cell KubewardenAddonStatus _ :=
  elem_CellShape E_KubewardenAddonStatus.
#[export] Instance CellShape_KubewardenAddon : CellShape cell KubewardenAddon _ :=
  elem_CellShape E_KubewardenAddon.
#[export] Instance CellShape_KubewardenAddonList : CellShape cell KubewardenAddonList _ :=
  elem_CellShape E_KubewardenAddonList.
#[export] Instance CellShape_KubewardenPolicySpec : CellShape cell KubewardenPolicySpec _ :=
  elem_CellShape E_KubewardenPolicySpec.
#[export] Instance CellShape_KubewardenPolicyStatus : CellShape cell KubewardenPolicyStatus _ :=
  elem_CellShape E_KubewardenPolicyStatus.
#[export] Instance CellShape_KubewardenPolicy : CellShape cell KubewardenPolicy _ :=
  elem_CellShape E_KubewardenPolicy.
#[export] Instance CellShape_KubewardenPolicyList : CellShape cell KubewardenPolicyList _ :=
  elem_CellShape E_KubewardenPolicyList.
End Shapes.

(** ** The contract of the library's methods *)

(** "DeepCopyInto is a deepcopy function, copying the receiver": each result
    stands for the same value and shares nothing with what was there. *)
Class LibraryCopies `{LS : LibraryShapes} := {
  library_methods :: LibraryMethods;
  ObjectMeta_deep : deep ObjectMeta_DeepCopyInto;
  ListMeta_deep : deep ListMeta_DeepCopyInto;
  LabelSelector_deep : deep LabelSelector_DeepCopyInto;
  RawExtension_deep : deep RawExtension_DeepCopyInto;
  Condition_deep : deep Condition_DeepCopyInto;
  Time_deep : deep Time_DeepCopy;
}.

#[export] Hint Resolve ObjectMeta_deep ListMeta_deep LabelSelector_deep RawExtension_deep
  Condition_deep Time_deep copy_each_deep copy_flat_deep copy_option_deep copy_ptr_deep : deep.

(** ** Every generated method is a deep copy *)

Section Facts.
Context `{LC : LibraryCopies}.

Lemma PolicyRule_deep : deep PolicyRule_DeepCopyInto.
Proof. deep_struct. Qed.

Lemma DeployedPolicyStatus_deep : deep DeployedPolicyStatus_DeepCopyInto.
Proof. deep_struct. Qed.

Lemma KubewardenAddonSpec_deep : deep KubewardenAddonSpec_DeepCopyInto.
Proof. deep_struct. Qed.

Lemma KubewardenAddonStatus_deep : deep KubewardenAddonStatus_DeepCopyInto.
Proof. deep_struct. Qed.

#[local] Hint Resolve PolicyRule_deep DeployedPolicyStatus_deep KubewardenAddonSpec_deep
  KubewardenAddonStatus_deep : deep.

Lemma KubewardenAddon_deep : deep KubewardenAddon_DeepCopyInto.
Proof. deep_struct. Qed.

Lemma KubewardenPolicySpec_deep : deep KubewardenPolicySpec_DeepCopyInto.
Proof. deep_struct. Qed.

Lemma KubewardenPolicyStatus_deep : deep KubewardenPolicyStatus_DeepCopyInto.
Proof. deep_struct. Qed.

#[local] Hint Resolve KubewardenAddon_deep KubewardenPolicySpec_deep KubewardenPolicyStatus_deep : deep.

Lemma KubewardenAddonList_deep : deep KubewardenAddonList_DeepCopyInto.
Proof. deep_struct. Qed.

Lemma KubewardenPolicy_deep : deep KubewardenPolicy_DeepCopyInto.
Proof. deep_struct. Qed.

#[local] Hint Resolve KubewardenAddonList_deep KubewardenPolicy_deep : deep.

Lemma KubewardenPolicyList_deep : deep KubewardenPolicyList_DeepCopyInto.
Proof. deep_struct. Qed.

#[local] Hint Resolve KubewardenPolicyList_deep : deep.

(** C21: every generated DeepCopy returns nil for nil, and otherwise a pointer to
    a struct that stands for the same value, nil and empty slices kept apart,
    and reaches only memory that was not allocated before; memory that was
    there keeps its contents, and every cell added is well typed. *)
Theorem DeepCopy_deep :
  deep PolicyRule_DeepCopy /\ deep MatchCondition_DeepCopy /\ deep DeployedPolicyStatus_DeepCopy /\
  deep PolicyServerConfig_DeepCopy /\ deep ResourceRequirements_DeepCopy /\
  deep KubewardenAddonSpec_DeepCopy /\ deep KubewardenAddonStatus_DeepCopy /\
  deep KubewardenAddon_DeepCopy /\ deep KubewardenAddonList_DeepCopy /\
  deep KubewardenPolicySpec_DeepCopy /\ deep KubewardenPolicyStatus_DeepCopy /\
  deep KubewardenPolicy_DeepCopy /\ deep KubewardenPolicyList_DeepCopy.
Proof.
  split_and!; apply (copy_ptr_deep _); try solve [eauto with deep].
  - by apply deep_ret.
  - intros h [resources replicas] v Hv. by apply (deep_ret (T := PolicyServerConfig)).
  - by apply deep_ret.
Qed.

(** An object's DeepCopy, wrapped as a [runtime.Object] by [K]. *)
Lemma object_deep {T V} `{!Cell cell T, !Shape cell T V} (K : Ptr T -> Object)
    (inj : V -> value Object) (copy : option (Ptr T) -> M cell (option (Ptr T)))
    (h : heap cell) c v :
  (forall (h : heap cell) q, view h (K q) = inj <$> view h q) ->
  (forall (h : heap cell) q, foot h (K q) = foot h q) ->
  deep copy -> view h (K c) = Some v ->
  grows (dom h) h (c <- copy (Some c) ;; hret (K <$> c))
    (fun h' o => exists q, o = Some q /\ owned (dom h) h' q v).
Proof.
  intros HV HF Hcopy Hv. rewrite HV in Hv. apply fmap_Some in Hv as (w & Hw & ->).
  eapply (grows_bind copy _ h h (Some c) (Some w)); [done| |reflexivity|reflexivity|apply news_dom|].
  - change (Some <$> view h c = Some (Some w)). by rewrite Hw.
  - intros h' [q|] _ _ _ Hn [Hq Hf]; [|done]. apply grows_ret; [done|]. exists (K q).
    apply fmap_Some in Hq as (w' & Hw' & [= ->]). split; [done|].
    split; [by rewrite HV, Hw'|by rewrite HF].
Qed.

Lemma DeepCopyObject_grows h o v :
  view h o = Some v ->
  grows (dom h) h (DeepCopyObject o)
    (fun h' o' => exists q, o' = Some q /\ owned (dom h) h' q v).
Proof.
  destruct o as [c|c|c|c]; simpl.
  - apply (object_deep _ (fun v => inl (inl v)));
      [|done|by apply copy_ptr_deep, KubewardenAddon_deep].
    intros h' q. symmetry. apply option_fmap_compose.
  - apply (object_deep _ (fun v => inl (inr v)));
      [|done|by apply copy_ptr_deep, KubewardenAddonList_deep].
    intros h' q. symmetry. apply option_fmap_compose.
  - apply (object_deep _ (fun v => inr (inl v)));
      [|done|by apply copy_ptr_deep, KubewardenPolicy_deep].
    intros h' q. symmetry. apply option_fmap_compose.
  - apply (object_deep _ (fun v => inr (inr v)));
      [|done|by apply copy_ptr_deep, KubewardenPolicyList_deep].
    intros h' q. symmetry. apply option_fmap_compose.
Qed.

(** C17: DeepCopyObject never panics on an object whose memory is well formed.
    Its result is an object of the same dynamic type and the same value, and
    from then on original and copy are independent: whatever is written to the
    memory of the copy, the original keeps its value, and whatever is written
    to memory that existed before, the copy keeps its value. *)
Theorem DeepCopyObject_independent h o v :
  view h o = Some v ->
  exists h' o', DeepCopyObject o h = Some (h', Some o') /\
    view h' o = Some v /\ view h' o' = Some v /\
    (forall h2, (forall l, l ∉ foot h' o' -> h2 !! l = h' !! l) -> view h2 o = Some v) /\
    (forall h2, (forall l, l ∉ dom h -> h2 !! l = h' !! l) -> view h2 o' = Some v).
Proof.
  intros Hv. destruct (DeepCopyObject_grows h o v Hv) as (h' & ? & Hm & Hh & _ & o' & -> & Ho' & Hf).
  destruct (view_mono h h' o v Hh Hv) as [Hv' Hfoot].
  exists h', o'. split_and!; [done..| |]; intros h2 H2; eapply view_frame; try done.
  - intros l Hl. apply H2. apply (foot_dom h o v) in Hv. set_solver.
  - intros l Hl. apply H2. set_solver.
Qed.

(** C18: type safety of the generated code.  In a well-typed heap (no reference
    in it is dangling, of the wrong type or out of bounds) DeepCopyObject of a
    well-typed object does not panic, and leaves a well-typed heap in which
    original and copy are well typed. *)
Theorem DeepCopyObject_well_typed h o :
  well_typed h -> is_Some (view h o) ->
  exists h' o', DeepCopyObject o h = Some (h', Some o') /\
    well_typed h' /\ is_Some (view h' o) /\ is_Some (view h' o').
Proof.
  intros Hw [v Hv].
  destruct (DeepCopyObject_grows h o v Hv) as (h' & ? & Hm & Hh & Hn & o' & -> & Ho' & _).
  exists h', o'. split_and!; [done|by eapply well_typed_news| |by eexists].
  destruct (view_mono h h' o v Hh Hv) as [Hv' _]. by eexists.
Qed.
End Facts.
