(* ===== verification/ToyLibrary.v ===== *)
(** * ToyLibrary: concrete library structs for the deep copies

    An instance of the library classes of DeepCopy.v: metadata, selectors, raw
    JSON and instants are references to cells of their own, nil for the zero
    value, and copying one allocates a new cell.  It shows that the contract
    [LibraryCopies] can be kept, and runs the generated methods. *)
From S2P Require Import Prelude ApiTypes GoHeap DeepCopy.

(** A nilable reference to a value of [V]. *)
Record Box (V : Type) := box { at_loc : option loc }.
Arguments box {V} _.
Arguments at_loc {V} _.

Inductive toy_library_cell :=
| MetaCell (m : ObjectMeta)
| SelectorCell (s : LabelSelector)
| RawCell (r : RawExtension)
| TimeCell (t : Time).

#[export] Instance toy_types : LibraryTypes := {|
  ObjectMeta_rep := Box ObjectMeta;
  ListMeta_rep := Flat ();
  LabelSelector_rep := Box LabelSelector;
  RawExtension_rep := Box RawExtension;
  Condition_rep := Flat Condition;
  Time_ref := Box Time;
  library_cell := toy_library_cell;
  zero_ObjectMeta := box None;
  zero_ListMeta := flat ();
  zero_LabelSelector := box None;
  zero_RawExtension := box None;
  zero_Condition := flat {| cond_Type := ""; cond_Status := ""; cond_Reason := ""; cond_Message := "" |};
  ListMeta_value := ();
|}.

(** What a box of [V] may refer to, and the value of the nil box. *)
Class Boxed (V : Type) := {
  nil_value : V;
  in_cell : V -> toy_library_cell;
  out_cell : toy_library_cell -> option V;
  out_in v : out_cell (in_cell v) = Some v;
}.

#[export] Instance Boxed_ObjectMeta : Boxed ObjectMeta := {|
  nil_value := {| Name := ""; Namespace := ""; Labels := ∅; Annotations := None; DeletionTimestamp := None |};
  in_cell := MetaCell;
  out_cell c := match c with MetaCell m => Some m | _ => None end;
  out_in _ := eq_refl;
|}.
#[export] Instance Boxed_LabelSelector : Boxed LabelSelector := {|
  nil_value := {| MatchLabels := ∅; MatchExpressions := [] |};
  in_cell := SelectorCell;
  out_cell c := match c with SelectorCell s => Some s | _ => None end;
  out_in _ := eq_refl;
|}.
#[export] Instance Boxed_RawExtension : Boxed RawExtension := {|
  nil_value := {| Raw := "" |};
  in_cell := RawCell;
  out_cell c := match c with RawCell r => Some r | _ => None end;
  out_in _ := eq_refl;
|}.
#[export] Instance Boxed_Time : Boxed Time := {|
  nil_value := 0%Z;
  in_cell := TimeCell;
  out_cell c := match c with TimeCell t => Some t | _ => None end;
  out_in _ := eq_refl;
|}.

Section Box.
Context {V : Type} `{!Boxed V}.
Implicit Types h : heap cell.

Definition unbox (c : cell) : option V :=
  match c with Library c => out_cell c | Array _ _ => None end.

#[export] Program Instance Box_Shape : Shape cell (Box V) V := {|
  view h b :=
    match at_loc b with
    | None => Some nil_value
    | Some l => h !! l ≫= unbox
    end;
  foot h b := match at_loc b with None => ∅ | Some l => {[l]} end;
|}.
Next Obligation.
  intros h h' [[l|]] v Hv Hl; simpl in *; [|done]. rewrite Hl by set_solver. done.
Qed.
Next Obligation.
  intros h [[l|]] v Hv; simpl in *; [|set_solver].
  apply bind_Some in Hv as (c & Hc & _). apply elem_of_dom_2 in Hc. set_solver.
Qed.

Definition boxed (v : V) : cell := Library (in_cell v : library_cell).

Definition box_DeepCopyInto (b : Box V) : M cell (Box V) :=
  match at_loc b with
  | None => hret b
  | Some l => fun h =>
      match h !! l ≫= unbox with
      | Some v => hbind (alloc (boxed v)) (fun l' => hret (box (Some l'))) h
      | None => None
      end
  end.
End Box.

#[export] Program Instance toy_library_cell_Shape : Shape cell toy_library_cell () := {|
  view _ _ := Some ();
  foot _ _ := ∅;
|}.
Next Obligation. done. Qed.
Next Obligation. set_solver. Qed.

#[export] Instance toy_shapes : LibraryShapes := {|
  ObjectMeta_Shape := Box_Shape;
  ListMeta_Shape := Flat_Shape ();
  LabelSelector_Shape := Box_Shape;
  RawExtension_Shape := Box_Shape;
  Condition_Shape := Flat_Shape Condition;
  Time_Shape := Box_Shape;
  library_cell_Shape := toy_library_cell_Shape;
|}.

Lemma box_deep {V} `{!Boxed V} : deep (box_DeepCopyInto (V := V)).
Proof.
  intros h [[l|]] v Hv.
  - change (h !! l ≫= unbox = Some v) in Hv. unfold grows, box_DeepCopyInto; simpl. rewrite Hv.
    assert (fresh (dom h) ∉ dom h) as Hnew by apply is_fresh.
    exists (<[fresh (dom h) := boxed v]> h), (box (Some (fresh (dom h)))).
    split_and!; [done|by apply insert_subseteq, not_elem_of_dom| |].
    + intros l' c Hl' Hc. destruct (decide (l' = fresh (dom h))) as [->|Hne].
      * rewrite lookup_insert_eq in Hc. simplify_eq. split; [done|].
        change ((∅ : gset loc) ## dom h). set_solver.
      * rewrite lookup_insert_ne in Hc by done. by apply elem_of_dom_2 in Hc.
    + split; unfold view, foot; simpl; [rewrite lookup_insert_eq; apply out_in|set_solver].
  - apply grows_ret; [apply news_dom|]. split; [done|].
    change ((∅ : gset loc) ## dom h). set_solver.
Qed.

#[export] Instance toy_methods : LibraryMethods := {|
  ObjectMeta_DeepCopyInto := box_DeepCopyInto (V := ObjectMeta);
  ListMeta_DeepCopyInto := fun m : Flat () => hret m;
  LabelSelector_DeepCopyInto := box_DeepCopyInto (V := LabelSelector);
  RawExtension_DeepCopyInto := box_DeepCopyInto (V := RawExtension);
  Condition_DeepCopyInto := fun c : Flat Condition => hret c;
  Time_DeepCopy := box_DeepCopyInto (V := Time);
|}.

#[export] Instance toy_copies : LibraryCopies.
Proof.
  refine {| library_methods := toy_methods |}.
  - exact box_deep.
  - by apply (deep_ret (T := Flat ())).
  - exact box_deep.
  - exact box_deep.
  - by apply (deep_ret (T := Flat Condition)).
  - exact box_deep.
Defined.

(** ** A policy list in memory *)

(** Location 1 holds an array of three strings of which the rule's [Resources]
    is the window of the last two. *)
Definition toy_rule : PolicyRule :=
  {| pr_APIGroups := None;
     pr_APIVersions := Some (mk_slice 2%positive 0 1 1);
     pr_Resources := Some (mk_slice 1%positive 1 2 2);
     pr_Operations := Some (mk_slice 2%positive 0 0 1);
     pr_Scope := "*" |}.

Definition toy_policy : KubewardenPolicy :=
  {| p_TypeMeta := {| Kind := "KubewardenPolicy"; APIVersion := "v1alpha1" |};
     p_ObjectMeta := box (Some 4%positive);
     p_Spec := {| ps_ClusterSelector := box (Some 5%positive); ps_PolicyType := "ClusterAdmissionPolicy";
                  ps_PolicyName := "privileged"; ps_TargetNamespace := ""; ps_PolicyServer := "default";
                  ps_Module := "registry://policy"; ps_Rules := Some (mk_slice 3%positive 0 1 1);
                  ps_Mutating := false; ps_Settings := box None; ps_FailurePolicy := "Fail";
                  ps_MatchConditions := None |};
     p_Status := {| pt_Ready := true; pt_Conditions := None; pt_MatchingClusters := None;
                    pt_DeployedPolicies := Some (mk_slice 7%positive 0 1 2) |} |}.

Definition toy_deployed : DeployedPolicyStatus :=
  {| ds_ClusterName := "prod"; ds_ClusterNamespace := "default"; ds_PolicyName := "privileged";
     ds_PolicyType := "ClusterAdmissionPolicy"; ds_Active := true;
     ds_LastTransitionTime := Some (box (Some 8%positive)); ds_Message := "" |}.

Definition toy_heap : heap cell :=
  list_to_map [
    (1%positive, Array E_string ["nodes"; "pods"; "services"]);
    (2%positive, Array E_string ["v1"]);
    (3%positive, Array E_PolicyRule [toy_rule]);
    (4%positive, Library (MetaCell {| Name := "p"; Namespace := "default"; Labels := ∅;
                                      Annotations := None; DeletionTimestamp := None |}));
    (5%positive, Library (SelectorCell {| MatchLabels := ∅; MatchExpressions := [] |}));
    (6%positive, Array E_KubewardenPolicyList
       [{| pl_TypeMeta := {| Kind := "KubewardenPolicyList"; APIVersion := "v1alpha1" |};
           pl_ListMeta := flat (); pl_Items := Some (mk_slice 9%positive 0 1 1) |}]);
    (7%positive, Array E_DeployedPolicyStatus [toy_deployed; toy_deployed]);
    (8%positive, Library (TimeCell 17%Z));
    (9%positive, Array E_KubewardenPolicy [toy_policy])].

Definition toy_object : Object := KubewardenPolicyListObject (mk_ptr 6%positive 0).

Definition is_some {A} (o : option A) : bool := match o with Some _ => true | None => false end.
Lemma is_some_spec {A} (o : option A) : is_some o = true -> is_Some o.
Proof. by destruct o; [eexists|]. Qed.

Lemma toy_object_view : is_Some (view toy_heap toy_object).
Proof. apply is_some_spec. vm_compute. reflexivity. Qed.

Lemma toy_heap_well_typed : well_typed toy_heap.
Proof.
  apply (bool_decide_unpack (map_Forall (fun _ c => view toy_heap c = Some ()) toy_heap)).
  vm_compute. exact I.
Qed.

(** The copy of the list, read back. *)
Definition toy_copied : option (value KubewardenPolicyList) :=
  match DeepCopyObject toy_object toy_heap with
  | Some (h, Some (KubewardenPolicyListObject c)) => view h c
  | _ => None
  end.
Example toy_copy_rules :
  (x ← toy_copied; items ← x.2; item ← items !! 0; rules ← (item.1.2.1.1.2); Some rules)
    = Some [("*", None, Some ["v1"], Some ["pods"; "services"], Some [])].
Proof. vm_compute. reflexivity. Qed.

(** ** The theorems of DeepCopy.v on this list *)

Lemma DeepCopy_deep_witness :
  is_Some (view toy_heap (Some (mk_ptr 6%positive 0 : Ptr KubewardenPolicyList))) /\
  deep KubewardenPolicyList_DeepCopy.
Proof.
  split; [apply is_some_spec; vm_compute; reflexivity|].
  pose proof DeepCopy_deep as H. destruct_and! H. assumption.
Defined.

Lemma DeepCopyObject_independent_witness :
  exists v h' o', DeepCopyObject toy_object toy_heap = Some (h', Some o') /\
    view h' toy_object = Some v /\ view h' o' = Some v.
Proof.
  destruct toy_object_view as [v Hv].
  destruct (DeepCopyObject_independent toy_heap toy_object v Hv) as (h' & o' & H1 & H2 & H3 & _).
  exists v, h', o'. split_and!; assumption.
Defined.

Lemma DeepCopyObject_well_typed_witness :
  exists h' o', DeepCopyObject toy_object toy_heap = Some (h', Some o') /\ well_typed h'.
Proof.
  destruct (DeepCopyObject_well_typed toy_heap toy_object toy_heap_well_typed toy_object_view)
    as (h' & o' & H1 & H2 & _).
  exists h', o'. split; assumption.
Defined.
