(* ===== verification/Webhooks.v ===== *)
(** * Webhooks: defaulting and validation

    kubewardenaddon_webhook.go and kubewardenpolicy_webhook.go: the [Default]
    and [Validate*] methods the admission webhooks call.  A defaulter returns
    the object it mutated; a validator returns the warnings and the error. *)
From S2P Require Import Prelude GoError ApiTypes.

Definition Warnings := list string.

(** ** KubewardenAddon *)

Module AddonWebhook.
Import Addon.
Section WithErrors.
Context `{FE : ForeignErrors}.

Definition Default (p : KubewardenAddon) : KubewardenAddon :=
  let spec := Spec p in
  with_Spec p
    {| ClusterSelector := ClusterSelector spec;
       Version := if decide (Version spec = "") then "latest" else Version spec;
       ImageRepository :=
         if decide (ImageRepository spec = "")
         then "ghcr.io/kubewarden/kubewarden-controller:v1.18.0"
         else ImageRepository spec;
       Spec_PolicyServerConfig := Spec_PolicyServerConfig spec |}.

Definition ValidateCreate (r : KubewardenAddon) : Warnings * option error := ([], None).
Definition ValidateUpdate (r old : KubewardenAddon) : Warnings * option error := ([], None).
Definition ValidateDelete (r : KubewardenAddon) : Warnings * option error := ([], None).
End WithErrors.
End AddonWebhook.

(** ** KubewardenPolicy *)

Module PolicyWebhook.
Import Policy.
Section WithErrors.
Context `{FE : ForeignErrors}.

(** The five [if]s of [Default], in order; the last one reads the
    [PolicyType] that the first one set. *)
Definition Default (p : KubewardenPolicy) : KubewardenPolicy :=
  let spec := Spec p in
  let policyType :=
    if decide (PolicyType spec = "") then "ClusterAdmissionPolicy" else PolicyType spec in
  let policyServer :=
    if decide (PolicyServer spec = "") then "default" else PolicyServer spec in
  let failurePolicy :=
    if decide (FailurePolicy spec = "") then "Fail" else FailurePolicy spec in
  let policyName :=
    if decide (PolicyName spec = "") then Name p else PolicyName spec in
  let targetNamespace :=
    if decide (policyType = "AdmissionPolicy" /\ TargetNamespace spec = "")
    then "default" else TargetNamespace spec in
  with_Spec p
    {| ClusterSelector := ClusterSelector spec;
       PolicyType := policyType;
       PolicyName := policyName;
       TargetNamespace := targetNamespace;
       PolicyServer := policyServer;
       Module_ := Module_ spec;
       Rules := Rules spec;
       Mutating := Mutating spec;
       Settings := Settings spec;
       FailurePolicy := failurePolicy;
       MatchConditions := MatchConditions spec |}.

Definition validOps : gmap string bool :=
  {[ "CREATE" := true; "UPDATE" := true; "DELETE" := true; "CONNECT" := true ]}.

(** [validOps[op]]: a missing key reads as [false]. *)
Definition validOp (op : string) : bool := default false (validOps !! op).

Fixpoint validateOperations (i : nat) (ops : list string) : option error :=
  match ops with
  | [] => None
  | op :: ops' =>
      if negb (validOp op)
      then Some (New ("rule[" +:+ pretty i +:+ "]: invalid operation '" +:+ op +:+
                      "', must be one of: CREATE, UPDATE, DELETE, CONNECT"))
      else validateOperations i ops'
  end.

(** One iteration of the loop over the rules. *)
Definition validateRule (i : nat) (rule : PolicyRule) : option error :=
  if decide (length (APIVersions rule) = 0)
  then Some (New ("rule[" +:+ pretty i +:+ "]: apiVersions must be specified"))
  else if decide (length (Resources rule) = 0)
  then Some (New ("rule[" +:+ pretty i +:+ "]: resources must be specified"))
  else if decide (length (Operations rule) = 0)
  then Some (New ("rule[" +:+ pretty i +:+ "]: operations must be specified"))
  else validateOperations i (Operations rule).

Fixpoint validateRules (i : nat) (rules : list PolicyRule) : option error :=
  match rules with
  | [] => None
  | rule :: rules' =>
      match validateRule i rule with
      | Some err => Some err
      | None => validateRules (S i) rules'
      end
  end.

Definition validateKubewardenPolicy (p : KubewardenPolicy) : Warnings * option error :=
  let warnings : Warnings := [] in
  let spec := Spec p in
  if decide (Module_ spec = "") then (warnings, Some (New "module must be specified"))
  else if decide (length (Rules spec) = 0)
  then (warnings, Some (New "at least one rule must be specified"))
  else match validateRules 0 (Rules spec) with
  | Some err => (warnings, Some err)
  | None =>
      if decide (PolicyType spec = "AdmissionPolicy" /\ TargetNamespace spec = "")
      then (warnings, Some (New "targetNamespace must be specified for AdmissionPolicy"))
      else
        let warnings :=
          if decide (PolicyType spec = "AdmissionPolicy")
          then warnings ++ ["AdmissionPolicy requires Kubernetes 1.21.0 or greater in workload clusters"]
          else warnings in
        (warnings, None)
  end.

Definition ValidateCreate (p : KubewardenPolicy) : Warnings * option error :=
  validateKubewardenPolicy p.
Definition ValidateUpdate (p old : KubewardenPolicy) : Warnings * option error :=
  validateKubewardenPolicy p.
Definition ValidateDelete (p : KubewardenPolicy) : Warnings * option error := ([], None).

(** ** Specification *)

(** What the validator promises, as a predicate on the spec. *)
Record valid_rule (rule : PolicyRule) : Prop := {
  valid_versions : APIVersions rule <> [];
  valid_resources : Resources rule <> [];
  valid_operations : Operations rule <> [];
  valid_ops : Forall (fun op => op ∈ ["CREATE"; "UPDATE"; "DELETE"; "CONNECT"]) (Operations rule);
}.
Record valid_spec (spec : KubewardenPolicySpec) : Prop := {
  valid_module : Module_ spec <> "";
  valid_rules_nonempty : Rules spec <> [];
  valid_rules : Forall valid_rule (Rules spec);
  valid_namespace : PolicyType spec = "AdmissionPolicy" -> TargetNamespace spec <> "";
}.

(** ** Lemmas *)

Lemma validOp_spec op : validOp op = true <-> op ∈ ["CREATE"; "UPDATE"; "DELETE"; "CONNECT"].
Proof.
  unfold validOp, validOps.
  destruct (decide (op ∈ ["CREATE"; "UPDATE"; "DELETE"; "CONNECT"])) as [H|H].
  - split; [done|intros _]. set_unfold in H. destruct H as [->|[->|[->|[->|[]]]]]; done.
  - split; [|done]. set_unfold in H. rewrite !lookup_insert_ne, lookup_singleton_ne by naive_solver.
    done.
Qed.

Lemma validateOperations_None i ops :
  validateOperations i ops = None <-> Forall (fun op => validOp op = true) ops.
Proof.
  induction ops as [|op ops IH]; simpl; [by split|].
  rewrite Forall_cons. destruct (validOp op); simpl; [rewrite IH; naive_solver|].
  split; [done|naive_solver].
Qed.

Lemma validateRule_None i rule : validateRule i rule = None <-> valid_rule rule.
Proof.
  unfold validateRule. repeat case_decide.
  1-3: split; [done|]; intros [? ? ? ?];
       match goal with H : length ?l = 0 |- _ => apply nil_length_inv in H end; done.
  rewrite validateOperations_None. split.
  - intros Hops. constructor; [by intros E; rewrite E in *..|].
    eapply Forall_impl; [exact Hops|]. intros op. apply validOp_spec.
  - intros [_ _ _ Hops]. eapply Forall_impl; [exact Hops|]. intros op. apply validOp_spec.
Qed.

Lemma validateRules_None i rules : validateRules i rules = None <-> Forall valid_rule rules.
Proof.
  revert i. induction rules as [|r rules IH]; intros i; simpl; [by split|].
  rewrite Forall_cons. destruct (validateRule i r) as [e|] eqn:E.
  - split; [done|]. intros [Hr _]. apply (validateRule_None i) in Hr. congruence.
  - apply validateRule_None in E. rewrite IH. naive_solver.
Qed.

Lemma validateRules_Some i rules e :
  validateRules i rules = Some e ->
  exists pre r post, rules = pre ++ r :: post /\ Forall valid_rule pre /\
                     validateRule (i + length pre) r = Some e.
Proof.
  revert i. induction rules as [|r rules IH]; intros i; simpl; [done|].
  destruct (validateRule i r) as [e'|] eqn:E.
  - intros [= <-]. exists [], r, rules. split_and!; [done..|]. simpl. by rewrite Nat.add_0_r.
  - intros (pre & r' & post & -> & Hpre & He)%IH. exists (r :: pre), r', post.
    split_and!; [done| |by simpl; rewrite Nat.add_succ_r].
    constructor; [by apply (validateRule_None i)|done].
Qed.

Lemma validate_valid p :
  (validateKubewardenPolicy p).2 = None <-> valid_spec (Spec p).
Proof.
  unfold validateKubewardenPolicy.
  destruct (decide (Module_ _ = "")) as [Hm|Hm]; [by split; [|intros []]|].
  destruct (decide (length _ = 0)) as [Hl|Hl].
  { apply nil_length_inv in Hl. by split; [|intros []]. }
  destruct (validateRules _ _) as [e|] eqn:E.
  { split; [done|]. intros [_ _ Hr _]. apply (validateRules_None 0) in Hr. congruence. }
  apply validateRules_None in E.
  destruct (decide (_ /\ _)) as [[Ht Hn]|Hn]; simpl.
  { split; [done|]. intros [_ _ _ H]. by apply H in Ht. }
  split; [|done]. intros _. constructor; [done| |done|naive_solver].
  by intros Hr; rewrite Hr in Hl.
Qed.

(** ** Theorems *)

(** C26: the validator accepts a policy exactly when its specification is
    valid: a module, at least one rule, every rule with versions, resources
    and operations out of the four admission operations, and a target
    namespace for an AdmissionPolicy. *)
Theorem validate_iff_valid p :
  (validateKubewardenPolicy p).2 = None <-> valid_spec (Spec p).
Proof. apply validate_valid. Qed.

(** When a module is given and some rule is invalid, the error is the one
    of the first invalid rule, and names its index. *)
Theorem validate_rule_error_first p e :
  Module_ (Spec p) <> "" -> validateRules 0 (Rules (Spec p)) = Some e ->
  (validateKubewardenPolicy p).2 = Some e /\
  exists i r, Rules (Spec p) !! i = Some r /\ validateRule i r = Some e /\
    forall j r', j < i -> Rules (Spec p) !! j = Some r' -> valid_rule r'.
Proof.
  intros Hm He. split.
  - unfold validateKubewardenPolicy. rewrite decide_False by done.
    rewrite decide_False by (destruct (Rules (Spec p)); [done|simpl; lia]). by rewrite He.
  - destruct (validateRules_Some _ _ _ He) as (pre & r & post & Hr & Hpre & Hi).
    exists (length pre), r. rewrite Hr. split_and!; [by apply list_lookup_middle|done|].
    intros j r' Hj. rewrite lookup_app_l by done. intros Hl.
    by eapply Forall_lookup_1.
Qed.

(** Defaulting twice is defaulting once. *)
Theorem Default_idempotent p : Default (Default p) = Default p.
Proof.
  destruct p as [tm om sp st]. unfold Default, with_Spec. simpl. do 2 f_equal.
  - repeat case_decide; naive_solver.
  - repeat case_decide; naive_solver.
  - repeat case_decide; naive_solver.
  - repeat case_decide; naive_solver.
  - repeat case_decide; naive_solver.
Qed.

(** Defaulting makes the namespace check unreachable.  After the
    defaulting webhook a policy is accepted exactly when it has a module and
    valid rules: a missing target namespace of an AdmissionPolicy has become
    "default", and is never rejected. *)
Theorem defaulted_policy_accepted p :
  (validateKubewardenPolicy (Default p)).2 = None <->
  Module_ (Spec p) <> "" /\ Rules (Spec p) <> [] /\ Forall valid_rule (Rules (Spec p)).
Proof.
  rewrite validate_valid. unfold Default. split.
  - by intros [Hm Hr Hv _].
  - intros (Hm & Hr & Hv). constructor; [done..|]. simpl. intros Ht. rewrite Ht.
    destruct (decide (_ /\ _)) as [_|Hn]; [done|naive_solver].
Qed.
End WithErrors.
End PolicyWebhook.
