(* ===== verification/Platform.v ===== *)
(** * Platform: everything outside the repository

    The libraries and services the program calls (controller-runtime clients and
    the API servers behind them, apimachinery's selectors and decoders, Cluster
    API's condition helpers and remote clients, Helm, the operating system) are
    parameters of the development: the opaque types and pure functions are the
    fields of the class [Platform], the calls with effects are the actions of
    the signature [GoSignature], answered by an arbitrary environment. *)
From S2P Require Import Prelude GoProg GoError ApiTypes.

(** ** Library shapes *)

(** admissionregistration/v1 *)
Record RuleWithOperations := {
  rwo_Operations : list string;
  rwo_APIGroups : list string;
  rwo_APIVersions : list string;
  rwo_Resources : list string;
  rwo_Scope : option string;
}.
Record AdmissionMatchCondition := { amc_Name : string; amc_Expression : string }.

(** kubewarden-controller api/policies/v1.  [Mode] is a field of the library's
    type that the program never sets. *)
Record PolicySpec := {
  ps_PolicyServer : string;
  ps_Module : string;
  ps_Mode : string;
  ps_Mutating : bool;
  ps_Rules : list RuleWithOperations;
  ps_FailurePolicy : option string;
  ps_Settings : RawExtension;
  ps_MatchConditions : list AdmissionMatchCondition;
}.
Record ClusterAdmissionPolicy := {
  cap_ObjectMeta :> ObjectMeta;
  cap_Spec : PolicySpec;
  cap_PolicyStatus : string;
}.
Record AdmissionPolicy := {
  ap_ObjectMeta :> ObjectMeta;
  ap_Spec : PolicySpec;
  ap_PolicyStatus : string;
}.

(** JSON-like values: Helm values, and the JSON text of a raw patch, parsed. *)
Inductive value : Type :=
| VString (s : string)
| VList (l : list value)
| VMap (m : list (string * value)).

(** helm.sh/helm/v3/pkg/action *)
Record ChartPathOptions := { RepoURL : string; cpo_Version : string }.
Record Install := {
  ClientOnly : bool;
  DryRun : bool;
  ins_ReleaseName : string;
  ins_IncludeCRDs : bool;
  ins_Namespace : string;
  DisableHooks : bool;
}.

Inductive PatchType := StrategicMergePatchType | MergePatchType.

(** controller-runtime: [ctrl.Result], durations in nanoseconds. *)
Record Result := { Requeue : bool; RequeueAfter : Z }.
Definition Second : Z := 1000000000.
Definition Minute : Z := 60 * Second.

Class Platform := {
  platform_errors :: ForeignErrors;
  (** apimachinery/pkg/api/errors *)
  IsNotFound : ext_error -> bool;
  IsAlreadyExists : ext_error -> bool;
  (** apimachinery label selectors *)
  Selector : Type;
  LabelSelectorAsSelector : LabelSelector -> ext_error + Selector;
  Matches : Selector -> gmap string string -> bool;
  (** cluster-api *)
  ControlPlaneReadyCondition : string;
  IsTrue : Cluster -> string -> bool;
  (** The handle of a client connected to a workload cluster. *)
  remote_client : Type;
  (** kubewarden-controller: the constant [PolicyStatusActive]. *)
  PolicyStatusActive : string;
  (** apimachinery's decoder: the object, the kind it found (nil if none) and
      the error of one [Decode] call on raw bytes; and the cast to
      [client.Object]. *)
  runtime_object : Type;
  client_object : Type;
  GroupVersionKind : Type;
  UniversalDecode : string -> option runtime_object * option GroupVersionKind * option ext_error;
  as_client_object : runtime_object -> option client_object;
  (** The name of a decoded object's Go type, as [%T] prints it. *)
  client_object_type : client_object -> string;
  (** Open files; the results of successive [Decode] calls of a YAML decoder on
      the file before [io.EOF] (an error or the raw bytes of a document). *)
  file : Type;
  file_Name : file -> string;
  yaml_documents : file -> list (ext_error + string);
  (** Byte sources of [io.Copy]; the results of successive [Next] calls of a tar
      reader on the decompressed stream before [io.EOF] (an error, or the type
      flag, the name and the content of an entry). *)
  reader : Type;
  gzip_reader : Type;
  tar_entries : gzip_reader -> list (ext_error + (Z * string * reader));
  (** Helm *)
  EnvSettings : Type;
  chart : Type;
}.

(** [tar.TypeDir] is the byte ['5']. *)
Definition TypeDir : Z := 53.
(** [http.StatusOK] *)
Definition StatusOK : Z := 200.

Section Actions.
Context `{P : Platform}.

(** The management cluster's client [r.Client], or a workload cluster's. *)
Inductive client :=
| Management
| Remote (rc : remote_client).

(** The objects the program creates, updates, deletes or patches. *)
Inductive object :=
| ONamespace (name : string)
| OCluster (c : Cluster)
| OAddon (a : Addon.KubewardenAddon)
| OPolicy (p : Policy.KubewardenPolicy)
| OClusterAdmissionPolicy (p : ClusterAdmissionPolicy)
| OAdmissionPolicy (p : AdmissionPolicy)
| ODeployment (name namespace : string)
| OUnstructured (apiVersion kind name namespace : string)
| ODecoded (o : client_object).

(** [fmt.Sprintf("%T", o)] *)
Definition object_type (o : object) : string :=
  match o with
  | ONamespace _ => "*v1.Namespace"
  | OCluster _ => "*v1beta1.Cluster"
  | OAddon _ => "*v1alpha1.KubewardenAddon"
  | OPolicy _ => "*v1alpha1.KubewardenPolicy"
  | OClusterAdmissionPolicy _ => "*v1.ClusterAdmissionPolicy"
  | OAdmissionPolicy _ => "*v1.AdmissionPolicy"
  | ODeployment _ _ => "*v1.Deployment"
  | OUnstructured _ _ _ _ => "*unstructured.Unstructured"
  | ODecoded o => client_object_type o
  end.

Inductive patch :=
| MergeFrom (base : object)
| RawPatch (t : PatchType) (data : value).

(** The kinds of object the program reads one of. *)
Inductive kind := KAddon | KPolicy | KClusterAdmissionPolicy | KAdmissionPolicy.
Definition kind_object (k : kind) : Type :=
  match k with
  | KAddon => Addon.KubewardenAddon
  | KPolicy => Policy.KubewardenPolicy
  | KClusterAdmissionPolicy => ClusterAdmissionPolicy
  | KAdmissionPolicy => AdmissionPolicy
  end.

Record Response := { StatusCode : Z; Body : reader }.

Inductive go_action :=
(* controller-runtime clients *)
| AGet (c : client) (key : NamespacedName) (k : kind)
| AListClusters (c : client) (ns : string) (sel : option Selector)
| AListAddons (c : client)
| AListPolicies (c : client) (ns : string)
| ACreate (c : client) (o : object)
| AUpdate (c : client) (o : object)
| ADelete (c : client) (o : object)
| APatch (c : client) (o : object) (p : patch)
| AStatusUpdate (c : client) (o : object)
| AStatusPatch (c : client) (o : object) (p : patch)
(* r.RemoteClientGetter *)
| ARemoteClient (sourceName : string) (cluster : NamespacedName)
(* logging of swallowed errors, the clock *)
| ALogError (err : option error) (msg : string)
| ANow
(* net/http, os, io, compress/gzip, path/filepath *)
| AHttpGet (url : string)
| ACloseBody (body : reader)
| ACreateTemp (dir pattern : string)
| AMkdirTemp (dir pattern : string)
| AOpen (path : string)
| ACreateFile (path : string)
| AClose (f : file)
| AWriteString (f : file) (s : string)
| ACopy (dst : file) (src : reader)
| ARemove (path : string)
| ARemoveAll (path : string)
| AGlob (pattern : string)
| AGzipReader (f : file)
| AGzipClose (g : gzip_reader)
| AGetenv (name : string)
(* Helm *)
| AHelmSettings
| AHelmInit (s : EnvSettings) (ns driver : string)
| ALocateChart (o : ChartPathOptions) (name : string) (s : EnvSettings)
| ALoadChart (path : string)
| AHelmRun (i : Install) (c : chart) (values : list (string * value)).

Definition go_result (a : go_action) : Type :=
  match a with
  | AGet _ _ k => ext_error + kind_object k
  | AListClusters _ _ _ => ext_error + list Cluster
  | AListAddons _ => ext_error + Addon.KubewardenAddonList
  | AListPolicies _ _ => ext_error + Policy.KubewardenPolicyList
  | ACreate _ _ | AUpdate _ _ | ADelete _ _ | APatch _ _ _
  | AStatusUpdate _ _ | AStatusPatch _ _ _ => option ext_error
  | ARemoteClient _ _ => ext_error + remote_client
  | ALogError _ _ => unit
  | ANow => Time
  | AHttpGet _ => ext_error + Response
  | ACreateTemp _ _ | AOpen _ | ACreateFile _ => ext_error + file
  | AMkdirTemp _ _ => ext_error + string
  | ACloseBody _ | AClose _ | AWriteString _ _ | ACopy _ _ | ARemove _ | ARemoveAll _
  | AGzipClose _ => option ext_error
  | AGlob _ => ext_error + list string
  | AGzipReader _ => ext_error + gzip_reader
  | AGetenv _ => string
  | AHelmSettings => EnvSettings
  | AHelmInit _ _ _ => option ext_error
  | ALocateChart _ _ _ => ext_error + string
  | ALoadChart _ => ext_error + chart
  | AHelmRun _ _ _ => ext_error + string
  end%type.

#[global] Instance GoSignature : Signature :=
  {| action := go_action; result := go_result |}.

(** ** The calls, with Go's names *)

Definition Get (c : client) (key : NamespacedName) (k : kind) : prog (ext_error + kind_object k) :=
  call (AGet c key k).
Definition ListClusters (c : client) (ns : string) (sel : option Selector)
  : prog (ext_error + list Cluster) := call (AListClusters c ns sel).
Definition ListAddons (c : client) : prog (ext_error + Addon.KubewardenAddonList) :=
  call (AListAddons c).
Definition ListPolicies (c : client) (ns : string) : prog (ext_error + Policy.KubewardenPolicyList) :=
  call (AListPolicies c ns).
Definition Create (c : client) (o : object) : prog (option ext_error) := call (ACreate c o).
Definition Update (c : client) (o : object) : prog (option ext_error) := call (AUpdate c o).
Definition Delete (c : client) (o : object) : prog (option ext_error) := call (ADelete c o).
Definition Patch (c : client) (o : object) (p : patch) : prog (option ext_error) := call (APatch c o p).
Definition StatusUpdate (c : client) (o : object) : prog (option ext_error) := call (AStatusUpdate c o).
Definition StatusPatch (c : client) (o : object) (p : patch) : prog (option ext_error) :=
  call (AStatusPatch c o p).
Definition RemoteClientGetter (sourceName : string) (cluster : NamespacedName)
  : prog (ext_error + remote_client) := call (ARemoteClient sourceName cluster).
Definition LogError (err : option error) (msg : string) : prog unit := call (ALogError err msg).
Definition Now : prog Time := call ANow.
Definition HttpGet (url : string) : prog (ext_error + Response) := call (AHttpGet url).
Definition CloseBody (b : reader) : prog (option ext_error) := call (ACloseBody b).
Definition CreateTemp (dir pattern : string) : prog (ext_error + file) := call (ACreateTemp dir pattern).
Definition MkdirTemp (dir pattern : string) : prog (ext_error + string) := call (AMkdirTemp dir pattern).
Definition Open (path : string) : prog (ext_error + file) := call (AOpen path).
Definition CreateFile (path : string) : prog (ext_error + file) := call (ACreateFile path).
Definition Close (f : file) : prog (option ext_error) := call (AClose f).
Definition WriteString (f : file) (s : string) : prog (option ext_error) := call (AWriteString f s).
Definition Copy (dst : file) (src : reader) : prog (option ext_error) := call (ACopy dst src).
Definition Remove (path : string) : prog (option ext_error) := call (ARemove path).
Definition RemoveAll (path : string) : prog (option ext_error) := call (ARemoveAll path).
Definition Glob (pattern : string) : prog (ext_error + list string) := call (AGlob pattern).
Definition GzipReader (f : file) : prog (ext_error + gzip_reader) := call (AGzipReader f).
Definition GzipClose (g : gzip_reader) : prog (option ext_error) := call (AGzipClose g).
Definition Getenv (name : string) : prog string := call (AGetenv name).
Definition HelmSettings : prog EnvSettings := call AHelmSettings.
Definition HelmInit (s : EnvSettings) (ns driver : string) : prog (option ext_error) :=
  call (AHelmInit s ns driver).
Definition LocateChart (o : ChartPathOptions) (name : string) (s : EnvSettings)
  : prog (ext_error + string) := call (ALocateChart o name s).
Definition LoadChart (path : string) : prog (ext_error + chart) := call (ALoadChart path).
Definition HelmRun (i : Install) (c : chart) (values : list (string * value))
  : prog (ext_error + string) := call (AHelmRun i c values).

(** A deferred call whose error is only printed. *)
Definition ignore_error {E} (p : prog (option E)) : prog unit := bind p (fun _ => ret tt).
End Actions.
