(* ===== verification/Traces.v ===== *)
(** * Traces: what a trace of calls says about the outside

    Classification of actions (which client they act on, what they acquire and
    release) and the facts a trace records: objects created, manifests applied,
    resources held. *)
From S2P Require Import Prelude GoProg GoError ApiTypes Platform.

(** Turns the named calls of Platform.v into [call] in a hypothesis. *)
Ltac unfold_calls_in H :=
  unfold Get, ListClusters, ListAddons, ListPolicies, Create, Update, Delete, Patch,
    StatusUpdate, StatusPatch, RemoteClientGetter, LogError, Now, HttpGet, CloseBody,
    CreateTemp, MkdirTemp, Open, CreateFile, Close, WriteString, Copy, Remove, RemoveAll,
    Glob, GzipReader, GzipClose, Getenv, HelmSettings, HelmInit, LocateChart, LoadChart,
    HelmRun, ignore_error in H.
Ltac unfold_calls :=
  unfold Get, ListClusters, ListAddons, ListPolicies, Create, Update, Delete, Patch,
    StatusUpdate, StatusPatch, RemoteClientGetter, LogError, Now, HttpGet, CloseBody,
    CreateTemp, MkdirTemp, Open, CreateFile, Close, WriteString, Copy, Remove, RemoveAll,
    Glob, GzipReader, GzipClose, Getenv, HelmSettings, HelmInit, LocateChart, LoadChart,
    HelmRun, ignore_error in *.

Section Traces.
Context `{P : Platform}.
Implicit Types (t : list event) (c : client).

(** The client an action goes through, if any. *)
Definition action_client (a : go_action) : option client :=
  match a with
  | AGet c _ _ | AListClusters c _ _ | AListAddons c | AListPolicies c _
  | ACreate c _ | AUpdate c _ | ADelete c _ | APatch c _ _
  | AStatusUpdate c _ | AStatusPatch c _ _ => Some c
  | _ => None
  end.

(** Reading is not a write; every other call through a client is. *)
Definition is_write (a : go_action) : bool :=
  match a with
  | ACreate _ _ | AUpdate _ _ | ADelete _ _ | APatch _ _ _
  | AStatusUpdate _ _ | AStatusPatch _ _ _ => true
  | _ => false
  end.

(** Calls that do not go through the management cluster's client and do not
    obtain a remote client either: what installing on one cluster may do. *)
Definition on_remote (c : client) (a : go_action) : Prop :=
  match action_client a with
  | Some c' => c' = c
  | None => match a with ARemoteClient _ _ => False | _ => True end
  end.
(** Calls to the local host (files, network, Helm, clock, log). *)
Definition on_host (a : go_action) : Prop :=
  action_client a = None /\ match a with ARemoteClient _ _ => False | _ => True end.

Lemma on_host_remote c a : on_host a -> on_remote c a.
Proof. unfold on_host, on_remote. intros [-> H]. done. Qed.

(** The API server accepted the creation, or the object was already there. *)
Definition ensured (t : list event) (c : client) (o : object) : Prop :=
  exists r : option ext_error, @Ev GoSignature (ACreate c o) r ∈ t /\
    match r with None => True | Some e => IsAlreadyExists e = true end.

(** The objects of a manifest up to the first document that is not one. *)
Fixpoint applicable (docs : list (ext_error + string)) : list client_object :=
  match docs with
  | inr raw :: docs' =>
      match UniversalDecode raw with
      | (Some ro, Some _, None) =>
          match as_client_object ro with
          | Some obj => obj :: applicable docs'
          | None => []
          end
      | _ => []
      end
  | _ => []
  end.

(** The manifest at [path] was opened and its objects ensured on [c]. *)
Definition manifest_applied (t : list event) (c : client) (path : string) : Prop :=
  exists f : file, @Ev GoSignature (AOpen path) (inr f) ∈ t /\
    Forall (fun obj => ensured t c (ODecoded obj)) (applicable (yaml_documents f)).

Lemma ensured_mono t t' c o : t ⊆ t' -> ensured t c o -> ensured t' c o.
Proof. intros Ht (r & Hr & H). exists r. auto. Qed.
Lemma manifest_applied_mono t t' c path :
  t ⊆ t' -> manifest_applied t c path -> manifest_applied t' c path.
Proof.
  intros Ht (f & Hf & H). exists f. split; [auto|].
  eapply Forall_impl; [exact H|]. eauto using ensured_mono.
Qed.

(** The answer of a list of clusters, the error of a read. *)
Definition answered_clusters (e : event) : option (list Cluster) :=
  match e with Ev (AListClusters _ _ _) (inr cs) => Some cs | _ => None end.
Definition answered_get_error (e : event) : option ext_error :=
  match e with Ev (AGet _ _ _) (inl err) => Some err | _ => None end.

(** ** Resources: open files, response bodies and gzip readers *)

Inductive resource := RFile (f : file) | RBody (b : reader) | RGzip (g : gzip_reader).

Definition acquired (e : event) : list resource :=
  match e with
  | Ev (AOpen _) (inr f) | Ev (ACreateTemp _ _) (inr f) | Ev (ACreateFile _) (inr f) => [RFile f]
  | Ev (AHttpGet _) (inr r) => [RBody (Body r)]
  | Ev (AGzipReader _) (inr g) => [RGzip g]
  | _ => []
  end.
Definition released (e : event) : list resource :=
  match e with
  | Ev (AClose f) _ => [RFile f]
  | Ev (ACloseBody b) _ => [RBody b]
  | Ev (AGzipClose g) _ => [RGzip g]
  | _ => []
  end.

(** Everything acquired is released exactly once. *)
Definition balanced (t : list event) : Prop :=
  flat_map acquired t ≡ₚ flat_map released t.

Lemma balanced_nil : balanced [].
Proof. apply perm_nil. Qed.
Lemma balanced_app t1 t2 : balanced t1 -> balanced t2 -> balanced (t1 ++ t2).
Proof. unfold balanced. rewrite !flat_map_app. by intros -> ->. Qed.
(** A resource acquired by [e], released by [e'] after a balanced body. *)
Lemma balanced_bracket e t e' :
  acquired e = released e' -> released e = [] -> acquired e' = [] ->
  balanced t -> balanced (e :: t ++ [e']).
Proof.
  unfold balanced. intros He Hr Ha Ht. simpl. rewrite !flat_map_app. simpl.
  rewrite He, Hr, Ha, Ht, !app_nil_r. simpl. by rewrite Permutation_app_comm.
Qed.
Lemma balanced_neutral e : acquired e = [] -> released e = [] -> balanced [e].
Proof. unfold balanced. simpl. by intros -> ->. Qed.
Lemma balanced_cons e t : acquired e = [] -> released e = [] -> balanced t -> balanced (e :: t).
Proof. intros. apply (balanced_app [e] t); [by apply balanced_neutral|done]. Qed.
End Traces.

#[export] Hint Resolve balanced_nil : within.

(** ** Membership in concatenated traces *)

Section Membership.
Context {A : Type}.
Implicit Types (l : list A) (x : A).

Lemma in_app_l x l1 l2 : x ∈ l1 -> x ∈ l1 ++ l2.
Proof. rewrite elem_of_app. by left. Qed.
Lemma in_app_r x l1 l2 : x ∈ l2 -> x ∈ l1 ++ l2.
Proof. rewrite elem_of_app. by right. Qed.
Lemma sub_refl l : l ⊆ l.
Proof. done. Qed.
Lemma sub_nil l : [] ⊆ l.
Proof. intros x Hx. inversion Hx. Qed.
Lemma sub_app_l l l1 l2 : l ⊆ l1 -> l ⊆ l1 ++ l2.
Proof. intros H x Hx. apply in_app_l. auto. Qed.
Lemma sub_app_r l l1 l2 : l ⊆ l2 -> l ⊆ l1 ++ l2.
Proof. intros H x Hx. apply in_app_r. auto. Qed.
Lemma sub_cons l x l1 : l ⊆ l1 -> l ⊆ x :: l1.
Proof. intros H y Hy. apply list_elem_of_further. auto. Qed.
Lemma sub_app l1 l2 l : l1 ⊆ l -> l2 ⊆ l -> l1 ++ l2 ⊆ l.
Proof. intros H1 H2 x [?|?]%elem_of_app; auto. Qed.
End Membership.

Create HintDb trace.
#[export] Hint Resolve in_app_l in_app_r list_elem_of_here list_elem_of_further
  sub_refl sub_nil sub_app_l sub_app_r sub_cons sub_app : trace.

(** [in_tac]: an event is in a concatenation of traces, or a trace is part of
    one. *)
Ltac in_tac := solve [eauto 40 with trace nocore].

(** ** Programs that release what they acquire *)

Section Balanced.
Context `{P : Platform}.

Definition balanced_prog {A} (p : prog A) : Prop :=
  forall t a, runs p t a -> balanced t.

Lemma bp_ret {A} (a : A) : balanced_prog (ret a).
Proof. intros t b [-> _]. apply balanced_nil. Qed.

Lemma bp_bind {A B} (p : prog A) (f : A -> prog B) :
  balanced_prog p -> (forall a, balanced_prog (f a)) -> balanced_prog (bind p f).
Proof.
  intros Hp Hf t b (t1 & a & t2 & -> & H1 & H2)%runs_bind.
  apply balanced_app; [by eapply Hp|by eapply Hf].
Qed.

Lemma bp_call c :
  (forall r, @acquired P (Ev c r) = [] /\ @released P (Ev c r) = []) -> balanced_prog (call c).
Proof. intros H t r ->%runs_call. apply balanced_neutral; apply H. Qed.

Lemma bp_defer {A} (cl : prog unit) (p : prog A) :
  balanced_prog cl -> balanced_prog p -> balanced_prog (defer cl p).
Proof.
  intros Hc Hp t a (t1 & t2 & -> & H1 & H2)%runs_defer.
  apply balanced_app; [by eapply Hp|by eapply Hc].
Qed.

Lemma bp_for_range {X S R} (l : list X) (s : S) (body : X -> S -> prog (flow S R)) :
  (forall x s, balanced_prog (body x s)) -> balanced_prog (for_range l s body).
Proof.
  intros Hb. revert s. induction l as [|x l IH]; intros s; simpl; [apply bp_ret|].
  apply bp_bind; [done|]. intros [s'|r]; [apply IH|apply bp_ret].
Qed.

(** [x, err := acquire(); if err == nil { defer release(x) }]: on each answer
    the continuation either acquired nothing, or defers the release of what
    it acquired around a balanced body. *)
Lemma bp_bracket {A} c (k : result c -> prog A) :
  (forall r, @released P (Ev c r) = []) ->
  (forall r, (@acquired P (Ev c r) = [] /\ balanced_prog (k r)) \/
    exists cl body, k r = defer (bind (call cl) (fun _ => ret tt)) body /\
      (forall r', @acquired P (Ev c r) = @released P (Ev cl r') /\ @acquired P (Ev cl r') = []) /\
      balanced_prog body) ->
  balanced_prog (bind (call c) k).
Proof.
  intros Hrel Hk t a (t1 & r & t2 & -> & ->%runs_call & H2)%runs_bind. simpl.
  destruct (Hk r) as [[Ha Hp]|(cl & body & Hkr & Hcl & Hb)].
  - apply balanced_cons; [done..|]. by eapply Hp.
  - rewrite Hkr in H2.
    apply runs_defer in H2 as (t3 & t4 & -> & H3 & (t5 & r' & t6 & -> & ->%runs_call & [-> _])%runs_bind).
    rewrite app_nil_r. destruct (Hcl r') as [E1 E2]. apply balanced_bracket; [done..|].
    by eapply Hb.
Qed.

Lemma within_call (K : go_action -> Prop) (c : go_action) : K c -> within K (@call GoSignature c).
Proof. by split. Qed.
End Balanced.

#[export] Hint Resolve bp_ret : within.

(** A call that acquires nothing; an acquisition whose failing answer returns
    and whose successful answer defers the release. *)
Ltac bp_neutral c k :=
  refine (bp_bind (call c) k (bp_call c _) _); [solve [intros ?; split; reflexivity]|intros ?].
Ltac bp_acquire c k :=
  refine (bp_bracket c k _ _); [solve [by intros []]|];
  intros [?|?]; [left; split; [reflexivity|]|right];
  [|eexists _, _; split; [reflexivity|]; split; [by intros ?|]].

Ltac bp_tac :=
  repeat (cbv zeta; first
    [ assumption
    | solve [auto with within nocore]
    | match goal with
      | |- balanced_prog (bind (call ?c) ?k) => first [bp_neutral c k | bp_acquire c k]
      | |- balanced_prog (call ?c) => refine (bp_call c _); intros ?; split; reflexivity
      | |- balanced_prog (bind (bind _ _) _) => apply bp_bind; [|intros ?]
      | |- balanced_prog (bind (match _ with _ => _ end) _) => apply bp_bind; [|intros ?]
      | |- balanced_prog (match ?x with _ => _ end) => destruct x
      | |- balanced_prog (for_range _ _ _) => apply bp_for_range; intros ? ?
      | |- balanced_prog (bind _ _) => apply bp_bind; [|intros ?]
      end ]).

(** Closes the footprint of one call, by computation. *)
Ltac action_tac :=
  first [ exact I | exact eq_refl | split; first [exact eq_refl | exact I] | discriminate ].
#[export] Hint Extern 1 (within ?K (call ?c)) =>
  refine (within_call K c _); solve [action_tac] : within.
#[export] Hint Extern 1 (on_host _) => solve [action_tac] : within.
#[export] Hint Extern 1 (on_remote _ _) => solve [action_tac] : within.

(** ** Environments that answer without errors *)

Section OkAnswers.
Context `{P : Platform}.

(** The answer is not an error, and an HTTP answer has status 200. *)
Definition ok_event (e : event) : bool :=
  match e with
  | Ev (AHttpGet _) r => match r with inl _ => false | inr r => (StatusCode r =? StatusOK)%Z end
  | Ev (AGet _ _ _) r => match r with inl _ => false | inr _ => true end
  | Ev (AListClusters _ _ _) r => match r with inl _ => false | inr _ => true end
  | Ev (AListAddons _) r => match r with inl _ => false | inr _ => true end
  | Ev (AListPolicies _ _) r => match r with inl _ => false | inr _ => true end
  | Ev (ARemoteClient _ _) r => match r with inl _ => false | inr _ => true end
  | Ev (ACreateTemp _ _) r | Ev (AOpen _) r | Ev (ACreateFile _) r =>
      match r with inl _ => false | inr _ => true end
  | Ev (AMkdirTemp _ _) r => match r with inl _ => false | inr _ => true end
  | Ev (AGlob _) r => match r with inl _ => false | inr _ => true end
  | Ev (AGzipReader _) r => match r with inl _ => false | inr _ => true end
  | Ev (ALocateChart _ _ _) r => match r with inl _ => false | inr _ => true end
  | Ev (ALoadChart _) r => match r with inl _ => false | inr _ => true end
  | Ev (AHelmRun _ _ _) r => match r with inl _ => false | inr _ => true end
  | Ev (ACreate _ _) r | Ev (AUpdate _ _) r | Ev (ADelete _ _) r | Ev (APatch _ _ _) r
  | Ev (AStatusUpdate _ _) r | Ev (AStatusPatch _ _ _) r
  | Ev (ACloseBody _) r | Ev (AClose _) r | Ev (AWriteString _ _) r | Ev (ACopy _ _) r
  | Ev (ARemove _) r | Ev (ARemoveAll _) r | Ev (AGzipClose _) r | Ev (AHelmInit _ _ _) r =>
      match r with None => true | Some _ => false end
  | Ev (ALogError _ _) _ | Ev ANow _ | Ev (AGetenv _) _ | Ev AHelmSettings _ => true
  end.

(** An archive without unreadable entries, a manifest whose documents are all
    objects. *)
Definition readable_archive (g : gzip_reader) : Prop :=
  Forall (fun e => match e with inl _ => False | inr _ => True end) (tar_entries g).
Definition readable_manifest (f : file) : Prop :=
  Forall (fun d => match d with
    | inl _ => False
    | inr raw => exists ro k obj,
        UniversalDecode raw = (Some ro, Some k, None) /\ as_client_object ro = Some obj
    end) (yaml_documents f).

(** The archives of a trace, and its manifests: the files opened and then at
    once applied or closed (an archive is opened and then decompressed). *)
Definition archive_read (e : event) : option gzip_reader :=
  match e with Ev (AGzipReader _) (inr g) => Some g | _ => None end.
Definition file_opened (e : event) : option file :=
  match e with Ev (AOpen _) (inr f) => Some f | _ => None end.
Definition applying (t : list event) : bool :=
  match t with Ev (ACreate _ _) _ :: _ | Ev (AClose _) _ :: _ => true | _ => false end.
Fixpoint manifests_read (t : list event) : list file :=
  match t with
  | [] => []
  | e :: t' => (if applying t' then option_list (file_opened e) else []) ++ manifests_read t'
  end.

(** No answer is an error, and what the answers lead to can be read. *)
Definition all_ok (t : list event) : Prop :=
  forallb ok_event t = true /\ Forall readable_archive (omap archive_read t) /\
  Forall readable_manifest (manifests_read t).

Lemma manifests_read_app_l t1 t2 : manifests_read t1 ⊆ manifests_read (t1 ++ t2).
Proof.
  induction t1 as [|e t1 IH]; simpl; [apply sub_nil|]. apply sub_app; [|by apply sub_app_r].
  destruct t1 as [|e' t1]; [apply sub_nil|]. simpl. by apply sub_app_l.
Qed.
Lemma manifests_read_app_r t1 t2 : manifests_read t2 ⊆ manifests_read (t1 ++ t2).
Proof. induction t1 as [|e t1 IH]; simpl; [done|]. by apply sub_app_r. Qed.

Lemma Forall_sub {A} (Q : A -> Prop) l l' : l' ⊆ l -> Forall Q l -> Forall Q l'.
Proof. intros Hl. rewrite !Forall_forall. auto. Qed.

Lemma all_ok_app t1 t2 : all_ok (t1 ++ t2) -> all_ok t1 /\ all_ok t2.
Proof.
  unfold all_ok. rewrite forallb_app, omap_app, Forall_app.
  intros ([H1 H2]%andb_true_iff & [H3 H4] & H5).
  split; (split_and!; [done|done|]); (eapply Forall_sub; [|exact H5]);
    [apply manifests_read_app_l|apply manifests_read_app_r].
Qed.
Lemma all_ok_cons e t : all_ok (e :: t) -> ok_event e = true /\ all_ok t.
Proof.
  intros H. split; [by destruct H as [[H _]%andb_true_iff _]|].
  by apply (all_ok_app [e] t) in H as [_ H].
Qed.
(** The reads that the trace's answers make possible succeed. *)
Lemma all_ok_archive t f g : all_ok t -> @Ev GoSignature (AGzipReader f) (inr g) ∈ t -> readable_archive g.
Proof.
  intros (_ & H & _) Hin. rewrite Forall_forall in H. apply H, list_elem_of_omap. by eexists.
Qed.
Lemma all_ok_manifest path f t :
  all_ok (@Ev GoSignature (AOpen path) (inr f) :: t) -> applying t = true -> readable_manifest f.
Proof. intros (_ & _ & H) Ht. simpl in H. rewrite Ht in H. by inversion H. Qed.
End OkAnswers.

(** Splits the [all_ok] hypotheses and refutes the failing answers. *)
Ltac ok_inv :=
  repeat match goal with
  | H : all_ok (_ ++ _) |- _ => apply all_ok_app in H; destruct H
  | H : all_ok (_ :: _) |- _ => apply all_ok_cons in H; destruct H
  | H : ok_event _ = true |- _ =>
      cbn in H; try discriminate; try match type of H with true = true => clear H end
  end.

(** ** Runs of small pieces *)

Section Pieces.
Context `{P : Platform}.

(** [log.Error(...); return nil] *)
Lemma runs_log_nil {A} err msg t (r : list A) :
  runs (bind (LogError err msg) (fun _ => ret [])) t r <->
  t = [@Ev GoSignature (ALogError err msg) tt] /\ r = [].
Proof.
  unfold LogError. rewrite runs_bind. split.
  - intros (t1 & [] & t2 & -> & ->%(@runs_call GoSignature) & [-> ->]%runs_ret). done.
  - intros [-> ->]. exists [@Ev GoSignature (ALogError err msg) tt], tt, [].
    split_and!; [done|by apply (@runs_call GoSignature)|done].
Qed.
End Pieces.
