(* ===== verification/GoPath.v ===== *)
(** * GoPath: strings.Split, strings.Join and path/filepath on Unix

    [Clean] follows the standard library's algorithm on the elements between
    slashes: empty and ["."] elements are dropped, [".."] removes the element
    before it, and at the start of a relative path it stays. *)
From Stdlib Require Import Ascii.
From S2P Require Import Prelude.

Definition slash : Ascii.ascii := "/"%char.

(** [strings.Split(s, c)] for a one-byte separator. *)
Fixpoint Split (c : Ascii.ascii) (s : string) : list string :=
  match s with
  | EmptyString => [""]
  | String a s' =>
      if Ascii.eqb a c then "" :: Split c s'
      else match Split c s' with
           | [] => [String a ""]
           | e :: es => String a e :: es
           end
  end.

(** [strings.Join(elems, c)]. *)
Fixpoint Join_sep (c : Ascii.ascii) (elems : list string) : string :=
  match elems with
  | [] => ""
  | [e] => e
  | e :: es => e +:+ String c (Join_sep c es)
  end.

(** One element of the path; [out] holds the elements written so far, the last
    one first. *)
Definition clean_step (rooted : bool) (out : list string) (e : string) : list string :=
  if decide (e = "" \/ e = ".") then out
  else if decide (e = "..") then
    match out with
    | [] => if rooted then [] else [".."]
    | o :: out' => if decide (o = "..") then ".." :: out else out'
    end
  else e :: out.

Definition clean_elems (rooted : bool) (out : list string) (es : list string) : list string :=
  fold_left (clean_step rooted) es out.

Definition is_rooted (p : string) : bool :=
  match p with String a _ => Ascii.eqb a slash | EmptyString => false end.

(** [filepath.Clean] *)
Definition Clean (p : string) : string :=
  let rooted := is_rooted p in
  let body := Join_sep slash (rev (clean_elems rooted [] (Split slash p))) in
  if rooted then String slash body
  else if decide (body = "") then "." else body.

(** [filepath.Join(a, b)] *)
Definition Join (a b : string) : string :=
  if decide (a = "") then if decide (b = "") then "" else Clean b
  else Clean (a +:+ String slash b).

(** An element that [Clean] keeps as it is. *)
Definition plain (e : string) : bool :=
  negb (bool_decide (e = "" \/ e = "." \/ e = "..")) &&
  forallb (fun a => negb (Ascii.eqb a slash)) (String.list_ascii_of_string e).

(** The absolute path with the given elements. *)
Definition abs_path (es : list string) : string := String slash (Join_sep slash es).

(** ** Lemmas *)

Lemma Split_nonempty c s : Split c s <> [].
Proof. destruct s as [|a s]; simpl; [done|]. destruct (Ascii.eqb a c); [done|]. by destruct (Split c s). Qed.

Lemma Split_app c s1 s2 : Split c (s1 +:+ String c s2) = Split c s1 ++ Split c s2.
Proof.
  induction s1 as [|a s1 IH]; simpl.
  - by rewrite Ascii.eqb_refl.
  - rewrite IH. destruct (Ascii.eqb a c); [done|].
    pose proof (Split_nonempty c s1). by destruct (Split c s1).
Qed.

Lemma Split_no_sep c s :
  forallb (fun a => negb (Ascii.eqb a c)) (String.list_ascii_of_string s) = true -> Split c s = [s].
Proof.
  induction s as [|a s IH]; simpl; [done|].
  intros [Ha Hs]%andb_true_iff. apply negb_true_iff in Ha. by rewrite Ha, IH.
Qed.

(** Splitting undoes joining. *)
Lemma Split_Join_sep c es :
  es <> [] ->
  Forall (fun e => forallb (fun a => negb (Ascii.eqb a c)) (String.list_ascii_of_string e) = true) es ->
  Split c (Join_sep c es) = es.
Proof.
  intros Hne. induction 1 as [|e es He Hes IH]; [done|].
  destruct es as [|e' es]; [by apply Split_no_sep|].
  change (Join_sep c (e :: e' :: es)) with (e +:+ String c (Join_sep c (e' :: es))).
  by rewrite Split_app, Split_no_sep, IH.
Qed.

Lemma clean_step_plain rooted out e : plain e = true -> clean_step rooted out e = e :: out.
Proof.
  unfold plain, clean_step. intros [He _]%andb_true_iff.
  apply negb_true_iff, bool_decide_eq_false in He. by rewrite !decide_False by naive_solver.
Qed.

Lemma clean_elems_plain rooted out es :
  forallb plain es = true -> clean_elems rooted out es = rev es ++ out.
Proof.
  unfold clean_elems. revert out. induction es as [|e es IH]; intros out; simpl; [done|].
  intros [He Hes]%andb_true_iff. rewrite clean_step_plain by done. rewrite IH by done.
  by rewrite <- app_assoc.
Qed.

Lemma clean_elems_app rooted out es1 es2 :
  clean_elems rooted out (es1 ++ es2) = clean_elems rooted (clean_elems rooted out es1) es2.
Proof. apply fold_left_app. Qed.

(** Without a [".."], cleaning only adds elements on top. *)
Lemma clean_elems_no_dotdot rooted out es :
  Forall (fun e => e <> "..") es -> exists new, clean_elems rooted out es = new ++ out.
Proof.
  intros H. revert out. induction H as [|e es He _ IH]; intros out; [by exists []|].
  unfold clean_elems. simpl. fold (clean_elems rooted (clean_step rooted out e) es).
  destruct (IH (clean_step rooted out e)) as [new ->]. unfold clean_step.
  case_decide; [by eexists|]. rewrite decide_False by done.
  exists (new ++ [e]). by rewrite <- app_assoc.
Qed.

Lemma plain_no_slash es :
  forallb plain es = true ->
  Forall (fun e => forallb (fun a => negb (Ascii.eqb a slash)) (String.list_ascii_of_string e) = true) es.
Proof.
  intros H. apply Forall_forall. intros e He. apply forallb_forall with (x := e) in H.
  - by apply andb_true_iff in H as [_ ?].
  - by apply list_elem_of_In.
Qed.

(** [Join dir name] for an absolute, clean [dir]: the elements of [name] are
    cleaned on top of those of [dir]. *)
Lemma Join_abs_path dir name :
  dir <> [] -> forallb plain dir = true ->
  Join (abs_path dir) name = abs_path (rev (clean_elems true (rev dir) (Split slash name))).
Proof.
  intros Hne Hdir. unfold Join, abs_path. rewrite decide_False by done. unfold Clean.
  change (is_rooted (String slash (Join_sep slash dir) +:+ String slash name)) with true.
  cbv iota zeta. rewrite Split_app.
  change (Split slash (String slash (Join_sep slash dir))) with ("" :: Split slash (Join_sep slash dir)).
  rewrite Split_Join_sep by auto using plain_no_slash.
  rewrite clean_elems_app.
  change (clean_elems true [] ("" :: dir)) with (clean_elems true [] dir).
  by rewrite (clean_elems_plain true [] dir), app_nil_r.
Qed.
