(* ===== verification/GoText.v ===== *)
(** * GoText: the strings and bufio functions of the end-to-end utilities

    strings.Index, Contains, Replace and TrimPrefix, and the lines a
    [bufio.Scanner] over a string yields, with its limit on the length of a
    line. *)
From Stdlib Require Import Ascii.
From S2P Require Import Prelude GoPath.

Definition newline : ascii := "010"%char.
Definition carriage_return : ascii := "013"%char.

(** ** Definitions *)

(** What follows [prefix] in [s]. *)
Fixpoint CutPrefix (prefix s : string) : option string :=
  match prefix, s with
  | EmptyString, _ => Some s
  | String a prefix', String b s' => if Ascii.eqb a b then CutPrefix prefix' s' else None
  | String _ _, EmptyString => None
  end.

(** [strings.TrimPrefix(s, prefix)] *)
Definition TrimPrefix (s prefix : string) : string := default s (CutPrefix prefix s).

(** [strings.Index(s, substr)] *)
Fixpoint Index (s substr : string) : Z :=
  if CutPrefix substr s is Some _ then 0%Z
  else match s with
       | EmptyString => (-1)%Z
       | String _ s' => let i := Index s' substr in if (i <? 0)%Z then (-1)%Z else (i + 1)%Z
       end.

(** [strings.Contains(s, substr)] *)
Definition Contains (s substr : string) : bool := (0 <=? Index s substr)%Z.

(** [s[:n]] and [s[n:]] *)
Fixpoint slice_to (n : nat) (s : string) : string :=
  match n, s with
  | S n', String a s' => String a (slice_to n' s')
  | _, _ => ""
  end.
Fixpoint slice_from (n : nat) (s : string) : string :=
  match n, s with
  | O, _ => s
  | S n', String _ s' => slice_from n' s'
  | S _, EmptyString => ""
  end.

(** [strings.Replace(s, old, new, -1)] for a non-empty [old]; [skip] bytes of
    the occurrence being replaced are still to be dropped. *)
Fixpoint Replace_from (old new : string) (skip : nat) (s : string) : string :=
  match s with
  | EmptyString => ""
  | String a s' =>
      match skip with
      | S skip' => Replace_from old new skip' s'
      | O => if CutPrefix old s is Some _ then new +:+ Replace_from old new (String.length old - 1) s'
             else String a (Replace_from old new 0 s')
      end
  end.
Definition Replace (s old new : string) : string := Replace_from old new 0 s.

(** bufio's [dropCR]: a final carriage return does not belong to the line. *)
Fixpoint dropCR (line : string) : string :=
  match line with
  | EmptyString => ""
  | String a EmptyString => if Ascii.eqb a carriage_return then "" else line
  | String a line' => String a (dropCR line')
  end.

(** [bufio.MaxScanTokenSize] *)
Definition MaxScanTokenSize : Z := 65536.

(** The buffer of the scanner holds the line and has room to read on. *)
Definition fits (line : string) : bool := (Z.of_nat (String.length line) <? MaxScanTokenSize)%Z.

(** What follows the last newline is a line only if it is not empty. *)
Fixpoint drop_final_empty (lines : list string) : list string :=
  match lines with
  | [] => []
  | [line] => if decide (line = "") then [] else [line]
  | line :: lines' => line :: drop_final_empty lines'
  end.

(** The texts of the successive [Scan]s of a [bufio.NewScanner] over [s]: the
    first line that does not fit ends the scan. *)
Fixpoint scan (lines : list string) : list string :=
  match lines with
  | [] => []
  | line :: lines' => if fits line then dropCR line :: scan lines' else []
  end.
Definition ScanLines (s : string) : list string := scan (drop_final_empty (Split newline s)).

(** ** Lemmas on strings *)

Lemma string_app_cons c (a b : string) : String c a +:+ b = String c (a +:+ b).
Proof. done. Qed.
Lemma string_app_assoc (a b c : string) : (a +:+ b) +:+ c = a +:+ b +:+ c.
Proof. induction a as [|c0 a IH]; [done|]. rewrite !string_app_cons. simpl. by rewrite IH. Qed.
Lemma string_app_nil_r (a : string) : a +:+ "" = a.
Proof. induction a as [|c0 a IH]; [done|]. rewrite !string_app_cons. simpl. by rewrite IH. Qed.
Lemma string_length_app (a b : string) : String.length (a +:+ b) = String.length a + String.length b.
Proof. induction a as [|c0 a IH]; [done|]. rewrite !string_app_cons. simpl. by rewrite IH. Qed.

Lemma string_app_inj_length (a1 a2 b1 b2 : string) :
  a1 +:+ b1 = a2 +:+ b2 -> String.length a1 = String.length a2 -> a1 = a2 /\ b1 = b2.
Proof.
  revert a2. induction a1 as [|c a1 IH]; intros [|d a2] H Hl; try done.
  injection H as -> H. injection Hl as Hl. by destruct (IH _ H Hl) as [-> ->].
Qed.

Lemma slice_to_app a b : slice_to (String.length a) (a +:+ b) = a.
Proof. induction a as [|c0 a IH]; [done|]. rewrite !string_app_cons. simpl. by rewrite IH. Qed.
Lemma slice_from_app a b : slice_from (String.length a) (a +:+ b) = b.
Proof. by induction a. Qed.

Lemma CutPrefix_Some p s r : CutPrefix p s = Some r <-> s = p +:+ r.
Proof.
  revert s. induction p as [|a p IH]; intros s; simpl; [by split; [intros [= ->]|intros ->]|].
  destruct s as [|b s]; [by split|]. rewrite string_app_cons. destruct (Ascii.eqb_spec a b) as [->|Hab].
  - rewrite IH. split; [by intros ->|by intros [= ->]].
  - split; [done|]. by intros [= -> _].
Qed.
Lemma CutPrefix_app p r : CutPrefix p (p +:+ r) = Some r.
Proof. by apply CutPrefix_Some. Qed.
Lemma TrimPrefix_app p r : TrimPrefix (p +:+ r) p = r.
Proof. unfold TrimPrefix. by rewrite CutPrefix_app. Qed.

Lemma Index_nil t : Index "" t = if CutPrefix t "" is Some _ then 0%Z else (-1)%Z.
Proof. done. Qed.
Lemma Index_cons a s t :
  Index (String a s) t =
  if CutPrefix t (String a s) is Some _ then 0%Z else if (Index s t <? 0)%Z then (-1)%Z else (Index s t + 1)%Z.
Proof. done. Qed.

(** [t] occurs at [before] and not earlier. *)
Definition first_occurrence (before t after : string) : Prop :=
  forall b a, before +:+ t +:+ after = b +:+ t +:+ a -> String.length before <= String.length b.

Lemma Index_spec s t :
  (Index s t = -1 /\ forall b a, s <> b +:+ t +:+ a)%Z \/
  exists before after, s = before +:+ t +:+ after /\ Index s t = Z.of_nat (String.length before) /\
    first_occurrence before t after.
Proof.
  induction s as [|c s IH].
  - rewrite Index_nil. destruct (CutPrefix t "") as [r|] eqn:E.
    + apply CutPrefix_Some in E. right. exists "", r. split_and!; [done..|]. intros b a _. simpl. lia.
    + left. split; [done|]. intros [|d b] r Hs; [|done].
      apply (CutPrefix_Some t) in Hs. congruence.
  - rewrite Index_cons. destruct (CutPrefix t (String c s)) as [r|] eqn:E.
    + apply CutPrefix_Some in E. right. exists "", r. split_and!; [done..|]. intros b a _. simpl. lia.
    + assert (forall a, String c s <> t +:+ a) as Hhere.
      { intros a Hs. apply (CutPrefix_Some t) in Hs. congruence. }
      destruct IH as [[Hi Hno]|(before & after & -> & -> & Hfirst)].
      * rewrite Hi. left. split; [done|]. intros [|d b] r Hs; [by destruct (Hhere r Hs)|]. injection Hs as _ Hs. by eapply Hno.
      * right. exists (String c before), after. split_and!; [done| |].
        { destruct (Z.ltb_spec (Z.of_nat (String.length before)) 0); simpl String.length; lia. }
        intros [|d b] a Hs; [by destruct (Hhere a Hs)|]. injection Hs as _ Hs. simpl.
        apply le_n_S. by eapply Hfirst.
Qed.

Lemma Index_app before t after :
  first_occurrence before t after ->
  Index (before +:+ t +:+ after) t = Z.of_nat (String.length before).
Proof.
  intros Hf. destruct (Index_spec (before +:+ t +:+ after) t)
    as [[_ Hno]|(b & a & Hs & -> & Hf')]; [by edestruct Hno|].
  pose proof (Hf _ _ Hs). symmetry in Hs. pose proof (Hf' _ _ Hs). lia.
Qed.

Lemma Index_first before t after :
  Index (before +:+ t +:+ after) t = Z.of_nat (String.length before) -> first_occurrence before t after.
Proof.
  intros Hi. destruct (Index_spec (before +:+ t +:+ after) t) as [[E _]|(b & a & Hs & E & Hf)]; [lia|].
  intros b' a' H. rewrite Hi in E. apply Nat2Z.inj in E as ->. apply (Hf b' a'). by rewrite <- Hs.
Qed.

Lemma Contains_iff s t : Contains s t = true <-> exists b a, s = b +:+ t +:+ a.
Proof.
  unfold Contains. rewrite Z.leb_le. destruct (Index_spec s t) as [[-> Hno]|(b & a & -> & -> & _)].
  - split; [lia|]. intros (b & a & Hs). by edestruct Hno.
  - split; [by eauto|lia].
Qed.

Lemma Contains_app_l s1 s2 t : Contains s1 t = true -> Contains (s1 +:+ s2) t = true.
Proof.
  rewrite !Contains_iff. intros (b & a & ->). exists b, (a +:+ s2). by rewrite !string_app_assoc.
Qed.
Lemma Contains_app_r s1 s2 t : Contains s2 t = true -> Contains (s1 +:+ s2) t = true.
Proof.
  rewrite !Contains_iff. intros (b & a & ->). exists (s1 +:+ b), a. by rewrite string_app_assoc.
Qed.

(** ** Lemmas on lines *)

(** The byte [c] does not occur in [s]. *)
Definition lacks (c : ascii) (s : string) : Prop :=
  forallb (fun a => negb (Ascii.eqb a c)) (String.list_ascii_of_string s) = true.

Lemma lacks_cons c a s : lacks c (String a s) <-> a <> c /\ lacks c s.
Proof.
  unfold lacks. simpl. rewrite andb_true_iff, negb_true_iff.
  destruct (Ascii.eqb_spec a c); naive_solver.
Qed.
Lemma lacks_app c s1 s2 : lacks c (s1 +:+ s2) <-> lacks c s1 /\ lacks c s2.
Proof.
  induction s1 as [|a s1 IH]; [by split; [split|intros [_ H]]|].
  rewrite string_app_cons, !lacks_cons, IH. tauto.
Qed.

Lemma Split_cons c a s :
  Split c (String a s) =
  if Ascii.eqb a c then "" :: Split c s
  else match Split c s with [] => [String a ""] | e :: es => String a e :: es end.
Proof. done. Qed.

Lemma Split_lacks c s : Forall (lacks c) (Split c s).
Proof.
  induction s as [|a s IH]; [by repeat constructor|]. rewrite Split_cons.
  destruct (Ascii.eqb_spec a c) as [->|Ha]; [by constructor|].
  destruct IH as [|e es He Hes]; constructor; try done; by apply lacks_cons.
Qed.

(** Joining undoes splitting. *)
Lemma Join_sep_Split c s : Join_sep c (Split c s) = s.
Proof.
  induction s as [|a s IH]; [done|]. rewrite Split_cons. pose proof (Split_nonempty c s).
  destruct (Ascii.eqb_spec a c) as [->|Ha]; destruct (Split c s) as [|e es]; try done.
  - by rewrite <- IH.
  - rewrite <- IH. by destruct es.
Qed.

Lemma Split_app_lacks c t s :
  lacks c t -> exists e es, Split c s = e :: es /\ Split c (t +:+ s) = (t +:+ e) :: es.
Proof.
  intros Ht. pose proof (Split_nonempty c s) as Hn. destruct (Split c s) as [|e es] eqn:E; [done|].
  exists e, es. split; [done|]. induction t as [|a t IH]; [done|]. apply lacks_cons in Ht as [Ha Ht].
  rewrite string_app_cons, Split_cons, IH by done. by destruct (Ascii.eqb_spec a c).
Qed.

(** A text without newline occurs in a string exactly if it occurs in one of
    its lines. *)
Lemma Contains_lines c s t :
  lacks c t -> Contains s t = true <-> exists line, line ∈ Split c s /\ Contains line t = true.
Proof.
  intros Ht. split.
  - intros (b & a & ->)%Contains_iff. induction b as [|d b IH].
    + destruct (Split_app_lacks c t a Ht) as (e & es & _ & E).
      exists (t +:+ e). split; [change ("" +:+ t +:+ a) with (t +:+ a); rewrite E; left|].
      apply Contains_iff. by exists "", e.
    + destruct IH as (line & Hin & Hc). rewrite string_app_cons, Split_cons.
      destruct (Ascii.eqb d c); [exists line; by split; [right|]|].
      destruct (Split c (b +:+ t +:+ a)) as [|e es]; [by apply elem_of_nil in Hin|].
      apply elem_of_cons in Hin as [->|Hin]; [|exists line; by split; [right|]].
      exists (String d e). split; [left|]. by apply (Contains_app_r (String d "")).
  - intros (line & Hin & Hc). induction s as [|a s IH] in line, Hin, Hc |- *.
    { by apply list_elem_of_singleton in Hin as ->. }
    rewrite Split_cons in Hin. destruct (Ascii.eqb a c).
    { apply elem_of_cons in Hin as [->|Hin].
      - by apply (Contains_app_l "").
      - by apply (Contains_app_r (String a "")); eapply IH. }
    pose proof (Join_sep_Split c s) as Hs. destruct (Split c s) as [|e es] eqn:E.
    { by apply Split_nonempty in E. }
    apply elem_of_cons in Hin as [->|Hin].
    + assert (exists r, s = e +:+ r) as [r ->].
      { rewrite <- Hs. destruct es; [exists ""; by rewrite string_app_nil_r|by eexists]. }
      by apply (Contains_app_l (String a e)).
    + apply (Contains_app_r (String a "")). eapply IH; [by right|done].
Qed.

(** The scanner reads back lines that fit, do not end in a carriage return and
    do not end in an empty one. *)
Definition scannable (line : string) : Prop := lacks newline line /\ fits line = true /\ dropCR line = line.

Lemma drop_final_empty_id ls : last ls <> Some "" -> drop_final_empty ls = ls.
Proof.
  induction ls as [|l ls IH]; [done|]. destruct ls as [|l' ls].
  - simpl. intros Hl. by rewrite decide_False by congruence.
  - intros Hl. change (drop_final_empty (l :: l' :: ls)) with (l :: drop_final_empty (l' :: ls)).
    by rewrite IH.
Qed.

Lemma scan_id ls : Forall scannable ls -> scan ls = ls.
Proof. induction 1 as [|l ls (_ & Hf & Hc) _ IH]; [done|]. simpl. by rewrite Hf, Hc, IH. Qed.

Lemma ScanLines_Join ls :
  ls <> [] -> last ls <> Some "" -> Forall scannable ls -> ScanLines (Join_sep newline ls) = ls.
Proof.
  intros Hne Hl Hs. unfold ScanLines. rewrite Split_Join_sep; [|done|].
  - by rewrite drop_final_empty_id, scan_id.
  - eapply Forall_impl; [exact Hs|]. by intros l [? _].
Qed.

(** The scanner does not report a final newline, and stops without a report at
    a line that does not fit. *)
Lemma drop_final_empty_app ls ls' : ls' <> [] -> drop_final_empty (ls ++ ls') = ls ++ drop_final_empty ls'.
Proof.
  intros Hne. induction ls as [|l ls IH]; [done|].
  change (drop_final_empty (l :: (ls ++ ls')) = l :: (ls ++ drop_final_empty ls')).
  rewrite <- IH. by destruct ls, ls'.
Qed.
Lemma scan_app ls ls' : Forall scannable ls -> scan (ls ++ ls') = ls ++ scan ls'.
Proof. induction 1 as [|l ls (_ & Hf & Hc) _ IH]; [done|]. simpl. by rewrite Hf, Hc, IH. Qed.

Lemma ScanLines_final_newline ls :
  ls <> [] -> Forall scannable ls -> ScanLines (Join_sep newline (ls ++ [""])) = ls.
Proof.
  intros Hne Hs. unfold ScanLines. rewrite Split_Join_sep; [|by destruct ls|].
  - rewrite drop_final_empty_app by done. simpl. by rewrite app_nil_r, scan_id.
  - apply Forall_app. split; [|by repeat constructor]. eapply Forall_impl; [exact Hs|]. by intros l [? _].
Qed.

Lemma ScanLines_long_line ls long more :
  Forall scannable ls -> Forall (lacks newline) (long :: more) -> fits long = false ->
  ScanLines (Join_sep newline (ls ++ long :: more)) = ls.
Proof.
  intros Hs Hl Hf. unfold ScanLines. rewrite Split_Join_sep; [|by destruct ls|].
  - rewrite drop_final_empty_app by done. rewrite scan_app by done.
    assert (scan (drop_final_empty (long :: more)) = []) as ->; [|by rewrite app_nil_r].
    destruct more; simpl; [case_decide; simpl|]; by rewrite ?Hf.
  - apply Forall_app. split; [|done]. eapply Forall_impl; [exact Hs|]. by intros l [? _].
Qed.
