(* ===== verification/TestUtils.v ===== *)
(** * TestUtils: the utilities of the end-to-end tests

    test/utils/utils.go: running commands in the project's directory, the
    installation and detection of Prometheus and cert-manager, and the removal
    of comments from a file. *)
From Stdlib Require Import Ascii.
From S2P Require Import Prelude GoProg GoError GoPath GoText.
Open Scope go_scope.

(** ** The environment *)

(** The fields of [exec.Cmd] that the code sets. *)
Record Cmd := { Args : list string; Dir : string; Env : list string }.

(** [exec.Command(name, arg...)] *)
Definition Command (name : string) (arg : list string) : Cmd :=
  {| Args := name :: arg; Dir := ""; Env := [] |}.

Section Utils.
Context `{FE : ForeignErrors}.

Inductive utils_action :=
| AGetwd
| AChdir (dir : string)
| AEnviron
| ALookupEnv (key : string)
| ACombinedOutput (cmd : Cmd)
| APrint (text : string)  (* fmt.Fprintf(GinkgoWriter, ...), its result ignored *)
| AReadFile (name : string)
| AWriteFile (name : string) (data : string) (perm : Z).

(** [Getwd] and [CombinedOutput] return a text also with an error. *)
Definition utils_result (a : utils_action) : Type :=
  match a with
  | AGetwd | ACombinedOutput _ => string * option ext_error
  | AChdir _ | AWriteFile _ _ _ => option ext_error
  | AEnviron => list string
  | ALookupEnv _ => option string
  | APrint _ => unit
  | AReadFile _ => ext_error + string
  end%type.

#[local] Instance UtilsSignature : Signature := {| action := utils_action; result := utils_result |}.

(** ** Operations *)

Definition warnError (err : error) : prog unit :=
  call (APrint ("warning: " +:+ Error err +:+ String newline "")).

(** The working directory with every "/test/e2e" removed. *)
Definition GetProjectDir : prog (string * option error) :=
  r <- call AGetwd ;;
  let '(wd, err) := r in
  match err with
  | Some err => ret (wd, Some (Foreign err))
  | None => ret (Replace wd "/test/e2e" "", None)
  end.

Definition Run (cmd : Cmd) : prog (string * option error) :=
  r <- GetProjectDir ;;
  let dir := r.1 in
  chdir <- call (AChdir dir) ;;
  _ <- match chdir with
       | Some err => call (APrint ("chdir dir: " +:+ ext_message err +:+ String newline ""))
       | None => ret tt
       end ;;
  environ <- call AEnviron ;;
  let cmd := {| Args := Args cmd; Dir := dir; Env := environ ++ ["GO111MODULE=on"] |} in
  let command := Join_sep " "%char (Args cmd) in
  _ <- call (APrint ("running: " +:+ command +:+ String newline "")) ;;
  out <- call (ACombinedOutput cmd) ;;
  let '(output, err) := out in
  match err with
  | Some err =>
      ret (output, Some (New (command +:+ " failed with error: (" +:+ ext_message err +:+ ") " +:+ output)))
  | None => ret (output, None)
  end.

Definition prometheusOperatorVersion : string := "v0.77.1".
(** The URL templates, with their [%s] as an argument. *)
Definition prometheusOperatorURL (version : string) : string :=
  "https://github.com/prometheus-operator/prometheus-operator/" +:+
  "releases/download/" +:+ version +:+ "/bundle.yaml".
Definition certmanagerVersion : string := "v1.16.0".
Definition certmanagerURLTmpl (version : string) : string :=
  "https://github.com/jetstack/cert-manager/releases/download/" +:+ version +:+ "/cert-manager.yaml".

Definition InstallPrometheusOperator : prog (option error) :=
  r <- Run (Command "kubectl" ["create"; "-f"; prometheusOperatorURL prometheusOperatorVersion]) ;;
  ret r.2.

Definition UninstallPrometheusOperator : prog unit :=
  r <- Run (Command "kubectl" ["delete"; "-f"; prometheusOperatorURL prometheusOperatorVersion]) ;;
  match r.2 with Some err => warnError err | None => ret tt end.

Definition UninstallCertManager : prog unit :=
  r <- Run (Command "kubectl" ["delete"; "-f"; certmanagerURLTmpl certmanagerVersion]) ;;
  match r.2 with Some err => warnError err | None => ret tt end.

Definition InstallCertManager : prog (option error) :=
  r <- Run (Command "kubectl" ["apply"; "-f"; certmanagerURLTmpl certmanagerVersion]) ;;
  match r.2 with
  | Some err => ret (Some err)
  | None =>
      r <- Run (Command "kubectl" ["wait"; "deployment.apps/cert-manager-webhook";
             "--for"; "condition=Available"; "--namespace"; "cert-manager"; "--timeout"; "5m"]) ;;
      ret r.2
  end.

Definition GetNonEmptyLines (output : string) : list string :=
  fold_left (fun res element => if decide (element <> "") then res ++ [element] else res)
    (Split newline output) [].

(** The nested loops over the names and the lines of the output. *)
Definition any_listed (crds crdList : list string) : bool :=
  existsb (fun crd => existsb (fun line => Contains line crd) crdList) crds.

Definition prometheusCRDs : list string :=
  ["prometheuses.monitoring.coreos.com"; "prometheusrules.monitoring.coreos.com";
   "prometheusagents.monitoring.coreos.com"].

Definition IsPrometheusCRDsInstalled : prog bool :=
  r <- Run (Command "kubectl" ["get"; "crds"; "-o"; "custom-columns=NAME:.metadata.name"]) ;;
  let '(output, err) := r in
  match err with
  | Some _ => ret false
  | None => ret (any_listed prometheusCRDs (GetNonEmptyLines output))
  end.

Definition certManagerCRDs : list string :=
  ["certificates.cert-manager.io"; "issuers.cert-manager.io"; "clusterissuers.cert-manager.io";
   "certificaterequests.cert-manager.io"; "orders.acme.cert-manager.io";
   "challenges.acme.cert-manager.io"].

Definition IsCertManagerCRDsInstalled : prog bool :=
  r <- Run (Command "kubectl" ["get"; "crds"]) ;;
  let '(output, err) := r in
  match err with
  | Some _ => ret false
  | None => ret (any_listed certManagerCRDs (GetNonEmptyLines output))
  end.

Definition LoadImageToKindClusterWithName (name : string) : prog (option error) :=
  v <- call (ALookupEnv "KIND_CLUSTER") ;;
  let cluster := default "kind" v in
  r <- Run (Command "kind" ["load"; "docker-image"; name; "--name"; cluster]) ;;
  ret r.2.

(** The loop that writes the lines: [text] is the one just scanned, [texts]
    what the next [Scan]s yield. *)
Fixpoint uncomment_loop (prefix out text : string) (texts : list string) : string :=
  let out := out +:+ TrimPrefix text prefix in
  match texts with
  | [] => out
  | text' :: texts' => uncomment_loop prefix (out +:+ String newline "") text' texts'
  end.

Definition UncommentCode (filename target prefix : string) : prog (option error) :=
  content <- call (AReadFile filename) orelse err => ret (Some (Foreign err)) ;;
  let idx := Index content target in
  if (idx <? 0)%Z
  then ret (Some (New ("unable to find the code " +:+ target +:+ " to be uncomment")))
  else
    let out := slice_to (Z.to_nat idx) content in
    match ScanLines target with
    | [] => ret None
    | text :: texts =>
        let out := uncomment_loop prefix out text texts in
        let out := out +:+ slice_from (Z.to_nat idx + String.length target) content in
        r <- call (AWriteFile filename out 420) ;;
        ret (Foreign <$> r)
    end.

(** ** Lines and names *)

(** What an output that ends in a newline, like those of kubectl, splits into. *)
Lemma GetNonEmptyLines_filter output :
  GetNonEmptyLines output = List.filter (fun l => bool_decide (l <> "")) (Split newline output).
Proof.
  unfold GetNonEmptyLines.
  enough (forall ls res, fold_left (fun res element => if decide (element <> "") then res ++ [element] else res) ls res
    = res ++ List.filter (fun l => bool_decide (l <> "")) ls) as -> by done.
  induction ls as [|l ls IH]; intros res; simpl; [by rewrite app_nil_r|]. rewrite IH.
  destruct (decide (l <> "")) as [Hl|Hl].
  - by rewrite bool_decide_true, <- app_assoc.
  - by rewrite bool_decide_false.
Qed.

(** Going through the lines finds what is in the output. *)
Lemma any_listed_iff crds output :
  Forall (fun crd => crd <> "" /\ lacks newline crd) crds ->
  any_listed crds (GetNonEmptyLines output) = true <-> exists crd, crd ∈ crds /\ Contains output crd = true.
Proof.
  intros Hc. unfold any_listed. rewrite existsb_exists.
  enough (forall crd, crd ∈ crds ->
    existsb (fun line => Contains line crd) (GetNonEmptyLines output) = Contains output crd) as E.
  { setoid_rewrite <- list_elem_of_In. naive_solver congruence. }
  intros crd Hin. eapply Forall_forall in Hc as [Hne Hl]; [|done].
  apply eq_true_iff_eq. rewrite existsb_exists, (Contains_lines newline) by done.
  setoid_rewrite GetNonEmptyLines_filter. setoid_rewrite filter_In. setoid_rewrite <- list_elem_of_In.
  split; [naive_solver|]. intros (line & Hs & Hline). exists line. split_and!; try done.
  apply bool_decide_eq_true. intros ->.
  apply Contains_iff in Hline as ([|] & ? & E); [|done]. by destruct crd.
Qed.

(** ** Commands *)

Definition is_command (e : event) : bool :=
  match e with Ev (ACombinedOutput _) _ => true | _ => false end.

Definition command_answer (e : event) : option (string * option ext_error) :=
  match e with Ev (ACombinedOutput _) answer => Some answer | _ => None end.

(** A run of [Run] ends with the command, in the directory the project is in
    and with the environment extended; nothing else is executed. *)
Lemma Run_runs cmd t r :
  runs (Run cmd) t r ->
  exists t1 dir environ output err,
    t = t1 ++ [Ev (ACombinedOutput {| Args := Args cmd; Dir := dir; Env := environ ++ ["GO111MODULE=on"] |})
                  (output, err)] /\
    Forall (fun e => is_command e = false) t1 /\ r.1 = output /\ (r.2 = None <-> err = None).
Proof.
  unfold Run, GetProjectDir. rewrite runs_bind. intros (t1 & d & t2 & -> & H1 & H).
  assert (Forall (fun e => is_command e = false) t1) as Hq.
  { apply runs_bind in H1 as (t3 & [wd err] & t4 & -> & ->%(@runs_call UtilsSignature AGetwd) & H4).
    destruct err; apply runs_ret in H4 as [-> _]; by repeat constructor. }
  apply runs_bind in H as (t3 & c & t4 & -> & ->%(@runs_call UtilsSignature (AChdir _)) & H).
  apply runs_bind in H as (t5 & [] & t6 & -> & H5 & H).
  assert (Forall (fun e => is_command e = false) t5) as Hq5.
  { destruct c as [e|]; [apply (@runs_call UtilsSignature (APrint _)) in H5 as ->; by repeat constructor|].
    by apply runs_ret in H5 as [-> _]. }
  apply runs_bind in H as (t7 & env & t8 & -> & ->%(@runs_call UtilsSignature AEnviron) & H).
  apply runs_bind in H as (t9 & [] & t10 & -> & ->%(@runs_call UtilsSignature (APrint _)) & H).
  apply runs_bind in H as (t11 & [output err] & t12 & -> & ->%(@runs_call UtilsSignature (ACombinedOutput _)) & H).
  assert (t12 = [] /\ r.1 = output /\ (r.2 = None <-> err = None)) as (-> & -> & ?).
  { destruct err; apply runs_ret in H as [-> ->]; by split_and!. }
  eexists _, d.1, env, output, err. split_and!; [|..|done|done].
  - rewrite app_nil_r, !app_assoc. reflexivity.
  - rewrite !Forall_app. by repeat constructor.
Qed.

(** ** The detection of custom resource definitions *)

(** The command [args] was executed, succeeded, and put one of the names out. *)
Definition detected (args crds : list string) (t : list event) : Prop :=
  exists cmd output crd, Ev (ACombinedOutput cmd) (output, None) ∈ t /\ Args cmd = args /\
    crd ∈ crds /\ Contains output crd = true.

(** What both detections do with the result of their command. *)
Lemma probe_iff args crds cmd t1 t2 r b :
  Args cmd = args -> Forall (fun crd => crd <> "" /\ lacks newline crd) crds ->
  runs (Run cmd) t1 r ->
  runs (let '(output, err) := r in
        match err with
        | Some _ => ret false
        | None => ret (any_listed crds (GetNonEmptyLines output))
        end) t2 b ->
  b = true <-> detected args crds (t1 ++ t2).
Proof.
  intros Ha Hcrds (t & dir & env & output & err & -> & Hq & Hout & Herr)%Run_runs H.
  destruct r as [output' err']. simpl in Hout, Herr. subst output'.
  assert (t2 = []) as -> by (by destruct err'; apply runs_ret in H as [-> _]). rewrite app_nil_r.
  assert (detected args crds (t ++ [Ev (ACombinedOutput {| Args := Args cmd; Dir := dir;
      Env := env ++ ["GO111MODULE=on"] |}) (output, err)]) <->
    err = None /\ exists crd, crd ∈ crds /\ Contains output crd = true) as ->.
  { unfold detected. split.
    - intros (cmd' & out & crd & [Hin|Hin]%elem_of_app & _ & Hcrd).
      + eapply Forall_forall in Hq; [|exact Hin]. done.
      + apply list_elem_of_singleton, (f_equal command_answer) in Hin. injection Hin. naive_solver.
    - intros (-> & crd & Hcrd). eexists _, output, crd.
      split; [apply elem_of_app; right; left|done]. }
  destruct err' as [e|]; apply runs_ret in H as [_ ->].
  - split; [done|]. intros [-> _]. by pose proof (proj2 Herr eq_refl).
  - rewrite any_listed_iff by done. pose proof (proj1 Herr eq_refl). naive_solver.
Qed.

(** C38: detecting installed custom resource definitions.  A detection answers
    yes exactly if its kubectl command was executed, succeeded and its output
    contains one of the names: splitting the output into lines makes no
    difference, and every failure counts as not installed. *)
Theorem crds_detected_iff t b :
  (runs IsPrometheusCRDsInstalled t b ->
   b = true <-> detected ["kubectl"; "get"; "crds"; "-o"; "custom-columns=NAME:.metadata.name"] prometheusCRDs t) /\
  (runs IsCertManagerCRDsInstalled t b ->
   b = true <-> detected ["kubectl"; "get"; "crds"] certManagerCRDs t).
Proof.
  unfold IsPrometheusCRDsInstalled, IsCertManagerCRDsInstalled.
  split; intros (t1 & r & t2 & -> & H1 & H2)%runs_bind; refine (probe_iff _ _ _ _ _ _ _ eq_refl _ H1 H2);
    repeat constructor; done.
Qed.

(** ** The removal of comments *)

Lemma uncomment_loop_eq prefix out text texts :
  uncomment_loop prefix out text texts =
  out +:+ Join_sep newline (map (fun l => TrimPrefix l prefix) (text :: texts)).
Proof.
  revert out text. induction texts as [|text' texts IH]; intros out text; simpl; [done|].
  rewrite IH. by rewrite !string_app_assoc.
Qed.

(** Every run of [UncommentCode]: nothing is written unless the target occurs
    in the file and has a line; then its first occurrence is replaced by its
    scanned lines without the prefix, joined by newlines. *)
Lemma UncommentCode_runs filename target prefix t r :
  runs (UncommentCode filename target prefix) t r <->
  (exists e, t = [Ev (AReadFile filename) (inl e)] /\ r = Some (Foreign e)) \/
  exists content, (t = [Ev (AReadFile filename) (inr content)] /\
    ((Contains content target = false /\
      r = Some (New ("unable to find the code " +:+ target +:+ " to be uncomment"))) \/
     (Contains content target = true /\ ScanLines target = [] /\ r = None))) \/
   exists before after w, content = before +:+ target +:+ after /\ first_occurrence before target after /\
     ScanLines target <> [] /\ r = Foreign <$> w /\
     t = [Ev (AReadFile filename) (inr content);
          Ev (AWriteFile filename
            (before +:+ Join_sep newline (map (fun l => TrimPrefix l prefix) (ScanLines target)) +:+ after) 420) w].
Proof.
  unfold UncommentCode. rewrite runs_bind. split.
  - intros (t1 & c & t2 & -> & ->%(@runs_call UtilsSignature (AReadFile _)) & H).
    destruct c as [e|content]; [left; apply runs_ret in H as [-> ->]; by exists e|]. right. exists content.
    destruct (Index_spec content target) as [[Hi Hno]|(before & after & -> & Hi & Hf)].
    + rewrite Hi in H. apply runs_ret in H as [-> ->]. left. split; [done|]. left. split; [|done].
      unfold Contains. by rewrite Hi.
    + rewrite Hi in H. rewrite (proj2 (Z.ltb_ge _ _)) in H by lia. rewrite Nat2Z.id in H.
      rewrite slice_to_app, <- string_length_app, <- string_app_assoc, slice_from_app in H.
      destruct (ScanLines target) as [|l ls] eqn:El.
      * apply runs_ret in H as [-> ->]. left. split; [done|]. right. split_and!; try done.
        apply Contains_iff. by exists before, after.
      * right. rewrite uncomment_loop_eq in H.
        apply runs_bind in H as (t3 & w & t4 & -> & ->%(@runs_call UtilsSignature (AWriteFile _ _ _)) & H).
        apply runs_ret in H as [-> ->]. exists before, after, w. split_and!; try done.
        by rewrite !string_app_assoc.
  - intros [(e & -> & ->)|(content & [(-> & H)|(before & after & w & -> & Hf & Hne & -> & ->)])].
    + exists [@Ev UtilsSignature (AReadFile filename) (inl e)], (inl e), []. split_and!; try done.
      by apply (@runs_call UtilsSignature (AReadFile _)).
    + exists [@Ev UtilsSignature (AReadFile filename) (inr content)], (inr content), [].
      split_and!; [done|by apply (@runs_call UtilsSignature (AReadFile _))|].
      destruct (Index_spec content target) as [[Hi Hno]|(before & after & Hc & Hi & Hf)].
      * rewrite Hi. destruct H as [[_ ->]|(Hc & _)]; [done|].
        unfold Contains in Hc. by rewrite Hi in Hc.
      * destruct H as [[Hc' _]|(_ & -> & ->)].
        { unfold Contains in Hc'. rewrite Hi, Z.leb_gt in Hc'. lia. }
        by rewrite Hi, (proj2 (Z.ltb_ge _ _)) by lia.
    + eexists [_], (inr (before +:+ target +:+ after)), _.
      split_and!; [reflexivity|by apply (@runs_call UtilsSignature (AReadFile _))|].
      rewrite Index_app by done. rewrite (proj2 (Z.ltb_ge _ _)) by lia. rewrite Nat2Z.id.
      rewrite slice_to_app, <- string_length_app.
      rewrite <- (string_app_assoc before target after), slice_from_app.
      destruct (ScanLines target) as [|l ls]; [done|]. rewrite uncomment_loop_eq, !string_app_assoc.
      apply runs_bind. eexists [_], w, []. split_and!; [|by apply (@runs_call UtilsSignature (AWriteFile _ _ _))|done].
      done.
Qed.

(** [text] with [prefix] before every line. *)
Definition commented (prefix text : string) : string :=
  Join_sep newline (map (fun l => prefix +:+ l) (Split newline text)).

Lemma ScanLines_commented prefix text :
  prefix <> "" -> Forall (fun l => scannable (prefix +:+ l)) (Split newline text) ->
  ScanLines (commented prefix text) = map (fun l => prefix +:+ l) (Split newline text).
Proof.
  intros Hp Hs. pose proof (Split_nonempty newline text). apply ScanLines_Join.
  - by destruct (Split newline text).
  - change (map ?f ?l) with (f <$> l). rewrite fmap_last. destruct (last _) as [l|]; simpl; [|done].
    intros [= E]. by destruct prefix.
  - by apply Forall_map.
Qed.

Lemma uncommented_lines prefix ls :
  map (fun l => TrimPrefix l prefix) (map (fun l => prefix +:+ l) ls) = ls.
Proof. rewrite map_map. induction ls as [|l ls IH]; [done|]. simpl. by rewrite TrimPrefix_app, IH. Qed.

(** A run that read the file: what it wrote. *)
Lemma UncommentCode_writes filename target prefix before after t r :
  first_occurrence before target after -> ScanLines target <> [] ->
  runs (UncommentCode filename target prefix) t r ->
  @Ev UtilsSignature (AReadFile filename) (inr (before +:+ target +:+ after)) ∈ t ->
  exists w, r = Foreign <$> w /\
    @Ev UtilsSignature (AWriteFile filename
      (before +:+ Join_sep newline (map (fun l => TrimPrefix l prefix) (ScanLines target)) +:+ after) 420) w ∈ t.
Proof.
  intros Hf Hne H%UncommentCode_runs Hin.
  assert (forall c t', t = @Ev UtilsSignature (AReadFile filename) c :: t' ->
    Forall (fun e => match e with Ev (AReadFile _) _ => False | _ => True end) t' ->
    c = inr (before +:+ target +:+ after)) as Hread.
  { intros c t' -> Ht'. apply elem_of_cons in Hin as [Hin|Hin].
    - apply (f_equal (fun e => match e with Ev (AReadFile _) r => Some r | _ => None end)) in Hin. naive_solver.
    - eapply Forall_forall in Ht'; [|exact Hin]. done. }
  destruct H as [(e & -> & _)|(content & [(-> & H)|(b & a & w & Hc & Hf' & _ & -> & ->)])].
  - by pose proof (Hread _ _ eq_refl (Forall_nil_2 _)).
  - pose proof (Hread _ _ eq_refl (Forall_nil_2 _)) as [= ->]. exfalso.
    destruct H as [[Hc _]|(_ & Hs & _)]; [|done].
    rewrite (proj2 (Contains_iff _ _)) in Hc; [done|by exists before, after].
  - assert (content = before +:+ target +:+ after) as ->.
    { pose proof (Hread _ _ eq_refl) as E. specialize (E ltac:(by repeat constructor)). by injection E. }
    assert (b = before /\ a = after) as [-> ->].
    { pose proof (Hf _ _ Hc). symmetry in Hc. pose proof (Hf' _ _ Hc) as Hl.
      apply string_app_inj_length in Hc as [<- Hc]; [|lia]. by apply (inj (String.append target)) in Hc. }
    exists w. split; [done|]. right. left.
Qed.

(** C37: uncommenting undoes commenting.  When [text] was commented out by
    putting a non-empty prefix before each of its lines, and no line is longer
    than the scanner's limit or ends in a carriage return, [UncommentCode] with
    the commented text and the prefix writes the file back with [text] in the
    place of its first occurrence, byte for byte. *)
Theorem uncomment_undoes_comment filename prefix text before after t r :
  prefix <> "" -> Forall (fun l => scannable (prefix +:+ l)) (Split newline text) ->
  first_occurrence before (commented prefix text) after ->
  runs (UncommentCode filename (commented prefix text) prefix) t r ->
  @Ev UtilsSignature (AReadFile filename) (inr (before +:+ commented prefix text +:+ after)) ∈ t ->
  exists w, r = Foreign <$> w /\
    @Ev UtilsSignature (AWriteFile filename (before +:+ text +:+ after) 420) w ∈ t.
Proof.
  intros Hp Hs Hf H Hin. pose proof (ScanLines_commented _ _ Hp Hs) as El.
  destruct (UncommentCode_writes _ _ _ _ _ _ _ Hf ltac:(rewrite El; pose proof (Split_nonempty newline text);
    by destruct (Split newline text)) H Hin) as (w & -> & Hw).
  rewrite El, uncommented_lines, Join_sep_Split in Hw. by exists w.
Qed.

(** C39: text that uncommenting loses.  When the target is the lines [ls]
    followed by a final newline, or by a line of 64 KiB or more and anything
    after it, [UncommentCode] writes the lines [ls] without the prefix in its
    place and reports no error of its own: the newline joins the last line with
    what follows, and the long line and the rest of the target are gone. *)
Theorem uncomment_loses_text filename ls lost prefix before after t r :
  ls <> [] -> Forall scannable ls ->
  lost = [""] \/ (exists long more, lost = long :: more /\ fits long = false /\ Forall (lacks newline) lost) ->
  first_occurrence before (Join_sep newline (ls ++ lost)) after ->
  runs (UncommentCode filename (Join_sep newline (ls ++ lost)) prefix) t r ->
  @Ev UtilsSignature (AReadFile filename) (inr (before +:+ Join_sep newline (ls ++ lost) +:+ after)) ∈ t ->
  exists w, r = Foreign <$> w /\
    @Ev UtilsSignature (AWriteFile filename
      (before +:+ Join_sep newline (map (fun l => TrimPrefix l prefix) ls) +:+ after) 420) w ∈ t.
Proof.
  intros Hne Hs Hlost Hf H Hin.
  assert (ScanLines (Join_sep newline (ls ++ lost)) = ls) as El.
  { destruct Hlost as [->|(long & more & -> & Hl & Hm)];
      [by apply ScanLines_final_newline|by apply ScanLines_long_line]. }
  destruct (UncommentCode_writes _ _ _ _ _ _ _ Hf ltac:(by rewrite El) H Hin) as (w & -> & Hw).
  rewrite El in Hw. by exists w.
Qed.
End Utils.

(** ** Concrete runs *)

Section Runs.
#[local] Instance text_errors : ForeignErrors := {| ext_error := string; ext_message := fun e => e |}.
#[local] Existing Instance UtilsSignature.

(** One file; a command puts out the given text. *)
Definition utils_handler (output : string) (a : utils_action) (content : string)
    : utils_result a * string :=
  match a return utils_result a * string with
  | AGetwd => (("/src/test/e2e", None), content)
  | ACombinedOutput _ => ((output, None), content)
  | AChdir _ => (None, content)
  | AEnviron => (["PATH=/bin"], content)
  | ALookupEnv _ => (None, content)
  | APrint _ => (tt, content)
  | AReadFile _ => (inr content, content)
  | AWriteFile _ data _ => (None, data)
  end.

Definition lines (ls : list string) : string := Join_sep newline ls.

Definition utils_trace {A} (output : string) (p : prog A) (content : string) : list event :=
  (exec (W := string) (utils_handler output) p content).1.2.
Lemma utils_runs {A} output (p : prog A) content :
  runs p (utils_trace output p content) (exec (W := string) (utils_handler output) p content).1.1.
Proof. unfold utils_trace. destruct (exec _ p content) as [[a t] w] eqn:E. by eapply exec_runs. Qed.

Definition crd_output : string := lines ["NAME"; "clusters.cluster.x-k8s.io"; "issuers.cert-manager.io"; ""].
Definition probe_run : list event := utils_trace crd_output IsCertManagerCRDsInstalled "".

Lemma crds_detected_iff_witness : detected ["kubectl"; "get"; "crds"] certManagerCRDs probe_run.
Proof.
  destruct (crds_detected_iff probe_run true) as [_ H].
  apply H; [|reflexivity]. exact (utils_runs crd_output IsCertManagerCRDsInstalled "").
Defined.

Definition before_code : string := lines ["resources:"; ""].
Definition code : string := lines ["- ../webhook"; ""; "  namePrefix: webhook-"].
Definition after_code : string := lines [""; "end"; ""].
Definition commented_file : string := before_code +:+ commented "#" code +:+ after_code.

Lemma code_first : first_occurrence before_code (commented "#" code) after_code.
Proof. by apply Index_first. Qed.

Lemma uncomment_undoes_comment_witness :
  exists w, @Ev UtilsSignature (AWriteFile "kustomization.yaml" (before_code +:+ code +:+ after_code) 420) w ∈
    utils_trace "" (UncommentCode "kustomization.yaml" (commented "#" code) "#") commented_file.
Proof.
  destruct (uncomment_undoes_comment "kustomization.yaml" "#" code before_code after_code
    (utils_trace "" (UncommentCode "kustomization.yaml" (commented "#" code) "#") commented_file) None)
    as (w & _ & Hw).
  - done.
  - change (Split newline code) with ["- ../webhook"; ""; "  namePrefix: webhook-"].
    repeat (constructor; [split_and!; by vm_compute|]). constructor.
  - exact code_first.
  - exact (utils_runs "" (UncommentCode "kustomization.yaml" (commented "#" code) "#") commented_file).
  - left.
  - exists w. exact Hw.
Defined.

(** The line after the uncommented one ends up on the same line. *)
Lemma uncomment_loses_text_witness :
  exists w, @Ev UtilsSignature (AWriteFile "kustomization.yaml" (lines ["resources:"; "- ../webhook- ../crd"]) 420) w ∈
    utils_trace "" (UncommentCode "kustomization.yaml" (lines ["#- ../webhook"; ""]) "#")
      (lines ["resources:"; "#- ../webhook"; "- ../crd"]).
Proof.
  destruct (uncomment_loses_text "kustomization.yaml" ["#- ../webhook"] [""] "#" (lines ["resources:"; ""]) "- ../crd"
    (utils_trace "" (UncommentCode "kustomization.yaml" (lines ["#- ../webhook"; ""]) "#")
      (lines ["resources:"; "#- ../webhook"; "- ../crd"])) None)
    as (w & _ & Hw).
  - done.
  - repeat (constructor; [split_and!; by vm_compute|]). constructor.
  - by left.
  - by apply Index_first.
  - exact (utils_runs "" (UncommentCode "kustomization.yaml" (lines ["#- ../webhook"; ""]) "#") _).
  - left.
  - exists w. exact Hw.
Defined.
End Runs.
