(* ===== verification/Helpers.v ===== *)
(** * Helpers: internal/controller/helpers.go

    The constants, the namespace and annotation helpers, the download and the
    extraction of the CRD archive, and the rendering of Helm charts. *)
From S2P Require Import Prelude GoProg GoError GoPath ApiTypes Platform.
Open Scope go_scope.

Definition deployToAll : bool := true.

Definition kubewardenNamespace : string := "kubewarden".
Definition kubewardenControllerRepository : string := "https://github.com/kubewarden/kubewarden-controller".
Definition githubReleasesPath : string := "releases/download".
Definition kubewardenVersion : string := "v1.18.0".

Definition kubewardenHelmChartURL : string := "https://charts.kubewarden.io/".
Definition kubewardenHelmReleaseName : string := "caapkw".
Definition kubewardenHelmDefaultPolicyServerName : string := "default".

Definition defaultRequeueDuration : Z := 1 * Minute.

Definition KubewardenInstalledAnnotation : string := "caapkw.kubewarden.io/installed".

(** [HasAnnotation]: reading a nil map finds nothing. *)
Definition HasAnnotation (o : ObjectMeta) (annotation : string) : bool :=
  match GetAnnotations o with
  | None => false
  | Some annotations => bool_decide (is_Some (annotations !! annotation))
  end.

(** [resolveChartVersion]: the mapping is not implemented. *)
Definition resolveChartVersion (appVersion chartName : string) : string :=
  if decide (appVersion = "") then "" else "".

Section Helpers.
Context `{P : Platform}.

Definition createKubewardenNamespace (remoteClient : client) : prog (option error) :=
  err <- Create remoteClient (ONamespace kubewardenNamespace) ;;
  match err with
  | Some e => if negb (IsAlreadyExists e) then ret (Some (Foreign e)) else ret None
  | None => ret None
  end.

(** [createActionConfig] returns the settings and the error of [Init]; the
    action configuration itself is not used by the caller. *)
Definition createActionConfig (targetNamespace : string) : prog (EnvSettings * option ext_error) :=
  settings <- HelmSettings ;;
  driver <- Getenv "HELM_DRIVER" ;;
  err <- HelmInit settings targetNamespace driver ;;
  ret (settings, err).

Definition getChart (chartPathOption : ChartPathOptions) (chartName : string) (settings : EnvSettings)
  : prog (error + chart) :=
  chartPath <- LocateChart chartPathOption chartName settings orelse err => ret (inl (Foreign err)) ;;
  chart <- LoadChart chartPath orelse err => ret (inl (Foreign err)) ;;
  ret (inr chart).

Record TemplateConfig := {
  ReleaseName : string;
  Chart : chart;
  tc_Namespace : string;
  IncludeCRDs : bool;
  Values : list (string * value);
  UseReleaseName : bool;
}.

Definition helmTemplate (config : TemplateConfig) : prog (error + string) :=
  let client :=
    {| ClientOnly := true;
       DryRun := true;
       ins_ReleaseName := ReleaseName config;
       ins_IncludeCRDs := IncludeCRDs config;
       ins_Namespace := tc_Namespace config;
       DisableHooks := true |} in
  manifest <- HelmRun client (Chart config) (Values config)
    orelse err => ret (inl (Wrap "could not render helm chart correctly" (Foreign err))) ;;
  ret (inr manifest).

Definition renderHelmChart (name version : string) (values : list (string * value))
  : prog (error + string) :=
  cfg <- createActionConfig kubewardenNamespace ;;
  match cfg.2 with
  | Some err => ret (inl (Foreign err))
  | None =>
      let chartPathOptions :=
        {| RepoURL := kubewardenHelmChartURL;
           cpo_Version := resolveChartVersion version name |} in
      chart <- getChart chartPathOptions name cfg.1 orelse err => ret (inl err) ;;
      rendered <- helmTemplate
          {| ReleaseName := kubewardenHelmReleaseName;
             Chart := chart;
             tc_Namespace := kubewardenNamespace;
             IncludeCRDs := false;
             Values := values;
             UseReleaseName := false |}
        orelse err => ret (inl err) ;;
      renderedFile <- CreateTemp "" "kubewarden-helm-rendered-*.yaml"
        orelse err => ret (inl (Foreign err)) ;;
      defer (ignore_error (Close renderedFile)) (
        check WriteString renderedFile rendered orelse err => ret (inl (Foreign err)) ;;
        ret (inr (file_Name renderedFile)))
  end.

Definition downloadFile (url : string) : prog (error + string) :=
  response <- HttpGet url
    orelse err => ret (inl (Wrap "failed to download file" (Foreign err))) ;;
  defer (ignore_error (CloseBody (Body response))) (
    if negb (StatusCode response =? StatusOK)%Z
    then ret (inl (New ("failed to download file: HTTP " +:+ pretty (StatusCode response))))
    else
      tempFile <- CreateTemp "" "kubewarden-*.tar.gz"
        orelse err => ret (inl (Wrap "failed to create temp file" (Foreign err))) ;;
      defer (ignore_error (Close tempFile)) (
        check Copy tempFile (Body response)
          orelse err => ret (inl (Wrap "failed to write file" (Foreign err))) ;;
        ret (inr (file_Name tempFile)))).

(** The loop of [extractTarGz] over the entries.  The [defer] of an iteration
    runs when the function returns, so it encloses the iterations after it. *)
Fixpoint extractEntries (extractDir : string) (entries : list (ext_error + (Z * string * reader)))
  : prog (error + string) :=
  match entries with
  | [] => ret (inr extractDir)
  | inl err :: _ => ret (inl (Wrap "failed to read tar header" (Foreign err)))
  | inr (Typeflag, hdrName, tarReader) :: entries' =>
      if (Typeflag =? TypeDir)%Z then extractEntries extractDir entries'
      else
        let targetPath := Join extractDir hdrName in
        outFile <- CreateFile targetPath
          orelse err => ret (inl (Wrap ("failed to create file " +:+ targetPath) (Foreign err))) ;;
        defer (ignore_error (Close outFile)) (
          check Copy outFile tarReader
            orelse err => ret (inl (Wrap ("failed to write file " +:+ targetPath) (Foreign err))) ;;
          extractEntries extractDir entries')
  end.

Definition extractTarGz (tarGzPath : string) : prog (error + string) :=
  file <- Open tarGzPath
    orelse err => ret (inl (Wrap "failed to open tar.gz file" (Foreign err))) ;;
  defer (ignore_error (Close file)) (
    gzipReader <- GzipReader file
      orelse err => ret (inl (Wrap "failed to create gzip reader" (Foreign err))) ;;
    defer (ignore_error (GzipClose gzipReader)) (
      extractDir <- MkdirTemp "" "kubewarden-crds-*"
        orelse err => ret (inl (Wrap "failed to create temp directory" (Foreign err))) ;;
      extractEntries extractDir (tar_entries gzipReader))).
End Helpers.
