(* ===== verification/HelpersFacts.v ===== *)
(** * HelpersFacts: properties of helpers.go

    Footprints (which calls each helper may issue), release of every resource
    on every path, and what a successful return says. *)
From S2P Require Import Prelude GoProg GoError GoPath ApiTypes Platform Traces Helpers.
Open Scope go_scope.

(** Helm's latest chart version, whatever the application's version. *)
Lemma resolveChartVersion_latest appVersion chartName : resolveChartVersion appVersion chartName = "".
Proof. unfold resolveChartVersion. by destruct (decide _). Qed.

Section Footprints.
Context `{P : Platform}.

Lemma within_renderHelmChart name version values :
  within on_host (renderHelmChart name version values).
Proof.
  unfold renderHelmChart, createActionConfig, getChart, helmTemplate. unfold_calls. within_tac.
Qed.

Lemma within_downloadFile url : within on_host (downloadFile url).
Proof. unfold downloadFile. unfold_calls. within_tac. Qed.

Lemma within_extractEntries dir es : within on_host (extractEntries dir es).
Proof.
  induction es as [|[e|[[flag name] body]] es IH]; simpl; unfold_calls; within_tac.
Qed.

Lemma within_extractTarGz path : within on_host (extractTarGz path).
Proof.
  unfold extractTarGz. unfold_calls. within_tac. apply within_extractEntries.
Qed.

Lemma within_createKubewardenNamespace c : within (on_remote c) (createKubewardenNamespace c).
Proof. unfold createKubewardenNamespace. unfold_calls. within_tac. Qed.
End Footprints.

#[export] Hint Resolve within_renderHelmChart within_downloadFile within_extractTarGz
  within_createKubewardenNamespace : within.

(** ** Resources *)

Section Resources.
Context `{P : Platform}.

Lemma bp_renderHelmChart name version values : balanced_prog (renderHelmChart name version values).
Proof. unfold renderHelmChart, createActionConfig, getChart, helmTemplate. unfold_calls. bp_tac. Qed.

Lemma bp_downloadFile url : balanced_prog (downloadFile url).
Proof. unfold downloadFile. unfold_calls. bp_tac. Qed.

Lemma bp_extractEntries dir es : balanced_prog (extractEntries dir es).
Proof.
  induction es as [|[e|[[flag name] body]] es IH]; cbn [extractEntries]; unfold_calls; bp_tac.
Qed.

Lemma bp_extractTarGz path : balanced_prog (extractTarGz path).
Proof. unfold extractTarGz. pose proof bp_extractEntries. unfold_calls. bp_tac; eauto. Qed.

Lemma bp_createKubewardenNamespace c : balanced_prog (createKubewardenNamespace c).
Proof. unfold createKubewardenNamespace. unfold_calls. bp_tac. Qed.
End Resources.
#[export] Hint Resolve bp_renderHelmChart bp_downloadFile bp_extractTarGz
  bp_createKubewardenNamespace : within.

(** ** Results *)

Section Outcomes.
Context `{P : Platform}.

Lemma extractEntries_dir dir es t d : runs (extractEntries dir es) t (inr d) -> d = dir.
Proof.
  revert t. induction es as [|[e|[[flag name] body]] es IH]; intros t; cbn [extractEntries]; unfold_calls.
  - by intros [_ [= ->]].
  - by intros [_ ?].
  - destruct (flag =? TypeDir)%Z; [apply IH|]. intros H. run_inv. by eapply IH.
Qed.
End Outcomes.
