(* ===== verification/Toy.v ===== *)
(** * Toy: a small executable environment

    A concrete instance of the [Platform] parameters and an in-memory
    environment (one management cluster, workload clusters that store admission
    policies) that answers the calls of the reconcilers.  The theorems hold for
    every platform and environment; this one runs the reconcilers on concrete
    inputs. *)
From S2P Require Import Prelude GoProg GoError ApiTypes Platform.

Definition toy_errors : ForeignErrors := {| ext_error := string; ext_message := fun e => e |}.

Definition toy_is_true (c : Cluster) (condition : string) : bool :=
  existsb (fun k => bool_decide (cond_Type k = condition) && bool_decide (cond_Status k = "True"))
          (Cluster_Conditions (Cluster_Status c)).

#[export] Instance toy_platform : Platform := {|
  platform_errors := toy_errors;
  IsNotFound := fun e : string => bool_decide (e = "NotFound");
  IsAlreadyExists := fun e : string => bool_decide (e = "AlreadyExists");
  Selector := gmap string string;
  LabelSelectorAsSelector := fun s =>
    match MatchExpressions s with
    | [] => inr (MatchLabels s)
    | _ => inl ("not a valid label selector operator" : @ext_error toy_errors)
    end;
  Matches := fun sel labels => bool_decide (map_Forall (fun k v => labels !! k = Some v) sel);
  ControlPlaneReadyCondition := "ControlPlaneReady";
  IsTrue := toy_is_true;
  remote_client := NamespacedName;
  PolicyStatusActive := "active";
  runtime_object := string;
  client_object := string;
  GroupVersionKind := string;
  UniversalDecode := fun raw =>
    if decide (raw = "") then (None, None, Some ("Object 'Kind' is missing" : @ext_error toy_errors))
    else (Some raw, Some raw, None);
  as_client_object := fun o => Some o;
  client_object_type := fun _ => "*unstructured.Unstructured";
  file := string;
  file_Name := fun f => f;
  yaml_documents := fun f => [inr f];
  reader := string;
  gzip_reader := string;
  tar_entries := fun _ => [inr (53, "crds/", ""); inr (48, "policies.yaml", "crd")]%Z;
  EnvSettings := unit;
  chart := string;
|}.

Record toy := {
  toy_addons : list Addon.KubewardenAddon;
  toy_policies : list Policy.KubewardenPolicy;
  toy_clusters : list Cluster;
  (** Admission policies stored in the workload cluster reached by a handle. *)
  toy_caps : gmap (NamespacedName * NamespacedName) ClusterAdmissionPolicy;
  toy_aps : gmap (NamespacedName * NamespacedName) AdmissionPolicy;
}.

Definition toy_key (m : ObjectMeta) : NamespacedName := ObjectKeyFromObject m.

Definition with_clusters (w : toy) (cs : list Cluster) : toy :=
  {| toy_addons := toy_addons w; toy_policies := toy_policies w; toy_clusters := cs;
     toy_caps := toy_caps w; toy_aps := toy_aps w |}.
Definition with_addons (w : toy) (l : list Addon.KubewardenAddon) : toy :=
  {| toy_addons := l; toy_policies := toy_policies w; toy_clusters := toy_clusters w;
     toy_caps := toy_caps w; toy_aps := toy_aps w |}.
Definition with_policies (w : toy) (l : list Policy.KubewardenPolicy) : toy :=
  {| toy_addons := toy_addons w; toy_policies := l; toy_clusters := toy_clusters w;
     toy_caps := toy_caps w; toy_aps := toy_aps w |}.
Definition with_caps (w : toy) (m : gmap (NamespacedName * NamespacedName) ClusterAdmissionPolicy) : toy :=
  {| toy_addons := toy_addons w; toy_policies := toy_policies w; toy_clusters := toy_clusters w;
     toy_caps := m; toy_aps := toy_aps w |}.
Definition with_aps (w : toy) (m : gmap (NamespacedName * NamespacedName) AdmissionPolicy) : toy :=
  {| toy_addons := toy_addons w; toy_policies := toy_policies w; toy_clusters := toy_clusters w;
     toy_caps := toy_caps w; toy_aps := m |}.

Definition not_found {A} : @ext_error toy_errors + A := inl "NotFound".
Definition found {A} (o : option A) : @ext_error toy_errors + A :=
  match o with Some a => inr a | None => not_found end.

Definition replace {A} (meta : A -> ObjectMeta) (a : A) (l : list A) : list A :=
  map (fun b => if decide (toy_key (meta b) = toy_key (meta a)) then a else b) l.

(** [fails a]: the environment answers the action [a] with an error. *)
Definition toy_handler (fails : go_action -> bool) (a : go_action) (w : toy) : go_result a * toy :=
  let boom : @ext_error toy_errors := "boom" in
  let f := fails a in
  match a return go_result a * toy with
  | AGet c k kd =>
      (if f then inl boom else
       match kd return ext_error + kind_object kd with
       | KAddon => found (List.find (fun x : Addon.KubewardenAddon => bool_decide (toy_key x = k)) (toy_addons w))
       | KPolicy => found (List.find (fun x : Policy.KubewardenPolicy => bool_decide (toy_key x = k)) (toy_policies w))
       | KClusterAdmissionPolicy =>
           match c with Remote rc => found (toy_caps w !! (rc, k)) | Management => not_found end
       | KAdmissionPolicy =>
           match c with Remote rc => found (toy_aps w !! (rc, k)) | Management => not_found end
       end, w)
  | AListClusters _ ns sel =>
      (if f then inl boom else
       inr (List.filter (fun c : Cluster => bool_decide (Namespace c = ns) &&
              match sel with None => true | Some s => Matches s (Labels c) end) (toy_clusters w)), w)
  | AListAddons _ => (if f then inl boom else inr {| Addon.Items := toy_addons w |}, w)
  | AListPolicies _ ns =>
      (if f then inl boom else
       inr {| Policy.Items := List.filter (fun p : Policy.KubewardenPolicy => bool_decide (Namespace p = ns))
                                          (toy_policies w) |}, w)
  | ACreate c o =>
      if f then (Some boom, w) else
      match c, o with
      | Remote rc, OClusterAdmissionPolicy p =>
          match toy_caps w !! (rc, toy_key p) with
          | Some _ => (Some "AlreadyExists", w)
          | None => (None, with_caps w (<[(rc, toy_key p) := p]> (toy_caps w)))
          end
      | Remote rc, OAdmissionPolicy p =>
          match toy_aps w !! (rc, toy_key p) with
          | Some _ => (Some "AlreadyExists", w)
          | None => (None, with_aps w (<[(rc, toy_key p) := p]> (toy_aps w)))
          end
      | _, _ => (None, w)
      end
  | AUpdate c o =>
      if f then (Some boom, w) else
      match c, o with
      | Remote rc, OClusterAdmissionPolicy p =>
          match toy_caps w !! (rc, toy_key p) with
          | Some _ => (None, with_caps w (<[(rc, toy_key p) := p]> (toy_caps w)))
          | None => (Some "NotFound", w)
          end
      | Remote rc, OAdmissionPolicy p =>
          match toy_aps w !! (rc, toy_key p) with
          | Some _ => (None, with_aps w (<[(rc, toy_key p) := p]> (toy_aps w)))
          | None => (Some "NotFound", w)
          end
      | _, _ => (None, w)
      end
  | ADelete c o =>
      if f then (Some boom, w) else
      match c, o with
      | Remote rc, OClusterAdmissionPolicy p =>
          match toy_caps w !! (rc, toy_key p) with
          | Some _ => (None, with_caps w (delete (rc, toy_key p) (toy_caps w)))
          | None => (Some "NotFound", w)
          end
      | Remote rc, OAdmissionPolicy p =>
          match toy_aps w !! (rc, toy_key p) with
          | Some _ => (None, with_aps w (delete (rc, toy_key p) (toy_aps w)))
          | None => (Some "NotFound", w)
          end
      | _, _ => (None, w)
      end
  | APatch cl o _ =>
      if f then (Some boom, w) else
      match cl, o with
      | Management, OCluster c =>
          if existsb (fun b : Cluster => bool_decide (toy_key b = toy_key c)) (toy_clusters w)
          then (None, with_clusters w (replace Cluster_ObjectMeta c (toy_clusters w)))
          else (Some "NotFound", w)
      | _, _ => (None, w)
      end
  | AStatusUpdate _ o =>
      if f then (Some boom, w) else
      match o with
      | OPolicy p => (None, with_policies w (replace Policy.Policy_ObjectMeta p (toy_policies w)))
      | _ => (None, w)
      end
  | AStatusPatch _ o _ =>
      if f then (Some boom, w) else
      match o with
      | OAddon p => (None, with_addons w (replace Addon.Addon_ObjectMeta p (toy_addons w)))
      | _ => (None, w)
      end
  | ARemoteClient _ k => (if f then inl boom else inr k, w)
  | ALogError _ _ => (tt, w)
  | ANow => (1%Z, w)
  | AHttpGet _ => (if f then inl boom else inr {| StatusCode := 200; Body := "body" |}, w)
  | ACreateTemp _ _ => (if f then inl boom else inr "/tmp/file", w)
  | AMkdirTemp _ _ => (if f then inl boom else inr "/tmp/kubewarden-crds-1", w)
  | AOpen p => (if f then inl boom else inr p, w)
  | ACreateFile p => (if f then inl boom else inr p, w)
  | ACloseBody _ | AClose _ | AWriteString _ _ | ACopy _ _ | ARemove _ | ARemoveAll _
  | AGzipClose _ => (if f then Some boom else None, w)
  | AGlob _ => (if f then inl boom else inr ["/tmp/kubewarden-crds-1/policies.yaml"], w)
  | AGzipReader p => (if f then inl boom else inr p, w)
  | AGetenv _ => ("", w)
  | AHelmSettings => (tt, w)
  | AHelmInit _ _ _ => (if f then Some boom else None, w)
  | ALocateChart _ n _ => (if f then inl boom else inr n, w)
  | ALoadChart p => (if f then inl boom else inr p, w)
  | AHelmRun _ c _ => (if f then inl boom else inr c, w)
  end.

Definition never (_ : go_action) : bool := false.

(** ** Sample objects *)

Definition toy_meta (ns name : string) (labels : gmap string string)
    (annotations : option (gmap string string)) : ObjectMeta :=
  {| Name := name; Namespace := ns; Labels := labels; Annotations := annotations;
     DeletionTimestamp := None |}.

Definition toy_type (kind : string) : TypeMeta := {| Kind := kind; APIVersion := "v1" |}.

Definition toy_cluster (name : string) (ready : bool) (annotations : option (gmap string string)) : Cluster :=
  {| Cluster_TypeMeta := toy_type "Cluster";
     Cluster_ObjectMeta := toy_meta "default" name {["env" := "prod"]} annotations;
     Cluster_Status :=
       {| ControlPlaneReady := ready;
          Cluster_Conditions :=
            [{| cond_Type := "ControlPlaneReady"; cond_Status := if ready then "True" else "False";
                cond_Reason := ""; cond_Message := "" |}] |} |}.

Definition installed_annotations : option (gmap string string) :=
  Some {["caapkw.kubewarden.io/installed" := "true"]}.

Definition prod_selector : LabelSelector :=
  {| MatchLabels := {["env" := "prod"]}; MatchExpressions := [] |}.

Definition toy_addon : Addon.KubewardenAddon :=
  {| Addon.Addon_TypeMeta := toy_type "KubewardenAddon";
     Addon.Addon_ObjectMeta := toy_meta "default" "addon" ∅ None;
     Addon.Spec :=
       {| Addon.ClusterSelector := prod_selector;
          Addon.Version := "";
          Addon.ImageRepository := "";
          Addon.Spec_PolicyServerConfig :=
            {| Resources := {| CPU := ""; Memory := "" |}; Replicas := 1 |} |};
     Addon.Status := {| Addon.Ready := false; Addon.Conditions := []; Addon.MatchingClusters := [] |} |}.

Definition toy_rule : Policy.PolicyRule :=
  {| Policy.APIGroups := [""]; Policy.APIVersions := ["v1"]; Policy.Resources := ["pods"];
     Policy.Operations := ["CREATE"; "UPDATE"]; Policy.Scope := "" |}.

Definition toy_policy : Policy.KubewardenPolicy :=
  {| Policy.Policy_TypeMeta := toy_type "KubewardenPolicy";
     Policy.Policy_ObjectMeta := toy_meta "default" "no-privileged-pods" ∅ None;
     Policy.Spec :=
       {| Policy.ClusterSelector := prod_selector;
          Policy.PolicyType := "ClusterAdmissionPolicy";
          Policy.PolicyName := "no-privileged-pods";
          Policy.TargetNamespace := "";
          Policy.PolicyServer := "default";
          Policy.Module_ := "registry://ghcr.io/kubewarden/policies/pod-privileged:v1.0.8";
          Policy.Rules := [toy_rule];
          Policy.Mutating := false;
          Policy.Settings := {| Raw := "" |};
          Policy.FailurePolicy := "Fail";
          Policy.MatchConditions := [] |};
     Policy.Status := {| Policy.Ready := false; Policy.Conditions := []; Policy.MatchingClusters := [];
                         Policy.DeployedPolicies := [] |} |}.

Definition toy_world (cs : list Cluster) : toy :=
  {| toy_addons := [toy_addon]; toy_policies := [toy_policy]; toy_clusters := cs;
     toy_caps := ∅; toy_aps := ∅ |}.

Definition addon_req : NamespacedName := {| nn_Namespace := "default"; nn_Name := "addon" |}.
Definition policy_req : NamespacedName :=
  {| nn_Namespace := "default"; nn_Name := "no-privileged-pods" |}.
