(* ===== verification/AddonController.v ===== *)
(** * AddonController: internal/controller/kubewardenaddon_controller.go

    The reconciler of KubewardenAddon: [Reconcile], the installation of
    Kubewarden on the selected clusters, and the map function that turns
    cluster events into requests. *)
From S2P Require Import Prelude GoProg GoError GoPath ApiTypes Platform Helpers.
Open Scope go_scope.

Definition Result_zero : Result := {| Requeue := false; RequeueAfter := 0 |}.

(** ** Go maps in memory

    [cluster.GetAnnotations()] returns a reference to the cluster's own map, so
    the few statements that annotate a cluster are modelled on a heap of maps:
    a map value is a location, [None] is the nil map. *)
Module GoMap.
Notation loc := nat.
Notation heap := (gmap loc (gmap string string)).

Definition alloc (h : heap) (m : gmap string string) : heap * loc :=
  let l := fresh (dom h) in (<[l := m]> h, l).
Definition read (h : heap) (l : loc) : gmap string string := default ∅ (h !! l).
Definition store (h : heap) (l : loc) (k v : string) : heap := <[l := <[k := v]> (read h l)]> h.

(** A map field of a decoded object, and its deep copy. *)
Definition alloc_field (h : heap) (m : option (gmap string string)) : heap * option loc :=
  match m with
  | None => (h, None)
  | Some m => let '(h, l) := alloc h m in (h, Some l)
  end.
Definition read_field (h : heap) (f : option loc) : option (gmap string string) :=
  read h <$> f.
Definition copy_field (h : heap) (f : option loc) : heap * option loc :=
  alloc_field h (read_field h f).
End GoMap.

Definition SetAnnotations (c : Cluster) (annotations : option (gmap string string)) : Cluster :=
  {| Cluster_TypeMeta := c;
     Cluster_ObjectMeta :=
       {| Name := Name c; Namespace := Namespace c; Labels := Labels c;
          Annotations := annotations; DeletionTimestamp := DeletionTimestamp c |};
     Cluster_Status := Cluster_Status c |}.

(** The statements that mark a cluster as installed: the annotated cluster, and
    the deep copy taken before the mutation. *)
Definition annotateInstalled (cluster : Cluster) : Cluster * Cluster :=
  let '(h, field) := GoMap.alloc_field ∅ (GetAnnotations cluster) in
  (* annotations := cluster.GetAnnotations(); if nil, a new map *)
  let '(h, annotations) :=
    match field with
    | None => GoMap.alloc h ∅
    | Some l => (h, l)
    end in
  (* clusterCopy := cluster.DeepCopy() *)
  let '(h, copyField) := GoMap.copy_field h field in
  (* annotations[KubewardenInstalledAnnotation] = "true" *)
  let h := GoMap.store h annotations KubewardenInstalledAnnotation "true" in
  (* cluster.SetAnnotations(annotations) *)
  let field := Some annotations in
  (SetAnnotations cluster (GoMap.read_field h field),
   SetAnnotations cluster (GoMap.read_field h copyField)).

(** The toleration of the control-plane taint. *)
Definition controlPlaneToleration : value :=
  VMap [("key", VString "node-role.kubernetes.io/control-plane");
        ("operator", VString "Exists");
        ("effect", VString "NoSchedule")].

(** Nested single-field JSON objects. *)
Fixpoint at_path (path : list string) (v : value) : value :=
  match path with
  | [] => v
  | f :: path => VMap [(f, at_path path v)]
  end.

Definition patchController : value :=
  at_path ["spec"; "template"; "spec"; "tolerations"] (VList [controlPlaneToleration]).
Definition patchPolicyServer : value :=
  at_path ["spec"; "tolerations"] (VList [controlPlaneToleration]).
Definition patchAuditScanner : value :=
  at_path ["spec"; "jobTemplate"; "spec"; "template"; "spec"; "tolerations"]
          (VList [controlPlaneToleration]).

Definition crdsURL (version : string) : string :=
  kubewardenControllerRepository +:+ "/" +:+ githubReleasesPath +:+ "/" +:+ version +:+ "/CRDS.tar.gz".

Section AddonController.
Context `{P : Platform}.
Import Addon.

(** The objects [applyControlPlaneTolerations] patches. *)
Definition controllerDeployment : object :=
  ODeployment (kubewardenHelmReleaseName +:+ "-kubewarden-controller") kubewardenNamespace.
Definition defaultPolicyServer : object :=
  OUnstructured "policies.kubewarden.io/v1" "PolicyServer"
    kubewardenHelmDefaultPolicyServerName kubewardenNamespace.
Definition auditScanner : object :=
  OUnstructured "batch/v1" "CronJob" "audit-scanner" kubewardenNamespace.

Definition applyControlPlaneTolerations (remoteClient : client) : prog (option error) :=
  check Patch remoteClient controllerDeployment (RawPatch StrategicMergePatchType patchController)
    orelse err => ret (Some (Wrap "patch kubewarden-controller deployment" (Foreign err))) ;;
  check Patch remoteClient defaultPolicyServer (RawPatch MergePatchType patchPolicyServer)
    orelse err => ret (Some (Wrap "patch PolicyServer" (Foreign err))) ;;
  (* audit-scanner is optional: its error is only logged *)
  _ <- Patch remoteClient auditScanner (RawPatch StrategicMergePatchType patchAuditScanner) ;;
  ret None.

(** The decoding loop of [applyManifest] over the documents of the file. *)
Fixpoint applyDocuments (k8sClient : client) (docs : list (ext_error + string)) : prog (option error) :=
  match docs with
  | [] => ret None
  | inl err :: _ => ret (Some (Wrap "failed to decode manifest" (Foreign err)))
  | inr raw :: docs' =>
      match UniversalDecode raw with
      | (_, None, _) => ret None
      | (_, Some _, Some err) => ret (Some (Wrap "failed to decode runtime object" (Foreign err)))
      | (runtimeObject, Some _, None) =>
          match runtimeObject ≫= as_client_object with
          | None => ret (Some (New "failed to cast runtime object to client.Object"))
          | Some obj =>
              err <- Create k8sClient (ODecoded obj) ;;
              match err with
              | Some e =>
                  if negb (IsAlreadyExists e)
                  then ret (Some (Wrap "failed to apply resource" (Foreign e)))
                  else applyDocuments k8sClient docs'
              | None => applyDocuments k8sClient docs'
              end
          end
      end
  end.

Definition applyManifest (k8sClient : client) (filePath : string) : prog (option error) :=
  file <- Open filePath orelse err => ret (Some (Wrap "failed to open file" (Foreign err))) ;;
  defer (ignore_error (Close file)) (applyDocuments k8sClient (yaml_documents file)).

Definition applyCRDFiles (remoteClient : client) (files : list string) : prog (option error) :=
  o <- for_range files tt (fun file _ =>
         check applyManifest remoteClient file
           orelse err => ret (Return (Some (Wrap ("apply CRD from file " +:+ file) err))) ;;
         ret (Next tt)) ;;
  match o with
  | Next _ => ret None
  | Return e => ret e
  end.

Definition installKubewardenCRDs (version : string) (remoteClient : client) : prog (option error) :=
  crdsPath <- downloadFile (crdsURL version)
    orelse err => ret (Some (Wrap "download CRDs tarball" err)) ;;
  defer (ignore_error (Remove crdsPath)) (
    extractDir <- extractTarGz crdsPath orelse err => ret (Some (Wrap "extract CRDs" err)) ;;
    defer (ignore_error (RemoveAll extractDir)) (
      files <- Glob (Join extractDir "*.yaml")
        orelse err => ret (Some (Wrap "list extracted files" (Foreign err))) ;;
      applyCRDFiles remoteClient files)).

Definition installKubewardenController (remoteClient : client) (addon : KubewardenAddon)
  : prog (option error) :=
  let values := [("tolerations", VList [controlPlaneToleration])] in
  renderedPath <- renderHelmChart "kubewarden-controller" (Version (Spec addon)) values
    orelse err => ret (Some (Wrap "render kubewarden-controller helm chart" err)) ;;
  check applyManifest remoteClient renderedPath
    orelse err => ret (Some (Wrap "apply kubewarden-controller manifest" err)) ;;
  ret None.

Definition installKubewardenDefaults (remoteClient : client) (addon : KubewardenAddon)
  : prog (option error) :=
  let values := [("policyServer", VMap [("tolerations", VList [controlPlaneToleration])])] in
  renderedPath <- renderHelmChart "kubewarden-defaults" (Version (Spec addon)) values
    orelse err => ret (Some (Wrap "render kubewarden-defaults helm chart" err)) ;;
  check applyManifest remoteClient renderedPath
    orelse err => ret (Some (Wrap "apply kubewarden-defaults manifest" err)) ;;
  ret None.

Definition selectClusters (clusters : list Cluster) (selector : LabelSelector) : error + list Cluster :=
  match LabelSelectorAsSelector selector with
  | inl err => inl (Wrap "converting label selector" (Foreign err))
  | inr labelSelector =>
      inr (fold_left (fun selectedClusters (cluster : Cluster) =>
             if Matches labelSelector (Labels cluster)
             then selectedClusters ++ [cluster] else selectedClusters) clusters [])
  end.

Definition getAllCapiClusters (ns : string) : prog (error + list Cluster) :=
  clusters <- ListClusters Management ns None
    orelse err => ret (inl (Wrap "listing clusters" (Foreign err))) ;;
  ret (inr clusters).

(** [!cluster.Status.ControlPlaneReady && !conditions.IsTrue(...)] *)
Definition controlPlaneNotReady (cluster : Cluster) : bool :=
  negb (ControlPlaneReady (Cluster_Status cluster)) && negb (IsTrue cluster ControlPlaneReadyCondition).

(** One iteration of the loop over the selected clusters. *)
Definition reconcileCluster (addon : KubewardenAddon) (cluster : Cluster) (_ : unit)
  : prog (flow unit (Result * option error)) :=
  let fail prefix err := ret (Return (Result_zero, Some (Wrap prefix err))) in
  if controlPlaneNotReady cluster
  then ret (Return ({| Requeue := false; RequeueAfter := defaultRequeueDuration |}, None))
  else if HasAnnotation cluster KubewardenInstalledAnnotation
  then ret (Return (Result_zero, None))
  else
    rc <- RemoteClientGetter (Name cluster) (ObjectKeyFromObject cluster)
      orelse err => fail "getting remote cluster client" (Foreign err) ;;
    let remoteClient := Remote rc in
    check createKubewardenNamespace remoteClient
      orelse err => fail "creating kubewarden namespace" err ;;
    let appVersion :=
      if decide (Version (Spec addon) = "") then kubewardenVersion else Version (Spec addon) in
    check installKubewardenCRDs appVersion remoteClient
      orelse err => fail "creating kubewarden CRDs" err ;;
    check installKubewardenController remoteClient addon
      orelse err => fail "installing kubewarden controller" err ;;
    check installKubewardenDefaults remoteClient addon
      orelse err => fail "installing kubewarden defaults" err ;;
    check applyControlPlaneTolerations remoteClient
      orelse err => fail "applying control-plane tolerations" err ;;
    let '(annotated, clusterCopy) := annotateInstalled cluster in
    check Patch Management (OCluster annotated) (MergeFrom (OCluster clusterCopy))
      orelse err => fail "update cluster annotations" (Foreign err) ;;
    ret (Next tt).

(** The statements after the loop: the status patch. *)
Definition patchReady (addon : KubewardenAddon) (selectedClusters : list Cluster)
  : prog (Result * option error) :=
  let addonCopy := addon in
  let clusters := selectedClusters in
  let addon :=
    SetReady addon (bool_decide (0 < length selectedClusters) &&
                    bool_decide (length clusters = length selectedClusters)) in
  err <- StatusPatch Management (OAddon addon) (MergeFrom (OAddon addonCopy)) ;;
  match err with
  | Some e => _ <- LogError (Some (Foreign e)) "failed to update addon status" ;; ret (Result_zero, None)
  | None => ret (Result_zero, None)
  end.

Definition reconcileNormal (addon : KubewardenAddon) : prog (Result * option error) :=
  allClusters <- getAllCapiClusters (Namespace addon)
    orelse err => ret (Result_zero, Some (Wrap "getting capi clusters" err)) ;;
  match selectClusters allClusters (ClusterSelector (Spec addon)) with
  | inl err => ret (Result_zero, Some (Wrap "selecting clusters" err))
  | inr selectedClusters =>
      let addon := SetMatchingClusters addon selectedClusters in
      o <- for_range selectedClusters tt (reconcileCluster addon) ;;
      match o with
      | Return r => ret r
      | Next _ => patchReady addon selectedClusters
      end
  end.

Definition Reconcile (req : NamespacedName) : prog (Result * option error) :=
  r <- Get Management req KAddon ;;
  match r with
  | inl err =>
      if IsNotFound err
      then ret ({| Requeue := true; RequeueAfter := 0 |}, None)
      else ret ({| Requeue := true; RequeueAfter := 0 |}, Some (Foreign err))
  | inr addon =>
      if negb (Time_IsZero (DeletionTimestamp (Addon_ObjectMeta addon)))
      then ret (Result_zero, None)
      else reconcileNormal addon
  end.

(** [clusterToKubewardenAddon]; a nil result is the empty list. *)
Definition clusterToKubewardenAddon (o : object) : prog (list NamespacedName) :=
  match o with
  | OCluster _ =>
      addons <- ListAddons Management orelse _err => ret [] ;;
      ret (fold_left (fun requests (addon : KubewardenAddon) =>
             requests ++ [{| nn_Namespace := Namespace addon; nn_Name := Name addon |}])
           (Items addons) [])
  | _ =>
      _ <- LogError None ("Expected a Cluster but got a " +:+ object_type o) ;;
      ret []
  end.
End AddonController.
