(* ===== verification/AddonFacts.v ===== *)
(** * AddonFacts: lemmas about kubewardenaddon_controller.go

    Footprints of the installation steps, release of resources, and what a
    successful return of each step says about its trace. *)
From S2P Require Import Prelude GoProg GoError GoPath ApiTypes Platform Traces Helpers HelpersFacts AddonController.
Open Scope go_scope.

Section Footprints.
Context `{P : Platform}.

Lemma within_host_remote {A} c (p : prog A) : within on_host p -> within (on_remote c) p.
Proof. apply within_weaken. apply on_host_remote. Qed.

Lemma within_applyDocuments c docs : within (on_remote c) (applyDocuments c docs).
Proof.
  induction docs as [|[e|raw] docs IH]; cbn [applyDocuments]; [done..|].
  destruct (UniversalDecode raw) as [[ro [k|]] [err|]]; [done| |done..].
  destruct (ro ≫= as_client_object); [|done]. unfold_calls. within_tac.
Qed.

Lemma within_applyManifest c path : within (on_remote c) (applyManifest c path).
Proof. unfold applyManifest. pose proof (within_applyDocuments c). unfold_calls. within_tac. Qed.
#[local] Hint Resolve within_applyManifest : within.
#[local] Hint Extern 2 (within (on_remote _) _) => simple apply within_host_remote : within.

Lemma within_applyCRDFiles c files : within (on_remote c) (applyCRDFiles c files).
Proof. unfold applyCRDFiles. within_tac. Qed.
#[local] Hint Resolve within_applyCRDFiles : within.

Lemma within_installKubewardenCRDs v c : within (on_remote c) (installKubewardenCRDs v c).
Proof. unfold installKubewardenCRDs. unfold_calls. within_tac. Qed.
Lemma within_installKubewardenController c addon :
  within (on_remote c) (installKubewardenController c addon).
Proof. unfold installKubewardenController. within_tac. Qed.
Lemma within_installKubewardenDefaults c addon :
  within (on_remote c) (installKubewardenDefaults c addon).
Proof. unfold installKubewardenDefaults. within_tac. Qed.
Lemma within_applyControlPlaneTolerations c : within (on_remote c) (applyControlPlaneTolerations c).
Proof. unfold applyControlPlaneTolerations. unfold_calls. within_tac. Qed.
End Footprints.

#[export] Hint Resolve within_applyManifest within_applyCRDFiles within_installKubewardenCRDs
  within_installKubewardenController within_installKubewardenDefaults
  within_applyControlPlaneTolerations : within.

Section Resources.
Context `{P : Platform}.

Lemma bp_applyDocuments c docs : balanced_prog (applyDocuments c docs).
Proof.
  induction docs as [|[e|raw] docs IH]; cbn [applyDocuments]; [bp_tac..|].
  destruct (UniversalDecode raw) as [[ro [k|]] [err|]]; [bp_tac| |bp_tac..].
  destruct (ro ≫= as_client_object); unfold_calls; bp_tac.
Qed.
#[local] Hint Resolve bp_applyDocuments : within.
Lemma bp_applyManifest c path : balanced_prog (applyManifest c path).
Proof. unfold applyManifest. unfold_calls. bp_tac. Qed.
#[local] Hint Resolve bp_applyManifest : within.
Lemma bp_applyCRDFiles c files : balanced_prog (applyCRDFiles c files).
Proof. unfold applyCRDFiles. bp_tac. Qed.
#[local] Hint Resolve bp_applyCRDFiles : within.
Lemma bp_installKubewardenCRDs v c : balanced_prog (installKubewardenCRDs v c).
Proof.
  unfold installKubewardenCRDs. bp_tac. apply bp_defer; unfold_calls; bp_tac.
  apply bp_defer; bp_tac.
Qed.
Lemma bp_installKubewardenController c addon : balanced_prog (installKubewardenController c addon).
Proof. unfold installKubewardenController. bp_tac. Qed.
Lemma bp_installKubewardenDefaults c addon : balanced_prog (installKubewardenDefaults c addon).
Proof. unfold installKubewardenDefaults. bp_tac. Qed.
Lemma bp_applyControlPlaneTolerations c : balanced_prog (applyControlPlaneTolerations c).
Proof. unfold applyControlPlaneTolerations. unfold_calls. bp_tac. Qed.
#[local] Hint Resolve bp_installKubewardenCRDs bp_installKubewardenController
  bp_installKubewardenDefaults bp_applyControlPlaneTolerations : within.

Lemma bp_reconcileCluster addon cluster u : balanced_prog (reconcileCluster addon cluster u).
Proof. unfold reconcileCluster. destruct (annotateInstalled cluster). unfold_calls. bp_tac. Qed.
#[local] Hint Resolve bp_reconcileCluster : within.
Lemma bp_reconcileNormal addon : balanced_prog (reconcileNormal addon).
Proof. unfold reconcileNormal, getAllCapiClusters, patchReady. unfold_calls. bp_tac. Qed.
Lemma bp_Reconcile req : balanced_prog (Reconcile req).
Proof. unfold Reconcile. pose proof bp_reconcileNormal. unfold_calls. bp_tac. Qed.
End Resources.

(** ** What success means *)

Section Success.
Context `{P : Platform}.
Import Addon.

(** The release's CRD archive was downloaded, unpacked into [dir], and every
    YAML file found there applied. *)
Definition crds_installed (t : list event) (c : client) (version : string) : Prop :=
  exists resp dir files,
    @Ev GoSignature (AHttpGet (crdsURL version)) (inr resp) ∈ t /\
    StatusCode resp = StatusOK /\
    @Ev GoSignature (AMkdirTemp "" "kubewarden-crds-*") (inr dir) ∈ t /\
    @Ev GoSignature (AGlob (Join dir "*.yaml")) (inr files) ∈ t /\
    Forall (manifest_applied t c) files.

(** The chart was located in the Kubewarden repository, loaded, rendered with
    the given values, written to a file, and the file applied. *)
Definition chart_installed (t : list event) (c : client) (name : string)
    (values : list (string * value)) : Prop :=
  exists s path ch i manifest f,
    @Ev GoSignature (ALocateChart {| RepoURL := kubewardenHelmChartURL; cpo_Version := "" |} name s)
       (inr path) ∈ t /\
    @Ev GoSignature (ALoadChart path) (inr ch) ∈ t /\
    @Ev GoSignature (AHelmRun i ch values) (inr manifest) ∈ t /\
    @Ev GoSignature (AWriteString f manifest) None ∈ t /\
    manifest_applied t c (file_Name f).

Definition tolerations_patched (t : list event) (c : client) : Prop :=
  @Ev GoSignature (APatch c controllerDeployment (RawPatch StrategicMergePatchType patchController)) None ∈ t /\
  @Ev GoSignature (APatch c defaultPolicyServer (RawPatch MergePatchType patchPolicyServer)) None ∈ t.

(** The version whose CRDs are installed. *)
Definition crd_version (addon : KubewardenAddon) : string :=
  if decide (Version (Spec addon) = "") then kubewardenVersion else Version (Spec addon).

(** Kubewarden was installed through the client [c]. *)
Record kubewarden_installed (t : list event) (addon : KubewardenAddon) (c : client) : Prop := {
  inst_namespace : ensured t c (ONamespace kubewardenNamespace);
  inst_crds : crds_installed t c (crd_version addon);
  inst_controller : chart_installed t c "kubewarden-controller"
                      [("tolerations", VList [controlPlaneToleration])];
  inst_defaults : chart_installed t c "kubewarden-defaults"
                    [("policyServer", VMap [("tolerations", VList [controlPlaneToleration])])];
  inst_tolerations : tolerations_patched t c;
}.

Lemma crds_installed_mono t t' c v : t ⊆ t' -> crds_installed t c v -> crds_installed t' c v.
Proof.
  intros Ht (resp & dir & files & H1 & H2 & H3 & H4 & H5). exists resp, dir, files.
  split_and!; auto. eapply Forall_impl; [exact H5|]. eauto using manifest_applied_mono.
Qed.
Lemma chart_installed_mono t t' c n v : t ⊆ t' -> chart_installed t c n v -> chart_installed t' c n v.
Proof.
  intros Ht (s & path & ch & i & m & f & H). exists s, path, ch, i, m, f.
  destruct_and! H. split_and!; eauto using manifest_applied_mono.
Qed.
Lemma tolerations_patched_mono t t' c : t ⊆ t' -> tolerations_patched t c -> tolerations_patched t' c.
Proof. intros Ht [H1 H2]. split; auto. Qed.
Lemma kubewarden_installed_mono t t' addon c :
  t ⊆ t' -> kubewarden_installed t addon c -> kubewarden_installed t' addon c.
Proof.
  intros Ht []. constructor;
    eauto using ensured_mono, crds_installed_mono, chart_installed_mono, tolerations_patched_mono.
Qed.

Lemma createKubewardenNamespace_ok c t :
  runs (createKubewardenNamespace c) t None -> ensured t c (ONamespace kubewardenNamespace).
Proof.
  unfold createKubewardenNamespace. unfold_calls. intros H. run_inv;
    eexists; (split; [in_tac|]); simpl; [by destruct (IsAlreadyExists _)|done].
Qed.

Lemma applyDocuments_ok c docs t :
  runs (applyDocuments c docs) t None -> Forall (fun o => ensured t c (ODecoded o)) (applicable docs).
Proof.
  revert t. induction docs as [|[e|raw] docs IH]; intros t; cbn [applyDocuments applicable]; [done..|].
  destruct (UniversalDecode raw) as [[[ro|] [k|]] [err|]]; try done.
  cbn [mbind option_bind]. destruct (as_client_object ro) as [obj|]; [|done]. unfold_calls.
  intros H. run_inv; constructor;
    first [ eexists; split; [in_tac|]; simpl; first [done | by destruct (IsAlreadyExists _)]
          | eapply Forall_impl; [eapply IH; eassumption|]; intros o; apply ensured_mono; in_tac ].
Qed.

Lemma applyManifest_ok c path t :
  runs (applyManifest c path) t None -> manifest_applied t c path.
Proof.
  unfold applyManifest. unfold_calls. intros H. run_inv. exists f. split; [in_tac|].
  eapply Forall_impl; [by eapply applyDocuments_ok|]. intros o. apply ensured_mono. in_tac.
Qed.

Lemma applyCRDFiles_ok c files t :
  runs (applyCRDFiles c files) t None -> Forall (manifest_applied t c) files.
Proof.
  unfold applyCRDFiles. intros H. run_inv.
  - apply Forall_forall. intros file Hf%list_elem_of_In.
    match goal with H : runs (for_range _ _ _) _ _ |- _ =>
      destruct (runs_for_range_Next _ _ _ _ _ _ H Hf) as (t1 & t2 & t3 & s1 & s2 & -> & Hb) end.
    run_inv. eapply manifest_applied_mono; [|by eapply applyManifest_ok]. in_tac.
  - match goal with H : runs (for_range _ _ _) _ _ |- _ =>
      apply runs_for_range_Return in H as (l1 & x & l2 & t1 & s1 & t2 & -> & -> & _ & Hb) end.
    run_inv.
Qed.

Lemma installKubewardenCRDs_ok v c t :
  runs (installKubewardenCRDs v c) t None -> crds_installed t c v.
Proof.
  unfold installKubewardenCRDs, downloadFile, extractTarGz. unfold_calls. intros H. run_inv.
  match goal with H : runs (extractEntries _ _) _ _ |- _ =>
    pose proof (extractEntries_dir _ _ _ _ H); subst end.
  match goal with Hb : negb (StatusCode _ =? _)%Z = false |- _ => apply negb_false_iff, Z.eqb_eq in Hb end.
  do 3 eexists. split_and!; [in_tac|done|in_tac|in_tac|].
  eapply Forall_impl; [by eapply applyCRDFiles_ok|]. intros o. apply manifest_applied_mono. in_tac.
Qed.

Lemma renderHelmChart_ok name version values t path :
  runs (renderHelmChart name version values) t (inr path) ->
  exists s p ch i manifest f,
    path = file_Name f /\
    @Ev GoSignature (ALocateChart {| RepoURL := kubewardenHelmChartURL; cpo_Version := "" |} name s)
       (inr p) ∈ t /\
    @Ev GoSignature (ALoadChart p) (inr ch) ∈ t /\
    @Ev GoSignature (AHelmRun i ch values) (inr manifest) ∈ t /\
    @Ev GoSignature (AWriteString f manifest) None ∈ t.
Proof.
  unfold renderHelmChart, createActionConfig, getChart, helmTemplate.
  rewrite resolveChartVersion_latest.
  unfold_calls. intros H. run_inv.
  do 6 eexists. split_and!; [done|in_tac..].
Qed.

Lemma chart_applied_ok name version values c t1 t2 path :
  runs (renderHelmChart name version values) t1 (inr path) ->
  runs (applyManifest c path) t2 None -> chart_installed (t1 ++ t2) c name values.
Proof.
  intros (s & p & ch & i & m & f & -> & H1 & H2 & H3 & H4)%renderHelmChart_ok H5%applyManifest_ok.
  exists s, p, ch, i, m, f. split_and!; eauto using manifest_applied_mono with trace.
Qed.

Lemma installKubewardenController_ok c addon t :
  runs (installKubewardenController c addon) t None ->
  chart_installed t c "kubewarden-controller" [("tolerations", VList [controlPlaneToleration])].
Proof.
  unfold installKubewardenController. intros H. run_inv.
  rewrite app_nil_r. by eapply chart_applied_ok.
Qed.

Lemma installKubewardenDefaults_ok c addon t :
  runs (installKubewardenDefaults c addon) t None ->
  chart_installed t c "kubewarden-defaults"
    [("policyServer", VMap [("tolerations", VList [controlPlaneToleration])])].
Proof.
  unfold installKubewardenDefaults. intros H. run_inv.
  rewrite app_nil_r. by eapply chart_applied_ok.
Qed.

Lemma applyControlPlaneTolerations_ok c t :
  runs (applyControlPlaneTolerations c) t None -> tolerations_patched t c.
Proof.
  unfold applyControlPlaneTolerations. unfold_calls. intros H. run_inv. split; in_tac.
Qed.
End Success.
