(* ===== verification/AddonSpec.v ===== *)
(** * AddonSpec: correctness of the KubewardenAddon reconciler

    The theorems quantify over every environment: [issues (Reconcile req) t c]
    covers every point of every run (also one that is cut short), [runs] every
    complete run. *)
From S2P Require Import Prelude GoProg GoError GoPath ApiTypes Platform Traces Helpers HelpersFacts.
From S2P Require Import Webhooks Toy AddonController AddonFacts.
Open Scope go_scope.

(** ** Lemmas *)

Lemma annotateInstalled_eq cluster :
  annotateInstalled cluster =
    (SetAnnotations cluster
       (Some (<[KubewardenInstalledAnnotation := "true"]> (default ∅ (Annotations cluster)))),
     cluster).
Proof.
  destruct cluster as [tm om st]. unfold annotateInstalled, GetAnnotations; simpl.
  destruct om as [n ns ls [m|] dt]; simpl;
    unfold GoMap.copy_field, GoMap.alloc_field, GoMap.read_field, GoMap.alloc; simpl;
    unfold SetAnnotations, GoMap.store, GoMap.read; simpl.
  - set (l := fresh _). set (h1 := <[l := m]> _). set (l' := fresh (dom h1)).
    assert (l <> l') as Hne.
    { intros E. apply (is_fresh (dom h1)). fold l'. rewrite <- E. apply elem_of_dom.
      exists m. unfold h1. by rewrite lookup_insert_eq. }
    assert (h1 !! l = Some m) as Hl by (unfold h1; by rewrite lookup_insert_eq).
    rewrite Hl. simpl.
    assert (<[l' := m]> h1 !! l = Some m) as -> by (by rewrite lookup_insert_ne).
    assert (forall x, <[l := x]> (<[l' := m]> h1) !! l' = Some m) as ->
      by (intros x; rewrite lookup_insert_ne by done; apply lookup_insert_eq).
    by rewrite lookup_insert_eq.
  - by rewrite !lookup_insert_eq.
Qed.

Section Lemmas.
Context `{P : Platform}.
Import Addon.

(** What a call through the management client from an iteration says. *)
Record iteration_installed (addon : KubewardenAddon) (cluster : Cluster) (t : list event) : Prop := {
  it_ready : controlPlaneNotReady cluster = false;
  it_new : HasAnnotation cluster KubewardenInstalledAnnotation = false;
  it_installed : exists rc,
    @Ev GoSignature (ARemoteClient (Name cluster) (ObjectKeyFromObject cluster)) (inr rc) ∈ t /\
    kubewarden_installed t addon (Remote rc);
}.

Lemma iteration_installed_mono addon cluster t t' :
  t ⊆ t' -> iteration_installed addon cluster t -> iteration_installed addon cluster t'.
Proof.
  intros Ht [H1 H2 (rc & H3 & H4)]. split; [done..|]. exists rc. split; [auto|].
  by eapply kubewarden_installed_mono.
Qed.

Lemma remote_not_management {A} rc (p : prog A) t a :
  within (on_remote (Remote rc)) p -> action_client a = Some Management -> ~ issues p t a.
Proof.
  intros Hw Ha Hi. pose proof (within_issues _ _ _ _ Hw Hi) as H.
  unfold on_remote in H. by rewrite Ha in H.
Qed.

(** Closes the goals where an installation step issued a management call. *)
Ltac no_management :=
  match goal with
  | H : issues ?p _ ?a |- _ =>
      exfalso; refine (remote_not_management _ p _ a _ _ H); [within_tac|done]
  end.

(** The facts of the steps that succeeded, gathered for one remote client. *)
Ltac gather_installed :=
  constructor;
  [ eapply ensured_mono; [|by eapply createKubewardenNamespace_ok]; in_tac
  | eapply crds_installed_mono; [|by eapply installKubewardenCRDs_ok]; in_tac
  | eapply chart_installed_mono; [|by eapply installKubewardenController_ok]; in_tac
  | eapply chart_installed_mono; [|by eapply installKubewardenDefaults_ok]; in_tac
  | eapply tolerations_patched_mono; [|by eapply applyControlPlaneTolerations_ok]; in_tac ].

Lemma reconcileCluster_issues addon cluster u t a :
  action_client a = Some Management ->
  issues (reconcileCluster addon cluster u) t a ->
  iteration_installed addon cluster t /\
  a = APatch Management (OCluster (annotateInstalled cluster).1) (MergeFrom (OCluster cluster)).
Proof.
  intros Ha. unfold reconcileCluster. unfold_calls.
  destruct (controlPlaneNotReady cluster) eqn:Hr; [by intros ?%issues_ret|].
  destruct (HasAnnotation _ _) eqn:Hn; [by intros ?%issues_ret|].
  rewrite annotateInstalled_eq. intros H.
  repeat issue_step; try no_management; try done. run_inv. split; [|done].
  split; [done..|]. eexists. split; [in_tac|]. gather_installed.
Qed.

Lemma reconcileCluster_installed addon cluster u :
  controlPlaneNotReady cluster = false ->
  HasAnnotation cluster KubewardenInstalledAnnotation = true ->
  reconcileCluster addon cluster u = ret (Return (Result_zero, None)).
Proof. intros Hr Hn. unfold reconcileCluster. by rewrite Hr, Hn. Qed.

Lemma reconcileCluster_Next addon cluster u t :
  runs (reconcileCluster addon cluster u) t (Next tt) ->
  iteration_installed addon cluster t /\
  @Ev GoSignature
    (APatch Management (OCluster (annotateInstalled cluster).1) (MergeFrom (OCluster cluster))) None ∈ t.
Proof.
  unfold reconcileCluster. unfold_calls.
  destruct (controlPlaneNotReady cluster) eqn:Hr; [by intros [_ ?]%runs_ret|].
  destruct (HasAnnotation _ _) eqn:Hn; [by intros [_ ?]%runs_ret|].
  rewrite annotateInstalled_eq. intros H. run_inv. split; [|in_tac].
  split; [done..|]. eexists. split; [in_tac|]. gather_installed.
Qed.
End Lemmas.

(** ** Lemmas on the whole reconcile *)

Section ReconcileLemmas.
Context `{P : Platform}.
Import Addon.

Lemma selectClusters_ok clusters selector sel :
  LabelSelectorAsSelector selector = inr sel ->
  selectClusters clusters selector =
    inr (List.filter (fun c : Cluster => Matches sel (Labels c)) clusters).
Proof. unfold selectClusters. intros ->. by rewrite fold_left_filter. Qed.

(** The beginning of a reconcile that got past the reads: the addon it read,
    the clusters it listed, the clusters it selected. *)
Record started (req : NamespacedName) (addon : KubewardenAddon) (cs selected : list Cluster)
    (t : list event) : Prop := {
  st_get : @Ev GoSignature (AGet Management req KAddon) (inr addon) ∈ t;
  st_list : @Ev GoSignature (AListClusters Management (Namespace addon) None) (inr cs) ∈ t;
  st_selected : selectClusters cs (ClusterSelector (Spec addon)) = inr selected;
}.

(** A write of the reconcile is either the annotation of a selected cluster
    after its installation, or the final status patch after all of them. *)
Lemma Reconcile_writes req t a :
  is_write a = true -> action_client a = Some Management -> issues (Reconcile req) t a ->
  exists addon cs selected, started req addon cs selected t /\
    ((exists cluster, cluster ∈ selected /\
        iteration_installed (SetMatchingClusters addon selected) cluster t /\
        a = APatch Management (OCluster (annotateInstalled cluster).1) (MergeFrom (OCluster cluster)))
     \/
     ((forall cluster, cluster ∈ selected ->
         iteration_installed (SetMatchingClusters addon selected) cluster t /\
         @Ev GoSignature (APatch Management (OCluster (annotateInstalled cluster).1)
                            (MergeFrom (OCluster cluster))) None ∈ t) /\
      a = AStatusPatch Management
            (OAddon (SetReady (SetMatchingClusters addon selected) (bool_decide (0 < length selected))))
            (MergeFrom (OAddon (SetMatchingClusters addon selected))))).
Proof.
  intros Hw Hm. unfold Reconcile, reconcileNormal, getAllCapiClusters, patchReady. unfold_calls.
  intros H. repeat issue_step; try done; run_inv.
  - match goal with H : issues (for_range _ _ _) _ _ |- _ =>
      apply issues_for_range in H as (pre & cluster & post & u1 & [] & u2 & -> & -> & H1 & H2) end.
    apply reconcileCluster_issues in H2 as [H2 ->]; [|done].
    do 3 eexists. split; [split; [in_tac|in_tac|eassumption]|]. left. exists cluster.
    split_and!; [set_solver| |done]. eapply iteration_installed_mono; [|exact H2]. in_tac.
  - do 3 eexists. split; [split; [in_tac|in_tac|eassumption]|]. right. split.
    + intros cluster Hc%list_elem_of_In.
      match goal with H : runs (for_range _ _ _) _ (Next ?s) |- _ =>
        destruct s; destruct (runs_for_range_Next _ _ _ _ _ _ H Hc) as (u1 & u2 & u3 & [] & [] & -> & Hb) end.
      apply reconcileCluster_Next in Hb as [Hb1 Hb2].
      split; [eapply iteration_installed_mono; [|exact Hb1]|]; in_tac.
    + by rewrite (bool_decide_eq_true_2 (length _ = length _)), andb_true_r.
Qed.
End ReconcileLemmas.

(** ** Theorems *)

Section Theorems.
Context `{P : Platform}.
Import Addon.

(** C1: safety of the installed annotation.  Whatever the environment answers,
    the only patch the reconciler ever sends to the management cluster sets
    the installed annotation on one of the clusters it listed and selected,
    and at that point of the run that cluster was ready and not yet annotated,
    its remote client had been obtained, and through that client the
    namespace, the CRDs of the addon's version, both Helm charts and the
    control-plane tolerations had been installed successfully. *)
Theorem annotates_only_installed req t o p :
  issues (Reconcile req) t (APatch Management o p) ->
  exists addon cs selected cluster rc,
    started req addon cs selected t /\ cluster ∈ selected /\
    controlPlaneNotReady cluster = false /\
    HasAnnotation cluster KubewardenInstalledAnnotation = false /\
    @Ev GoSignature (ARemoteClient (Name cluster) (ObjectKeyFromObject cluster)) (inr rc) ∈ t /\
    kubewarden_installed t addon (Remote rc) /\
    o = OCluster (annotateInstalled cluster).1 /\ p = MergeFrom (OCluster cluster).
Proof.
  intros H. apply Reconcile_writes in H as (addon & cs & sel & Hs & [(c & Hc & [Hr Hn (rc & Hrc & Hi)] & E)|[_ E]]);
    [|done..].
  exists addon, cs, sel, c, rc. injection E as -> ->. split_and!; try done. by destruct Hi.
Qed.

(** C11: the addon's Ready status.  The status patch is only sent when every
    selected cluster was ready, was not annotated when the run began, and was
    installed and annotated successfully in this very run; it sets Ready to
    whether any cluster was selected.  In particular a run that finds a
    selected cluster already installed never reports Ready. *)
Theorem ready_means_all_installed req t o p :
  issues (Reconcile req) t (AStatusPatch Management o p) ->
  exists addon cs selected,
    started req addon cs selected t /\
    o = OAddon (SetReady (SetMatchingClusters addon selected) (bool_decide (selected <> []))) /\
    forall cluster, cluster ∈ selected ->
      controlPlaneNotReady cluster = false /\
      HasAnnotation cluster KubewardenInstalledAnnotation = false /\
      exists rc,
        @Ev GoSignature (ARemoteClient (Name cluster) (ObjectKeyFromObject cluster)) (inr rc) ∈ t /\
        kubewarden_installed t addon (Remote rc) /\
        @Ev GoSignature (APatch Management (OCluster (annotateInstalled cluster).1)
                           (MergeFrom (OCluster cluster))) None ∈ t.
Proof.
  intros H. apply Reconcile_writes in H as (addon & cs & sel & Hs & [(c & _ & _ & E)|[Hall E]]);
    [done| |done..].
  exists addon, cs, sel. injection E as -> ->. split_and!; [done| |].
  - do 2 f_equal. apply bool_decide_ext. destruct sel; simpl; split; [lia|done|done|lia].
  - intros c Hc. destruct (Hall c Hc) as [[Hr Hn (rc & Hrc & Hi)] Hp].
    split_and!; [done..|]. exists rc. split_and!; [done| |done]. by destruct Hi.
Qed.

(** The status patch carries only Ready.  The deep copy that the patch is
    computed against is taken after [SetMatchingClusters], so the patched
    object differs from its base in the Ready field alone: the matching
    clusters computed by the run are in both, and are never sent. *)
Theorem matching_clusters_not_in_patch req t o p :
  issues (Reconcile req) t (AStatusPatch Management o p) ->
  exists addon base : KubewardenAddon,
    o = OAddon addon /\ p = MergeFrom (OAddon base) /\
    addon = SetReady base (Ready (Status addon)) /\
    MatchingClusters (Status addon) = MatchingClusters (Status base).
Proof.
  intros H. apply Reconcile_writes in H as (addon & cs & sel & Hs & [(c & _ & _ & E)|[_ E]]);
    [done| |done..].
  injection E as -> ->. by do 2 eexists.
Qed.

(** C24: an installed cluster ends the reconcile.  When the first selected
    cluster that is not freshly installable is ready and carries the
    annotation, the run makes no call after the reads: no later selected
    cluster is installed, the status is not patched, and the request is not
    requeued. *)
Theorem installed_cluster_stops_reconcile addon t r cs cluster rest :
  runs (reconcileNormal addon) t r ->
  head t ≫= answered_clusters = Some cs ->
  selectClusters cs (ClusterSelector (Spec addon)) = inr (cluster :: rest) ->
  controlPlaneNotReady cluster = false ->
  HasAnnotation cluster KubewardenInstalledAnnotation = true ->
  t = [@Ev GoSignature (AListClusters Management (Namespace addon) None) (inr cs)] /\
  r = (Result_zero, None).
Proof.
  intros H Ht Hsel Hr Hn. unfold reconcileNormal, getAllCapiClusters in H. unfold_calls_in H.
  run_inv; cbn in Ht; simplify_eq; [congruence|..];
  match goal with H : runs (for_range ?l _ _) _ _ |- _ =>
    replace l with (cluster :: rest) in H by congruence;
    cbn [for_range] in H; rewrite reconcileCluster_installed in H by done end;
  run_inv; done.
Qed.

(** A deleted addon is requeued for ever.  A request for an addon that
    does not exist any more makes no other call and is answered with an
    immediate requeue and no error; any other read error is returned. *)
Theorem missing_addon_requeued req t r e :
  runs (Reconcile req) t r ->
  head t ≫= answered_get_error = Some e ->
  length t = 1 /\ Requeue r.1 = true /\
  r.2 = if IsNotFound e then None else Some (Foreign e).
Proof.
  intros H Ht. unfold Reconcile in H. unfold_calls_in H.
  run_inv; cbn in Ht; simplify_eq; simpl; split_and!; try done;
    match goal with Hb : IsNotFound _ = _ |- _ => by rewrite Hb end.
Qed.

(** C25: no leak of open resources.  Every file the reconciler opens or
    creates, every HTTP response body and every gzip reader is released
    exactly once in every complete run, on the error paths as well. *)
Theorem reconcile_releases_resources req t r :
  runs (Reconcile req) t r -> flat_map acquired t ≡ₚ flat_map released t.
Proof. apply bp_Reconcile. Qed.

(** The annotation patch is minimal.  The deep copy that the patch is
    computed against is the cluster as it was read, although the annotations
    are changed through a reference into the cluster; the patched object
    carries the installed annotation and differs in nothing else. *)
Theorem annotation_patch_minimal cluster :
  let '(annotated, base) := annotateInstalled cluster in
  base = cluster /\
  HasAnnotation annotated KubewardenInstalledAnnotation = true /\
  (forall k, k <> KubewardenInstalledAnnotation ->
     default ∅ (Annotations annotated) !! k = default ∅ (Annotations cluster) !! k) /\
  SetAnnotations annotated (Annotations cluster) = cluster.
Proof.
  rewrite annotateInstalled_eq. split_and!; [done| | |].
  - unfold HasAnnotation, GetAnnotations. simpl. by rewrite lookup_insert_eq.
  - intros k Hk. simpl. by rewrite lookup_insert_ne.
  - by destruct cluster as [? [] ?].
Qed.

(** A cluster event enqueues every addon the list returns, in order, by
    namespace and name and whatever its selector; nothing when the list
    fails, and nothing for an event on another kind of object. *)
Theorem cluster_event_enqueues_all_addons o t r :
  runs (clusterToKubewardenAddon o) t r <->
  match o with
  | OCluster _ => exists a : ext_error + KubewardenAddonList,
      t = [@Ev GoSignature (AListAddons Management) a] /\
      r = match a with inl _ => [] | inr l => map (fun x => ObjectKeyFromObject (Addon_ObjectMeta x)) (Items l) end
  | _ => t = [@Ev GoSignature (ALogError None ("Expected a Cluster but got a " +:+ object_type o)) tt] /\ r = []
  end.
Proof.
  unfold clusterToKubewardenAddon.
  destruct o; try apply runs_log_nil.
  unfold_calls. split.
  - intros H. run_inv; eexists; (split; [done|]); [done|]. by rewrite (fold_left_snoc _ (Items _) []).
  - intros (a & -> & ->). apply runs_bind. exists [@Ev GoSignature (AListAddons Management) a], a, [].
    split_and!; [done|exact (proj2 (@runs_call GoSignature (AListAddons Management) _ a) eq_refl)|].
    destruct a as [e|l]; apply runs_ret; [done|]. by rewrite (fold_left_snoc _ (Items l) []).
Qed.
End Theorems.
