(* ===== verification/AddonInstall.v ===== *)
(** * AddonInstall: what the installation steps do to the outside

    Functional specifications of the manifest loop and of the archive
    extraction, and the calls the reconciler makes to the network, to Helm and
    to the file system. *)
From S2P Require Import Prelude GoProg GoError GoPath ApiTypes Platform Traces Helpers HelpersFacts.
From S2P Require Import Webhooks Toy AddonController AddonFacts.
Open Scope go_scope.

(** ** Manifests *)

Section Manifests.
Context `{P : Platform}.

(** The answer of [Create] lets the loop go on. *)
Definition accepted (r : option ext_error) : Prop :=
  match r with None => True | Some e => IsAlreadyExists e = true end.

(** The trace creates exactly [objs], in order, all of them accepted. *)
Definition creates (c : client) (objs : list client_object) (t : list event) : Prop :=
  Forall2 (fun o e => exists r : option ext_error, e = @Ev GoSignature (ACreate c (ODecoded o)) r /\ accepted r)
    objs t.

(** How a manifest ends once all its applicable objects are accepted: at its
    end or at a document without a kind, or at a document that cannot be
    read, decoded or cast. *)
Fixpoint manifest_end (docs : list (ext_error + string)) : option error :=
  match docs with
  | [] => None
  | inl err :: _ => Some (Wrap "failed to decode manifest" (Foreign err))
  | inr raw :: docs' =>
      match UniversalDecode raw with
      | (_, None, _) => None
      | (_, _, Some err) => Some (Wrap "failed to decode runtime object" (Foreign err))
      | (ro, _, None) =>
          match ro ≫= as_client_object with
          | None => Some (New "failed to cast runtime object to client.Object")
          | Some _ => manifest_end docs'
          end
      end
  end.

(** The complete runs of the loop, described without it. *)
Definition manifest_runs (c : client) (docs : list (ext_error + string))
    (t : list event) (r : option error) : Prop :=
  (creates c (applicable docs) t /\ r = manifest_end docs) \/
  exists pre obj post t' e,
    applicable docs = pre ++ obj :: post /\ creates c pre t' /\
    IsAlreadyExists e = false /\
    t = t' ++ [@Ev GoSignature (ACreate c (ODecoded obj)) (Some e)] /\
    r = Some (Wrap "failed to apply resource" (Foreign e)).

Lemma manifest_runs_stop c docs t r :
  applicable docs = [] -> manifest_runs c docs t r <-> t = [] /\ r = manifest_end docs.
Proof.
  intros Ha. unfold manifest_runs, creates. rewrite Ha. split.
  - intros [[H ->]|(pre & obj & post & t' & e & H & _)]; [by inversion H|].
    by destruct pre.
  - intros [-> ->]. left. by split; [constructor|].
Qed.

Lemma manifest_runs_cons c raw docs ro k obj t r :
  UniversalDecode raw = (Some ro, Some k, None) -> as_client_object ro = Some obj ->
  manifest_runs c (inr raw :: docs) t r <->
  exists a t', t = @Ev GoSignature (ACreate c (ODecoded obj)) a :: t' /\
    ((accepted a /\ manifest_runs c docs t' r) \/
     exists e, a = Some e /\ IsAlreadyExists e = false /\ t' = [] /\
       r = Some (Wrap "failed to apply resource" (Foreign e))).
Proof.
  intros Hd Ho. unfold manifest_runs, creates. cbn [applicable manifest_end].
  rewrite Hd. cbn [mbind option_bind]. rewrite Ho. split.
  - intros [[H ->]|(pre & o & post & t' & e & Hp & H & He & -> & ->)].
    + inversion H as [|? ? ? t' (a & -> & Ha) Ht]; subst. exists a, t'. split; [done|]. left. auto.
    + destruct pre as [|o' pre]; injection Hp as -> Hp.
      * inversion H; subst. exists (Some e), []. split; [done|]. right. eauto.
      * inversion H as [|? ? ? t1 (a & -> & Ha) Ht]; subst. eexists a, _. split; [done|].
        left. split; [done|]. right. do 5 eexists. split_and!; eauto.
  - intros (a & t' & -> & [[Ha [[H ->]|(pre & o & post & t1 & e & -> & H & He & -> & ->)]]|(e & -> & He & -> & ->)]).
    + left. split; [|done]. constructor; eauto.
    + right. exists (obj :: pre), o, post, (@Ev GoSignature (ACreate c (ODecoded obj)) a :: t1), e.
      split_and!; try done. constructor; eauto.
    + right. exists [], obj, (applicable docs), [], e. split_and!; done.
Qed.

Lemma runs_Create c o t (a : option ext_error) :
  runs (Create c o) t a <-> t = [@Ev GoSignature (ACreate c o) a].
Proof. exact (@runs_call GoSignature (ACreate c o) t a). Qed.

(** C15: functional behaviour of the manifest loop.  It creates the objects of
    the documents in order, up to the first document that is not an object,
    taking AlreadyExists for success; it stops with an error at the first
    creation refused for another reason, and otherwise with the outcome of
    the document it stopped at.  The description is exact: these are all the
    runs the loop has. *)
Theorem applyDocuments_spec c docs t r :
  runs (applyDocuments c docs) t r <-> manifest_runs c docs t r.
Proof.
  revert t. induction docs as [|[e|raw] docs IH]; intros t; cbn [applyDocuments].
  1,2: by rewrite manifest_runs_stop, runs_ret.
  destruct (UniversalDecode raw) as [[[ro|] [k|]] [err|]] eqn:Hd;
    try (rewrite manifest_runs_stop by (cbn; by rewrite Hd);
         cbn [manifest_end]; rewrite Hd; cbn [mbind option_bind]; by rewrite runs_ret).
  cbn [mbind option_bind]. destruct (as_client_object ro) as [obj|] eqn:Ho.
  - rewrite manifest_runs_cons by done. rewrite runs_bind. split.
    + intros (t1 & a & t2 & -> & ->%runs_Create & H).
      exists a, t2. split; [done|]. destruct a as [e|]; [|left; split; [done|by apply IH]].
      cbn [accepted]. destruct (IsAlreadyExists e) eqn:He; cbn [negb] in H.
      * left. split; [done|by apply IH].
      * apply runs_ret in H as [-> ->]. right. eauto.
    + intros (a & t' & -> & H). exists [@Ev GoSignature (ACreate c (ODecoded obj)) a], a, t'.
      split_and!; [done|by apply runs_Create|].
      destruct H as [[Ha H%IH]|(e & -> & -> & -> & ->)]; [|by apply runs_ret].
      destruct a as [e|]; [|done]. cbn in Ha. by rewrite Ha.
  - rewrite manifest_runs_stop by (cbn; rewrite Hd; cbn; by rewrite Ho).
    cbn [manifest_end]. rewrite Hd. cbn [mbind option_bind]. rewrite Ho. by rewrite runs_ret.
Qed.

(** C33: a document without a kind truncates the manifest.  Whatever follows
    it is never read: the loop has exactly the runs it has on the documents
    before it. *)
Theorem kindless_document_truncates c docs raw rest ro err :
  UniversalDecode raw = (ro, None, err) ->
  applyDocuments c (docs ++ inr raw :: rest) ≡ applyDocuments c docs.
Proof.
  intros Hd. induction docs as [|[e|raw'] docs IH]; cbn [applyDocuments app].
  - by rewrite Hd.
  - done.
  - destruct (UniversalDecode raw') as [[ro' [k|]] [err'|]]; try done.
    destruct (ro' ≫= as_client_object) as [obj|]; [|done].
    apply bind_proper; [done|]. intros [e|]; [|done]. by destruct (negb _).
Qed.
End Manifests.

(** ** The arguments of the calls to the network and to Helm *)

Section Arguments_.
Context `{P : Platform}.
Import Addon.

(** What the reconciler asks of the network, Helm and the temporary
    directory for a given addon. *)
Definition call_ok (addon : KubewardenAddon) (a : go_action) : Prop :=
  match a with
  | AHttpGet url => url = crdsURL (crd_version addon)
  | ALocateChart o name _ =>
      o = {| RepoURL := kubewardenHelmChartURL; cpo_Version := "" |} /\
      (name = "kubewarden-controller" \/ name = "kubewarden-defaults")
  | AHelmRun i _ _ =>
      i = {| ClientOnly := true; DryRun := true; ins_ReleaseName := "caapkw";
             ins_IncludeCRDs := false; ins_Namespace := "kubewarden"; DisableHooks := true |}
  | ACreateTemp dir _ | AMkdirTemp dir _ => dir = ""
  | _ => True
  end.

Lemma call_ok_renderHelmChart addon name version values :
  name = "kubewarden-controller" \/ name = "kubewarden-defaults" ->
  within (call_ok addon) (renderHelmChart name version values).
Proof.
  intros Hn. unfold renderHelmChart, createActionConfig, getChart, helmTemplate. unfold_calls.
  within_tac. by rewrite resolveChartVersion_latest.
Qed.

Lemma call_ok_extractEntries addon dir es : within (call_ok addon) (extractEntries dir es).
Proof. induction es as [|[e|[[flag name] body]] es IH]; cbn [extractEntries]; unfold_calls; within_tac. Qed.

Lemma call_ok_applyDocuments addon c docs : within (call_ok addon) (applyDocuments c docs).
Proof.
  induction docs as [|[e|raw] docs IH]; cbn [applyDocuments]; [done..|].
  destruct (UniversalDecode raw) as [[ro [k|]] [err|]]; [done| |done..].
  destruct (ro ≫= as_client_object); [|done]. unfold_calls. within_tac.
Qed.

Lemma call_ok_applyManifest addon c path : within (call_ok addon) (applyManifest c path).
Proof. unfold applyManifest. pose proof (call_ok_applyDocuments addon c). unfold_calls. within_tac. Qed.

Lemma call_ok_reconcileNormal addon : within (call_ok addon) (reconcileNormal addon).
Proof.
  pose proof (call_ok_applyManifest addon). pose proof (call_ok_extractEntries addon).
  pose proof (call_ok_renderHelmChart addon).
  unfold reconcileNormal, getAllCapiClusters, patchReady, reconcileCluster, createKubewardenNamespace,
    installKubewardenCRDs, installKubewardenController, installKubewardenDefaults,
    applyControlPlaneTolerations, downloadFile, extractTarGz, applyCRDFiles. unfold_calls. within_tac;
    solve [auto | by rewrite resolveChartVersion_latest].
Qed.

(** After its first call the reconciler works on the addon it read. *)
Lemma addon_Reconcile_issues req t a :
  issues (Reconcile req) t a ->
  a = AGet Management req KAddon \/
  exists addon t', t = @Ev GoSignature (AGet Management req KAddon) (inr addon) :: t' /\
    issues (reconcileNormal addon) t' a.
Proof.
  unfold Reconcile. unfold_calls. intros H. repeat issue_step; [by left|right].
  run_inv. do 2 eexists. split; [done|]. done.
Qed.
End Arguments_.

(** ** What is removed *)

Section Removal.
Context `{P : Platform}.
Import Addon.

Definition removes (a : go_action) : option string :=
  match a with ARemove path | ARemoveAll path => Some path | _ => None end.
Definition no_removal (a : go_action) : Prop := removes a = None.

Lemma nr_applyDocuments c docs : within no_removal (applyDocuments c docs).
Proof.
  induction docs as [|[e|raw] docs IH]; cbn [applyDocuments]; [done..|].
  destruct (UniversalDecode raw) as [[ro [k|]] [err|]]; [done| |done..].
  destruct (ro ≫= as_client_object); [|done]. unfold_calls. within_tac.
Qed.
Lemma nr_applyManifest c path : within no_removal (applyManifest c path).
Proof. unfold applyManifest. pose proof (nr_applyDocuments c). unfold_calls. within_tac. Qed.
#[local] Hint Resolve nr_applyManifest : within.
Lemma nr_applyCRDFiles c files : within no_removal (applyCRDFiles c files).
Proof. unfold applyCRDFiles. within_tac. Qed.
Lemma nr_renderHelmChart name version values : within no_removal (renderHelmChart name version values).
Proof. unfold renderHelmChart, createActionConfig, getChart, helmTemplate. unfold_calls. within_tac. Qed.
Lemma nr_downloadFile url : within no_removal (downloadFile url).
Proof. unfold downloadFile. unfold_calls. within_tac. Qed.
Lemma nr_extractEntries dir es : within no_removal (extractEntries dir es).
Proof. induction es as [|[e|[[flag name] body]] es IH]; cbn [extractEntries]; unfold_calls; within_tac. Qed.
Lemma nr_extractTarGz path : within no_removal (extractTarGz path).
Proof. unfold extractTarGz. pose proof nr_extractEntries. unfold_calls. within_tac. Qed.
#[local] Hint Resolve nr_applyCRDFiles nr_renderHelmChart nr_downloadFile nr_extractTarGz : within.
Lemma nr_createKubewardenNamespace c : within no_removal (createKubewardenNamespace c).
Proof. unfold createKubewardenNamespace. unfold_calls. within_tac. Qed.
Lemma nr_installKubewardenController c addon : within no_removal (installKubewardenController c addon).
Proof. unfold installKubewardenController. within_tac. Qed.
Lemma nr_installKubewardenDefaults c addon : within no_removal (installKubewardenDefaults c addon).
Proof. unfold installKubewardenDefaults. within_tac. Qed.
Lemma nr_applyControlPlaneTolerations c : within no_removal (applyControlPlaneTolerations c).
Proof. unfold applyControlPlaneTolerations. unfold_calls. within_tac. Qed.
#[local] Hint Resolve nr_createKubewardenNamespace nr_installKubewardenController
  nr_installKubewardenDefaults nr_applyControlPlaneTolerations : within.

(** [path] is a temporary file or directory that the run created for CRDs. *)
Definition own_crds_temp (t : list event) (a : go_action) : Prop :=
  match a with
  | ARemove path => exists f, @Ev GoSignature (ACreateTemp "" "kubewarden-*.tar.gz") (inr f) ∈ t /\ path = file_Name f
  | ARemoveAll dir => @Ev GoSignature (AMkdirTemp "" "kubewarden-crds-*") (inr dir) ∈ t
  | _ => True
  end.

Lemma own_crds_temp_mono t t' a : t ⊆ t' -> own_crds_temp t a -> own_crds_temp t' a.
Proof.
  intros Ht. destruct a; simpl; try done; [|auto].
  intros (f & Hf & ->). exists f. auto.
Qed.

Lemma own_crds_temp_no_removal t a : no_removal a -> own_crds_temp t a.
Proof. by destruct a. Qed.

Lemma own_crds_temp_within {A} (p : prog A) t a :
  within no_removal p -> issues p t a -> own_crds_temp t a.
Proof. intros Hw Hi. apply own_crds_temp_no_removal. exact (within_issues _ _ _ _ Hw Hi). Qed.

(** Closes the branches whose program removes nothing. *)
Ltac nothing_removed :=
  match goal with
  | H : issues ?p ?t ?a |- own_crds_temp _ ?a =>
      eapply own_crds_temp_mono; [|refine (own_crds_temp_within p t a _ H); within_tac]; in_tac
  end.

Lemma downloadFile_path url t path :
  runs (downloadFile url) t (inr path) ->
  exists f, @Ev GoSignature (ACreateTemp "" "kubewarden-*.tar.gz") (inr f) ∈ t /\ path = file_Name f.
Proof. unfold downloadFile. unfold_calls. intros H. run_inv. eexists. split; [in_tac|done]. Qed.

Lemma extractTarGz_dir path t dir :
  runs (extractTarGz path) t (inr dir) -> @Ev GoSignature (AMkdirTemp "" "kubewarden-crds-*") (inr dir) ∈ t.
Proof.
  unfold extractTarGz. unfold_calls. intros H. run_inv.
  match goal with H : runs (extractEntries _ _) _ _ |- _ => apply extractEntries_dir in H; subst end.
  in_tac.
Qed.

Lemma installKubewardenCRDs_removes v c t a :
  issues (installKubewardenCRDs v c) t a -> own_crds_temp t a.
Proof.
  unfold installKubewardenCRDs. unfold_calls. intros H. repeat issue_step; try done; try nothing_removed.
  - match goal with H : runs (extractTarGz _) _ _ |- _ => apply extractTarGz_dir in H end. cbn. in_tac.
  - match goal with H : runs (downloadFile _) _ _ |- _ =>
      apply downloadFile_path in H as (f & Hf & ->) end. exists f. split; [in_tac|done].
Qed.
Lemma reconcileNormal_removes addon t a :
  issues (reconcileNormal addon) t a -> own_crds_temp t a.
Proof.
  unfold reconcileNormal, getAllCapiClusters, patchReady. unfold_calls. intros H.
  repeat issue_step; try done.
  match goal with H : issues (for_range _ _ _) _ _ |- _ =>
    apply issues_for_range in H as (pre & cluster & post & u1 & [] & u2 & -> & -> & H1 & H2) end.
  unfold reconcileCluster in H2. unfold_calls_in H2. destruct (annotateInstalled cluster).
  repeat issue_step; try done; try nothing_removed.
  eapply own_crds_temp_mono; [|by eapply installKubewardenCRDs_removes]. in_tac.
Qed.

(** C35: the reconciler removes nothing but its own temporary CRD archive and
    the directory it was unpacked to; in particular the files that hold the
    rendered charts are never removed. *)
Theorem removes_only_crds_temp req t path :
  (issues (Reconcile req) t (ARemove path) ->
   exists f, @Ev GoSignature (ACreateTemp "" "kubewarden-*.tar.gz") (inr f) ∈ t /\ path = file_Name f) /\
  (issues (Reconcile req) t (ARemoveAll path) ->
   @Ev GoSignature (AMkdirTemp "" "kubewarden-crds-*") (inr path) ∈ t).
Proof.
  assert (forall a, issues (Reconcile req) t a -> own_crds_temp t a) as Hall.
  { intros a [->|(addon & t' & -> & H)]%addon_Reconcile_issues; [done|].
    eapply own_crds_temp_mono; [|by eapply reconcileNormal_removes]. in_tac. }
  split; intros H; exact (Hall _ H).
Qed.
End Removal.

(** ** Versions *)

Section Versions.
Context `{P : Platform}.
Import Addon.

(** C34: what is downloaded and which charts are located.  The only URL the
    reconciler fetches is that of the CRD archive of the release named by the
    addon's version (v1.18.0 when it is empty); the only charts it locates
    are the two of the Kubewarden repository, always in their latest version,
    whatever version the addon asks for. *)
Theorem install_sources req t :
  (forall url, issues (Reconcile req) t (AHttpGet url) ->
     exists addon, @Ev GoSignature (AGet Management req KAddon) (inr addon) ∈ t /\
       url = crdsURL (crd_version addon)) /\
  (forall o name s, issues (Reconcile req) t (ALocateChart o name s) ->
     RepoURL o = kubewardenHelmChartURL /\ cpo_Version o = "" /\
     (name = "kubewarden-controller" \/ name = "kubewarden-defaults")).
Proof.
  split.
  - intros url [?|(addon & t' & -> & H)]%addon_Reconcile_issues; [done|]. exists addon. split; [in_tac|].
    exact (within_issues _ _ _ _ (call_ok_reconcileNormal addon) H).
  - intros o name s [?|(addon & t' & -> & H)]%addon_Reconcile_issues; [done|].
    pose proof (within_issues _ _ _ _ (call_ok_reconcileNormal addon) H) as [-> Hn]. done.
Qed.

(** An addon that passed the defaulting webhook without a version is
    downloaded from the release named "latest", and the controller's own
    default version is never used for it. *)
Theorem defaulted_addon_version addon :
  crd_version (AddonWebhook.Default addon) =
    (if decide (Version (Spec addon) = "") then "latest" else Version (Spec addon)) /\
  crdsURL "latest" =
    "https://github.com/kubewarden/kubewarden-controller/releases/download/latest/CRDS.tar.gz".
Proof.
  split; [|done]. unfold crd_version, AddonWebhook.Default. simpl. by repeat case_decide.
Qed.
End Versions.

(** ** Archives *)

Section Archives.
Context `{P : Platform}.

(** The regular entries of an archive. *)
Definition regular (entries : list (ext_error + (Z * string * reader))) : list (string * reader) :=
  omap (fun e => match e with
                 | inr (flag, name, body) => if (flag =? TypeDir)%Z then None else Some (name, body)
                 | inl _ => None
                 end) entries.

Definition written (t : list event) (dir : string) (entry : string * reader) : Prop :=
  exists out, @Ev GoSignature (ACreateFile (Join dir entry.1)) (inr out) ∈ t /\
              @Ev GoSignature (ACopy out entry.2) None ∈ t.

Lemma written_mono t t' dir entry : t ⊆ t' -> written t dir entry -> written t' dir entry.
Proof. intros Ht (out & H1 & H2). exists out. auto. Qed.

Lemma extractEntries_written dir es t d :
  runs (extractEntries dir es) t (inr d) -> Forall (written t dir) (regular es).
Proof.
  revert t. induction es as [|[e|[[flag name] body]] es IH]; intros t; cbn [extractEntries].
  - constructor.
  - by intros [_ ?].
  - cbn [regular omap list_omap]. destruct (flag =? TypeDir)%Z; [apply IH|]. unfold_calls.
    intros H. run_inv. constructor; [eexists; split; in_tac|].
    eapply Forall_impl; [by eapply IH|]. intros entry. apply written_mono. in_tac.
Qed.

(** C31: a successful extraction is complete.  It returns the directory it
    made, every entry of the archive was readable, and every entry that is
    not a directory was created under the joined path and copied in full. *)
Theorem extractTarGz_complete path t dir :
  runs (extractTarGz path) t (inr dir) ->
  exists f g,
    @Ev GoSignature (AOpen path) (inr f) ∈ t /\
    @Ev GoSignature (AGzipReader f) (inr g) ∈ t /\
    @Ev GoSignature (AMkdirTemp "" "kubewarden-crds-*") (inr dir) ∈ t /\
    Forall (written t dir) (regular (tar_entries g)).
Proof.
  intros H. pose proof (extractTarGz_dir _ _ _ H) as Hd. revert H.
  unfold extractTarGz. unfold_calls. intros H. run_inv.
  match goal with H : runs (extractEntries _ _) _ _ |- _ =>
    pose proof (extractEntries_dir _ _ _ _ H); subst;
    apply extractEntries_written in H; rename H into Hw end.
  do 2 eexists. split_and!; [in_tac..|].
  eapply Forall_impl; [exact Hw|]. intros e. apply written_mono. in_tac.
Qed.

Lemma extractEntries_target dir es t target :
  issues (extractEntries dir es) t (ACreateFile target) ->
  exists flag name body, inr (flag, name, body) ∈ es /\ target = Join dir name.
Proof.
  revert t. induction es as [|[e|[[flag name] body]] es IH]; intros t; cbn [extractEntries]; [done..|].
  assert (forall u, issues (extractEntries dir es) u (ACreateFile target) ->
            exists flag' name' body', inr (flag', name', body') ∈ inr (flag, name, body) :: es /\
              target = Join dir name') as Hrec.
  { intros u (fl & n & b & Hin & ->)%IH. exists fl, n, b. split; [by right|done]. }
  destruct (flag =? TypeDir)%Z; [apply Hrec|]. unfold_calls. intros H.
  repeat issue_step; [exists flag, name, body; split; [by left|congruence]|by eapply Hrec].
Qed.

(** C30: where an extraction writes.  Every file it creates is the join of its
    directory and the name of an entry, and when the name has no ".." element
    that is a path below the directory: the directory's elements come first. *)
Theorem extraction_stays_below path t target :
  issues (extractTarGz path) t (ACreateFile target) ->
  exists dir g flag name body,
    @Ev GoSignature (AMkdirTemp "" "kubewarden-crds-*") (inr dir) ∈ t /\
    inr (flag, name, body) ∈ tar_entries g /\ target = Join dir name /\
    forall ds, dir = abs_path ds -> ds <> [] -> forallb plain ds = true ->
      Forall (fun e => e <> "..") (Split slash name) ->
      exists below, target = abs_path (ds ++ below).
Proof.
  unfold extractTarGz. unfold_calls. intros H.
  repeat issue_step. run_inv.
  match goal with H : issues (extractEntries ?dir (tar_entries ?g)) _ _ |- _ =>
    apply extractEntries_target in H as (flag & name & body & Hin & ->);
    exists dir, g, flag, name, body end.
  split_and!; [in_tac|done..|]. intros ds -> Hne Hds Hname.
  rewrite Join_abs_path by done.
  destruct (clean_elems_no_dotdot true (rev ds) _ Hname) as [new ->].
  exists (rev new). by rewrite rev_app_distr, rev_involutive.
Qed.

(** The name that leads from a directory of [n] elements to [es]. *)
Definition climbing (n : nat) (es : list string) : string := Join_sep slash (repeat ".." n ++ es).

Lemma clean_elems_climb out n :
  Forall (fun e => e <> "..") out -> clean_elems true out (repeat ".." n) = drop n out.
Proof.
  unfold clean_elems. intros H. revert out H. induction n as [|n IH]; intros out H; [done|].
  simpl. unfold clean_step at 2. rewrite decide_False by naive_solver. rewrite decide_True by done.
  destruct H as [|o out Ho H]; [by rewrite IH, drop_nil|].
  rewrite decide_False by done. by apply IH.
Qed.

Lemma plain_not_dotdot es : forallb plain es = true -> Forall (fun e => e <> "..") es.
Proof.
  intros H. apply Forall_forall. intros e He ->. apply forallb_forall with (x := "..") in H; [done|].
  by apply list_elem_of_In.
Qed.

Lemma Split_climbing n es :
  es <> [] -> forallb plain es = true -> Split slash (climbing n es) = repeat ".." n ++ es.
Proof.
  intros Hne Hes. apply Split_Join_sep; [by destruct (repeat ".." n)|].
  apply Forall_app. split; [|by apply plain_no_slash]. by induction n as [|n IH]; constructor.
Qed.

(** C32: names are not checked.  An entry whose name climbs out of the
    directory is written where it says: for every directory there are names
    that make the extraction create any file of the system. *)
Theorem extraction_can_escape ds es flag body rest :
  ds <> [] -> forallb plain ds = true -> es <> [] -> forallb plain es = true -> flag <> TypeDir ->
  issues (extractEntries (abs_path ds) (inr (flag, climbing (length ds) es, body) :: rest)) []
    (ACreateFile (abs_path es)).
Proof.
  intros Hne Hds Hes Hpes Hflag. cbn [extractEntries].
  apply Z.eqb_neq in Hflag. rewrite Hflag. left. split; [done|].
  rewrite Join_abs_path, Split_climbing, clean_elems_app by done.
  rewrite clean_elems_climb by by apply Forall_rev, plain_not_dotdot.
  rewrite drop_ge by (by rewrite length_rev).
  by rewrite clean_elems_plain, app_nil_r, rev_involutive by done.
Qed.
End Archives.
