(* ===== verification/AddonLiveness.v ===== *)
(** * AddonLiveness: what the reconciler achieves when nothing fails *)
From S2P Require Import Prelude GoProg GoError GoPath ApiTypes Platform Traces Helpers HelpersFacts.
From S2P Require Import Toy AddonController AddonFacts AddonSpec.
Open Scope go_scope.

Section OkRuns.
Context `{P : Platform}.
Import Addon.

Lemma ok_createKubewardenNamespace c t r :
  runs (createKubewardenNamespace c) t r -> all_ok t -> r = None.
Proof. unfold createKubewardenNamespace. unfold_calls. intros H Ht. run_inv; ok_inv; done. Qed.

Lemma ok_applyDocuments c docs t r :
  Forall (fun d => match d with
    | inl _ => False
    | inr raw => exists ro k obj,
        UniversalDecode raw = (Some ro, Some k, None) /\ as_client_object ro = Some obj
    end) docs ->
  runs (applyDocuments c docs) t r -> all_ok t -> r = None.
Proof.
  intros Hd. revert t. induction Hd as [|[e|raw] docs Hd _ IH]; intros t; cbn [applyDocuments];
    [by intros [_ ?]|done|].
  destruct Hd as (ro & k & obj & -> & Ho). cbn [mbind option_bind]. rewrite Ho.
  unfold_calls. intros H Ht. run_inv; ok_inv. by eapply IH.
Qed.

(** The manifest loop creates something or leaves its file to be closed. *)
Lemma applyDocuments_applying c docs t r f a :
  runs (applyDocuments c docs) t r -> applying (t ++ [@Ev GoSignature (AClose f) a]) = true.
Proof.
  intros H. destruct docs as [|[e|raw] docs]; cbn [applyDocuments] in H;
    [by apply runs_ret in H as [-> _]..|].
  unfold_calls_in H. run_inv; done.
Qed.

Lemma ok_applyManifest c path t r : runs (applyManifest c path) t r -> all_ok t -> r = None.
Proof.
  unfold applyManifest. unfold_calls. intros H Ht. run_inv; [by ok_inv|].
  rewrite app_nil_r in Ht. pose proof (all_ok_manifest _ _ _ Ht) as Hf. ok_inv.
  eapply ok_applyDocuments; [apply Hf; by eapply applyDocuments_applying|eassumption..].
Qed.

Lemma ok_applyCRDFiles c files t r : runs (applyCRDFiles c files) t r -> all_ok t -> r = None.
Proof.
  unfold applyCRDFiles. intros H Ht. run_inv; [done|]. ok_inv.
  match goal with H : runs (for_range _ _ _) _ _ |- _ =>
    apply runs_for_range_Return in H as (l1 & x & l2 & u1 & s1 & u2 & -> & -> & _ & Hb) end.
  run_inv. ok_inv. by match goal with H : runs (applyManifest _ _) _ _ |- _ =>
    apply ok_applyManifest in H end.
Qed.

Lemma ok_downloadFile url t r : runs (downloadFile url) t r -> all_ok t -> exists p, r = inr p.
Proof.
  unfold downloadFile. unfold_calls. intros H Ht. run_inv; ok_inv; try (by eauto).
  by match goal with H : negb ?b = true, H' : ?b = true |- _ => rewrite H' in H end.
Qed.

Lemma ok_extractEntries dir es t r :
  Forall (fun e => match e with inl _ => False | inr _ => True end) es ->
  runs (extractEntries dir es) t r -> all_ok t -> exists p, r = inr p.
Proof.
  intros Hes. revert t. induction Hes as [|[e|[[flag name] body]] es He _ IH]; intros t;
    cbn [extractEntries]; unfold_calls; [intros [_ ->]; by eauto|done|].
  destruct (flag =? TypeDir)%Z; [apply IH|]. intros H Ht. run_inv; ok_inv. by eapply IH.
Qed.

Lemma ok_extractTarGz path t r : runs (extractTarGz path) t r -> all_ok t -> exists p, r = inr p.
Proof.
  unfold extractTarGz. unfold_calls. intros H Ht. run_inv; try (by ok_inv).
  match goal with _ : runs (extractEntries _ (tar_entries ?g)) _ _ |- _ =>
    assert (readable_archive g) as Hg by (eapply all_ok_archive; [exact Ht|in_tac]) end.
  ok_inv. eapply ok_extractEntries; eauto.
Qed.

Lemma ok_renderHelmChart name version values t r :
  runs (renderHelmChart name version values) t r -> all_ok t -> exists p, r = inr p.
Proof.
  unfold renderHelmChart, createActionConfig, getChart, helmTemplate. unfold_calls.
  intros H Ht. run_inv; ok_inv; cbn in *; simplify_eq; try done; by eauto.
Qed.

(** Refutes a step that failed in a run without failing answers. *)
Ltac refute_steps :=
  repeat match goal with
  | H : runs (createKubewardenNamespace _) ?t _, Ht : all_ok ?t |- _ =>
      pose proof (ok_createKubewardenNamespace _ _ _ H Ht); clear H
  | H : runs (applyManifest _ _) ?t _, Ht : all_ok ?t |- _ =>
      pose proof (ok_applyManifest _ _ _ _ H Ht); clear H
  | H : runs (applyCRDFiles _ _) ?t _, Ht : all_ok ?t |- _ =>
      pose proof (ok_applyCRDFiles _ _ _ _ H Ht); clear H
  | H : runs (downloadFile _) ?t _, Ht : all_ok ?t |- _ =>
      destruct (ok_downloadFile _ _ _ H Ht); clear H
  | H : runs (extractTarGz _) ?t _, Ht : all_ok ?t |- _ =>
      destruct (ok_extractTarGz _ _ _ H Ht); clear H
  | H : runs (renderHelmChart _ _ _) ?t _, Ht : all_ok ?t |- _ =>
      destruct (ok_renderHelmChart _ _ _ _ _ H Ht); clear H
  end; simplify_eq.

Lemma ok_installKubewardenCRDs v c t r :
  runs (installKubewardenCRDs v c) t r -> all_ok t -> r = None.
Proof. unfold installKubewardenCRDs. unfold_calls. intros H Ht. run_inv; ok_inv; by refute_steps. Qed.
Lemma ok_installKubewardenController c addon t r :
  runs (installKubewardenController c addon) t r -> all_ok t -> r = None.
Proof. unfold installKubewardenController. intros H Ht. run_inv; ok_inv; by refute_steps. Qed.
Lemma ok_installKubewardenDefaults c addon t r :
  runs (installKubewardenDefaults c addon) t r -> all_ok t -> r = None.
Proof. unfold installKubewardenDefaults. intros H Ht. run_inv; ok_inv; by refute_steps. Qed.
Lemma ok_applyControlPlaneTolerations c t r :
  runs (applyControlPlaneTolerations c) t r -> all_ok t -> r = None.
Proof. unfold applyControlPlaneTolerations. unfold_calls. intros H Ht. run_inv; by ok_inv. Qed.

Lemma ok_reconcileCluster addon cluster u t r :
  controlPlaneNotReady cluster = false ->
  HasAnnotation cluster KubewardenInstalledAnnotation = false ->
  runs (reconcileCluster addon cluster u) t r -> all_ok t -> r = Next tt.
Proof.
  unfold reconcileCluster. intros -> ->. rewrite annotateInstalled_eq. unfold_calls.
  intros H Ht. run_inv; ok_inv; try done; exfalso;
    match goal with
    | H : runs _ ?t (Some _), Ht : all_ok ?t |- _ =>
        first [ by apply ok_createKubewardenNamespace in H
              | by apply ok_installKubewardenCRDs in H
              | by apply ok_installKubewardenController in H
              | by apply ok_installKubewardenDefaults in H
              | by apply ok_applyControlPlaneTolerations in H ]
    end.
Qed.

(** The status patch of a run on the selected clusters. *)
Definition ready_patch (addon : KubewardenAddon) (selected : list Cluster) : go_action :=
  AStatusPatch Management
    (OAddon (SetReady (SetMatchingClusters addon selected) (bool_decide (selected <> []))))
    (MergeFrom (OAddon (SetMatchingClusters addon selected))).

Lemma reconcileNormal_installs addon t r cs selected :
  runs (reconcileNormal addon) t r -> all_ok t ->
  head t ≫= answered_clusters = Some cs ->
  selectClusters cs (ClusterSelector (Spec addon)) = inr selected ->
  (forall c, c ∈ selected -> controlPlaneNotReady c = false /\
                             HasAnnotation c KubewardenInstalledAnnotation = false) ->
  r = (Result_zero, None) /\
  (forall c, c ∈ selected ->
     (exists rc, kubewarden_installed t addon (Remote rc)) /\
     @Ev GoSignature (APatch Management (OCluster (annotateInstalled c).1) (MergeFrom (OCluster c))) None ∈ t) /\
  @Ev GoSignature (ready_patch addon selected) None ∈ t.
Proof.
  intros H Ht Hh Hsel Hc. unfold reconcileNormal, getAllCapiClusters, patchReady in H. unfold_calls_in H.
  run_inv; cbn in Hh; simplify_eq; [congruence|..]; ok_inv;
    match goal with H : runs (for_range ?l _ _) _ _ |- _ => replace l with selected in * by congruence end.
  - split_and!; [done| |].
    + intros c Hin. pose proof Hin as Hin'%list_elem_of_In.
      match goal with H : runs (for_range _ _ _) _ (Next ?s) |- _ =>
        destruct s; destruct (runs_for_range_Next _ _ _ _ _ _ H Hin') as (u1 & u2 & u3 & [] & [] & -> & Hb) end.
      apply reconcileCluster_Next in Hb as [[_ _ (rc & _ & Hi)] Hp]. split; [exists rc|in_tac].
      eapply kubewarden_installed_mono; [|destruct Hi; constructor; eassumption]. in_tac.
    + unfold ready_patch. rewrite (bool_decide_ext (selected <> []) (0 < length selected))
        by (destruct selected; simpl; split; [done|lia|lia|done]).
      rewrite (bool_decide_eq_true_2 (length _ = length _)), andb_true_r by done. in_tac.
  - exfalso. match goal with H : runs (for_range _ _ _) _ (Return _) |- _ =>
      apply runs_for_range_Return in H as (l1 & x & l2 & u1 & s1 & u2 & Hl & -> & _ & Hb) end.
    ok_inv. destruct (Hc x) as [? ?]; [rewrite Hl; set_solver|].
    apply ok_reconcileCluster in Hb; done.
Qed.

(** C4: progress.  In an environment that answers without errors, and whose
    archives and manifests that the run reads are readable, a reconcile whose selected clusters
    are all ready and not yet annotated ends normally, has installed and
    annotated every one of them, and has set Ready to whether there was one. *)
Theorem reconcile_installs_all addon t r cs selected :
  runs (reconcileNormal addon) t r -> all_ok t ->
  head t ≫= answered_clusters = Some cs ->
  selectClusters cs (ClusterSelector (Spec addon)) = inr selected ->
  (forall c, c ∈ selected -> controlPlaneNotReady c = false /\
                             HasAnnotation c KubewardenInstalledAnnotation = false) ->
  r = (Result_zero, None) /\
  (forall c, c ∈ selected ->
     (exists rc, kubewarden_installed t addon (Remote rc)) /\
     @Ev GoSignature (APatch Management (OCluster (annotateInstalled c).1) (MergeFrom (OCluster c))) None ∈ t) /\
  @Ev GoSignature (ready_patch addon selected) None ∈ t.
Proof. apply reconcileNormal_installs. Qed.
End OkRuns.
