(* ===== verification/AddonOutcome.v ===== *)
(** * AddonOutcome: every way a reconcile of an addon can end

    [reconcile_outcome] lists the endings of [Reconcile] with the whole trace of
    calls of each: the reads that fail, the addon that is being deleted, the
    selector that cannot be converted, and the loop over the selected clusters,
    which works through a prefix of them, cluster by cluster; what stopped it
    decides the result. *)
From S2P Require Import Prelude GoProg GoError GoPath ApiTypes Platform Traces Helpers HelpersFacts.
From S2P Require Import Toy AddonController AddonFacts AddonSpec.
Open Scope go_scope.

Section Outcome.
Context `{P : Platform}.
Import Addon.

(** ** What an iteration may call *)

(** The patch that marks a cluster as installed. *)
Definition annotation_patch (cluster : Cluster) : go_action :=
  APatch Management (OCluster (annotateInstalled cluster).1) (MergeFrom (OCluster cluster)).

(** The call asks for the client of this very cluster, goes through a client
    obtained for it in [t] or to the local host once there is one, or marks
    this very cluster. *)
Definition concerns (cluster : Cluster) (t : list event) (a : go_action) : Prop :=
  a = ARemoteClient (Name cluster) (ObjectKeyFromObject cluster) \/
  a = annotation_patch cluster \/
  exists rc, @Ev GoSignature (ARemoteClient (Name cluster) (ObjectKeyFromObject cluster)) (inr rc) ∈ t /\
    on_remote (Remote rc) a.
Definition all_concern (cluster : Cluster) (t : list event) : Prop :=
  Forall (fun e => concerns cluster t (ev_action e)) t.

(** The clusters that a trace marked. *)
Definition marked (e : event) : option NamespacedName :=
  match e with
  | Ev (APatch Management (OCluster c) _) None => Some (ObjectKeyFromObject c)
  | _ => None
  end.
Definition marked_in (t : list event) : list NamespacedName := omap marked t.

Lemma marked_app t1 t2 : marked_in (t1 ++ t2) = marked_in t1 ++ marked_in t2.
Proof. apply omap_app. Qed.

Lemma marked_inv e k :
  marked e = Some k ->
  exists c p, e = @Ev GoSignature (APatch Management (OCluster c) p) None /\ k = ObjectKeyFromObject c.
Proof.
  destruct e as [a r]. destruct a; try done. simpl. repeat (case_match; try done).
  intros [= <-]. by do 2 eexists.
Qed.

(** Programs that do not mark. *)
Definition markless (a : go_action) : Prop := forall r, marked (@Ev GoSignature a r) = None.

Lemma remote_markless rc a : on_remote (Remote rc) a -> markless a.
Proof. unfold on_remote, markless. by destruct a; try done; destruct c. Qed.

Lemma markless_trace t : Forall (fun e => markless (ev_action e)) t -> marked_in t = [].
Proof.
  induction 1 as [|[c r] t He _ IH]; [done|].
  change (match marked (@Ev GoSignature c r) with Some k => k :: marked_in t | None => marked_in t end = []).
  pose proof (He r) as E. cbn [ev_action] in E. by rewrite E.
Qed.

Lemma within_markless {A} (p : prog A) t a : within markless p -> runs p t a -> marked_in t = [].
Proof. intros Hw H. apply markless_trace. exact (within_runs _ _ _ _ Hw H). Qed.

(** ** One iteration *)

(** After the client was obtained. *)
Definition body_call (rc : remote_client) (cluster : Cluster) (a : go_action) : Prop :=
  on_remote (Remote rc) a \/ a = annotation_patch cluster.

Lemma within_body {A} rc cluster (p : prog A) :
  within (on_remote (Remote rc)) p -> within (body_call rc cluster) p.
Proof. apply within_weaken. by left. Qed.

Lemma reconcileCluster_concerns addon cluster u t o :
  runs (reconcileCluster addon cluster u) t o -> all_concern cluster t.
Proof.
  unfold reconcileCluster, all_concern.
  destruct (controlPlaneNotReady cluster); [intros [-> _]%runs_ret; constructor|].
  destruct (HasAnnotation _ _); [intros [-> _]%runs_ret; constructor|].
  unfold RemoteClientGetter. intros (t1 & r & t2 & -> & Hr & H)%runs_bind.
  pose proof (proj1 (@runs_call GoSignature (ARemoteClient _ _) _ _) Hr) as ->.
  constructor; [by left|]. destruct r as [e|rc]; [by apply runs_ret in H as [-> _]|].
  assert (Forall (fun e => body_call rc cluster (ev_action e)) t2) as Ht.
  { refine (within_runs _ _ _ _ _ H).
    pose proof (within_body rc cluster _ (within_createKubewardenNamespace (Remote rc))).
    pose proof (fun v => within_body rc cluster _ (within_installKubewardenCRDs v (Remote rc))).
    pose proof (fun a => within_body rc cluster _ (within_installKubewardenController (Remote rc) a)).
    pose proof (fun a => within_body rc cluster _ (within_installKubewardenDefaults (Remote rc) a)).
    pose proof (within_body rc cluster _ (within_applyControlPlaneTolerations (Remote rc))).
    rewrite annotateInstalled_eq. unfold_calls. within_tac.
    right. unfold annotation_patch. by rewrite annotateInstalled_eq. }
  eapply Forall_impl; [exact Ht|]. intros e [He|He]; [|by right; left].
  right. right. exists rc. split; [left|done].
Qed.

(** An iteration that goes on marked its cluster, one that returns marked
    nothing. *)
Lemma reconcileCluster_marked addon cluster u t o :
  runs (reconcileCluster addon cluster u) t o ->
  marked_in t = match o with Next _ => [ObjectKeyFromObject cluster] | Return _ => [] end.
Proof.
  pose proof (fun rc => within_weaken _ _ _ (remote_markless rc) (within_createKubewardenNamespace (Remote rc))).
  pose proof (fun rc v => within_weaken _ _ _ (remote_markless rc) (within_installKubewardenCRDs v (Remote rc))).
  pose proof (fun rc a => within_weaken _ _ _ (remote_markless rc) (within_installKubewardenController (Remote rc) a)).
  pose proof (fun rc a => within_weaken _ _ _ (remote_markless rc) (within_installKubewardenDefaults (Remote rc) a)).
  pose proof (fun rc => within_weaken _ _ _ (remote_markless rc) (within_applyControlPlaneTolerations (Remote rc))).
  unfold reconcileCluster. rewrite annotateInstalled_eq. unfold_calls. intros Hrun. run_inv;
    repeat match goal with Hp : runs ?p ?t _ |- _ =>
      let Hm := fresh in assert (marked_in t = []) as Hm by (eapply within_markless; [|exact Hp]; auto); clear Hp end;
    simpl; rewrite ?marked_app;
    repeat match goal with Hm : marked_in _ = [] |- _ => rewrite Hm; clear Hm end;
    reflexivity.
Qed.

(** The cluster was found fresh, installed through a client obtained for it,
    and the annotation was accepted. *)
Definition done_with (addon : KubewardenAddon) (t : list event) (cluster : Cluster) : Prop :=
  iteration_installed addon cluster t /\ @Ev GoSignature (annotation_patch cluster) None ∈ t.

(** The steps of an installation, as the errors name them. *)
Definition installation_steps : list string :=
  ["getting remote cluster client"; "creating kubewarden namespace"; "creating kubewarden CRDs";
   "installing kubewarden controller"; "installing kubewarden defaults";
   "applying control-plane tolerations"; "update cluster annotations"].

(** How the loop stops at a cluster, with the calls made for it: not ready, it
    asks to be run again in a minute; installed before, it is done; in both
    cases nothing is called for it; else an installation step failed, its error
    is returned and the cluster was not marked. *)
Definition stopped_at (cluster : Cluster) (t : list event) (r : Result * option error) : Prop :=
  if controlPlaneNotReady cluster
  then t = [] /\ r = ({| Requeue := false; RequeueAfter := Minute |}, None)
  else if HasAnnotation cluster KubewardenInstalledAnnotation
  then t = [] /\ r = (Result_zero, None)
  else all_concern cluster t /\ marked_in t = [] /\
    exists step err, step ∈ installation_steps /\ r = (Result_zero, Some (Wrap step err)).

Lemma reconcileCluster_Return addon cluster u t r :
  runs (reconcileCluster addon cluster u) t (Return r) -> stopped_at cluster t r.
Proof.
  intros H. pose proof (reconcileCluster_concerns _ _ _ _ _ H) as Hc.
  pose proof (reconcileCluster_marked _ _ _ _ _ H) as Hm. cbn beta iota in Hm. revert H.
  unfold reconcileCluster, stopped_at.
  destruct (controlPlaneNotReady cluster); [by intros [-> [= ->]]%runs_ret|].
  destruct (HasAnnotation _ _); [by intros [-> [= ->]]%runs_ret|].
  destruct (annotateInstalled cluster). unfold_calls. intros H. split; [done|]. split; [done|].
  clear Hc Hm. run_inv; do 2 eexists; (split; [|done]); unfold installation_steps; set_solver.
Qed.

(** ** The loop *)

(** The clusters, one after the other, each with its own calls. *)
Definition worked_through (addon : KubewardenAddon) (clusters : list Cluster) (t : list event) : Prop :=
  exists ts, t = concat ts /\
    Forall2 (fun cluster u => done_with addon u cluster /\ all_concern cluster u) clusters ts.

Lemma loop_outcome addon clusters s t o :
  runs (for_range clusters s (reconcileCluster addon)) t o ->
  match o with
  | Next _ => worked_through addon clusters t
  | Return r => exists worked stop rest t1 t2, clusters = worked ++ stop :: rest /\ t = t1 ++ t2 /\
      worked_through addon worked t1 /\ stopped_at stop t2 r
  end.
Proof.
  revert s t. induction clusters as [|c cs IH]; intros s t; cbn [for_range].
  - intros [-> ->]%runs_ret. by exists [].
  - intros (t1 & [[]|r] & t2 & -> & H1 & H2)%runs_bind.
    + assert (done_with addon t1 c /\ all_concern c t1) as Hc.
      { split; [exact (reconcileCluster_Next _ _ _ _ H1)|by eapply reconcileCluster_concerns]. }
      apply IH in H2. destruct o as [s2|r].
      * destruct H2 as (ts & -> & Hts). exists (t1 :: ts). split; [done|]. by constructor.
      * destruct H2 as (worked & stop & rest & u1 & u2 & -> & -> & (ts & -> & Hts) & Hstop).
        exists (c :: worked), stop, rest, (t1 ++ concat ts), u2. split_and!; [done|by rewrite app_assoc| |done].
        exists (t1 :: ts). split; [done|]. by constructor.
    + apply runs_ret in H2 as [-> ->]. exists [], c, cs, [], t1. rewrite app_nil_r.
      split_and!; [done..|by exists []|by eapply reconcileCluster_Return].
Qed.

(** ** The whole reconcile *)

Inductive reconcile_outcome (req : NamespacedName) : list event -> Result * option error -> Prop :=
| outcome_missing (e : ext_error) :
    IsNotFound e = true ->
    reconcile_outcome req [@Ev GoSignature (AGet Management req KAddon) (inl e)]
      ({| Requeue := true; RequeueAfter := 0 |}, None)
| outcome_unreadable (e : ext_error) :
    IsNotFound e = false ->
    reconcile_outcome req [@Ev GoSignature (AGet Management req KAddon) (inl e)]
      ({| Requeue := true; RequeueAfter := 0 |}, Some (Foreign e))
| outcome_deleted (addon : KubewardenAddon) :
    Time_IsZero (DeletionTimestamp addon) = false ->
    reconcile_outcome req [@Ev GoSignature (AGet Management req KAddon) (inr addon)] (Result_zero, None)
| outcome_unlisted (addon : KubewardenAddon) (e : ext_error) :
    Time_IsZero (DeletionTimestamp addon) = true ->
    reconcile_outcome req
      [@Ev GoSignature (AGet Management req KAddon) (inr addon);
       @Ev GoSignature (AListClusters Management (Namespace addon) None) (inl e)]
      (Result_zero, Some (Wrap "getting capi clusters" (Wrap "listing clusters" (Foreign e))))
| outcome_unselected (addon : KubewardenAddon) cs err :
    Time_IsZero (DeletionTimestamp addon) = true ->
    selectClusters cs (ClusterSelector (Spec addon)) = inl err ->
    reconcile_outcome req
      [@Ev GoSignature (AGet Management req KAddon) (inr addon);
       @Ev GoSignature (AListClusters Management (Namespace addon) None) (inr cs)]
      (Result_zero, Some (Wrap "selecting clusters" err))
| outcome_stopped (addon : KubewardenAddon) cs worked stop rest t1 t2 r :
    Time_IsZero (DeletionTimestamp addon) = true ->
    selectClusters cs (ClusterSelector (Spec addon)) = inr (worked ++ stop :: rest) ->
    worked_through (SetMatchingClusters addon (worked ++ stop :: rest)) worked t1 ->
    stopped_at stop t2 r ->
    reconcile_outcome req
      (@Ev GoSignature (AGet Management req KAddon) (inr addon) ::
       @Ev GoSignature (AListClusters Management (Namespace addon) None) (inr cs) :: t1 ++ t2) r
| outcome_done (addon : KubewardenAddon) cs selected t (a : option ext_error) :
    Time_IsZero (DeletionTimestamp addon) = true ->
    selectClusters cs (ClusterSelector (Spec addon)) = inr selected ->
    worked_through (SetMatchingClusters addon selected) selected t ->
    reconcile_outcome req
      (@Ev GoSignature (AGet Management req KAddon) (inr addon) ::
       @Ev GoSignature (AListClusters Management (Namespace addon) None) (inr cs) :: t ++
       @Ev GoSignature (AStatusPatch Management
         (OAddon (SetReady (SetMatchingClusters addon selected) (bool_decide (selected <> []))))
         (MergeFrom (OAddon (SetMatchingClusters addon selected)))) a ::
       match a with
       | Some e => [@Ev GoSignature (ALogError (Some (Foreign e)) "failed to update addon status") tt]
       | None => []
       end)
      (Result_zero, None).

Lemma patchReady_runs addon selected t r :
  runs (patchReady addon selected) t r ->
  exists a : option ext_error, r = (Result_zero, None) /\
    t = @Ev GoSignature (AStatusPatch Management (OAddon (SetReady addon (bool_decide (selected <> []))))
          (MergeFrom (OAddon addon))) a ::
        match a with
        | Some e => [@Ev GoSignature (ALogError (Some (Foreign e)) "failed to update addon status") tt]
        | None => []
        end.
Proof.
  unfold patchReady. rewrite (bool_decide_true (length selected = length selected)), andb_true_r by done.
  replace (bool_decide (0 < length selected)) with (bool_decide (selected <> []))
    by (apply bool_decide_ext; destruct selected; simpl; split; (done || lia)).
  unfold_calls. intros H. run_inv; [eexists (Some _)|exists None]; (split; [done|]); [|done].
  by destruct a.
Qed.

Lemma Reconcile_outcome req t r : runs (Reconcile req) t r -> reconcile_outcome req t r.
Proof.
  unfold Reconcile, Get. intros (t1 & g & t2 & -> & Hg & H)%runs_bind.
  pose proof (proj1 (@runs_call GoSignature (AGet _ _ _) _ _) Hg) as ->. simpl app.
  destruct g as [e|addon].
  { destruct (IsNotFound e) eqn:En; apply runs_ret in H as [-> ->]; by constructor. }
  destruct (Time_IsZero _) eqn:Ed; cbn [negb] in H; [|apply runs_ret in H as [-> ->]; by constructor].
  unfold reconcileNormal, getAllCapiClusters, ListClusters in H.
  apply runs_bind in H as (t3 & l & t4 & -> & Hl & H).
  apply runs_bind in Hl as (t5 & a & t6 & -> & Ha & Hl).
  pose proof (proj1 (@runs_call GoSignature (AListClusters _ _ _) _ _) Ha) as ->.
  destruct a as [e|cs]; apply runs_ret in Hl as [-> ->].
  { apply runs_ret in H as [-> ->]. by constructor. }
  destruct (selectClusters cs _) as [err|selected] eqn:Es.
  { apply runs_ret in H as [-> ->]. by econstructor. }
  apply runs_bind in H as (t7 & o & t8 & -> & Ho & H). apply loop_outcome in Ho. destruct o as [s|r'].
  - apply patchReady_runs in H as (a & -> & ->). by apply outcome_done.
  - apply runs_ret in H as [-> ->]. rewrite !app_nil_r.
    destruct Ho as (worked & stop & rest & u1 & u2 & -> & -> & Hw & Hstop).
    apply (outcome_stopped req addon cs worked stop rest u1 u2 r'); assumption.
Qed.

(** C10: every way a reconcile can end.  A run of [Reconcile] is one of these, as
    [reconcile_outcome] lists them with all their calls: the addon is missing
    or cannot be read (requeued), is being deleted, its clusters cannot be
    listed or selected; or the selected clusters are worked through in order,
    each found fresh, installed and marked with calls for this cluster alone,
    until the first one left stops the run: not ready, it asks to be run again
    in a minute; installed before, it is done, and in both cases nothing is
    called for it; else one of its installation steps failed, whose error is
    returned, and it was not marked.  Nothing at all is called for the clusters
    after it, and the status is not patched.  If no cluster is left, the status
    is patched, and the run succeeds whatever that answers. *)
Theorem addon_reconcile_outcome req t r :
  runs (Reconcile req) t r -> reconcile_outcome req t r.
Proof. apply Reconcile_outcome. Qed.
End Outcome.
