(* ===== verification/AddonConvergence.v ===== *)
(** * AddonConvergence: repeated reconciles against the management cluster

    The class [ManagementServer] states what the program relies on from the
    management cluster: the Cluster objects its API server stores, and how the
    calls change them.  The manager's client reads from a cache that follows the
    server with a delay, so nothing is assumed about how a list relates to what
    is stored; and between the calls of the program the rest of the world moves
    too ([elsewhere]).  A [history] is a run with the state in which each call
    was answered.  Reconciles of any addons, one after the other, mark a cluster
    again only after a stale list, and do not go on installing for ever unless
    clusters are added, annotations removed or lists stale; and a reconcile to
    which every cluster is shown as installed reaches no workload cluster. *)
From S2P Require Import Prelude GoProg GoError GoPath ApiTypes Platform Traces Helpers HelpersFacts.
From S2P Require Import Toy AddonController AddonFacts AddonSpec AddonOutcome.
Open Scope go_scope.

(** ** The contract *)

Section Interface.
Context `{P : Platform}.

(** The Cluster object a call to the management cluster writes. *)
Definition written_cluster (a : go_action) : option Cluster :=
  match a with
  | ACreate Management (OCluster c) | AUpdate Management (OCluster c)
  | ADelete Management (OCluster c) | APatch Management (OCluster c) _
  | AStatusUpdate Management (OCluster c) | AStatusPatch Management (OCluster c) _ => Some c
  | _ => None
  end.

Definition annotation (c : Cluster) (k : string) : option string :=
  default ∅ (Annotations c) !! k.

(** [m'] is [m] with the stored cluster of [c] changed by the merge patch from
    [base] to [c]: the annotations in which the two differ are set. *)
Definition merged (m m' : gmap NamespacedName Cluster) (base c : Cluster) : Prop :=
  exists c', is_Some (m !! ObjectKeyFromObject c) /\
    m' = <[ObjectKeyFromObject c := c']> m /\
    forall k, annotation c k <> annotation base k -> annotation c' k = annotation c k.

(** [answers w a r w']: in state [w] the call [a] may be answered with [r] and
    lead to [w'].  Calls that write no Cluster object leave them alone; a list
    contains each object once, in whatever version the cache has; an accepted
    merge patch is applied, a refused one may have been.  [elsewhere w w']: the
    rest of the world (other clients of the server, the caches) may move from
    [w] to [w']. *)
Class ManagementServer (W : Type) := {
  answers : W -> forall a : go_action, go_result a -> W -> Prop;
  elsewhere : W -> W -> Prop;
  clusters : W -> gmap NamespacedName Cluster;
  answers_frame : forall w a r w', answers w a r w' ->
    written_cluster a = None -> clusters w' = clusters w;
  answers_list : forall w ns cs w', answers w (AListClusters Management ns None) (inr cs) w' ->
    NoDup (map (fun c : Cluster => ObjectKeyFromObject c) cs);
  answers_patch : forall w c base (r : option ext_error) w',
    answers w (APatch Management (OCluster c) (MergeFrom (OCluster base))) r w' ->
    ObjectKeyFromObject c = ObjectKeyFromObject base ->
    merged (clusters w) (clusters w') base c \/ (r <> None /\ clusters w' = clusters w);
}.
End Interface.

(** ** Histories *)

(** The calls of a program and their answers, each with the state in which it
    was answered.  Before every call, and at the end, the rest of the world
    moves by [other]. *)
Section History.
Context `{P : Platform} {W : Type} (other : W -> W -> Prop)
  (step : W -> forall a : go_action, go_result a -> W -> Prop).

Fixpoint history (w : W) (h : list (W * event)) (w' : W) : Prop :=
  match h with
  | [] => other w w'
  | (w1, e) :: h' =>
      other w w1 /\ exists w2, step w1 (ev_action e) (ev_result e) w2 /\ history w2 h' w'
  end.

Lemma history_at w h1 w1 e h2 w' :
  history w (h1 ++ (w1, e) :: h2) w' <->
  history w h1 w1 /\ exists w2, step w1 (ev_action e) (ev_result e) w2 /\ history w2 h2 w'.
Proof.
  revert w. induction h1 as [|[w0 e0] h1 IH]; intros w; simpl; [done|].
  setoid_rewrite IH. naive_solver.
Qed.

(** What every move and every call of a kind preserves. *)
Lemma history_preserves (Q : W -> W -> Prop) (K : go_action -> Prop) w h w' :
  PreOrder Q -> (forall w1 w2, other w1 w2 -> Q w1 w2) ->
  (forall w1 a r w2, step w1 a r w2 -> K a -> Q w1 w2) ->
  Forall (fun e => K (ev_action e)) h.*2 -> history w h w' -> Q w w'.
Proof.
  intros HQ Ho Hs. revert w. induction h as [|[w1 e] h IH]; intros w; simpl; [auto|].
  intros [He Hh]%Forall_cons_1 (H1 & w2 & H2 & H3).
  transitivity w1; [auto|]. transitivity w2; [eauto|auto].
Qed.
End History.

Lemma history_impl `{P : Platform} {W : Type} (other other' : W -> W -> Prop)
    (step step' : W -> forall a : go_action, go_result a -> W -> Prop) w h w' :
  (forall w1 w2, other w1 w2 -> other' w1 w2) ->
  (forall w1 a r w2, step w1 a r w2 -> step' w1 a r w2) ->
  history other step w h w' -> history other' step' w h w'.
Proof.
  intros Ho Hs. revert w. induction h as [|[w1 e] h IH]; intros w; simpl; [auto|].
  intros (H1 & w2 & H2 & H3). split; [by apply Ho|]. exists w2. split; [by apply Hs|by apply IH].
Qed.

(** The part of a history that a part of its calls belongs to. *)
Lemma history_split {W : Type} `{Sig : Signature} (h : list (W * event)) t1 e t2 :
  h.*2 = t1 ++ e :: t2 -> exists h1 w1 h2, h = h1 ++ (w1, e) :: h2 /\ h1.*2 = t1 /\ h2.*2 = t2.
Proof.
  revert t1. induction h as [|[w0 e0] h IH]; intros t1; simpl; [by destruct t1|].
  destruct t1 as [|e1 t1]; simpl; intros [= -> H]; [by exists [], w0, h|].
  destruct (IH _ H) as (h1 & w1 & h2 & -> & <- & <-). by exists ((w0, e1) :: h1), w1, h2.
Qed.

(** ** What a reconcile does to the stored clusters *)

Section Reconciles.
Context `{P : Platform} {W : Type} `{S : !ManagementServer W}.
Import Addon.

Definition installed (c : Cluster) : bool := HasAnnotation c KubewardenInstalledAnnotation.

Lemma installed_annotation c : installed c = true <-> is_Some (annotation c KubewardenInstalledAnnotation).
Proof.
  unfold installed, HasAnnotation, GetAnnotations, annotation.
  destruct (Annotations c) as [m|]; simpl; [by rewrite bool_decide_eq_true|].
  rewrite lookup_empty. by split; [|intros []].
Qed.

(** The stored clusters that are not installed, and those that are. *)
Definition pending (w : W) : gset NamespacedName :=
  dom (filter (fun kc => installed kc.2 = false) (clusters w)).
Definition annotated (w : W) (k : NamespacedName) : Prop :=
  exists c, clusters w !! k = Some c /\ installed c = true.

Lemma pending_spec w k :
  k ∈ pending w <-> exists c, clusters w !! k = Some c /\ installed c = false.
Proof.
  unfold pending. rewrite elem_of_dom. unfold is_Some.
  setoid_rewrite map_lookup_filter_Some. done.
Qed.

Lemma pending_annotated w k : k ∈ pending w -> annotated w k -> False.
Proof. rewrite pending_spec. intros (c & Hc & Hn) (c' & Hc' & Hi). congruence. Qed.

(** Clusters stay stored, and annotated when they were. *)
Record keeps (w w' : W) : Prop := {
  keeps_dom : dom (clusters w') = dom (clusters w);
  keeps_annotated k : annotated w k -> annotated w' k;
}.

#[export] Instance keeps_preorder : PreOrder keeps.
Proof.
  split; [by split|]. intros w1 w2 w3 [D1 A1] [D2 A2]. split; [congruence|auto].
Qed.

Lemma keeps_pending w w' : keeps w w' -> pending w' ⊆ pending w.
Proof.
  intros [Hd Ha] k. rewrite !pending_spec. intros (c' & Hc' & Hn).
  assert (k ∈ dom (clusters w)) as [c Hc]%elem_of_dom by (rewrite <- Hd; by eapply elem_of_dom_2).
  exists c. split; [done|]. destruct (installed c) eqn:Hi; [|done].
  destruct (Ha k) as (c1 & Hc1 & Hi1); [by exists c|]. congruence.
Qed.

(** The writes of the reconciler: each patch marks a cluster that was found
    unmarked. *)
Definition marks (a : go_action) : Prop :=
  written_cluster a = None \/
  exists c, a = APatch Management (OCluster (annotateInstalled c).1) (MergeFrom (OCluster c)) /\
    installed c = false.

Lemma Reconcile_marks req t a : issues (Reconcile req) t a -> marks a.
Proof.
  intros Hi. destruct (written_cluster a) as [c|] eqn:Hc; [right|by left].
  assert (is_write a = true /\ action_client a = Some Management) as [Hw Hm].
  { unfold written_cluster in Hc.
    destruct a; try done; repeat (case_match; try done). }
  destruct (Reconcile_writes req t a Hw Hm Hi) as (addon & cs & sel & _ & [(cl & _ & [_ Hn _] & ->)|[_ ->]]);
    [by exists cl|done].
Qed.

Lemma annotated_patch c k :
  annotation (annotateInstalled c).1 k =
    if decide (k = KubewardenInstalledAnnotation) then Some "true" else annotation c k.
Proof.
  rewrite annotateInstalled_eq. unfold annotation. simpl.
  case_decide; [subst; apply lookup_insert_eq|by apply lookup_insert_ne].
Qed.

Lemma answers_keeps w a r w' : answers w a r w' -> marks a -> keeps w w'.
Proof.
  intros Ha [Hn|(c & -> & Hi)].
  { pose proof (answers_frame _ _ _ _ Ha Hn) as E. split; [by rewrite E|]. unfold annotated. by rewrite E. }
  apply answers_patch in Ha as [(c' & [c0 H0] & E & Hc')|[_ E]]; [| |by rewrite annotateInstalled_eq].
  - split; [rewrite E; apply dom_insert_lookup_L; by eexists|].
    intros k (ck & Hck & Hik). unfold annotated. rewrite E.
    destruct (decide (k = ObjectKeyFromObject (annotateInstalled c).1)) as [->|Hne];
      [|exists ck; by rewrite lookup_insert_ne].
    exists c'. rewrite lookup_insert_eq. split; [done|]. apply installed_annotation.
    rewrite Hc'; rewrite annotated_patch, decide_True by done; [done|].
    intros Hx. assert (installed c = true) by (apply installed_annotation; by rewrite <- Hx). congruence.
  - split; [by rewrite E|]. unfold annotated. by rewrite E.
Qed.

(** An accepted patch leaves its cluster annotated. *)
Lemma patch_annotates w c w' :
  answers w (APatch Management (OCluster (annotateInstalled c).1) (MergeFrom (OCluster c))) None w' ->
  installed c = false -> annotated w' (ObjectKeyFromObject c).
Proof.
  intros Ha Hi. apply answers_patch in Ha as [(c' & _ & E & Hc')|[? _]]; [|done|by rewrite annotateInstalled_eq].
  exists c'. rewrite E, annotateInstalled_eq. simpl. rewrite lookup_insert_eq. split; [done|].
  apply installed_annotation. rewrite Hc'; rewrite annotated_patch, decide_True by done; [done|].
  intros Hx. assert (installed c = true) by (apply installed_annotation; by rewrite <- Hx). congruence.
Qed.

Lemma runs_marks req t r : runs (Reconcile req) t r -> Forall (fun e => marks (ev_action e)) t.
Proof.
  intros H. apply Forall_forall. intros e (t1 & t2 & ->)%list_elem_of_split.
  eapply Reconcile_marks. by eapply runs_issues.
Qed.

(** *** What one run marks *)

(** A marked cluster is one that the list of the run showed unmarked. *)
Lemma marked_listed req t r k :
  runs (Reconcile req) t r -> k ∈ marked_in t ->
  exists t1 ns cs t2 c t3,
    t = t1 ++ @Ev GoSignature (AListClusters Management ns None) (inr cs) :: t2 ++
        @Ev GoSignature (APatch Management (OCluster (annotateInstalled c).1) (MergeFrom (OCluster c))) None :: t3 /\
    c ∈ cs /\ installed c = false /\ ObjectKeyFromObject c = k.
Proof.
  intros H (e & He & Hk)%list_elem_of_omap.
  apply marked_inv in Hk as (c & p & -> & ->). apply list_elem_of_split in He as (t1 & t2 & ->).
  pose proof (runs_issues _ _ _ _ _ H) as Hi. cbn [ev_action] in Hi.
  destruct (Reconcile_writes req t1 (APatch Management (OCluster c) p) eq_refl eq_refl Hi)
    as (addon & cs & sel & [_ Hlist Hsel] & [(cl & Hcl & [_ Hn _] & [= -> ->])|[_ ?]]); [|done].
  apply list_elem_of_split in Hlist as (u1 & u2 & ->).
  exists u1, (Namespace addon), cs, u2, cl, t2. split_and!; [by rewrite <- app_assoc| |done|].
  - unfold selectClusters in Hsel. case_match; [done|]. injection Hsel as <-.
    rewrite fold_left_filter in Hcl. simpl in Hcl.
    apply list_elem_of_In, filter_In in Hcl as [Hcl _]. by apply list_elem_of_In.
  - by rewrite annotateInstalled_eq.
Qed.

Definition cluster_keys (cs : list Cluster) : list NamespacedName :=
  map (fun c : Cluster => ObjectKeyFromObject c) cs.

Lemma loop_marked addon cs s t o :
  runs (for_range cs s (reconcileCluster addon)) t o -> marked_in t `sublist_of` cluster_keys cs.
Proof.
  revert s t. induction cs as [|c cs IH]; intros s t; cbn [for_range].
  { intros [-> _]%runs_ret. constructor. }
  intros (t1 & o1 & t2 & -> & H1 & H2)%runs_bind; rewrite marked_app.
  rewrite (reconcileCluster_marked _ _ _ _ _ H1). destruct o1 as [s1|r1].
  - apply sublist_skip. by eapply IH.
  - apply runs_ret in H2 as [-> _]. apply sublist_nil_l.
Qed.

Lemma cluster_keys_filter (f : Cluster -> bool) cs :
  cluster_keys (List.filter f cs) `sublist_of` cluster_keys cs.
Proof.
  induction cs as [|c cs IH]; simpl; [done|]. destruct (f c); simpl; by constructor.
Qed.

Lemma run_NoDup req t r :
  runs (Reconcile req) t r ->
  (forall ns cs, @Ev GoSignature (AListClusters Management ns None) (inr cs) ∈ t -> NoDup (cluster_keys cs)) ->
  NoDup (marked_in t).
Proof.
  intros H Hl. unfold Reconcile, reconcileNormal, getAllCapiClusters, patchReady in H.
  unfold_calls_in H. run_inv; try apply NoDup_nil_2; simpl.
  all: rewrite ?marked_app; simpl; rewrite ?app_nil_r.
  all: match goal with Hr : runs (for_range _ _ _) _ _ |- _ =>
    apply loop_marked in Hr; refine (sublist_NoDup _ _ _ Hr) end.
  all: match goal with Hsel : selectClusters _ _ = inr _ |- _ =>
    unfold selectClusters in Hsel; case_match; simplify_eq; rewrite fold_left_filter end.
  all: refine (sublist_NoDup _ _ (Hl _ _ _) (cluster_keys_filter _ _)); right; left.
Qed.

(** *** A list that shows everything as installed *)

Lemma loop_installed addon cs s t o :
  (forall c, c ∈ cs -> installed c = true) ->
  runs (for_range cs s (reconcileCluster addon)) t o -> t = [].
Proof.
  destruct cs as [|c cs]; cbn [for_range]; [by intros _ [-> _]%runs_ret|].
  intros Hc (t1 & o1 & t2 & -> & H1 & H2)%runs_bind. unfold reconcileCluster in H1.
  destruct (controlPlaneNotReady c); [|pose proof (Hc c ltac:(left)) as Hi; unfold installed in Hi;
    rewrite Hi in H1]; apply runs_ret in H1 as [-> ->]; by apply runs_ret in H2 as [-> _].
Qed.

(** The calls of a reconcile that installs nothing. *)
Definition quiet (a : go_action) : Prop :=
  match a with
  | AGet Management _ KAddon | AListClusters Management _ None
  | AStatusPatch Management (OAddon _) _ | ALogError _ _ => True
  | _ => False
  end.

Lemma quiet_frame a : quiet a -> written_cluster a = None.
Proof. destruct a; try done; by destruct c, o. Qed.

(** Every cluster that a list of the run shows is installed. *)
Definition shown_installed (t : list event) : Prop :=
  forall ns cs (c : Cluster), @Ev GoSignature (AListClusters Management ns None) (inr cs) ∈ t ->
    c ∈ cs -> installed c = true.

Lemma run_quiet req t r :
  shown_installed t -> runs (Reconcile req) t r -> Forall (fun e => quiet (ev_action e)) t.
Proof.
  intros Hall H. unfold Reconcile, reconcileNormal, getAllCapiClusters in H.
  unfold_calls_in H. run_inv; repeat constructor.
  all: match goal with Hsel : selectClusters ?cs _ = inr ?sel |- _ =>
    assert (forall c, c ∈ sel -> installed c = true) as Hsel'; [
      intros c Hc; eapply (Hall _ cs c); [right; left|];
      unfold selectClusters in Hsel; case_match; simplify_eq; rewrite fold_left_filter in Hc;
      apply list_elem_of_In, filter_In in Hc as [Hc _]; by apply list_elem_of_In|] end.
  all: match goal with Hl' : runs (for_range _ _ _) _ _ |- _ =>
    apply loop_installed in Hl' as ->; [|done] end; simpl; try constructor.
  unfold patchReady in *. unfold_calls. run_inv; repeat constructor.
Qed.

(** ** Any number of reconciles *)

(** What a history preserves of the annotations, if the rest of the world
    does. *)
Lemma history_annotated h w w' k :
  (forall w1 w2, elsewhere w1 w2 -> annotated w1 k -> annotated w2 k) ->
  Forall (fun e => marks (ev_action e)) h.*2 -> history elsewhere answers w h w' ->
  annotated w k -> annotated w' k.
Proof.
  intros Ho. refine (history_preserves _ _ (fun w1 w2 => annotated w1 k -> annotated w2 k) marks w h w' _ Ho _).
  - split; [by intros ?|by intros ? ? ?; auto].
  - intros w1 a r1 w2 Ha Hm. by apply (keeps_annotated _ _ (answers_keeps _ _ _ _ Ha Hm)).
Qed.

(** A run that marks a cluster: the list that showed it unmarked, in the state
    in which it was answered, and afterwards the accepted patch. *)
Lemma marked_history req h r w w' k :
  runs (Reconcile req) h.*2 r -> history elsewhere answers w h w' -> k ∈ marked_in h.*2 ->
  exists h1 w1 ns cs h2 c w2 w3 h3,
    h = h1 ++ (w1, @Ev GoSignature (AListClusters Management ns None) (inr cs)) :: h2 /\
    history elsewhere answers w h1 w1 /\ c ∈ cs /\ installed c = false /\ ObjectKeyFromObject c = k /\
    answers w2 (APatch Management (OCluster (annotateInstalled c).1) (MergeFrom (OCluster c))) None w3 /\
    (forall e, e ∈ h3 -> e ∈ h) /\ history elsewhere answers w3 h3 w'.
Proof.
  intros H Hh Hk. destruct (marked_listed _ _ _ _ H Hk) as (t1 & ns & cs & t2 & c & t3 & E & Hc & Hi & Hkey).
  apply history_split in E as (h1 & w1 & h2 & -> & _ & E).
  apply history_split in E as (h3 & w2 & h4 & -> & _ & _).
  apply history_at in Hh as (Hh1 & w3 & _ & Hh2). apply history_at in Hh2 as (_ & w4 & Hp & Hh4).
  exists h1, w1, ns, cs, (h3 ++ (w2, @Ev GoSignature (APatch Management (OCluster (annotateInstalled c).1)
    (MergeFrom (OCluster c))) None) :: h4), c, w2, w4, h4. split_and!; try done.
  intros e He. apply elem_of_app. right. right. apply elem_of_app. right. by right.
Qed.

Lemma marks_sub (h h' : list (W * event)) :
  Forall (fun e => marks (ev_action e)) h.*2 -> (forall e, e ∈ h' -> e ∈ h) ->
  Forall (fun e => marks (ev_action e)) h'.*2.
Proof. rewrite !Forall_fmap, !Forall_forall. auto. Qed.

Lemma marked_annotated req h r w w' k :
  (forall w1 w2, elsewhere w1 w2 -> annotated w1 k -> annotated w2 k) ->
  runs (Reconcile req) h.*2 r -> history elsewhere answers w h w' -> k ∈ marked_in h.*2 -> annotated w' k.
Proof.
  intros Ho H Hh Hk.
  destruct (marked_history _ _ _ _ _ _ H Hh Hk) as (h1 & w1 & ns & cs & h2 & c & w2 & w3 & h3 & E & _ & _ & Hi & <-
    & Hp & Hsub & Hh3).
  eapply history_annotated; [exact Ho|exact (marks_sub _ _ (runs_marks _ _ _ H) Hsub)|exact Hh3|].
  by eapply patch_annotates.
Qed.

(** Complete reconciles of addons, one after the other, with the states in
    which their calls were answered. *)
Inductive addon_rounds : W -> list (list (W * event)) -> W -> Prop :=
| addon_rounds_none w : addon_rounds w [] w
| addon_rounds_more req h r w w1 hs w2 :
    runs (Reconcile req) h.*2 r -> history elsewhere answers w h w1 ->
    addon_rounds w1 hs w2 -> addon_rounds w (h :: hs) w2.

(** A list of the run shows the cluster without the annotation, although when
    it was answered the server stored the cluster with it. *)
Definition stale (h : list (W * event)) (k : NamespacedName) : Prop :=
  exists w1 ns cs (c : Cluster), (w1, @Ev GoSignature (AListClusters Management ns None) (inr cs)) ∈ h /\
    c ∈ cs /\ ObjectKeyFromObject c = k /\ installed c = false /\ annotated w1 k.

(** Marking an annotated cluster takes a stale list. *)
Lemma marked_stale req h r w w' k :
  (forall w1 w2, elsewhere w1 w2 -> annotated w1 k -> annotated w2 k) ->
  runs (Reconcile req) h.*2 r -> history elsewhere answers w h w' ->
  annotated w k -> k ∈ marked_in h.*2 -> stale h k.
Proof.
  intros Ho H Hh Ha Hk.
  destruct (marked_history _ _ _ _ _ _ H Hh Hk) as (h1 & w1 & ns & cs & h2 & c & w2 & w3 & h3 & -> & Hh1 & Hc & Hi & Hkey & _).
  exists w1, ns, cs, c. split; [apply elem_of_app; right; left|]. split_and!; try done.
  eapply history_annotated; [exact Ho| |exact Hh1|done].
  pose proof (runs_marks _ _ _ H) as Hm. rewrite fmap_app in Hm. by apply Forall_app in Hm as [? _].
Qed.

Lemma rounds_stale w hs w' k j hj :
  (forall w1 w2, elsewhere w1 w2 -> annotated w1 k -> annotated w2 k) ->
  addon_rounds w hs w' -> annotated w k -> hs !! j = Some hj -> k ∈ marked_in hj.*2 -> stale hj k.
Proof.
  intros Ho Hr. revert j. induction Hr as [w|req h r w w1 hs w2 H Hh _ IH]; intros j Ha Hj Hk; [done|].
  destruct j as [|j]; simpl in Hj; [injection Hj as <-; by eapply marked_stale|].
  eapply IH; [|exact Hj|exact Hk]. eapply history_annotated; [exact Ho|by eapply runs_marks|exact Hh|done].
Qed.

(** C5: a cluster is only installed again after a stale list.  Over any number
    of reconciles of any addons, one after the other, whatever fails and
    whatever else happens in the management cluster short of removing the
    annotation from a cluster or the annotated cluster itself: no reconcile
    marks a cluster twice, and one that marks a cluster which an earlier one
    has marked was shown, by a list answered from the cache, the cluster
    without the annotation that the server stored by then. *)
Theorem installs_at_most_once w hs w' :
  (forall w1 w2 k, elsewhere w1 w2 -> annotated w1 k -> annotated w2 k) ->
  addon_rounds w hs w' ->
  (forall h, h ∈ hs -> NoDup (marked_in h.*2)) /\
  (forall i j hi hj k, i < j -> hs !! i = Some hi -> hs !! j = Some hj ->
     k ∈ marked_in hi.*2 -> k ∈ marked_in hj.*2 -> stale hj k).
Proof.
  intros Ho. induction 1 as [w|req h r w w1 hs w2 H Hh Hr [IHn IHs]].
  - split; [by intros h ?%elem_of_nil|done].
  - split.
    + intros h0 [->|Hin]%elem_of_cons; [|by apply IHn]. eapply run_NoDup; [exact H|].
      intros ns cs (t1 & t2 & E)%list_elem_of_split. apply history_split in E as (h1 & w0 & h2 & -> & _ & _).
      apply history_at in Hh as (_ & w3 & Hl & _). by eapply answers_list.
    + intros i j hi hj k Hij Hi Hj Hki Hkj. destruct j as [|j]; [lia|]. destruct i as [|i]; simpl in Hi, Hj.
      * injection Hi as <-. eapply rounds_stale; [by intros ? ?; apply Ho|exact Hr| |exact Hj|done].
        eapply marked_annotated; [by intros ? ?; apply Ho|exact H|exact Hh|done].
      * eapply (IHs i j); [lia|done..].
Qed.

(** What the lists of a run show without the annotation is stored so. *)
Definition current (h : list (W * event)) : Prop :=
  forall w1 ns cs (c : Cluster), (w1, @Ev GoSignature (AListClusters Management ns None) (inr cs)) ∈ h ->
    c ∈ cs -> installed c = false -> ObjectKeyFromObject c ∈ pending w1.

(** A reconcile with current lists, from [w] to [w'], that installed some
    cluster. *)
Definition installs (w' w : W) : Prop :=
  exists req h r, runs (Reconcile req) h.*2 r /\ history elsewhere answers w h w' /\
    current h /\ marked_in h.*2 <> [].

Lemma history_pending h w w' :
  (forall w1 w2, elsewhere w1 w2 -> pending w2 ⊆ pending w1) ->
  Forall (fun e => marks (ev_action e)) h.*2 -> history elsewhere answers w h w' -> pending w' ⊆ pending w.
Proof.
  intros Ho. refine (history_preserves _ _ (fun w1 w2 => pending w2 ⊆ pending w1) marks w h w' _ Ho _).
  - split; [by intros ?|by intros ? ? ? ? ?; etransitivity].
  - intros w1 a r1 w2 Ha Hm. apply keeps_pending. by eapply answers_keeps.
Qed.

(** C6: installing terminates.  There is no infinite sequence of reconciles each
    of which installs a cluster, as long as the rest of the world neither adds
    clusters without the annotation nor removes it, and the lists the
    reconciles act on are not stale: the number of stored clusters without the
    annotation decreases with each. *)
Theorem installing_terminates :
  (forall w w', elsewhere w w' -> pending w' ⊆ pending w) -> well_founded installs.
Proof.
  intros Ho. apply (wf_projected lt (fun w => size (pending w))); [|apply lt_wf].
  intros w' w (req & h & r & H & Hh & Hcur & Hm). apply subset_size.
  pose proof (runs_marks _ _ _ H) as Hmarks.
  split; [by eapply history_pending|]. destruct (marked_in h.*2) as [|k ks] eqn:Hks; [done|].
  destruct (marked_history req h r w w' k H Hh) as (h1 & w1 & ns & cs & h2 & c & w2 & w3 & h3 & -> & Hh1 & Hc & Hi & <-
    & Hp & Hsub & Hh3); [rewrite Hks; left|].
  intros Hpend. apply (pending_annotated w3 (ObjectKeyFromObject c)); [|by eapply patch_annotates].
  apply (history_pending h3 w3 w' Ho).
  - exact (marks_sub _ _ Hmarks Hsub).
  - done.
  - apply Hpend. apply (history_pending h1 w w1 Ho).
    + rewrite fmap_app in Hmarks. by apply Forall_app in Hmarks as [? _].
    + done.
    + apply (Hcur w1 ns cs c); [apply elem_of_app; right; left|done..].
Qed.

(** C20: nothing to do when everything is installed.  When every cluster that is
    listed for a reconcile carries the annotation, it only reads the addon and
    the clusters, at most patches the addon's status and logs the failure of
    that: no workload cluster is contacted, nothing is downloaded or rendered,
    no cluster is written, and its calls change no stored cluster. *)
Theorem installed_clusters_left_alone req w t r w' :
  shown_installed t -> runs (Reconcile req) t r -> steps answers w t w' ->
  Forall (fun e => quiet (ev_action e)) t /\ clusters w' = clusters w.
Proof.
  intros Hall H Hs. pose proof (run_quiet _ _ _ Hall H) as Hq. split; [done|].
  clear H Hall. revert w Hs. induction Hq as [|e t He _ IH]; intros w; simpl; [by intros ->|].
  intros (w1 & H1 & H2). rewrite (IH _ H2). apply (answers_frame _ _ _ _ H1).
  by apply quiet_frame.
Qed.
End Reconciles.
