(* ===== verification/PolicyController.v ===== *)
(** * PolicyController: internal/controller/kubewardenpolicy_controller.go

    The reconciler of KubewardenPolicy: it deploys one admission policy to every
    matching workload cluster, reports the outcome in the status, and deletes
    the deployed policies when the resource is being deleted. *)
From S2P Require Import Prelude GoProg GoError ApiTypes Platform Helpers.
Open Scope go_scope.

(** The zero [ctrl.Result]. *)
Definition Done : Result := {| Requeue := false; RequeueAfter := 0 |}.

(** The conversion loop: an operation is its own [OperationType]. *)
Definition convertOperations (ops : list string) : list string :=
  fold_left (fun result op => result ++ [op]) ops [].

(** [nil] for the empty scope, a pointer to the scope otherwise. *)
Definition convertScope (scope : string) : option string :=
  if decide (scope = "") then None else Some scope.

Section PolicyController.
Context `{P : Platform}.
Import Policy.

Definition convertRule (rule : PolicyRule) : RuleWithOperations :=
  {| rwo_Operations := convertOperations (Operations rule);
     rwo_APIGroups := APIGroups rule;
     rwo_APIVersions := APIVersions rule;
     rwo_Resources := Resources rule;
     rwo_Scope := convertScope (Scope rule) |}.

Definition convertMatchCondition (mc : MatchCondition) : AdmissionMatchCondition :=
  {| amc_Name := mc_Name mc; amc_Expression := mc_Expression mc |}.

(** The fields the code does not assign keep Go's zero value. *)
Definition buildPolicySpec (policy : KubewardenPolicy) : PolicySpec :=
  let spec := Spec policy in
  {| ps_PolicyServer := PolicyServer spec;
     ps_Module := Module_ spec;
     ps_Mode := "";
     ps_Mutating := Mutating spec;
     ps_Rules := fold_left (fun rules rule => rules ++ [convertRule rule]) (Rules spec) [];
     ps_FailurePolicy :=
       if decide (FailurePolicy spec = "") then None else Some (FailurePolicy spec);
     ps_Settings :=
       if decide (0 < String.length (Raw (Settings spec)))
       then Settings spec else {| Raw := "" |};
     ps_MatchConditions :=
       fold_left (fun mcs mc => mcs ++ [convertMatchCondition mc]) (MatchConditions spec) [] |}.

(** [metav1.ObjectMeta{Name: name, Namespace: ns}] *)
Definition new_meta (ns name : string) : ObjectMeta :=
  {| Name := name; Namespace := ns; Labels := ∅; Annotations := None; DeletionTimestamp := None |}.

(** The object the policy asks for in a workload cluster. *)
Definition newClusterAdmissionPolicy (policy : KubewardenPolicy) : ClusterAdmissionPolicy :=
  {| cap_ObjectMeta := new_meta "" (PolicyName (Spec policy));
     cap_Spec := buildPolicySpec policy;
     cap_PolicyStatus := "" |}.
Definition newAdmissionPolicy (policy : KubewardenPolicy) : AdmissionPolicy :=
  {| ap_ObjectMeta := new_meta (TargetNamespace (Spec policy)) (PolicyName (Spec policy));
     ap_Spec := buildPolicySpec policy;
     ap_PolicyStatus := "" |}.

Definition deployClusterAdmissionPolicy (remoteClient : client) (policy : KubewardenPolicy)
  : prog (option error) :=
  let cap := newClusterAdmissionPolicy policy in
  r <- Get remoteClient (ObjectKeyFromObject cap) KClusterAdmissionPolicy ;;
  match r with
  | inl err =>
      if IsNotFound err
      then e <- Create remoteClient (OClusterAdmissionPolicy cap) ;; ret (Foreign <$> e)
      else ret (Some (Foreign err))
  | inr existing =>
      (* existing.Spec = cap.Spec *)
      let existing := {| cap_ObjectMeta := cap_ObjectMeta existing;
                         cap_Spec := cap_Spec cap;
                         cap_PolicyStatus := cap_PolicyStatus existing |} in
      e <- Update remoteClient (OClusterAdmissionPolicy existing) ;; ret (Foreign <$> e)
  end.

Definition deployAdmissionPolicy (remoteClient : client) (policy : KubewardenPolicy)
  : prog (option error) :=
  let ap := newAdmissionPolicy policy in
  r <- Get remoteClient (ObjectKeyFromObject ap) KAdmissionPolicy ;;
  match r with
  | inl err =>
      if IsNotFound err
      then e <- Create remoteClient (OAdmissionPolicy ap) ;; ret (Foreign <$> e)
      else ret (Some (Foreign err))
  | inr existing =>
      let existing := {| ap_ObjectMeta := ap_ObjectMeta existing;
                         ap_Spec := ap_Spec ap;
                         ap_PolicyStatus := ap_PolicyStatus existing |} in
      e <- Update remoteClient (OAdmissionPolicy existing) ;; ret (Foreign <$> e)
  end.

Definition isPolicyActive (remoteClient : client) (policy : KubewardenPolicy) : prog (error + bool) :=
  if decide (PolicyType (Spec policy) = "ClusterAdmissionPolicy") then
    cap <- Get remoteClient {| nn_Namespace := ""; nn_Name := PolicyName (Spec policy) |}
             KClusterAdmissionPolicy
      orelse err => ret (inl (Foreign err)) ;;
    ret (inr (bool_decide (cap_PolicyStatus cap = PolicyStatusActive)))
  else
    ap <- Get remoteClient {| nn_Namespace := TargetNamespace (Spec policy);
                              nn_Name := PolicyName (Spec policy) |} KAdmissionPolicy
      orelse err => ret (inl (Foreign err)) ;;
    ret (inr (bool_decide (ap_PolicyStatus ap = PolicyStatusActive))).

Definition deployPolicy (remoteClient : client) (policy : KubewardenPolicy) (cluster : Cluster)
  : prog (DeployedPolicyStatus * option error) :=
  now <- Now ;;
  let status :=
    {| dp_ClusterName := Name cluster;
       dp_ClusterNamespace := Namespace cluster;
       dp_PolicyName := PolicyName (Spec policy);
       dp_PolicyType := PolicyType (Spec policy);
       dp_Active := false;
       dp_LastTransitionTime := Some now;
       dp_Message := "" |} in
  err <- (if decide (PolicyType (Spec policy) = "ClusterAdmissionPolicy")
          then deployClusterAdmissionPolicy remoteClient policy
          else deployAdmissionPolicy remoteClient policy) ;;
  match err with
  | Some err => ret (SetOutcome status false ("Failed to deploy: " +:+ Error err), Some err)
  | None =>
      r <- isPolicyActive remoteClient policy ;;
      match r with
      | inl err =>
          _ <- LogError (Some err) "Failed to check policy status" ;;
          ret (SetOutcome status false ("Failed to verify status: " +:+ Error err), Some err)
      | inr active =>
          ret (SetOutcome status active
                 (if active then "Policy successfully deployed and active"
                  else "Policy deployed but not yet active"), None)
      end
  end.

Definition deletePolicy (remoteClient : client) (policy : KubewardenPolicy) : prog (option error) :=
  let o :=
    if decide (PolicyType (Spec policy) = "ClusterAdmissionPolicy")
    then OClusterAdmissionPolicy
           {| cap_ObjectMeta := new_meta "" (PolicyName (Spec policy));
              cap_Spec := {| ps_PolicyServer := ""; ps_Module := ""; ps_Mode := ""; ps_Mutating := false;
                             ps_Rules := []; ps_FailurePolicy := None; ps_Settings := {| Raw := "" |};
                             ps_MatchConditions := [] |};
              cap_PolicyStatus := "" |}
    else OAdmissionPolicy
           {| ap_ObjectMeta := new_meta (TargetNamespace (Spec policy)) (PolicyName (Spec policy));
              ap_Spec := {| ps_PolicyServer := ""; ps_Module := ""; ps_Mode := ""; ps_Mutating := false;
                            ps_Rules := []; ps_FailurePolicy := None; ps_Settings := {| Raw := "" |};
                            ps_MatchConditions := [] |};
              ap_PolicyStatus := "" |} in
  err <- Delete remoteClient o ;;
  match err with
  | Some e => if negb (IsNotFound e) then ret (Some (Foreign e)) else ret None
  | None => ret None
  end.

Definition getMatchingClusters (policy : KubewardenPolicy) : prog (error + list Cluster) :=
  match LabelSelectorAsSelector (ClusterSelector (Spec policy)) with
  | inl err => ret (inl (Wrap "invalid cluster selector" (Foreign err)))
  | inr selector =>
      clusterList <- ListClusters Management (Namespace policy) (Some selector)
        orelse err => ret (inl (Wrap "listing clusters" (Foreign err))) ;;
      ret (inr clusterList)
  end.

(** [!cluster.Status.ControlPlaneReady || !conditions.IsTrue(...)] *)
Definition clusterNotReady (cluster : Cluster) : bool :=
  negb (ControlPlaneReady (Cluster_Status cluster)) || negb (IsTrue cluster ControlPlaneReadyCondition).

(** One iteration of the deployment loop; the loop's variables are
    [deployedPolicies] and [allReady]. *)
Definition reconcileCluster (policy : KubewardenPolicy) (cluster : Cluster)
    (vars : list DeployedPolicyStatus * bool)
  : prog (flow (list DeployedPolicyStatus * bool) Empty_set) :=
  let '(deployedPolicies, allReady) := vars in
  if clusterNotReady cluster then ret (Next (deployedPolicies, false))
  else if negb (HasAnnotation cluster KubewardenInstalledAnnotation)
  then ret (Next (deployedPolicies, false))
  else
    r <- RemoteClientGetter (Name cluster) (ObjectKeyFromObject cluster) ;;
    match r with
    | inl err =>
        _ <- LogError (Some (Foreign err)) "Failed to get remote cluster client" ;;
        ret (Next (deployedPolicies, false))
    | inr rc =>
        s <- deployPolicy (Remote rc) policy cluster ;;
        match s with
        | (policyStatus, Some err) =>
            _ <- LogError (Some err) "Failed to deploy policy" ;;
            let policyStatus := SetOutcome policyStatus false (Error err) in
            ret (Next (deployedPolicies ++ [policyStatus], false))
        | (policyStatus, None) => ret (Next (deployedPolicies ++ [policyStatus], allReady))
        end
    end.

Definition reconcileNormal (policy : KubewardenPolicy) : prog (Result * option error) :=
  r <- getMatchingClusters policy ;;
  match r with
  | inl err =>
      _ <- LogError (Some err) "Failed to get matching clusters" ;;
      ret (Done, Some err)
  | inr clusters =>
      if decide (length clusters = 0) then
        let policy := SetDeployed policy false [] in
        err <- StatusUpdate Management (OPolicy policy) ;;
        match err with
        | Some e => ret (Done, Some (Foreign e))
        | None => ret ({| Requeue := false; RequeueAfter := defaultRequeueDuration |}, None)
        end
      else
        let policy := SetMatchingClusters policy clusters in
        o <- for_range clusters ([], true) (reconcileCluster policy) ;;
        match o with
        | Return e => match e with end
        | Next (deployedPolicies, allReady) =>
            let policy := SetDeployed policy allReady deployedPolicies in
            err <- StatusUpdate Management (OPolicy policy) ;;
            match err with
            | Some e => ret (Done, Some (Foreign e))
            | None => ret ({| Requeue := false; RequeueAfter := 5 * Minute |}, None)
            end
        end
  end.

(** One iteration of the deletion loop. *)
Definition deleteFromCluster (policy : KubewardenPolicy) (cluster : Cluster) (_ : unit)
  : prog (flow unit Empty_set) :=
  r <- RemoteClientGetter (Name cluster) (ObjectKeyFromObject cluster) ;;
  match r with
  | inl err =>
      _ <- LogError (Some (Foreign err)) "Failed to get remote cluster client during deletion" ;;
      ret (Next tt)
  | inr rc =>
      err <- deletePolicy (Remote rc) policy ;;
      match err with
      | Some err =>
          _ <- LogError (Some err) "Failed to delete policy from workload cluster" ;;
          ret (Next tt)
      | None => ret (Next tt)
      end
  end.

Definition reconcileDelete (policy : KubewardenPolicy) : prog (Result * option error) :=
  r <- getMatchingClusters policy ;;
  match r with
  | inl err =>
      _ <- LogError (Some err) "Failed to get matching clusters during deletion" ;;
      ret (Done, Some err)
  | inr clusters =>
      _ <- for_range clusters tt (deleteFromCluster policy) ;;
      ret (Done, None)
  end.

Definition Reconcile (req : NamespacedName) : prog (Result * option error) :=
  r <- Get Management req KPolicy ;;
  match r with
  | inl err =>
      if IsNotFound err then ret (Done, None) else ret (Done, Some (Foreign err))
  | inr policy =>
      if negb (Time_IsZero (DeletionTimestamp (Policy_ObjectMeta policy)))
      then reconcileDelete policy
      else reconcileNormal policy
  end.

(** The loop of [clusterToKubewardenPolicy] over the listed policies. *)
Definition policyRequests (cluster : Cluster) (policies : list KubewardenPolicy) : list NamespacedName :=
  fold_left (fun requests (policy : KubewardenPolicy) =>
    match LabelSelectorAsSelector (ClusterSelector (Spec policy)) with
    | inl _ => requests
    | inr selector =>
        if Matches selector (Labels cluster)
        then requests ++ [{| nn_Namespace := Namespace policy; nn_Name := Name policy |}]
        else requests
    end) policies [].

Definition clusterToKubewardenPolicy (o : object) : prog (list NamespacedName) :=
  match o with
  | OCluster cluster =>
      policies <- ListPolicies Management (Namespace cluster) orelse _err => ret [] ;;
      ret (policyRequests cluster (Items policies))
  | _ =>
      _ <- LogError None ("Expected a Cluster but got a " +:+ object_type o) ;;
      ret []
  end.
End PolicyController.
