(* ===== verification/PolicyFacts.v ===== *)
(** * PolicyFacts: lemmas about kubewardenpolicy_controller.go

    What the deployment and the deletion on one cluster can do, and what their
    complete runs did. *)
From S2P Require Import Prelude GoProg GoError ApiTypes Platform Traces Helpers AddonController PolicyController.
Open Scope go_scope.

Section Pure.
Import Policy.

Lemma convertOperations_id ops : convertOperations ops = ops.
Proof. unfold convertOperations. rewrite (fold_left_snoc (fun op => op)). apply map_id. Qed.

Lemma convertScope_default scope : default "" (convertScope scope) = scope.
Proof. unfold convertScope. by destruct (decide (scope = "")). Qed.
End Pure.

Section Deploy.
Context `{P : Platform}.
Import Policy.

Definition isClusterPolicy (policy : KubewardenPolicy) : bool :=
  bool_decide (PolicyType (Spec policy) = "ClusterAdmissionPolicy").

Definition policy_key (policy : KubewardenPolicy) : NamespacedName :=
  {| nn_Namespace := if isClusterPolicy policy then "" else TargetNamespace (Spec policy);
     nn_Name := PolicyName (Spec policy) |}.

(** The writes of a deployment through [c], with the read they follow. *)
Inductive deploy_write (policy : KubewardenPolicy) (c : client) (t : list event) : go_action -> Prop :=
| create_cap (err : ext_error) :
    isClusterPolicy policy = true -> IsNotFound err = true ->
    @Ev GoSignature (AGet c (policy_key policy) KClusterAdmissionPolicy) (inl err) ∈ t ->
    deploy_write policy c t (ACreate c (OClusterAdmissionPolicy (newClusterAdmissionPolicy policy)))
| update_cap (existing : ClusterAdmissionPolicy) :
    isClusterPolicy policy = true ->
    @Ev GoSignature (AGet c (policy_key policy) KClusterAdmissionPolicy) (inr existing) ∈ t ->
    deploy_write policy c t (AUpdate c (OClusterAdmissionPolicy
      {| cap_ObjectMeta := existing; cap_Spec := buildPolicySpec policy;
         cap_PolicyStatus := cap_PolicyStatus existing |}))
| create_ap (err : ext_error) :
    isClusterPolicy policy = false -> IsNotFound err = true ->
    @Ev GoSignature (AGet c (policy_key policy) KAdmissionPolicy) (inl err) ∈ t ->
    deploy_write policy c t (ACreate c (OAdmissionPolicy (newAdmissionPolicy policy)))
| update_ap (existing : AdmissionPolicy) :
    isClusterPolicy policy = false ->
    @Ev GoSignature (AGet c (policy_key policy) KAdmissionPolicy) (inr existing) ∈ t ->
    deploy_write policy c t (AUpdate c (OAdmissionPolicy
      {| ap_ObjectMeta := existing; ap_Spec := buildPolicySpec policy;
         ap_PolicyStatus := ap_PolicyStatus existing |})).

Lemma deploy_write_mono policy c t t' a :
  t ⊆ t' -> deploy_write policy c t a -> deploy_write policy c t' a.
Proof. intros Ht []; econstructor; eauto. Qed.

(** The API server of [c] accepted one of these writes. *)
Definition deployed_on (t : list event) (policy : KubewardenPolicy) (c : client) : Prop :=
  exists a, deploy_write policy c t a /\
    ((exists o, a = ACreate c o /\ @Ev GoSignature (ACreate c o) None ∈ t) \/
     (exists o, a = AUpdate c o /\ @Ev GoSignature (AUpdate c o) None ∈ t)).

(** The status of the deployed policy was read as [active]. *)
Definition status_read (t : list event) (policy : KubewardenPolicy) (c : client) (active : bool) : Prop :=
  if isClusterPolicy policy
  then exists cap : ClusterAdmissionPolicy,
    @Ev GoSignature (AGet c (policy_key policy) KClusterAdmissionPolicy) (inr cap) ∈ t /\
    active = bool_decide (cap_PolicyStatus cap = PolicyStatusActive)
  else exists ap : AdmissionPolicy,
    @Ev GoSignature (AGet c (policy_key policy) KAdmissionPolicy) (inr ap) ∈ t /\
    active = bool_decide (ap_PolicyStatus ap = PolicyStatusActive).

Lemma deployed_on_mono t t' policy c : t ⊆ t' -> deployed_on t policy c -> deployed_on t' policy c.
Proof.
  intros Ht (a & Ha & H). exists a. split; [by eapply deploy_write_mono|].
  destruct H as [(o & -> & H)|(o & -> & H)]; [left|right]; eauto.
Qed.
Lemma status_read_mono t t' policy c b : t ⊆ t' -> status_read t policy c b -> status_read t' policy c b.
Proof. unfold status_read. intros Ht. destruct (isClusterPolicy _); intros (x & H & ->); eauto. Qed.

Lemma policy_key_cap policy :
  isClusterPolicy policy = true ->
  ObjectKeyFromObject (cap_ObjectMeta (newClusterAdmissionPolicy policy)) = policy_key policy.
Proof. unfold policy_key. by intros ->. Qed.
Lemma policy_key_ap policy :
  isClusterPolicy policy = false ->
  ObjectKeyFromObject (ap_ObjectMeta (newAdmissionPolicy policy)) = policy_key policy.
Proof. unfold policy_key. by intros ->. Qed.

Lemma deployClusterAdmissionPolicy_write c policy t a :
  isClusterPolicy policy = true -> is_write a = true ->
  issues (deployClusterAdmissionPolicy c policy) t a -> deploy_write policy c t a.
Proof.
  intros Hc Ha. unfold deployClusterAdmissionPolicy. rewrite (policy_key_cap _ Hc). unfold_calls.
  intros H. repeat issue_step; try done; run_inv.
  - econstructor; [done|eassumption|in_tac].
  - refine (update_cap _ _ _ k _ _); [done|in_tac].
Qed.

Lemma deployAdmissionPolicy_write c policy t a :
  isClusterPolicy policy = false -> is_write a = true ->
  issues (deployAdmissionPolicy c policy) t a -> deploy_write policy c t a.
Proof.
  intros Hc Ha. unfold deployAdmissionPolicy. rewrite (policy_key_ap _ Hc). unfold_calls.
  intros H. repeat issue_step; try done; run_inv.
  - econstructor; [done|eassumption|in_tac].
  - refine (update_ap _ _ _ k _ _); [done|in_tac].
Qed.

Lemma deployClusterAdmissionPolicy_ok c policy t :
  isClusterPolicy policy = true ->
  runs (deployClusterAdmissionPolicy c policy) t None -> deployed_on t policy c.
Proof.
  intros Hc. unfold deployClusterAdmissionPolicy. rewrite (policy_key_cap _ Hc). unfold_calls.
  intros H. run_inv.
  - destruct a; [done|]. eexists. split; [refine (create_cap _ _ _ _ _ _ _); [done|eassumption|in_tac]|].
    left. eexists. split; [done|in_tac].
  - destruct a; [done|]. eexists. split; [refine (update_cap _ _ _ k _ _); [done|in_tac]|].
    right. eexists. split; [done|in_tac].
Qed.

Lemma deployAdmissionPolicy_ok c policy t :
  isClusterPolicy policy = false ->
  runs (deployAdmissionPolicy c policy) t None -> deployed_on t policy c.
Proof.
  intros Hc. unfold deployAdmissionPolicy. rewrite (policy_key_ap _ Hc). unfold_calls.
  intros H. run_inv.
  - destruct a; [done|]. eexists. split; [refine (create_ap _ _ _ _ _ _ _); [done|eassumption|in_tac]|].
    left. eexists. split; [done|in_tac].
  - destruct a; [done|]. eexists. split; [refine (update_ap _ _ _ k _ _); [done|in_tac]|].
    right. eexists. split; [done|in_tac].
Qed.
End Deploy.

(** ** One cluster of the deployment loop *)

Section Outcomes.
Context `{P : Platform}.
Import Policy.

Lemma isClusterPolicy_spec policy :
  (if decide (PolicyType (Spec policy) = "ClusterAdmissionPolicy") then true else false) =
  isClusterPolicy policy.
Proof. unfold isClusterPolicy. by case_decide; case_bool_decide. Qed.

(** What became of the policy on one cluster. *)
Inductive outcome :=
| Skipped
| Unreachable (err : ext_error)
| Failed (now : Time) (err : error)
| Deployed (now : Time) (active : bool).

Definition succeeded (o : outcome) : bool := match o with Deployed _ _ => true | _ => false end.

(** The entry of the status that reports it. *)
Definition entry (policy : KubewardenPolicy) (cluster : Cluster) (o : outcome) : option DeployedPolicyStatus :=
  let status now active message :=
    {| dp_ClusterName := Name cluster; dp_ClusterNamespace := Namespace cluster;
       dp_PolicyName := PolicyName (Spec policy); dp_PolicyType := PolicyType (Spec policy);
       dp_Active := active; dp_LastTransitionTime := Some now; dp_Message := message |} in
  match o with
  | Skipped | Unreachable _ => None
  | Failed now err => Some (status now false (Error err))
  | Deployed now active =>
      Some (status now active (if active then "Policy successfully deployed and active"
                               else "Policy deployed but not yet active"))
  end.

(** The facts behind an outcome, read off the trace. *)
Definition eligible (cluster : Cluster) : bool :=
  negb (clusterNotReady cluster) && HasAnnotation cluster KubewardenInstalledAnnotation.
Definition connected (t : list event) (cluster : Cluster) (rc : remote_client) : Prop :=
  @Ev GoSignature (ARemoteClient (Name cluster) (ObjectKeyFromObject cluster)) (inr rc) ∈ t.
Definition outcome_of (policy : KubewardenPolicy) (t : list event) (cluster : Cluster) (o : outcome) : Prop :=
  match o with
  | Skipped => eligible cluster = false
  | Unreachable err => eligible cluster = true /\
      @Ev GoSignature (ARemoteClient (Name cluster) (ObjectKeyFromObject cluster)) (inl err) ∈ t
  | Failed now err => eligible cluster = true /\ (exists rc, connected t cluster rc) /\
      @Ev GoSignature ANow now ∈ t /\
      @Ev GoSignature (ALogError (Some err) "Failed to deploy policy") tt ∈ t
  | Deployed now active => eligible cluster = true /\ @Ev GoSignature ANow now ∈ t /\
      exists rc, connected t cluster rc /\ deployed_on t policy (Remote rc) /\
        status_read t policy (Remote rc) active
  end.

Lemma outcome_of_mono policy t t' cluster o :
  t ⊆ t' -> outcome_of policy t cluster o -> outcome_of policy t' cluster o.
Proof.
  intros Ht. destruct o; simpl; [done|intros [? ?]; auto| |].
  - intros (? & (rc & Hrc) & ? & ?). split_and!; auto. exists rc. unfold connected in *. auto.
  - intros (? & ? & rc & ? & ? & ?). split_and!; auto. exists rc. unfold connected in *.
    split_and!; eauto using deployed_on_mono, status_read_mono.
Qed.

Lemma deployPolicy_write c policy cluster t a :
  is_write a = true -> issues (deployPolicy c policy cluster) t a -> deploy_write policy c t a.
Proof.
  intros Ha. unfold deployPolicy, isPolicyActive. pose proof (isClusterPolicy_spec policy) as Hc.
  destruct (decide _); unfold_calls; intros H; repeat issue_step; try done; run_inv;
    (eapply deploy_write_mono;
      [|first [by eapply deployClusterAdmissionPolicy_write | by eapply deployAdmissionPolicy_write]]);
    in_tac.
Qed.

Lemma deployPolicy_ok c policy cluster t st :
  runs (deployPolicy c policy cluster) t (st, None) ->
  exists now active, @Ev GoSignature ANow now ∈ t /\
    entry policy cluster (Deployed now active) = Some st /\
    deployed_on t policy c /\ status_read t policy c active.
Proof.
  unfold deployPolicy, isPolicyActive. pose proof (isClusterPolicy_spec policy) as Hc.
  unfold status_read, policy_key. rewrite <- Hc. destruct (decide _); unfold_calls; intros H; run_inv;
    do 2 eexists; (split_and!; [in_tac|reflexivity| |eexists; split; [in_tac|reflexivity]]);
    (eapply deployed_on_mono; [|first [by apply deployClusterAdmissionPolicy_ok
                                      |by apply deployAdmissionPolicy_ok]]); in_tac.
Qed.

Lemma deployPolicy_failed c policy cluster t st err :
  runs (deployPolicy c policy cluster) t (st, Some err) ->
  exists now, @Ev GoSignature ANow now ∈ t /\
    entry policy cluster (Failed now err) = Some (SetOutcome st false (Error err)).
Proof.
  unfold deployPolicy. unfold_calls. intros H. run_inv; eexists; (split; [in_tac|reflexivity]).
Qed.

Lemma reconcileCluster_outcome policy cluster deployed ok t vars :
  runs (reconcileCluster policy cluster (deployed, ok)) t (Next vars) ->
  exists o, outcome_of policy t cluster o /\
    vars = (deployed ++ option_list (entry policy cluster o), ok && succeeded o).
Proof.
  unfold reconcileCluster. unfold_calls.
  destruct (clusterNotReady cluster) eqn:Hr.
  { intros [-> [= ->]]%runs_ret. exists Skipped. simpl. unfold eligible.
    by rewrite Hr, app_nil_r, andb_false_r. }
  destruct (HasAnnotation cluster KubewardenInstalledAnnotation) eqn:Hn; cbn [negb].
  2: { intros [-> [= ->]]%runs_ret. exists Skipped. simpl. unfold eligible.
    by rewrite Hr, Hn, app_nil_r, !andb_false_r. }
  assert (eligible cluster = true) as He by (unfold eligible; by rewrite Hr, Hn).
  intros H. run_inv.
  - exists (Unreachable e). simpl. rewrite app_nil_r, andb_false_r. split_and!; [done|in_tac|done].
  - match goal with H : runs (deployPolicy _ _ _) _ _ |- _ =>
      apply deployPolicy_failed in H as (now & Hnow & Hentry) end.
    exists (Failed now e). rewrite Hentry, andb_false_r.
    split; [|done]. split_and!; [done|eexists; unfold connected; in_tac|in_tac|].
    match goal with a : unit |- _ => destruct a end. in_tac.
  - match goal with H : runs (deployPolicy _ _ _) _ _ |- _ =>
      apply deployPolicy_ok in H as (now & active & Hnow & Hentry & Hd & Hs) end.
    exists (Deployed now active). rewrite Hentry, andb_true_r. split; [|done].
    split_and!; [done|in_tac|]. eexists. unfold connected. split_and!; [in_tac| |];
      [eapply deployed_on_mono; [|exact Hd]|eapply status_read_mono; [|exact Hs]]; in_tac.
Qed.

(** None of this depends on the policy's status. *)
Lemma deploy_write_status policy st c t a :
  deploy_write (with_Status policy st) c t a -> deploy_write policy c t a.
Proof.
  intros [err H1 H2 H3|x H1 H2|err H1 H2 H3|x H1 H2].
  - exact (create_cap policy c t err H1 H2 H3).
  - exact (update_cap policy c t x H1 H2).
  - exact (create_ap policy c t err H1 H2 H3).
  - exact (update_ap policy c t x H1 H2).
Qed.

Lemma outcome_of_status policy st t cluster o :
  outcome_of (with_Status policy st) t cluster o -> outcome_of policy t cluster o.
Proof.
  destruct o; simpl; try done. intros (? & ? & rc & ? & (a & Ha & H) & ?).
  split_and!; [done..|]. exists rc. split_and!; [done| |done].
  exists a. split; [by eapply deploy_write_status|done].
Qed.
End Outcomes.
