(* ===== verification/PolicySpec.v ===== *)
(** * PolicySpec: correctness of the KubewardenPolicy reconciler

    What it may write and where, what its status reports, what a deletion does,
    and that the specification deployed is the one the resource states. *)
From S2P Require Import Prelude GoProg GoError ApiTypes Platform Traces Helpers.
From S2P Require Import Webhooks Toy AddonController PolicyController PolicyFacts.
Open Scope go_scope.

Section Lemmas.
Context `{P : Platform}.
Import Policy.

(** The reads of a run: the policy, its selector, the clusters selected. *)
Record selected (policy : KubewardenPolicy) (clusters : list Cluster) (t : list event) : Prop := {
  sel_list : exists sel, LabelSelectorAsSelector (ClusterSelector (Spec policy)) = inr sel /\
    @Ev GoSignature (AListClusters Management (Namespace policy) (Some sel)) (inr clusters) ∈ t;
}.
Lemma selected_mono policy clusters t t' :
  t ⊆ t' -> selected policy clusters t -> selected policy clusters t'.
Proof. intros Ht [(sel & H1 & H2)]. split. eauto. Qed.

Definition being_deleted (policy : KubewardenPolicy) : bool :=
  negb (Time_IsZero (DeletionTimestamp (Policy_ObjectMeta policy))).

(** The object that names the deployed policy in a Delete call. *)
Definition delete_target (policy : KubewardenPolicy) (o : object) : Prop :=
  if isClusterPolicy policy
  then exists cap, o = OClusterAdmissionPolicy cap /\ ObjectKeyFromObject cap = policy_key policy
  else exists ap, o = OAdmissionPolicy ap /\ ObjectKeyFromObject ap = policy_key policy.

(** The status entries of a list of outcomes. *)
Definition entries (policy : KubewardenPolicy) (clusters : list Cluster) (outcomes : list outcome)
  : list DeployedPolicyStatus :=
  flat_map (fun co => option_list (entry policy co.1 co.2)) (zip clusters outcomes).

Lemma getMatchingClusters_ok policy clusters t :
  runs (getMatchingClusters policy) t (inr clusters) -> selected policy clusters t.
Proof.
  unfold getMatchingClusters. destruct (LabelSelectorAsSelector _) eqn:E; unfold_calls; intros H; run_inv.
  split. eexists. split; [done|in_tac].
Qed.

Lemma getMatchingClusters_writes policy : within (fun a => is_write a = false) (getMatchingClusters policy).
Proof. unfold getMatchingClusters. unfold_calls. within_tac. Qed.

Lemma loop_outcomes policy clusters deployed ok t vars :
  runs (for_range clusters (deployed, ok) (reconcileCluster policy)) t (Next vars) ->
  exists outcomes, Forall2 (outcome_of policy t) clusters outcomes /\
    vars = (deployed ++ entries policy clusters outcomes, ok && forallb succeeded outcomes).
Proof.
  revert deployed ok t. induction clusters as [|cluster clusters IH]; intros deployed ok t; cbn [for_range].
  - intros [-> [= ->]]%runs_ret. exists []. split; [done|]. cbn. by rewrite app_nil_r, andb_true_r.
  - intros (t1 & [[d' ok']|[]] & t2 & -> & H1 & H2)%runs_bind.
    apply reconcileCluster_outcome in H1 as (o & Ho & [= -> ->]).
    apply IH in H2 as (os & Hos & ->). exists (o :: os). split.
    + constructor; [eapply outcome_of_mono; [|exact Ho]; in_tac|].
      eapply Forall2_impl; [exact Hos|]. intros c o'. apply outcome_of_mono. in_tac.
    + cbn. by rewrite <- app_assoc, andb_assoc.
Qed.

Lemma reconcileCluster_write policy cluster vars t a :
  is_write a = true -> issues (reconcileCluster policy cluster vars) t a ->
  eligible cluster = true /\ exists rc, connected t cluster rc /\ deploy_write policy (Remote rc) t a.
Proof.
  intros Ha. destruct vars as [deployed ok]. unfold reconcileCluster. unfold_calls.
  destruct (clusterNotReady cluster) eqn:Hr; [by intros ?%issues_ret|].
  destruct (HasAnnotation cluster KubewardenInstalledAnnotation) eqn:Hn; cbn [negb];
    [|by intros ?%issues_ret].
  intros H. repeat issue_step; try done; run_inv.
  split; [unfold eligible; by rewrite Hr, Hn|]. eexists. split; [unfold connected; in_tac|].
  eapply deploy_write_mono; [|by eapply deployPolicy_write]. in_tac.
Qed.

Lemma deletePolicy_write policy c t a :
  is_write a = true -> issues (deletePolicy c policy) t a ->
  exists o, a = ADelete c o /\ delete_target policy o.
Proof.
  intros Ha. unfold deletePolicy, delete_target, policy_key.
  pose proof (isClusterPolicy_spec policy) as Hc. rewrite <- Hc.
  destruct (decide _); unfold_calls; intros H; repeat issue_step; eexists; (split; [done|]); by eexists.
Qed.

(** A write that the reads before the loops cannot make. *)
Ltac not_in_reads :=
  match goal with
  | H : issues (getMatchingClusters ?p) _ _ |- _ =>
      pose proof (within_issues _ _ _ _ (getMatchingClusters_writes p) H); simpl in *; congruence
  end.
Ltac reads_done :=
  match goal with
  | H : runs (getMatchingClusters _) _ _ |- _ => apply getMatchingClusters_ok in H as Hs
  end.

Lemma reconcileDelete_writes policy t a :
  is_write a = true -> issues (reconcileDelete policy) t a ->
  exists clusters cluster rc o, selected policy clusters t /\ cluster ∈ clusters /\
    connected t cluster rc /\ a = ADelete (Remote rc) o /\ delete_target policy o.
Proof.
  intros Ha. unfold reconcileDelete. unfold_calls. intros H.
  repeat issue_step; try done; try not_in_reads. reads_done.
  match goal with H : issues (for_range _ _ _) _ _ |- _ =>
    apply issues_for_range in H as (pre & cluster & post & u1 & [] & u2 & -> & -> & H1 & H2) end.
  unfold deleteFromCluster in H2. unfold_calls_in H2. repeat issue_step; try done. run_inv.
  match goal with H : issues (deletePolicy _ _) _ _ |- _ =>
    apply deletePolicy_write in H as (o & -> & Ho); [|done] end.
  do 4 eexists. split_and!;
    [eapply selected_mono; [|exact Hs]; in_tac| |unfold connected; in_tac|done|done].
  set_solver.
Qed.

Lemma reconcileNormal_writes policy t a :
  is_write a = true -> issues (reconcileNormal policy) t a ->
  exists clusters, selected policy clusters t /\
    ((exists policy', a = AStatusUpdate Management (OPolicy policy')) \/
     (exists cluster rc, cluster ∈ clusters /\ connected t cluster rc /\
        eligible cluster = true /\ deploy_write policy (Remote rc) t a)).
Proof.
  intros Ha. unfold reconcileNormal. unfold_calls. intros H.
  repeat issue_step; try done; try not_in_reads; reads_done;
    (eexists; split; [eapply selected_mono; [|exact Hs]; in_tac|]); try (left; by eexists).
  match goal with H : issues (for_range _ _ _) _ _ |- _ =>
    apply issues_for_range in H as (pre & cluster & post & u1 & vars & u2 & -> & -> & H1 & H2) end.
  apply reconcileCluster_write in H2 as (He & rc & Hc & Hw%deploy_write_status); [|done]. right.
  exists cluster, rc. split_and!; [set_solver|unfold connected in *; in_tac|done|].
  eapply deploy_write_mono; [|exact Hw]. in_tac.
Qed.

(** After its first call the reconciler works on the policy it read. *)
Lemma policy_Reconcile_issues req t a :
  issues (Reconcile req) t a ->
  a = AGet Management req KPolicy \/
  exists policy t', t = @Ev GoSignature (AGet Management req KPolicy) (inr policy) :: t' /\
    issues (if being_deleted policy then reconcileDelete policy else reconcileNormal policy) t' a.
Proof.
  unfold Reconcile. unfold_calls. intros H. issue_step; [issue_step; by left|right].
  run_inv. destruct a0 as [e|policy]; [by issue_step|]. by do 2 eexists.
Qed.

(** The status a run reports: nothing deployed when no cluster matches,
    otherwise one outcome per cluster. *)
Definition reported (policy : KubewardenPolicy) (clusters : list Cluster) (t : list event)
    (policy' : KubewardenPolicy) : Prop :=
  match clusters with
  | [] => policy' = SetDeployed policy false []
  | _ => exists outcomes, Forall2 (outcome_of policy t) clusters outcomes /\
      policy' = SetDeployed (SetMatchingClusters policy clusters) (forallb succeeded outcomes)
                  (entries policy clusters outcomes)
  end.

Lemma reported_mono policy clusters t t' policy' :
  t ⊆ t' -> reported policy clusters t policy' -> reported policy clusters t' policy'.
Proof.
  intros Ht. destruct clusters; [done|]. intros (os & Hos & ->). exists os. split; [|done].
  eapply Forall2_impl; [exact Hos|]. intros ? ?. by apply outcome_of_mono.
Qed.

Lemma loop_reported policy clusters t ready deployed :
  length clusters <> 0 ->
  runs (for_range clusters ([], true) (reconcileCluster (SetMatchingClusters policy clusters))) t
    (Next (deployed, ready)) ->
  reported policy clusters t (SetDeployed (SetMatchingClusters policy clusters) ready deployed).
Proof.
  intros Hne (os & Hos & [= -> ->])%loop_outcomes. destruct clusters as [|c cs]; [done|].
  exists os. split; [|done]. eapply Forall2_impl; [exact Hos|]. intros ? ?. apply outcome_of_status.
Qed.

Lemma reconcileNormal_status policy t o :
  issues (reconcileNormal policy) t (AStatusUpdate Management o) ->
  exists clusters policy', selected policy clusters t /\ reported policy clusters t policy' /\ o = OPolicy policy'.
Proof.
  unfold reconcileNormal. unfold_calls. intros H. repeat issue_step; try not_in_reads; reads_done.
  - exists l. eexists. split_and!; [eapply selected_mono; [|exact Hs]; in_tac| |done].
    by destruct l.
  - exfalso. match goal with H : issues (for_range _ _ _) _ _ |- _ =>
      apply issues_for_range in H as (pre & cluster & post & u1 & vars & u2 & -> & -> & H1 & H2) end.
    apply reconcileCluster_write in H2 as (_ & rc & _ & Hw); [inversion Hw|done].
  - eexists _, _. split_and!; [eapply selected_mono; [|exact Hs]; in_tac| |done].
    eapply reported_mono; [|by apply loop_reported]. in_tac.
Qed.

Lemma Reconcile_status req t o :
  issues (Reconcile req) t (AStatusUpdate Management o) ->
  exists policy clusters policy',
    @Ev GoSignature (AGet Management req KPolicy) (inr policy) ∈ t /\ being_deleted policy = false /\
    selected policy clusters t /\ reported policy clusters t policy' /\ o = OPolicy policy'.
Proof.
  intros [?|(policy & t' & -> & H)]%policy_Reconcile_issues; [done|].
  destruct (being_deleted policy) eqn:Hd.
  - by apply reconcileDelete_writes in H as (? & ? & ? & ? & _ & _ & _ & ? & _); [|done].
  - apply reconcileNormal_status in H as (cs & p' & Hs & Hr & ->).
    exists policy, cs, p'. split_and!; [in_tac|done| | |done].
    + eapply selected_mono; [|exact Hs]. in_tac.
    + eapply reported_mono; [|exact Hr]. in_tac.
Qed.

Lemma reconcileCluster_attempts policy cluster vars t r :
  eligible cluster = true -> runs (reconcileCluster policy cluster vars) t r ->
  exists a, @Ev GoSignature (ARemoteClient (Name cluster) (ObjectKeyFromObject cluster)) a ∈ t.
Proof.
  intros He. destruct vars as [deployed ok]. unfold eligible in He.
  apply andb_true_iff in He as [Hr%negb_true_iff Hn].
  unfold reconcileCluster. rewrite Hr, Hn. cbn [negb]. unfold_calls. intros H. do 2 run_step.
  eexists. in_tac.
Qed.

Lemma deletePolicy_attempts policy c t r :
  runs (deletePolicy c policy) t r ->
  exists o a, delete_target policy o /\ @Ev GoSignature (ADelete c o) a ∈ t.
Proof.
  unfold deletePolicy, delete_target, policy_key. pose proof (isClusterPolicy_spec policy) as Hc.
  rewrite <- Hc. destruct (decide _); unfold_calls; intros H; do 2 run_step;
    do 2 eexists; (split; [|in_tac]); by eexists.
Qed.

(** The deployed policy was asked to be deleted, or the cluster's client
    could not be obtained. *)
Definition deletion_attempted (policy : KubewardenPolicy) (t : list event) (cluster : Cluster) : Prop :=
  (exists e, @Ev GoSignature (ARemoteClient (Name cluster) (ObjectKeyFromObject cluster)) (inl e) ∈ t) \/
  (exists rc o a, connected t cluster rc /\ delete_target policy o /\
     @Ev GoSignature (ADelete (Remote rc) o) a ∈ t).

Lemma deletion_attempted_mono policy t t' cluster :
  t ⊆ t' -> deletion_attempted policy t cluster -> deletion_attempted policy t' cluster.
Proof.
  unfold deletion_attempted, connected.
  intros Ht [(e & H)|(rc & o & a & H1 & H2 & H3)]; [left|right]; eauto 10.
Qed.

Lemma deleteFromCluster_attempts policy cluster u t r :
  runs (deleteFromCluster policy cluster u) t r -> deletion_attempted policy t cluster.
Proof.
  unfold deleteFromCluster, deletion_attempted, connected. unfold_calls. intros H. run_inv;
    [left; eexists; in_tac|right..];
    match goal with H : runs (deletePolicy _ _) _ _ |- _ =>
      apply deletePolicy_attempts in H as (o & ans & Ho & Ha) end;
    do 3 eexists; (split_and!; [in_tac|exact Ho|in_tac]).
Qed.

(** The clusters a run works on are those its list was answered with. *)
Lemma getMatchingClusters_head policy t t' r clusters :
  head (t ++ t') ≫= answered_clusters = Some clusters ->
  runs (getMatchingClusters policy) t r ->
  r = inr clusters \/ t = [] /\ exists err, r = inl err.
Proof.
  unfold getMatchingClusters. intros Hh. destruct (LabelSelectorAsSelector _); unfold_calls;
    intros H; run_inv; cbn in Hh; simplify_eq; eauto.
Qed.
End Lemmas.

(** ** Theorems *)

Section Theorems.
Context `{P : Platform}.
Import Policy.

(** C9: what the policy reconciler may write, and where.  Every write of every
    run is one of: the status of the policy it read; while the policy is not
    being deleted, a deployment on a selected cluster that is ready, carries
    the installed annotation and whose client was obtained, creating the
    policy after it was not found or updating the one that was read; while it
    is being deleted, the deletion of that policy on a selected cluster whose
    client was obtained.  Nothing else is ever written on either side, so no
    finalizer is set and no policy is removed by a change of its type. *)
Theorem policy_writes req t a :
  is_write a = true -> issues (Reconcile req) t a ->
  exists policy, @Ev GoSignature (AGet Management req KPolicy) (inr policy) ∈ t /\
  exists clusters, selected policy clusters t /\
    ((exists policy', a = AStatusUpdate Management (OPolicy policy') /\ being_deleted policy = false) \/
     (exists cluster rc, cluster ∈ clusters /\ connected t cluster rc /\
        if being_deleted policy
        then exists o, a = ADelete (Remote rc) o /\ delete_target policy o
        else eligible cluster = true /\ deploy_write policy (Remote rc) t a)).
Proof.
  intros Ha [->|(policy & t' & -> & H)]%policy_Reconcile_issues; [done|].
  exists policy. split; [in_tac|]. destruct (being_deleted policy).
  - apply reconcileDelete_writes in H as (cs & c & rc & o & Hs & Hc & Hrc & Ho); [|done].
    exists cs. split; [eapply selected_mono; [|exact Hs]; in_tac|]. right. exists c, rc.
    unfold connected in *. split_and!; [done|in_tac|by exists o].
  - apply reconcileNormal_writes in H as (cs & Hs & H); [|done].
    exists cs. split; [eapply selected_mono; [|exact Hs]; in_tac|].
    destruct H as [(p & ->)|(c & rc & Hc & Hrc & He & Hw)]; [left; by exists p|right].
    exists c, rc. unfold connected in *. split_and!; [done|in_tac|done|].
    eapply deploy_write_mono; [|exact Hw]. in_tac.
Qed.

(** C8: the status is accurate.  A status update reports, for the policy that
    was read and the clusters that were selected, exactly one outcome per
    cluster, in order: no entry for a cluster that was skipped or could not
    be reached, an inactive entry with the error's text where the deployment
    failed, and an entry with the activity that was read where it succeeded;
    Ready is whether it succeeded on every cluster.  When no cluster matches,
    Ready is false, no entry is left and the matching clusters stay as they
    were. *)
Theorem policy_status_accurate req t o :
  issues (Reconcile req) t (AStatusUpdate Management o) ->
  exists policy clusters policy',
    @Ev GoSignature (AGet Management req KPolicy) (inr policy) ∈ t /\ being_deleted policy = false /\
    selected policy clusters t /\ reported policy clusters t policy' /\ o = OPolicy policy'.
Proof. apply Reconcile_status. Qed.

(** C12: Ready means deployed everywhere.  A status update with Ready set is
    only sent after at least one cluster was selected and, on every selected
    cluster, the cluster was ready and annotated, its client was obtained,
    the policy was created or updated successfully through it, and its
    status was read back. *)
Theorem policy_ready_means_deployed req t policy' :
  issues (Reconcile req) t (AStatusUpdate Management (OPolicy policy')) ->
  Ready (Status policy') = true ->
  exists policy clusters,
    @Ev GoSignature (AGet Management req KPolicy) (inr policy) ∈ t /\
    selected policy clusters t /\ clusters <> [] /\
    MatchingClusters (Status policy') = map reference_to clusters /\
    forall cluster, cluster ∈ clusters ->
      eligible cluster = true /\
      exists rc active, connected t cluster rc /\ deployed_on t policy (Remote rc) /\
        status_read t policy (Remote rc) active.
Proof.
  intros (policy & cs & p' & Hg & _ & Hs & Hr & [= <-])%Reconcile_status Hready.
  exists policy, cs. destruct cs as [|c0 cs]; [by rewrite Hr in Hready|].
  destruct Hr as (os & Hos & ->). simpl in Hready.
  split_and!; [done..|apply matchingClusters_map|]. intros c Hc.
  apply list_elem_of_lookup_1 in Hc as [i Hi].
  destruct (Forall2_lookup_l _ _ _ _ _ Hos Hi) as (out & Hout & Ho).
  assert (succeeded out = true) as Hok.
  { apply (proj1 (forallb_forall _ _) Hready), list_elem_of_In. by eapply list_elem_of_lookup_2. }
  destruct out; try done. destruct Ho as (He & _ & rc & ? & ? & ?). eauto 10.
Qed.

(** C16: no cluster blocks another, and every run reports.  A reconcile whose
    list of clusters was answered tries to reach every eligible cluster,
    whatever happened on the ones before; its last call updates the status;
    and it returns that call's error, or else asks to be run again in five
    minutes (in one minute when no cluster matches). *)
Theorem policy_attempts_all policy t res err clusters :
  runs (reconcileNormal policy) t (res, err) ->
  head t ≫= answered_clusters = Some clusters ->
  (forall cluster, cluster ∈ clusters -> eligible cluster = true ->
     exists a, @Ev GoSignature (ARemoteClient (Name cluster) (ObjectKeyFromObject cluster)) a ∈ t) /\
  exists t' o (a : option ext_error), t = t' ++ [@Ev GoSignature (AStatusUpdate Management (OPolicy o)) a] /\
    err = Foreign <$> a /\
    (a = None -> RequeueAfter res = if decide (clusters = []) then Minute else (5 * Minute)%Z).
Proof.
  intros H Hh. unfold reconcileNormal in H. unfold_calls_in H. do 2 run_step;
    destruct (getMatchingClusters_head _ _ _ _ _ Hh Hr) as [E|[-> [e' E]]]; try done.
  1: by run_inv; cbn in Hh.
  injection E as ->. destruct (decide (length clusters = 0)) as [Hl|Hl].
  - apply nil_length_inv in Hl as ->. split; [intros c Hc; by inversion Hc|].
    run_inv; do 3 eexists; rewrite ?app_nil_r; split_and!; reflexivity || done.
  - split.
    + intros c Hc He. run_inv; try done;
        (match goal with H : runs (for_range _ _ _) _ (Next ?s) |- _ =>
           destruct (runs_for_range_Next _ _ _ _ _ c H) as (u1 & u2 & u3 & s1 & s2 & -> & Hb);
             [by apply list_elem_of_In|] end);
        apply reconcileCluster_attempts in Hb as [ans Hans]; try done; exists ans; in_tac.
    + run_inv; try done; rewrite ?app_nil_r, ?app_assoc; do 3 eexists; (split_and!; [reflexivity|done|]);
        [done|]. intros _. by rewrite decide_False by (by intros ->).
Qed.

(** C36: deletion is attempted everywhere and never fails.  The deletion of a
    policy whose clusters were listed tries to delete the deployed policy on
    every one of them, whether or not it is eligible and whatever happened on
    the ones before, and then reports success: an unreachable cluster or a
    refused deletion is not retried. *)
Theorem deletion_attempts_all policy t r clusters :
  runs (reconcileDelete policy) t r ->
  head t ≫= answered_clusters = Some clusters ->
  r = (Done, None) /\ forall cluster, cluster ∈ clusters -> deletion_attempted policy t cluster.
Proof.
  intros H Hh. unfold reconcileDelete in H. unfold_calls_in H. do 2 run_step;
    destruct (getMatchingClusters_head _ _ _ _ _ Hh Hr) as [E|[-> [e' E]]]; try done.
  1: by run_inv; cbn in Hh.
  injection E as ->. run_inv. split; [done|]. intros c Hc%list_elem_of_In.
  match goal with H : runs (for_range _ _ _) _ ?o |- _ => destruct o as [s|[]] end.
  match goal with H : runs (for_range _ _ _) _ _ |- _ =>
    destruct (runs_for_range_Next _ _ _ _ _ c H Hc) as (u1 & u2 & u3 & s1 & s2 & -> & Hb) end.
  eapply deletion_attempted_mono; [|by eapply deleteFromCluster_attempts]. in_tac.
Qed.

(** A policy that is gone is left deployed.  A request for a policy that
    does not exist makes no other call, and is done; any other read error is
    returned. *)
Theorem missing_policy_is_done req t r e :
  runs (Reconcile req) t r ->
  head t ≫= answered_get_error = Some e ->
  length t = 1 /\ r = (Done, if IsNotFound e then None else Some (Foreign e)).
Proof.
  intros H Ht. unfold Reconcile in H. unfold_calls_in H. run_inv; cbn in Ht; simplify_eq; simpl;
    split_and!; try done; match goal with Hb : IsNotFound _ = _ |- _ => by rewrite Hb end.
Qed.

(** The fields of a policy that an admission policy carries, read back from
    the specification built for it. *)
Definition read_rule (r : RuleWithOperations) : PolicyRule :=
  {| APIGroups := rwo_APIGroups r; APIVersions := rwo_APIVersions r; Resources := rwo_Resources r;
     Operations := rwo_Operations r; Scope := default "" (rwo_Scope r) |}.
Definition read_spec (selector : LabelSelector) (type name ns : string) (s : PolicySpec)
  : KubewardenPolicySpec :=
  {| ClusterSelector := selector; PolicyType := type; PolicyName := name; TargetNamespace := ns;
     PolicyServer := ps_PolicyServer s; Module_ := ps_Module s; Rules := map read_rule (ps_Rules s);
     Mutating := ps_Mutating s; Settings := ps_Settings s;
     FailurePolicy := default "" (ps_FailurePolicy s);
     MatchConditions := map (fun m => {| mc_Name := amc_Name m; mc_Expression := amc_Expression m |})
                          (ps_MatchConditions s) |}.

(** C27: the deployed specification states the policy.  Every field of the
    policy's specification but those that say where to deploy it can be read
    back from the specification built for the admission policy: server,
    module, every rule with its groups, versions, resources, operations and
    scope, mutation, settings, failure policy and match conditions, in order.
    The mode is always left empty, for the server to default. *)
Theorem buildPolicySpec_roundtrip policy :
  let spec := Spec policy in
  read_spec (ClusterSelector spec) (PolicyType spec) (PolicyName spec) (TargetNamespace spec)
    (buildPolicySpec policy) = spec /\
  ps_Mode (buildPolicySpec policy) = "".
Proof.
  cbv zeta. destruct policy as [tm om [sel ty nm ns srv md rules mut [raw] fp mcs] st].
  split; [|done]. unfold read_spec, buildPolicySpec. cbn [Spec ps_Rules ps_MatchConditions ps_PolicyServer ps_Module ps_Mutating ps_Settings ps_FailurePolicy PolicyServer Module_ Mutating Settings FailurePolicy Raw].
  rewrite (fold_left_snoc convertRule), (fold_left_snoc convertMatchCondition). simpl. f_equal.
  - rewrite map_map. apply map_pointwise_id. intros [gs vs rs ops sc].
    unfold read_rule, convertRule. simpl. by rewrite convertOperations_id, convertScope_default.
  - destruct (decide _); [done|]. destruct raw; [done|simpl in *; lia].
  - by case_decide.
  - rewrite map_map. apply map_pointwise_id. by intros [].
Qed.

(** The policies whose selector matches the cluster's labels. *)
Definition selects (cluster : Cluster) (policy : KubewardenPolicy) : bool :=
  match LabelSelectorAsSelector (ClusterSelector (Spec policy)) with
  | inl _ => false
  | inr sel => Matches sel (Labels cluster)
  end.

Lemma policyRequests_eq cluster policies :
  policyRequests cluster policies =
    map (fun p => ObjectKeyFromObject (Policy_ObjectMeta p)) (List.filter (selects cluster) policies).
Proof.
  unfold policyRequests, selects.
  assert (forall acc,
    fold_left (fun requests (policy : KubewardenPolicy) =>
      match LabelSelectorAsSelector (ClusterSelector (Spec policy)) with
      | inl _ => requests
      | inr selector =>
          if Matches selector (Labels cluster)
          then requests ++ [{| nn_Namespace := Namespace policy; nn_Name := Name policy |}]
          else requests
      end) policies acc =
    acc ++ map (fun p => ObjectKeyFromObject (Policy_ObjectMeta p)) (List.filter (selects cluster) policies)) as H.
  { induction policies as [|p ps IH]; intros acc; simpl; [by rewrite app_nil_r|]. rewrite IH.
    unfold selects at 2. destruct (LabelSelectorAsSelector _) as [e|sel]; [done|].
    destruct (Matches _ _); [|done]. by rewrite <- app_assoc. }
  apply (H []).
Qed.

Lemma cluster_event_runs o t r :
  runs (clusterToKubewardenPolicy o) t r <->
  match o with
  | OCluster cluster => exists a : ext_error + KubewardenPolicyList,
      t = [@Ev GoSignature (AListPolicies Management (Namespace cluster)) a] /\
      r = match a with
          | inl _ => []
          | inr l => map (fun p => ObjectKeyFromObject (Policy_ObjectMeta p))
                       (List.filter (selects cluster) (Items l))
          end
  | _ => t = [@Ev GoSignature (ALogError None ("Expected a Cluster but got a " +:+ object_type o)) tt] /\ r = []
  end.
Proof.
  unfold clusterToKubewardenPolicy.
  destruct o; try apply runs_log_nil. unfold_calls. split.
  - intros H. run_inv; eexists; (split; [done|]); [done|]. by rewrite policyRequests_eq.
  - intros (a & -> & ->). apply runs_bind.
    exists [@Ev GoSignature (AListPolicies Management (Namespace c)) a], a, [].
    split_and!; [done|exact (proj2 (@runs_call GoSignature (AListPolicies _ _) _ a) eq_refl)|].
    destruct a as [e|l]; apply runs_ret; [done|]. by rewrite policyRequests_eq.
Qed.

(** C40: a cluster event enqueues exactly the policies of the cluster's
    namespace whose selector matches the cluster's labels, in order; nothing
    when the list fails or for an event on another kind of object. *)
Theorem cluster_event_enqueues_matching_policies o t r :
  runs (clusterToKubewardenPolicy o) t r <->
  match o with
  | OCluster cluster => exists a : ext_error + KubewardenPolicyList,
      t = [@Ev GoSignature (AListPolicies Management (Namespace cluster)) a] /\
      r = match a with
          | inl _ => []
          | inr l => map (fun p => ObjectKeyFromObject (Policy_ObjectMeta p))
                       (List.filter (selects cluster) (Items l))
          end
  | _ => t = [@Ev GoSignature (ALogError None ("Expected a Cluster but got a " +:+ object_type o)) tt] /\ r = []
  end.
Proof. apply cluster_event_runs. Qed.

(** C28: what the webhooks admit is deployed complete.  For a named policy that
    was defaulted and then accepted, the object the reconciler sends has a
    name, an AdmissionPolicy also a namespace, and its specification names a
    policy server and a module, sets the failure policy, and has at least one
    rule, each with versions, resources and operations, all of them admission
    operations. *)
Theorem admitted_policy_deploys_complete (policy : KubewardenPolicy) :
  Name policy <> "" -> (PolicyWebhook.validateKubewardenPolicy (PolicyWebhook.Default policy)).2 = None ->
  let p := PolicyWebhook.Default policy in
  let s := buildPolicySpec p in
  nn_Name (policy_key p) <> "" /\
  (PolicyType (Spec p) = "AdmissionPolicy" -> nn_Namespace (policy_key p) <> "") /\
  ps_PolicyServer s <> "" /\ ps_Module s <> "" /\ is_Some (ps_FailurePolicy s) /\ ps_Rules s <> [] /\
  Forall (fun r => rwo_APIVersions r <> [] /\ rwo_Resources r <> [] /\ rwo_Operations r <> [] /\
    Forall (fun op => op ∈ ["CREATE"; "UPDATE"; "DELETE"; "CONNECT"]) (rwo_Operations r)) (ps_Rules s).
Proof.
  intros Hname [Hm Hr Hv Hns]%PolicyWebhook.validate_valid. cbv zeta.
  set (p := PolicyWebhook.Default policy) in *.
  assert (ps_Rules (buildPolicySpec p) = map convertRule (Rules (Spec p))) as ->
    by exact (fold_left_snoc convertRule (Rules (Spec p)) []).
  split_and!.
  - unfold p, policy_key. simpl. by case_decide.
  - intros Ht. unfold policy_key, isClusterPolicy. rewrite Ht. simpl. auto.
  - unfold p. simpl. by case_decide.
  - done.
  - unfold p. simpl. rewrite decide_False by (by case_decide). by eexists.
  - by destruct (Rules (Spec p)).
  - rewrite Forall_map. eapply Forall_impl; [exact Hv|]. intros r [H1 H2 H3 H4]. simpl.
    by rewrite convertOperations_id.
Qed.
End Theorems.
