(* ===== verification/PolicyBounds.v ===== *)
(** * PolicyBounds: how many calls a reconcile of a policy makes

    A program that makes at most [n] calls in every complete run, composed
    along the program's structure. *)
From S2P Require Import Prelude GoProg GoError ApiTypes Platform Traces Helpers.
From S2P Require Import Toy AddonController PolicyController PolicyFacts PolicySpec.
Open Scope go_scope.

Section AtMost.
Context `{Sig : Signature}.

Definition at_most (n : nat) {A} (p : prog A) : Prop := forall t a, runs p t a -> length t <= n.

Lemma at_most_ret n {A} (a : A) : at_most n (ret a).
Proof. intros t b [-> _]. simpl. lia. Qed.
Lemma at_most_call n c : at_most (S n) (call c).
Proof. intros t a ->%runs_call. simpl. lia. Qed.
Lemma at_most_weaken n m {A} (p : prog A) : n <= m -> at_most n p -> at_most m p.
Proof. intros Hn Hp t a H%Hp. lia. Qed.
Lemma at_most_bind n m {A B} (p : prog A) (f : A -> prog B) :
  at_most n p -> (forall a, at_most m (f a)) -> at_most (n + m) (bind p f).
Proof.
  intros Hp Hf t b (t1 & a & t2 & -> & H1%Hp & H2%Hf)%runs_bind. rewrite length_app. lia.
Qed.
(** One call, and then at most [n]. *)
Lemma at_most_step n {B} c (f : result c -> prog B) :
  (forall a, at_most n (f a)) -> at_most (S n) (bind (call c) f).
Proof. intros Hf. exact (at_most_bind 1 n _ _ (at_most_call 0 c) Hf). Qed.
Lemma at_most_for_range n {X T R} (l : list X) (s : T) (body : X -> T -> prog (flow T R)) :
  (forall x s, at_most n (body x s)) -> at_most (n * length l) (for_range l s body).
Proof.
  intros Hb. revert s. induction l as [|x l IH]; intros s; cbn [for_range length]; [apply at_most_ret|].
  rewrite Nat.mul_succ_r, Nat.add_comm. apply at_most_bind; [done|].
  intros [s'|r]; [apply IH|apply at_most_ret].
Qed.
End AtMost.

(** Walks the program; a call uses up one of the calls allowed. *)
Ltac at_most_tac :=
  repeat (cbv zeta; first
    [ apply at_most_ret
    | match goal with
      | |- at_most (S ?n) (bind (call ?c) ?k) => refine (at_most_step n c k _); intros ?
      | |- at_most (S ?n) (call ?c) => refine (at_most_call n c)
      | |- at_most _ (match ?x with _ => _ end) => destruct x
      end ]).

Section Bounds.
Context `{P : Platform}.
Import Policy.

Lemma deploy_at_most c policy :
  at_most 2 (if decide (PolicyType (Spec policy) = "ClusterAdmissionPolicy")
             then deployClusterAdmissionPolicy c policy else deployAdmissionPolicy c policy).
Proof.
  unfold deployClusterAdmissionPolicy, deployAdmissionPolicy. unfold_calls. at_most_tac.
Qed.

Lemma isPolicyActive_at_most c policy : at_most 1 (isPolicyActive c policy).
Proof. unfold isPolicyActive. unfold_calls. at_most_tac. Qed.

Lemma deployPolicy_at_most c policy cluster : at_most 5 (deployPolicy c policy cluster).
Proof.
  unfold deployPolicy. unfold_calls. at_most_tac.
  refine (at_most_bind 2 2 _ _ (deploy_at_most c policy) _). intros [e|]; [apply at_most_ret|].
  refine (at_most_bind 1 1 _ _ (isPolicyActive_at_most c policy) _). intros [e|active]; at_most_tac.
Qed.

Lemma reconcileCluster_at_most policy cluster vars : at_most 7 (reconcileCluster policy cluster vars).
Proof.
  unfold reconcileCluster. destruct vars as [deployed ok]. unfold_calls. at_most_tac.
  refine (at_most_bind 5 1 _ _ (deployPolicy_at_most _ policy cluster) _). intros [s [e|]]; at_most_tac.
Qed.

Lemma deletePolicy_at_most c policy : at_most 1 (deletePolicy c policy).
Proof. unfold deletePolicy. unfold_calls. destruct (decide _); at_most_tac. Qed.

Lemma deleteFromCluster_at_most policy cluster u : at_most 3 (deleteFromCluster policy cluster u).
Proof.
  unfold deleteFromCluster. unfold_calls. at_most_tac.
  refine (at_most_bind 1 1 _ _ (deletePolicy_at_most _ policy) _). intros [e|]; at_most_tac.
Qed.

Lemma getMatchingClusters_at_most policy : at_most 1 (getMatchingClusters policy).
Proof. unfold getMatchingClusters. unfold_calls. at_most_tac. Qed.

Lemma getMatchingClusters_trace policy t g :
  runs (getMatchingClusters policy) t g ->
  match g with
  | inr cs => exists sel, t = [@Ev GoSignature (AListClusters Management (Namespace policy) (Some sel)) (inr cs)]
  | inl _ => length t <= 1 /\ omap answered_clusters t = []
  end.
Proof.
  unfold getMatchingClusters. unfold_calls. destruct (LabelSelectorAsSelector _) as [e|sel].
  - intros [-> ->]%runs_ret. simpl. auto with lia.
  - intros H. run_inv; simpl; [auto with lia|by exists sel].
Qed.

(** Listing the clusters, then at most [m] calls per cluster and [k] more; one
    call when they could not be listed. *)
Lemma listed_at_most m k policy (rest : error + list Cluster -> prog (Result * option error)) t r :
  (forall e, at_most 1 (rest (inl e))) -> (forall cs, at_most (m * length cs + k) (rest (inr cs))) ->
  runs (bind (getMatchingClusters policy) rest) t r ->
  length t <= match head t ≫= answered_clusters with
              | Some cs => m * length cs + (k + 1)
              | None => 2
              end.
Proof.
  intros He Hr (t1 & g & t2 & -> & Hg%getMatchingClusters_trace & H)%runs_bind. destruct g as [e|cs].
  - apply He in H. destruct Hg as [Hl Hn]. rewrite length_app.
    destruct t1 as [|e1 [|]]; simpl in *; [|destruct (answered_clusters e1); [done|]; lia|lia].
    destruct t2 as [|e2 t2]; simpl in *; [lia|]. destruct (answered_clusters e2); lia.
  - destruct Hg as (sel & ->). apply Hr in H. simpl. lia.
Qed.

Lemma reconcileNormal_at_most policy t r :
  runs (reconcileNormal policy) t r ->
  length t <= match head t ≫= answered_clusters with Some cs => 7 * length cs + 2 | None => 2 end.
Proof.
  apply (listed_at_most 7 1).
  - intros e. unfold_calls. at_most_tac.
  - intros cs. case_decide; [unfold_calls; rewrite Nat.add_1_r; at_most_tac|].
    refine (at_most_bind (7 * length cs) 1 _ _ (at_most_for_range 7 _ _ _ (reconcileCluster_at_most _)) _).
    intros [[deployed ready]|[]]. unfold_calls. at_most_tac.
Qed.

Lemma reconcileDelete_at_most policy t r :
  runs (reconcileDelete policy) t r ->
  length t <= match head t ≫= answered_clusters with Some cs => 3 * length cs + 1 | None => 2 end.
Proof.
  apply (listed_at_most 3 0).
  - intros e. unfold_calls. at_most_tac.
  - intros cs.
    refine (at_most_bind (3 * length cs) 0 _ _ (at_most_for_range 3 _ _ _ (deleteFromCluster_at_most _)) _).
    intros o. at_most_tac.
Qed.

(** The policy that a run read is being deleted. *)
Definition read_deleted (e : event) : bool :=
  match e with Ev (AGet _ _ KPolicy) (inr policy) => being_deleted policy | _ => false end.

(** C29: a reconcile makes a bounded number of calls.  The first call reads the
    policy and the second lists its clusters; with [n] clusters listed a
    reconcile makes at most [7 n + 3] calls in all, or [3 n + 2] when the policy
    is being deleted, and at most three when no clusters were listed, whatever
    the answers: every loop ends, nothing is retried within a run. *)
Theorem policy_calls_bounded req t r :
  runs (Reconcile req) t r ->
  length t <= match t !! 1 ≫= answered_clusters with
              | Some cs => if default false (read_deleted <$> head t) then 3 * length cs + 2 else 7 * length cs + 3
              | None => 3
              end.
Proof.
  unfold Reconcile, Get. intros (t1 & g & t2 & -> & Hg & H)%runs_bind.
  pose proof (proj1 (@runs_call GoSignature (AGet _ _ _) _ _) Hg) as ->. simpl.
  destruct g as [e|policy].
  { destruct (IsNotFound e); apply runs_ret in H as [-> _]; simpl; lia. }
  unfold being_deleted. destruct (negb _);
    [apply reconcileDelete_at_most in H|apply reconcileNormal_at_most in H];
    rewrite <- head_lookup; destruct (head t2 ≫= answered_clusters); lia.
Qed.
End Bounds.
