(* ===== verification/PolicyRefinement.v ===== *)
(** * PolicyRefinement: the reconciler against the workload clusters' API servers

    The class [ApiServer] states what the program relies on from the API
    servers of the workload clusters: an abstract state, the admission policies
    stored in each of them by kind and key, and how the answers to the calls
    read and change it.  Against that interface the reconciler of
    KubewardenPolicy refines an abstract one: a run that reports Ready has
    brought every selected cluster to the policy's specification, and a run
    changes nothing else. *)
From S2P Require Import Prelude GoProg GoError ApiTypes Platform Traces Helpers.
From S2P Require Import Toy AddonController PolicyController PolicyFacts PolicySpec.
Open Scope go_scope.

(** Where a policy is stored: [true] for a ClusterAdmissionPolicy. *)
Notation policy_id := (bool * NamespacedName)%type.

Section Interface.
Context `{P : Platform}.

(** The stored policy that a write through a workload client addresses. *)
Definition target (a : go_action) : option (remote_client * policy_id) :=
  match a with
  | ACreate (Remote rc) o | AUpdate (Remote rc) o | ADelete (Remote rc) o =>
      match o with
      | OClusterAdmissionPolicy p => Some (rc, (true, ObjectKeyFromObject p))
      | OAdmissionPolicy p => Some (rc, (false, ObjectKeyFromObject p))
      | _ => None
      end
  | _ => None
  end.
(** The specification a write sends. *)
Definition sent (o : object) : option PolicySpec :=
  match o with
  | OClusterAdmissionPolicy p => Some (cap_Spec p)
  | OAdmissionPolicy p => Some (ap_Spec p)
  | _ => None
  end.

(** What a write answered with [r] leaves of [old] when it sends [new]. *)
Definition wrote (r : option ext_error) {A} (old new result : A) : Prop :=
  match r with None => result = new | Some _ => result = old \/ result = new end.

(** [serves w a r w']: in state [w] the servers may answer [a] with [r] and
    move to [w'].  [stored w rc id] is the specification of the policy [id]
    in the cluster reached by [rc]; [admitted s] is what a server stores when
    it is sent [s] (its own webhooks fill in defaults).  [terminating w rc id]
    says that the policy is marked for deletion and waits for its finalizers.
    A server changes nothing but the policy addressed; a write answered with an
    error may have been applied or not; an accepted deletion removes the policy
    or, while it has finalizers, marks it.  Handles are identified with the
    servers they reach. *)
Class ApiServer (W : Type) := {
  remote_eq :: EqDecision remote_client;
  serves : W -> forall a : go_action, go_result a -> W -> Prop;
  stored : W -> remote_client -> policy_id -> option PolicySpec;
  admitted : PolicySpec -> PolicySpec;
  terminating : W -> remote_client -> policy_id -> Prop;
  serves_frame : forall w a r w', serves w a r w' ->
    forall rc id, target a <> Some (rc, id) -> stored w' rc id = stored w rc id;
  serves_terminating : forall w a r w', serves w a r w' ->
    forall rc id, target a <> Some (rc, id) -> terminating w rc id -> terminating w' rc id;
  serves_get_cap : forall w rc k p w',
    serves w (AGet (Remote rc) k KClusterAdmissionPolicy) (inr p) w' -> ObjectKeyFromObject (cap_ObjectMeta p) = k;
  serves_get_ap : forall w rc k p w',
    serves w (AGet (Remote rc) k KAdmissionPolicy) (inr p) w' -> ObjectKeyFromObject (ap_ObjectMeta p) = k;
  serves_create : forall w rc o id r w',
    serves w (ACreate (Remote rc) o) r w' -> target (ACreate (Remote rc) o) = Some (rc, id) ->
    wrote r (stored w rc id) (admitted <$> sent o) (stored w' rc id);
  serves_update : forall w rc o id r w',
    serves w (AUpdate (Remote rc) o) r w' -> target (AUpdate (Remote rc) o) = Some (rc, id) ->
    wrote r (stored w rc id) (admitted <$> sent o) (stored w' rc id);
  serves_delete : forall w rc o id (r : option ext_error) w',
    serves w (ADelete (Remote rc) o) r w' -> target (ADelete (Remote rc) o) = Some (rc, id) ->
    match r with
    | None => stored w' rc id = None \/ (stored w' rc id = stored w rc id /\ terminating w' rc id)
    | Some e =>
        wrote r (stored w rc id) None (stored w' rc id) /\
        (terminating w rc id -> terminating w' rc id) /\
        (IsNotFound e = true -> stored w rc id = None)
    end;
}.
End Interface.

(** ** Runs of a program against the servers *)

Section Effects.
Context `{P : Platform} {W : Type} `{S : !ApiServer W}.
Import Policy.

(** From [w] to [w'] only the policy [id] changed, on each cluster not at all
    or to [goal]. *)
Definition evolves (id : policy_id) (goal : option PolicySpec) (w w' : W) : Prop :=
  forall rc,
    (forall id', id' <> id -> stored w' rc id' = stored w rc id') /\
    (stored w' rc id = stored w rc id \/ stored w' rc id = goal).

#[export] Instance evolves_preorder id goal : PreOrder (evolves id goal).
Proof.
  split; [by intros w rc; split; [|left]|].
  intros w1 w2 w3 H1 H2 rc. destruct (H1 rc) as [F1 G1], (H2 rc) as [F2 G2]. split.
  - intros id' Hid. by rewrite F2, F1.
  - destruct G2 as [->| ->]; auto.
Qed.

Lemma evolves_goal id goal w w' rc :
  evolves id goal w w' -> stored w rc id = goal -> stored w' rc id = goal.
Proof. intros H Hg. destruct (H rc) as [_ [->| ->]]; done. Qed.

(** Every run of [p] only evolves the servers that way. *)
Definition evolving (id : policy_id) (goal : option PolicySpec) {A} (p : prog A) : Prop :=
  forall w t a w', runs p t a -> steps serves w t w' -> evolves id goal w w'.

Lemma evolving_ret id goal {A} (a : A) : evolving id goal (ret a).
Proof. intros w t b w' [-> ->]%runs_ret ->. reflexivity. Qed.

Lemma evolving_bind id goal {A B} (p : prog A) (f : A -> prog B) :
  evolving id goal p -> (forall a, evolving id goal (f a)) -> evolving id goal (bind p f).
Proof.
  intros Hp Hf w t b w' (t1 & a & t2 & -> & H1 & H2)%runs_bind (w1 & S1 & S2)%steps_app.
  transitivity w1; [by eapply Hp|by eapply Hf].
Qed.

Lemma evolving_for_range id goal {X T R} (l : list X) (s : T) (body : X -> T -> prog (flow T R)) :
  (forall x s, evolving id goal (body x s)) -> evolving id goal (for_range l s body).
Proof.
  intros Hb. revert s. induction l as [|x l IH]; intros s; cbn [for_range]; [apply evolving_ret|].
  apply evolving_bind; [done|]. intros [s'|r]; [apply IH|apply evolving_ret].
Qed.

Lemma steps_one w (a : go_action) r w' : steps serves w [@Ev GoSignature a r] w' <-> serves w a r w'.
Proof. simpl. split; [by intros (w1 & H & ->)|eauto]. Qed.

(** A call that addresses no stored policy. *)
Lemma evolving_call id goal (a : go_action) :
  target a = None -> evolving id goal (@call GoSignature a).
Proof.
  intros Ha w t r w' ->%(@runs_call GoSignature a) Hs%steps_one rc.
  assert (forall id', stored w' rc id' = stored w rc id') as H
    by (intros id'; apply (serves_frame _ _ _ _ Hs); congruence).
  split; [by intros|by left].
Qed.
End Effects.

Create HintDb evolving.
#[export] Hint Resolve evolving_ret : evolving.
Ltac evolving_tac :=
  repeat (cbv zeta; first
    [ solve [auto with evolving nocore]
    | match goal with
      | |- evolving ?id ?goal (call ?a) => refine (evolving_call id goal a _); reflexivity
      | |- evolving _ _ (match ?x with _ => _ end) => destruct x
      | |- evolving _ _ (for_range _ _ _) => apply evolving_for_range; intros ? ?
      | |- evolving _ _ (bind _ _) => apply evolving_bind; [|intros ?]
      end ]).

(** ** Deployment *)

Section Deployment.
Context `{P : Platform} {W : Type} `{S : !ApiServer W}.
Import Policy.

Definition policy_id_of (policy : KubewardenPolicy) : policy_id :=
  (isClusterPolicy policy, policy_key policy).
(** What the policy asks a cluster to store. *)
Definition desired (policy : KubewardenPolicy) : PolicySpec := admitted (buildPolicySpec policy).

(** One write of the deployment, answered with [r]. *)
Lemma write_evolves w rc (a : go_action) (r : option ext_error) w' id goal :
  target a = Some (rc, id) ->
  (forall rc' id', target a <> Some (rc', id') -> stored w' rc' id' = stored w rc' id') ->
  wrote r (stored w rc id) goal (stored w' rc id) ->
  evolves id goal w w' /\ (r = None -> stored w' rc id = goal).
Proof.
  unfold wrote. intros Ht Hf Hr. split; [|by intros ->]. intros rc'. split.
  - intros id' Hid. apply Hf. rewrite Ht. congruence.
  - destruct (decide (rc' = rc)) as [->|Hne]; [destruct r; auto|].
    left. apply Hf. rewrite Ht. congruence.
Qed.

Lemma read_evolves w (a : go_action) r w' id goal :
  serves w a r w' -> target a = None -> evolves id goal w w'.
Proof.
  intros Hs Ha rc. pose proof (serves_frame _ _ _ _ Hs rc) as H. rewrite Ha in H.
  split; [by intros; apply H|left; by apply H].
Qed.

Definition effect (policy : KubewardenPolicy) (rc : remote_client) (p : prog (option error)) : Prop :=
  forall w t r w', runs p t r -> steps serves w t w' ->
    evolves (policy_id_of policy) (Some (desired policy)) w w' /\
    (r = None -> stored w' rc (policy_id_of policy) = Some (desired policy)).

(** A read and then one write of the policy's specification. *)
Lemma write_effect policy rc w w1 w' a b a' (r : option ext_error) o :
  serves w a b w1 -> target a = None ->
  (forall rc' id', target a' <> Some (rc', id') -> stored w' rc' id' = stored w1 rc' id') ->
  target a' = Some (rc, policy_id_of policy) -> sent o = Some (buildPolicySpec policy) ->
  wrote r (stored w1 rc (policy_id_of policy)) (admitted <$> sent o) (stored w' rc (policy_id_of policy)) ->
  evolves (policy_id_of policy) (Some (desired policy)) w w' /\
  (Foreign <$> r = None -> stored w' rc (policy_id_of policy) = Some (desired policy)).
Proof.
  intros H1 Ha Hf Ht Ho Hr. rewrite Ho in Hr.
  destruct (write_evolves _ _ _ _ _ _ (Some (desired policy)) Ht Hf Hr) as [He Hd].
  split; [by etransitivity; [eapply read_evolves|]|]. destruct r; [done|auto].
Qed.

(** Applies [write_effect] to the read [S1] and the write [S2]; what is left
    is that the write addresses the policy. *)
Ltac write_case policy rc S1 S2 law :=
  match type of S2 with
  | serves _ ?act _ _ =>
      assert (target act = Some (rc, policy_id_of policy)) as Ht;
      [unfold policy_id_of; simpl
      |eapply write_effect; [exact S1|done|exact (serves_frame _ _ _ _ S2)|exact Ht| |
         eapply law; [exact S2|exact Ht]]; done]
  end.

Lemma deployClusterAdmissionPolicy_effect policy rc :
  isClusterPolicy policy = true -> effect policy rc (deployClusterAdmissionPolicy (Remote rc) policy).
Proof.
  intros Hc w t r w' H Hs. unfold deployClusterAdmissionPolicy in H.
  rewrite (policy_key_cap _ Hc) in H. unfold_calls_in H. run_inv; simpl in Hs.
  - destruct Hs as (w1 & S1 & w2 & S2 & ->). write_case policy rc S1 S2 serves_create.
    by rewrite Hc, <- (policy_key_cap _ Hc).
  - destruct Hs as (w1 & S1 & ->). split; [by eapply read_evolves|done].
  - destruct Hs as (w1 & S1 & w2 & S2 & ->). pose proof (serves_get_cap _ _ _ _ _ S1) as Hk.
    write_case policy rc S1 S2 serves_update. by rewrite Hc, <- Hk.
Qed.

Lemma deployAdmissionPolicy_effect policy rc :
  isClusterPolicy policy = false -> effect policy rc (deployAdmissionPolicy (Remote rc) policy).
Proof.
  intros Hc w t r w' H Hs. unfold deployAdmissionPolicy in H.
  rewrite (policy_key_ap _ Hc) in H. unfold_calls_in H. run_inv; simpl in Hs.
  - destruct Hs as (w1 & S1 & w2 & S2 & ->). write_case policy rc S1 S2 serves_create.
    by rewrite Hc, <- (policy_key_ap _ Hc).
  - destruct Hs as (w1 & S1 & ->). split; [by eapply read_evolves|done].
  - destruct Hs as (w1 & S1 & w2 & S2 & ->). pose proof (serves_get_ap _ _ _ _ _ S1) as Hk.
    write_case policy rc S1 S2 serves_update. by rewrite Hc, <- Hk.
Qed.

(** The choice [deployPolicy] makes between the two. *)
Lemma deploy_effect policy rc :
  effect policy rc (if decide (PolicyType (Spec policy) = "ClusterAdmissionPolicy")
                    then deployClusterAdmissionPolicy (Remote rc) policy
                    else deployAdmissionPolicy (Remote rc) policy).
Proof.
  pose proof (isClusterPolicy_spec policy) as Hc.
  destruct (decide _); [by apply deployClusterAdmissionPolicy_effect|by apply deployAdmissionPolicy_effect].
Qed.

Lemma isPolicyActive_evolving policy c id goal : evolving id goal (isPolicyActive c policy).
Proof. unfold isPolicyActive. unfold_calls. evolving_tac. Qed.

Lemma deployPolicy_effect policy rc cluster w t s err w' :
  runs (deployPolicy (Remote rc) policy cluster) t (s, err) -> steps serves w t w' ->
  evolves (policy_id_of policy) (Some (desired policy)) w w' /\
  (err = None -> stored w' rc (policy_id_of policy) = Some (desired policy)).
Proof.
  unfold deployPolicy, Now. intros (t1 & now & t2 & -> & ->%(@runs_call GoSignature ANow) & H)%runs_bind.
  intros (w1 & S1%steps_one & S2)%steps_app.
  apply read_evolves with (id := policy_id_of policy) (goal := Some (desired policy)) in S1; [|done].
  apply runs_bind in H as (t3 & e & t4 & -> & H3 & H4). apply steps_app in S2 as (w2 & S3 & S4).
  destruct (deploy_effect policy rc _ _ _ _ H3 S3) as [He Hd].
  assert (evolves (policy_id_of policy) (Some (desired policy)) w2 w') as He'.
  { revert H4 S4. apply (fun p => p : evolving _ _ _). unfold LogError. pose proof isPolicyActive_evolving.
    evolving_tac. }
  split; [by etransitivity; [|etransitivity]|]. intros ->.
  apply (evolves_goal _ _ _ _ _ He'). apply Hd. destruct e as [e|]; [by apply runs_ret in H4 as [_ ?]|done].
Qed.
End Deployment.

(** ** The whole reconcile *)

Section Reconcile.
Context `{P : Platform} {W : Type} `{S : !ApiServer W}.
Import Policy.

(** The policy is stored as desired in the cluster, through the client that
    the run obtained for it. *)
Definition in_place (policy : KubewardenPolicy) (t : list event) (w : W) (cluster : Cluster) : Prop :=
  exists rc, connected t cluster rc /\ stored w rc (policy_id_of policy) = Some (desired policy).

Lemma reconcileCluster_effect policy cluster vars w t deployed ok w' :
  runs (reconcileCluster policy cluster vars) t (Next (deployed, ok)) -> steps serves w t w' ->
  evolves (policy_id_of policy) (Some (desired policy)) w w' /\
  (ok = true -> vars.2 = true /\ in_place policy t w' cluster).
Proof.
  destruct vars as [d0 ok0]. unfold reconcileCluster, in_place, connected.
  destruct (clusterNotReady cluster); [by intros [-> [= -> ->]]%runs_ret ->|].
  destruct (HasAnnotation _ _); cbn [negb]; [|by intros [-> [= -> ->]]%runs_ret ->].
  unfold RemoteClientGetter. intros (t1 & r & t2 & -> & Hr & H)%runs_bind (w1 & S1 & S2)%steps_app.
  pose proof (proj1 (@runs_call GoSignature (ARemoteClient _ _) _ _) Hr) as ->.
  apply steps_one in S1.
  apply read_evolves with (id := policy_id_of policy) (goal := Some (desired policy)) in S1; [|done].
  destruct r as [e|rc].
  - unfold_calls_in H. run_inv. simpl in S2. destruct S2 as (w2 & S2 & ->). split; [|done].
    etransitivity; [exact S1|]. by eapply read_evolves.
  - apply runs_bind in H as (t3 & [s err] & t4 & -> & H3 & H4). apply steps_app in S2 as (w2 & S3 & S4).
    destruct (deployPolicy_effect _ _ _ _ _ _ _ _ H3 S3) as [He Hd].
    destruct err as [err|]; unfold_calls_in H4; run_inv; simpl in S4.
    + destruct S4 as (w3 & S4 & ->). split; [|done].
      etransitivity; [exact S1|]. etransitivity; [exact He|]. by eapply read_evolves.
    + subst. split; [by etransitivity|]. intros ->. split; [done|]. exists rc. split; [in_tac|by apply Hd].
Qed.

Lemma loop_effect policy clusters vars w t deployed ok w' :
  runs (for_range clusters vars (reconcileCluster policy)) t (Next (deployed, ok)) ->
  steps serves w t w' ->
  evolves (policy_id_of policy) (Some (desired policy)) w w' /\
  (ok = true -> vars.2 = true /\ Forall (in_place policy t w') clusters).
Proof.
  revert vars w t. induction clusters as [|c cs IH]; intros vars w t; cbn [for_range].
  - intros [-> [= <-]]%runs_ret ->. split; [reflexivity|]. intros ->. by split.
  - intros (t1 & [[d1 ok1]|[]] & t2 & -> & H1 & H2)%runs_bind (w1 & S1 & S2)%steps_app.
    destruct (reconcileCluster_effect _ _ _ _ _ _ _ _ H1 S1) as [He1 Hd1].
    destruct (IH _ _ _ H2 S2) as [He2 Hd2]. split; [by etransitivity|].
    intros Hok. destruct (Hd2 Hok) as [Hok1 Hall]. destruct (Hd1 Hok1) as [Hv (rc & Hc & Hs)].
    split; [done|]. unfold in_place, connected in *. constructor.
    + exists rc. split; [in_tac|]. by eapply evolves_goal.
    + eapply Forall_impl; [exact Hall|]. intros c' (rc' & Hc' & Hs'). exists rc'. split; [in_tac|done].
Qed.

Lemma getMatchingClusters_evolving policy id goal : evolving id goal (getMatchingClusters policy).
Proof. unfold getMatchingClusters. unfold_calls. evolving_tac. Qed.

(** The part of a reconcile after its clusters were listed. *)
Lemma reconcileNormal_inv policy t r :
  runs (reconcileNormal policy) t r ->
  exists t1 t2, t = t1 ++ t2 /\
    ((exists err, runs (getMatchingClusters policy) t1 (inl err) /\
        t2 = [@Ev GoSignature (ALogError (Some err) "Failed to get matching clusters") tt]) \/
     (exists clusters, runs (getMatchingClusters policy) t1 (inr clusters) /\
        exists t3 deployed ready (a : option ext_error),
          runs (for_range clusters ([], true) (reconcileCluster (SetMatchingClusters policy clusters)))
            t3 (Next (deployed, ready)) /\
          exists policy', t2 = t3 ++ [@Ev GoSignature (AStatusUpdate Management (OPolicy policy')) a] /\
            (Ready (Status policy') = true -> ready = true))).
Proof.
  intros H. unfold reconcileNormal in H. apply runs_bind in H as (t1 & g & t2 & -> & Hg & H).
  exists t1, t2. split; [done|]. destruct g as [err|cs].
  - left. exists err. split; [done|]. unfold LogError in H. run_inv. by destruct a.
  - right. exists cs. split; [done|]. case_decide as Hl.
    + apply nil_length_inv in Hl as ->. unfold_calls_in H.
      exists [], [], true. run_inv; eexists; (split; [done|]); eexists; split; done.
    + apply runs_bind in H as (t3 & [[deployed ready]|[]] & t4 & -> & H1 & H2).
      exists t3, deployed, ready. unfold_calls_in H2.
      run_inv; eexists; (split; [done|]); eexists; split; done.
Qed.

Lemma reconcileNormal_refines policy w t r w' :
  runs (reconcileNormal policy) t r -> steps serves w t w' ->
  evolves (policy_id_of policy) (Some (desired policy)) w w' /\
  forall t' policy' a clusters,
    t = t' ++ [@Ev GoSignature (AStatusUpdate Management (OPolicy policy')) a] ->
    Ready (Status policy') = true ->
    head t ≫= answered_clusters = Some clusters ->
    Forall (in_place policy t w') clusters.
Proof.
  intros (t1 & t2 & -> & [(err & Hg & ->)|(cs & Hg & t3 & d & ok & a & Hl & p' & -> & Hok)])%reconcileNormal_inv
    (w1 & S1 & S2)%steps_app;
    pose proof (getMatchingClusters_evolving _ (policy_id_of policy) (Some (desired policy)) _ _ _ _ Hg S1) as He1.
  - apply steps_one in S2. split; [by etransitivity; [|eapply read_evolves]|].
    intros t' p' a cs [_ E]%app_inj_tail. by apply (f_equal ev_action) in E.
  - apply steps_app in S2 as (w2 & S2 & S3%steps_one).
    apply read_evolves with (id := policy_id_of policy) (goal := Some (desired policy)) in S3; [|done].
    destruct (loop_effect _ _ _ _ _ _ _ _ Hl S2) as [He2 Hd].
    split; [by etransitivity; [|etransitivity]|].
    intros t' p0 b clusters Et Hready Hh. rewrite app_assoc in Et.
    apply app_inj_tail in Et as [_ E]. apply (f_equal ev_action) in E. injection E as ->.
    destruct (getMatchingClusters_head _ _ _ _ _ Hh Hg) as [[= ->]|[_ [e ?]]]; [|done].
    eapply Forall_impl; [exact (proj2 (Hd (Hok Hready)))|]. intros c (rc & Hc & Hst).
    exists rc. unfold connected in *. split; [in_tac|]. by eapply evolves_goal.
Qed.

(** C3: the reconciler refines its specification on the workload clusters.
    Against any API servers that keep their contract, a run changes nothing
    but the policy it is for, on each cluster either not at all or to the
    specification the policy asks for (as the server admits it); and when the
    status it writes says Ready, every selected cluster stores that
    specification at the end of the run. *)
Theorem policy_reconcile_refines policy w t r w' :
  runs (reconcileNormal policy) t r -> steps serves w t w' ->
  evolves (policy_id_of policy) (Some (desired policy)) w w' /\
  forall t' policy' a clusters,
    t = t' ++ [@Ev GoSignature (AStatusUpdate Management (OPolicy policy')) a] ->
    Ready (Status policy') = true ->
    head t ≫= answered_clusters = Some clusters ->
    Forall (in_place policy t w') clusters.
Proof. apply reconcileNormal_refines. Qed.

(** Any number of complete reconciles of the policy, one after the other. *)
Inductive rounds (policy : KubewardenPolicy) : W -> W -> Prop :=
| rounds_none w : rounds policy w w
| rounds_more w t r w1 w2 :
    runs (reconcileNormal policy) t r -> steps serves w t w1 -> rounds policy w1 w2 -> rounds policy w w2.

(** C14: repeated reconciles converge.  Once a cluster stores the specification
    the policy asks for, any number of further reconciles of that policy,
    whatever their outcome, changes nothing that the cluster stores. *)
Theorem policy_reconcile_converges policy w w' rc :
  rounds policy w w' ->
  stored w rc (policy_id_of policy) = Some (desired policy) ->
  forall id, stored w' rc id = stored w rc id.
Proof.
  induction 1 as [w|w t r w1 w2 H1 H2 _ IH]; intros Hd id; [done|].
  destruct (reconcileNormal_refines _ _ _ _ _ H1 H2) as [He _].
  rewrite IH by (by eapply evolves_goal). destruct (He rc) as [Ho Hs].
  destruct (decide (id = policy_id_of policy)) as [->|Hne]; [|by apply Ho].
  destruct Hs as [->| ->]; done.
Qed.
End Reconcile.

(** ** Deletion *)

Section Deletion.
Context `{P : Platform} {W : Type} `{S : !ApiServer W}.
Import Policy.

(** The policy is absent, or marked for deletion. *)
Definition removed (w : W) (rc : remote_client) (id : policy_id) : Prop :=
  stored w rc id = None \/ terminating w rc id.

(** Nothing changes but the policy [id], on each cluster not at all or to its
    absence, and once removed it stays so. *)
Definition dissolves (id : policy_id) (w w' : W) : Prop :=
  evolves id None w w' /\ forall rc, removed w rc id -> removed w' rc id.

#[export] Instance dissolves_preorder id : PreOrder (dissolves id).
Proof.
  split; [by intros w; split|]. intros w1 w2 w3 [E1 R1] [E2 R2]. split; [by etransitivity|auto].
Qed.

Lemma read_dissolves w (a : go_action) r w' id : serves w a r w' -> target a = None -> dissolves id w w'.
Proof.
  intros Hs Ha. split; [by eapply read_evolves|]. intros rc [H|H]; [left|right].
  - rewrite <- H. apply (serves_frame _ _ _ _ Hs). congruence.
  - apply (serves_terminating _ _ _ _ Hs); [congruence|done].
Qed.

(** The policy is removed from the cluster, or the run could not reach the
    cluster, or its server refused the deletion. *)
Definition gone (policy : KubewardenPolicy) (t : list event) (w : W) (cluster : Cluster) : Prop :=
  (exists e, @Ev GoSignature (ARemoteClient (Name cluster) (ObjectKeyFromObject cluster)) (inl e) ∈ t) \/
  exists rc, connected t cluster rc /\
    (removed w rc (policy_id_of policy) \/
     exists o e, @Ev GoSignature (ADelete (Remote rc) o) (Some e) ∈ t /\ IsNotFound e = false).

Lemma gone_mono policy t t' w w' cluster :
  t ⊆ t' -> dissolves (policy_id_of policy) w w' -> gone policy t w cluster -> gone policy t' w' cluster.
Proof.
  unfold gone, connected. intros Ht He [(e & H)|(rc & Hc & H)]; [left; eauto|right; exists rc].
  split; [auto|]. destruct H as [H|(o & e & H & Hn)]; [left; by apply He|right; eauto].
Qed.

Lemma delete_dissolves w rc o (r : option ext_error) w' id :
  serves w (ADelete (Remote rc) o) r w' -> target (ADelete (Remote rc) o) = Some (rc, id) ->
  dissolves id w w' /\ (removed w' rc id \/ exists e, r = Some e /\ IsNotFound e = false).
Proof.
  intros Hs Ht. pose proof (serves_delete _ _ _ _ _ _ Hs Ht) as Hd.
  assert (stored w' rc id = stored w rc id \/ stored w' rc id = None) as Hst.
  { destruct r as [e|]; [exact (proj1 Hd)|]. destruct Hd as [Hd|[Hd _]]; auto. }
  split; [split|].
  - intros rc'. split; [intros id' Hid; apply (serves_frame _ _ _ _ Hs); rewrite Ht; congruence|].
    destruct (decide (rc' = rc)) as [->|Hne]; [done|].
    left. apply (serves_frame _ _ _ _ Hs). rewrite Ht. congruence.
  - intros rc' Hr. destruct (decide (rc' = rc)) as [->|Hne].
    + destruct r as [e|]; [|destruct Hd as [?|[_ ?]]; [by left|by right]].
      destruct Hr as [Hr|Hr]; [left; destruct Hst; congruence|right; by apply Hd].
    + destruct Hr as [Hr|Hr]; [left; rewrite <- Hr; apply (serves_frame _ _ _ _ Hs)
        |right; apply (serves_terminating _ _ _ _ Hs); [|done]]; rewrite Ht; congruence.
  - destruct r as [e|]; [|left; destruct Hd as [?|[_ ?]]; [by left|by right]].
    destruct (IsNotFound e) eqn:He; [|right; by exists e].
    left. left. destruct Hd as (_ & _ & Hn). destruct Hst as [->| ->]; auto.
Qed.

Lemma deletePolicy_effect policy rc w t r w' :
  runs (deletePolicy (Remote rc) policy) t r -> steps serves w t w' ->
  dissolves (policy_id_of policy) w w' /\
  (removed w' rc (policy_id_of policy) \/
   exists o e, @Ev GoSignature (ADelete (Remote rc) o) (Some e) ∈ t /\ IsNotFound e = false).
Proof.
  unfold deletePolicy. pose proof (isClusterPolicy_spec policy) as Hc.
  set (o := if decide _ then _ else _).
  assert (target (ADelete (Remote rc) o) = Some (rc, policy_id_of policy)) as Ht.
  { unfold o, policy_id_of, policy_key. rewrite <- Hc. by destruct (decide _). }
  clearbody o. unfold Delete. intros (t1 & a & t2 & -> & Ha & H)%runs_bind.
  pose proof (proj1 (@runs_call GoSignature (ADelete _ _) _ _) Ha) as ->. intros (w1 & S1%steps_one & S2)%steps_app.
  assert (t2 = []) as -> by (run_inv; done). simpl in S2. subst w1.
  destruct (delete_dissolves _ _ _ _ _ _ S1 Ht) as [Hd [Hr|(e & -> & Hn)]]; (split; [done|]); [by left|right].
  exists o, e. split; [in_tac|done].
Qed.

Lemma deleteFromCluster_effect policy cluster u w t o w' :
  runs (deleteFromCluster policy cluster u) t o -> steps serves w t w' ->
  dissolves (policy_id_of policy) w w' /\ gone policy t w' cluster.
Proof.
  unfold deleteFromCluster, gone, connected, RemoteClientGetter.
  intros (t1 & r & t2 & -> & Hr & H)%runs_bind (w1 & S1 & S2)%steps_app.
  pose proof (proj1 (@runs_call GoSignature (ARemoteClient _ _) _ _) Hr) as ->.
  apply steps_one in S1. apply read_dissolves with (id := policy_id_of policy) in S1; [|done].
  destruct r as [e|rc].
  - unfold_calls_in H. run_inv. simpl in S2. destruct S2 as (w2 & S2 & ->).
    split; [by etransitivity; [|eapply read_dissolves]|]. left. exists e. in_tac.
  - apply runs_bind in H as (t3 & err & t4 & -> & H3 & H4). apply steps_app in S2 as (w2 & S3 & S4).
    destruct (deletePolicy_effect _ _ _ _ _ _ H3 S3) as [He Hd].
    assert (dissolves (policy_id_of policy) w2 w') as He2.
    { unfold_calls_in H4. destruct err; run_inv; simpl in S4; [|by subst].
      destruct S4 as (w3 & S4 & ->). by eapply read_dissolves. }
    split; [by etransitivity; [|etransitivity]|]. right. exists rc. split; [in_tac|].
    destruct Hd as [Hd|(o' & e & Hin & Hn)]; [left; by apply He2|right].
    exists o', e. split; [in_tac|done].
Qed.

Lemma delete_loop_effect policy clusters u w t s w' :
  runs (for_range clusters u (deleteFromCluster policy)) t (Next s) -> steps serves w t w' ->
  dissolves (policy_id_of policy) w w' /\ Forall (gone policy t w') clusters.
Proof.
  revert u w t. induction clusters as [|c cs IH]; intros u w t; cbn [for_range].
  - intros [-> _]%runs_ret ->. by split.
  - intros (t1 & [u1|[]] & t2 & -> & H1 & H2)%runs_bind (w1 & S1 & S2)%steps_app.
    destruct (deleteFromCluster_effect _ _ _ _ _ _ _ H1 S1) as [He1 Hd1].
    destruct (IH _ _ _ H2 S2) as [He2 Hd2]. split; [by etransitivity|]. constructor.
    + eapply gone_mono; [|exact He2|exact Hd1]. in_tac.
    + eapply Forall_impl; [exact Hd2|]. intros c'. apply gone_mono; [in_tac|reflexivity].
Qed.

(** C13: deletion refines its specification on the workload clusters.  Against
    any API servers that keep their contract, the deletion of a policy
    changes nothing but that policy, on each cluster not at all or to its
    absence; and at the end of the run it is absent from every listed cluster,
    or marked for deletion there while its finalizers are pending, but for the
    clusters that could not be reached or that refused the deletion. *)
Theorem policy_delete_refines policy w t r w' clusters :
  runs (reconcileDelete policy) t r -> steps serves w t w' ->
  head t ≫= answered_clusters = Some clusters ->
  evolves (policy_id_of policy) None w w' /\ Forall (gone policy t w') clusters.
Proof.
  intros H Hs Hh. unfold reconcileDelete in H. apply runs_bind in H as (t1 & g & t2 & -> & Hg & H).
  apply steps_app in Hs as (w1 & S1 & S2).
  pose proof (getMatchingClusters_evolving _ (policy_id_of policy) None _ _ _ _ Hg S1) as He1.
  destruct (getMatchingClusters_head _ _ _ _ _ Hh Hg) as [->|[-> [e ->]]];
    [|unfold LogError in H; by run_inv; cbn in Hh].
  apply runs_bind in H as (t3 & [s|[]] & t4 & -> & H3 & [-> _]%runs_ret). rewrite app_nil_r in *.
  destruct (delete_loop_effect _ _ _ _ _ _ _ H3 S2) as [[He2 _] Hd]. split; [by etransitivity|].
  eapply Forall_impl; [exact Hd|]. intros c. apply gone_mono; [in_tac|reflexivity].
Qed.
End Deletion.
