(* ===== verification/Startup.v ===== *)
(** * Startup: cmd/main.go, groupversion_info.go and the SetupWithManager methods

    How the process is put together: the schemes registered before [main]
    runs, the flags and the options made from them, the manager, the two
    controllers with their watches, the webhooks and the health checks, in the
    order of the code, ending with the start of the manager or the exit of the
    process.  The environment is controller-runtime and the flag package: its
    calls are the actions of a signature of its own.  What is registered are
    the definitions of the other files: the reconcilers' [Reconcile], their map
    functions and the webhook methods. *)
From S2P Require Import Prelude GoProg GoError ApiTypes Platform Helpers Webhooks.
From S2P Require Import AddonController PolicyController.
Open Scope go_scope.

(** ** groupversion_info.go and the [init] functions of api/v1alpha1 *)

Record GroupVersionInfo := { gv_Group : string; gv_Version : string }.
(** A [scheme.Builder]: the group and version it was made for, and the objects
    given to each call of its [Register]. *)
Record Builder := { builder_GroupVersion : GroupVersionInfo; builder_registered : list (list string) }.

Definition GroupVersion : GroupVersionInfo :=
  {| gv_Group := "addon.cluster.x-k8s.io"; gv_Version := "v1alpha1" |}.
Definition NewSchemeBuilder : Builder :=
  {| builder_GroupVersion := GroupVersion; builder_registered := [] |}.
Definition Register (b : Builder) (types : list string) : Builder :=
  {| builder_GroupVersion := builder_GroupVersion b; builder_registered := builder_registered b ++ [types] |}.

(** kubewardenaddon_types.go *)
Definition init_addon (b : Builder) : Builder := Register b ["KubewardenAddon"; "KubewardenAddonList"].
(** kubewardenpolicy_types.go *)
Definition init_policy (b : Builder) : Builder := Register b ["KubewardenPolicy"; "KubewardenPolicyList"].
(** The builder when [main] starts. *)
Definition SchemeBuilder : Builder := init_policy (init_addon NewSchemeBuilder).

(** ** The [+kubebuilder:webhook] markers

    From these comments controller-gen makes the webhook configuration that is
    deployed with the program: which objects the API server sends to which path
    of the webhook server. *)
Record Marker := {
  marker_path : string;
  marker_mutating : bool;
  marker_groups : string;
  marker_resources : string;
  marker_versions : string;
}.
(** kubewardenaddon_webhook.go *)
Definition addon_mutate : Marker :=
  {| marker_path := "/mutate-addons-cluster-x-k8s-io-v1alpha1-kubewardenaddon"; marker_mutating := true;
     marker_groups := "addons.cluster.x-k8s.io"; marker_resources := "kubewardenaddons"; marker_versions := "v1alpha1" |}.
Definition addon_validate : Marker :=
  {| marker_path := "/validate-addons-cluster-x-k8s-io-v1alpha1-kubewardenaddon"; marker_mutating := false;
     marker_groups := "addons.cluster.x-k8s.io"; marker_resources := "kubewardenaddons"; marker_versions := "v1alpha1" |}.
(** kubewardenpolicy_webhook.go *)
Definition policy_mutate : Marker :=
  {| marker_path := "/mutate-addon-cluster-x-k8s-io-v1alpha1-kubewardenpolicy"; marker_mutating := true;
     marker_groups := "addon.cluster.x-k8s.io"; marker_resources := "kubewardenpolicies"; marker_versions := "v1alpha1" |}.
Definition policy_validate : Marker :=
  {| marker_path := "/validate-addon-cluster-x-k8s-io-v1alpha1-kubewardenpolicy"; marker_mutating := false;
     marker_groups := "addon.cluster.x-k8s.io"; marker_resources := "kubewardenpolicies"; marker_versions := "v1alpha1" |}.

(** The webhooks are configured for the resources of the registered group and
    version: those of policies are, those of addons are not. *)
Definition configured (m : Marker) : Prop :=
  marker_groups m = gv_Group GroupVersion /\ marker_versions m = gv_Version GroupVersion.

Lemma addon_marker_group :
  configured policy_mutate /\ configured policy_validate /\ ~ configured addon_mutate /\ ~ configured addon_validate.
Proof. split_and!; try done; by intros [? _]. Qed.

(** The packages whose types go into the scheme. *)
Inductive AddToScheme :=
| clientgoscheme_AddToScheme
| clusterv1_AddToScheme
| addonv1alpha1_AddToScheme (b : Builder)
| policiesv1_AddToScheme
| apiextensionsv1_AddToScheme.

(** ** controller-runtime and the flag package *)

(** The parameters of a flag of the command line: its name and default. *)
Inductive Flag :=
| StringVar (name default : string)
| BoolVar (name : string) (default : bool).

(** What the command line sets, by flag name. *)
Record Arguments_ := { string_args : gmap string string; bool_args : gmap string bool }.

(** [*tls.Config], the field the program writes. *)
Record TLSConfig := { NextProtos : list string }.
Definition TLSOpt := TLSConfig -> TLSConfig.

Inductive Filter := WithAuthenticationAndAuthorization.
Record MetricsOptions := {
  BindAddress : string;
  SecureServing : bool;
  metrics_TLSOpts : list TLSOpt;
  FilterProvider : option Filter;
}.

Class ControllerRuntime := {
  webhook_server : Type;
  rest_config : Type;
  manager : Type;
  manager_client : Type;
  manager_scheme : Type;
  manager_cache : Type;
  context : Type;
  controller : Type;
  ClusterClientGetter : Type;
  NewClusterClient : ClusterClientGetter;
  GetClient : manager -> manager_client;
  GetScheme : manager -> manager_scheme;
  GetCache : manager -> manager_cache;
}.

Section Startup.
Context `{P : Platform} `{CR : ControllerRuntime}.

Record ManagerOptions := {
  opt_Scheme : list AddToScheme;
  Metrics : MetricsOptions;
  WebhookServer : webhook_server;
  HealthProbeBindAddress : string;
  LeaderElection : bool;
  LeaderElectionID : string;
}.

(** The fields of [KubewardenAddonReconciler] and of [KubewardenPolicyReconciler]. *)
Record ReconcilerFields := {
  rec_Client : manager_client;
  rec_Scheme : manager_scheme;
  rec_RemoteClientGetter : option ClusterClientGetter;
}.

(** The kinds the program hands to [For] and to the watch. *)
Inductive WatchedKind := WKubewardenAddon | WKubewardenPolicy | WCluster.

Notation go_prog := (@prog GoSignature).

(** A [reconcile.Reconciler]: the struct and its method. *)
Record Reconciler := {
  rec_fields : ReconcilerFields;
  rec_Reconcile : NamespacedName -> go_prog (Result * option error);
}.

(** An object with the methods of [webhook.Defaulter] and [webhook.Validator]. *)
Record Webhook (T : Type) := {
  hook_Default : T -> T;
  hook_ValidateCreate : T -> Warnings * option error;
  hook_ValidateUpdate : T -> T -> Warnings * option error;
  hook_ValidateDelete : T -> Warnings * option error;
}.
Inductive WebhookFor :=
| ForAddon (w : Webhook Addon.KubewardenAddon)
| ForPolicy (w : Webhook Policy.KubewardenPolicy).

Inductive startup_action :=
| AAddToScheme (a : AddToScheme)
| ABindZapFlags
| AParse (flags : list Flag)
| ASetLogger
| ANewServer (opts : list TLSOpt)
| AGetConfigOrDie
| ANewManager (cfg : rest_config) (o : ManagerOptions)
| ASetupSignalHandler
| ABuild (m : manager) (for_ : WatchedKind) (r : Reconciler)
| AWatch (c : controller) (cache : manager_cache) (k : WatchedKind)
    (mapFunc : object -> go_prog (list NamespacedName))
| AWebhook (m : manager) (w : WebhookFor)
| AAddHealthzCheck (m : manager) (name : string)
| AAddReadyzCheck (m : manager) (name : string)
| AStart (m : manager) (ctx : context)
| ASetupError (err : error) (msg : string) (kv : list string)
| AExit (code : Z).

(** [AParse] and [AGetConfigOrDie] end the process themselves when they fail:
    [None]. *)
Definition startup_result (a : startup_action) : Type :=
  match a with
  | AAddToScheme _ => option ext_error
  | ABindZapFlags | ASetLogger | ASetupError _ _ _ | AExit _ => unit
  | AParse _ => option Arguments_
  | ANewServer _ => webhook_server
  | AGetConfigOrDie => option rest_config
  | ANewManager _ _ => ext_error + manager
  | ASetupSignalHandler => context
  | ABuild _ _ _ => ext_error + controller
  | AWatch _ _ _ _ | AWebhook _ _ | AAddHealthzCheck _ _ | AAddReadyzCheck _ _
  | AStart _ _ => option ext_error
  end%type.

Instance StartupSignature : Signature := {| action := startup_action; result := startup_result |}.

(** ** The SetupWithManager methods *)

Definition set_RemoteClientGetter (r : ReconcilerFields) : ReconcilerFields :=
  match rec_RemoteClientGetter r with
  | None => {| rec_Client := rec_Client r; rec_Scheme := rec_Scheme r;
               rec_RemoteClientGetter := Some NewClusterClient |}
  | Some _ => r
  end.

Definition KubewardenAddonReconciler_SetupWithManager (r : ReconcilerFields) (mgr : manager)
    : prog (option error) :=
  let r := set_RemoteClientGetter r in
  c <- call (ABuild mgr WKubewardenAddon
               {| rec_fields := r; rec_Reconcile := AddonController.Reconcile |}) orelse err =>
    ret (Some (Wrap "creating new controller" (Foreign err))) ;;
  check call (AWatch c (GetCache mgr) WCluster AddonController.clusterToKubewardenAddon) orelse err =>
    ret (Some (Wrap "adding watch for cluster upgrade group" (Foreign err))) ;;
  ret None.

Definition KubewardenPolicyReconciler_SetupWithManager (r : ReconcilerFields) (mgr : manager)
    : prog (option error) :=
  let r := set_RemoteClientGetter r in
  c <- call (ABuild mgr WKubewardenPolicy
               {| rec_fields := r; rec_Reconcile := PolicyController.Reconcile |}) orelse err =>
    ret (Some (Wrap "creating new controller" (Foreign err))) ;;
  check call (AWatch c (GetCache mgr) WCluster PolicyController.clusterToKubewardenPolicy) orelse err =>
    ret (Some (Wrap "adding watch for clusters" (Foreign err))) ;;
  ret None.

(** ** The SetupWebhookWithManager methods *)

Definition KubewardenAddon_hooks : Webhook Addon.KubewardenAddon :=
  {| hook_Default := AddonWebhook.Default;
     hook_ValidateCreate := AddonWebhook.ValidateCreate;
     hook_ValidateUpdate := AddonWebhook.ValidateUpdate;
     hook_ValidateDelete := AddonWebhook.ValidateDelete |}.
Definition KubewardenPolicy_hooks : Webhook Policy.KubewardenPolicy :=
  {| hook_Default := PolicyWebhook.Default;
     hook_ValidateCreate := PolicyWebhook.ValidateCreate;
     hook_ValidateUpdate := PolicyWebhook.ValidateUpdate;
     hook_ValidateDelete := PolicyWebhook.ValidateDelete |}.

Definition KubewardenAddon_SetupWebhookWithManager (mgr : manager) : prog (option error) :=
  check call (AWebhook mgr (ForAddon KubewardenAddon_hooks)) orelse err => ret (Some (Foreign err)) ;;
  ret None.
Definition KubewardenPolicy_SetupWebhookWithManager (mgr : manager) : prog (option error) :=
  check call (AWebhook mgr (ForPolicy KubewardenPolicy_hooks)) orelse err => ret (Some (Foreign err)) ;;
  ret None.

(** ** cmd/main.go *)

(** How the process ends: [main] returned, [os.Exit] was called, [init]
    panicked, or a library call ended the process. *)
Inductive outcome :=
| Finished
| Exited (code : Z)
| Panicked (err : ext_error)
| Died.

(** The packages that [init] adds, in order. *)
Definition schemes : list AddToScheme :=
  [clientgoscheme_AddToScheme; clusterv1_AddToScheme; addonv1alpha1_AddToScheme SchemeBuilder;
   policiesv1_AddToScheme; apiextensionsv1_AddToScheme].

(** [utilruntime.Must] panics on an error. *)
Definition init : prog (flow (list AddToScheme) ext_error) :=
  for_range schemes [] (fun add scheme =>
    check call (AAddToScheme add) orelse err => ret (Return err) ;;
    ret (Next (scheme ++ [add]))).

Definition flags : list Flag :=
  [StringVar "metrics-bind-address" "0";
   StringVar "health-probe-bind-address" ":8081";
   BoolVar "leader-elect" false;
   BoolVar "metrics-secure" true;
   BoolVar "enable-http2" false].

(** The value of a flag's variable after [flag.Parse]. *)
Definition string_flag (args : Arguments_) (name : string) : string :=
  default (foldr (fun f d => match f with
                             | StringVar n v => if decide (n = name) then v else d
                             | BoolVar _ _ => d
                             end) "" flags) (string_args args !! name).
Definition bool_flag (args : Arguments_) (name : string) : bool :=
  default (foldr (fun f d => match f with
                             | BoolVar n v => if decide (n = name) then v else d
                             | StringVar _ _ => d
                             end) false flags) (bool_args args !! name).

Definition disableHTTP2 (c : TLSConfig) : TLSConfig := {| NextProtos := ["http/1.1"] |}.

Definition tlsOpts (args : Arguments_) : list TLSOpt :=
  if negb (bool_flag args "enable-http2") then [disableHTTP2] else [].

Definition metricsServerOptions (args : Arguments_) : MetricsOptions :=
  let secureMetrics := bool_flag args "metrics-secure" in
  {| BindAddress := string_flag args "metrics-bind-address";
     SecureServing := secureMetrics;
     metrics_TLSOpts := tlsOpts args;
     FilterProvider := if secureMetrics then Some WithAuthenticationAndAuthorization else None |}.

(** [setupLog.Error(err, msg, kv...); os.Exit(1)] *)
Definition fail (err : error) (msg : string) (kv : list string) : prog outcome :=
  _ <- call (ASetupError err msg kv) ;;
  _ <- call (AExit 1) ;;
  ret (Exited 1).

(** From the manager on. *)
Definition setup (mgr : manager) : prog outcome :=
  ctx <- call ASetupSignalHandler ;;
  check KubewardenAddonReconciler_SetupWithManager
      {| rec_Client := GetClient mgr; rec_Scheme := GetScheme mgr; rec_RemoteClientGetter := None |} mgr
    orelse err => fail err "unable to create controller" ["controller"; "KubewardenAddon"] ;;
  check KubewardenPolicyReconciler_SetupWithManager
      {| rec_Client := GetClient mgr; rec_Scheme := GetScheme mgr; rec_RemoteClientGetter := None |} mgr
    orelse err => fail err "unable to create controller" ["controller"; "KubewardenPolicy"] ;;
  check KubewardenAddon_SetupWebhookWithManager mgr
    orelse err => fail err "unable to create webhook" ["webhook"; "KubewardenAddon"] ;;
  check KubewardenPolicy_SetupWebhookWithManager mgr
    orelse err => fail err "unable to create webhook" ["webhook"; "KubewardenPolicy"] ;;
  check call (AAddHealthzCheck mgr "healthz")
    orelse err => fail (Foreign err) "unable to set up health check" [] ;;
  check call (AAddReadyzCheck mgr "readyz")
    orelse err => fail (Foreign err) "unable to set up ready check" [] ;;
  check call (AStart mgr ctx)
    orelse err => fail (Foreign err) "problem running manager" [] ;;
  ret Finished.

Definition main (scheme : list AddToScheme) : prog outcome :=
  _ <- call ABindZapFlags ;;
  parsed <- call (AParse flags) ;;
  match parsed with
  | None => ret Died
  | Some args =>
      _ <- call ASetLogger ;;
      webhookServer <- call (ANewServer (tlsOpts args)) ;;
      config <- call AGetConfigOrDie ;;
      match config with
      | None => ret Died
      | Some cfg =>
          mgr <- call (ANewManager cfg
                   {| opt_Scheme := scheme;
                      Metrics := metricsServerOptions args;
                      WebhookServer := webhookServer;
                      HealthProbeBindAddress := string_flag args "health-probe-bind-address";
                      LeaderElection := bool_flag args "leader-elect";
                      LeaderElectionID := "1cda3667.cluster.x-k8s.io" |})
            orelse err => fail (Foreign err) "unable to start manager" [] ;;
          setup mgr
      end
  end.

(** The process: Go runs the [init] functions, then [main]. *)
Definition program : prog outcome :=
  r <- init ;;
  match r with
  | Return err => ret (Panicked err)
  | Next scheme => main scheme
  end.

(** ** Theorems *)

(** The calls between the start of the process and that of the manager. *)
Definition init_trace : list event :=
  map (fun add => Ev (AAddToScheme add) None) schemes.

Definition options_of (args : Arguments_) (server : webhook_server) : ManagerOptions :=
  {| opt_Scheme := schemes;
     Metrics := metricsServerOptions args;
     WebhookServer := server;
     HealthProbeBindAddress := default ":8081" (string_args args !! "health-probe-bind-address");
     LeaderElection := default false (bool_args args !! "leader-elect");
     LeaderElectionID := "1cda3667.cluster.x-k8s.io" |}.

(** Both reconcilers get the manager's client and scheme and the workload
    cluster clients of Cluster API. *)
Definition fields_of (mgr : manager) : ReconcilerFields :=
  {| rec_Client := GetClient mgr; rec_Scheme := GetScheme mgr;
     rec_RemoteClientGetter := Some NewClusterClient |}.

Definition main_trace args server cfg mgr ctx c1 c2 : list event :=
  [Ev ABindZapFlags tt;
   Ev (AParse flags) (Some args);
   Ev ASetLogger tt;
   Ev (ANewServer (tlsOpts args)) server;
   Ev AGetConfigOrDie (Some cfg);
   Ev (ANewManager cfg (options_of args server)) (inr mgr);
   Ev ASetupSignalHandler ctx;
   Ev (ABuild mgr WKubewardenAddon
         {| rec_fields := fields_of mgr; rec_Reconcile := AddonController.Reconcile |}) (inr c1);
   Ev (AWatch c1 (GetCache mgr) WCluster AddonController.clusterToKubewardenAddon) None;
   Ev (ABuild mgr WKubewardenPolicy
         {| rec_fields := fields_of mgr; rec_Reconcile := PolicyController.Reconcile |}) (inr c2);
   Ev (AWatch c2 (GetCache mgr) WCluster PolicyController.clusterToKubewardenPolicy) None;
   Ev (AWebhook mgr (ForAddon KubewardenAddon_hooks)) None;
   Ev (AWebhook mgr (ForPolicy KubewardenPolicy_hooks)) None;
   Ev (AAddHealthzCheck mgr "healthz") None;
   Ev (AAddReadyzCheck mgr "readyz") None].

(** The answers decide how the program goes on; each is looked at in turn. *)
Ltac unfold_startup H :=
  unfold program, init, main, setup, fail, KubewardenAddonReconciler_SetupWithManager,
    KubewardenPolicyReconciler_SetupWithManager, KubewardenAddon_SetupWebhookWithManager,
    KubewardenPolicy_SetupWebhookWithManager, call in H; simpl in H.
Ltac answer :=
  match goal with
  | H : context [match ?r with _ => _ end] |- _ => is_var r; destruct r; simpl in H
  | H : _ /\ _ |- _ => destruct H; simplify_eq
  | H : _ \/ _ |- _ => destruct H as [[? ?]|(? & ? & -> & H)]; simpl in *; simplify_eq
  | H : exists _ _, _ = _ :: _ /\ _ |- _ => destruct H as (? & ? & -> & H); simpl in H
  | H : False |- _ => destruct H
  end.

(** C19: the process starts the manager only when everything before succeeded:
    the five packages of types were added to the scheme, the flags were parsed,
    the manager was made with the options the flags ask for, both controllers
    were built with their reconcilers (the manager's client, Cluster API's
    workload cluster clients) and watch the clusters through their map
    functions, both webhooks were registered with their defaulting and
    validation, and both health checks were added, in this order; and with
    those answers it does start it. *)
Theorem started_after_setup t mgr ctx :
  issues program t (AStart mgr ctx) <->
  exists args server cfg c1 c2, t = init_trace ++ main_trace args server cfg mgr ctx c1 c2.
Proof.
  split.
  - intros H. unfold_startup H. repeat answer.
    repeat match goal with u : unit |- _ => destruct u end. by repeat eexists.
  - intros (args & server & cfg & c1 & c2 & ->).
    repeat (right; eexists _, _; split; [reflexivity|]; simpl). by left.
Qed.





(** The TLS options of a server: none when HTTP/2 is enabled, else some, each of
    which leaves HTTP/1.1 as the only protocol. *)
Definition http_follows (args : Arguments_) (opts : list TLSOpt) : Prop :=
  if decide (bool_args args !! "enable-http2" = Some true) then opts = []
  else opts <> [] /\ forall op c, op ∈ opts -> NextProtos (op c) = ["http/1.1"].

Lemma http_follows_tlsOpts args : http_follows args (tlsOpts args).
Proof.
  unfold http_follows, tlsOpts, bool_flag. simpl.
  assert (forall op c, op ∈ [disableHTTP2] -> NextProtos (op c) = ["http/1.1"])
    by (by intros op c ->%list_elem_of_singleton).
  destruct (bool_args args !! "enable-http2") as [[]|]; simpl; by rewrite ?decide_True, ?decide_False.
Qed.

(** C23: what the flags decide.  Every TLS option of the webhook and metrics
    servers leaves HTTP/1.1 as the only protocol, and there is one, unless the
    command line enables HTTP/2; then there is none.  Both servers get the same
    options.  Metrics are served securely, with authentication and
    authorization of the callers, unless the command line asks for insecure
    metrics, and not at all unless it names an address; there is no leader
    election unless asked for; and the manager knows all five packages of
    types. *)
Theorem servers_follow_flags t :
  (forall opts, issues program t (ANewServer opts) ->
    exists args, Ev (AParse flags) (Some args) ∈ t /\ http_follows args opts) /\
  (forall cfg o, issues program t (ANewManager cfg o) ->
    exists args, Ev (AParse flags) (Some args) ∈ t /\
      http_follows args (metrics_TLSOpts (Metrics o)) /\
      Ev (ANewServer (metrics_TLSOpts (Metrics o))) (WebhookServer o) ∈ t /\
      (SecureServing (Metrics o) = false <-> bool_args args !! "metrics-secure" = Some false) /\
      (FilterProvider (Metrics o) = None <-> SecureServing (Metrics o) = false) /\
      BindAddress (Metrics o) = default "0" (string_args args !! "metrics-bind-address") /\
      (LeaderElection o = true <-> bool_args args !! "leader-elect" = Some true) /\
      opt_Scheme o = schemes).
Proof.
  pose proof http_follows_tlsOpts as Hhttp. split.
  - intros opts H. unfold_startup H. repeat answer. exists a. split; [set_solver|done].
  - intros cfg o H. unfold_startup H. repeat answer. exists a. simpl.
    split_and!; [set_solver|done|set_solver| | |done| |done].
    + unfold bool_flag. simpl. destruct (bool_args a !! "metrics-secure") as [[]|]; naive_solver.
    + by destruct (bool_flag a "metrics-secure").
    + unfold bool_flag. simpl. destruct (bool_args a !! "leader-elect") as [[]|]; naive_solver.
Qed.
End Startup.
