(* ===== verification/EndToEnd.v ===== *)
(** * EndToEnd: from an addon to a deployed policy

    The two reconcilers and the event mapping composed, in one world that keeps
    both servers' contracts: an addon's reconcile installs Kubewarden on a
    cluster and annotates it, the event of that cluster enqueues the policies
    that select it, and the reconcile of such a policy, once the cache has
    caught up with the annotation, stores it in the cluster. *)
From S2P Require Import Prelude GoProg GoError ApiTypes Platform Traces Helpers.
From S2P Require Import AddonController AddonFacts AddonSpec AddonOutcome AddonLiveness AddonConvergence.
From S2P Require Import PolicyController PolicyFacts PolicySpec PolicyRefinement.
Open Scope go_scope.

(** ** The world *)

(** Both contracts speak about the same answers. *)
Definition happens `{P : Platform} {W : Type} `{!ApiServer W, !ManagementServer W}
    (w : W) (a : go_action) (r : go_result a) (w' : W) : Prop :=
  serves w a r w' /\ answers w a r w'.

(** The cache that the manager's client reads from: the clusters and policies
    it holds, which follow those of the server with a delay.  A policy is read
    from it, and a list is complete for what it holds in the namespace. *)
Class World `{P : Platform} (W : Type) := {
  world_policies :: ApiServer W;
  world_clusters :: ManagementServer W;
  cached : W -> gmap NamespacedName Cluster;
  cached_policies : W -> NamespacedName -> option Policy.KubewardenPolicy;
  get_policy : forall w k (r : ext_error + Policy.KubewardenPolicy) w',
    happens w (AGet Management k KPolicy) r w' ->
    match r with
    | inr p => cached_policies w k = Some p
    | inl e => IsNotFound e = true -> cached_policies w k = None
    end;
  list_policies : forall w ns l w',
    happens w (AListPolicies Management ns) (inr l) w' ->
    forall k (p : Policy.KubewardenPolicy), cached_policies w k = Some p -> nn_Namespace k = ns ->
      p ∈ Policy.Items l /\ ObjectKeyFromObject p = k;
  list_clusters : forall w ns (sel : option Selector) cs w',
    happens w (AListClusters Management ns sel) (inr cs) w' ->
    forall k (c : Cluster), cached w !! k = Some c -> nn_Namespace k = ns ->
      match sel with None => True | Some sel => Matches sel (Labels c) = true end ->
      c ∈ cs /\ ObjectKeyFromObject c = k;
}.

Definition selected_by `{P : Platform} (s : LabelSelector) (c : Cluster) : Prop :=
  exists sel, LabelSelectorAsSelector s = inr sel /\ Matches sel (Labels c) = true.

(** ** A policy's reconcile on any workload servers *)

Section Served.
Context `{P : Platform} {W : Type} `{S : !ApiServer W}.

(** No answer is an error, but that a policy read does not exist. *)
Definition served_event (e : event) : bool :=
  ok_event e || match e with Ev (AGet _ _ _) (inl err) => IsNotFound err | _ => false end.
Definition served (t : list event) : Prop := Forall (fun e => served_event e = true) t.

Lemma served_app t1 t2 : served (t1 ++ t2) <-> served t1 /\ served t2.
Proof. apply Forall_app. Qed.

(** Refutes the failing answers. *)
Ltac served_inv :=
  repeat match goal with
  | H : served (_ ++ _) |- _ => apply served_app in H as [? ?]
  | H : served (_ :: _) |- _ => apply Forall_cons_1 in H as [? ?]
  | H : served_event _ = true |- _ => cbn in H; try discriminate; clear H
  end.

Lemma deploy_served policy rc t r :
  runs (if decide (Policy.PolicyType (Policy.Spec policy) = "ClusterAdmissionPolicy")
        then deployClusterAdmissionPolicy (Remote rc) policy
        else deployAdmissionPolicy (Remote rc) policy) t r ->
  served t -> r = None.
Proof.
  unfold deployClusterAdmissionPolicy, deployAdmissionPolicy. unfold_calls. intros H Ht.
  destruct (decide _); run_inv.
  all: try (destruct a; [|done]).
  all: exfalso; unfold served in Ht; simpl in Ht; rewrite !Forall_cons in Ht.
  all: unfold served_event in Ht; cbn in Ht; naive_solver congruence.
Qed.

(** A served deployment leaves the policy stored, also when its status cannot
    be read yet. *)
Lemma deployPolicy_served policy rc cluster w t s w' :
  runs (deployPolicy (Remote rc) policy cluster) t s -> steps serves w t w' -> served t ->
  stored w' rc (policy_id_of policy) = Some (desired policy).
Proof.
  unfold deployPolicy, Now. intros (t1 & now & t2 & -> & _ & H)%runs_bind (w1 & _ & S2)%steps_app
    [_ Ht]%served_app.
  apply runs_bind in H as (t3 & e & t4 & -> & H3 & H4). apply steps_app in S2 as (w2 & S3 & S4).
  apply served_app in Ht as [Ht3 Ht4]. pose proof (deploy_served _ _ _ _ H3 Ht3) as ->.
  destruct (deploy_effect policy rc _ _ _ _ H3 S3) as [_ Hd].
  apply (evolves_goal (policy_id_of policy) _ w2); [|by apply Hd].
  revert H4 S4. apply (fun p => p : evolving _ _ _). unfold LogError. pose proof isPolicyActive_evolving.
  evolving_tac.
Qed.

Lemma reconcileCluster_served policy cluster vars w t o w' :
  runs (reconcileCluster policy cluster vars) t o -> steps serves w t w' -> served t ->
  eligible cluster = true -> in_place policy t w' cluster.
Proof.
  destruct vars as [d ok]. unfold eligible, reconcileCluster, RemoteClientGetter.
  intros H Hs Ht [Hr Hi]%andb_true_iff. apply negb_true_iff in Hr. rewrite Hr, Hi in H. cbn [negb] in H.
  apply runs_bind in H as (t1 & r & t2 & -> & Hc & H). apply steps_app in Hs as (w1 & _ & S2).
  pose proof (proj1 (@runs_call GoSignature (ARemoteClient _ _) _ _) Hc) as ->.
  apply served_app in Ht as [Ht1 Ht2]. destruct r as [e|rc].
  { apply Forall_cons_1 in Ht1 as [Ht1 _]. done. }
  apply runs_bind in H as (t3 & s & t4 & -> & H3 & H4). apply steps_app in S2 as (w2 & S3 & S4).
  apply served_app in Ht2 as [Ht3 _]. pose proof (deployPolicy_served _ _ _ _ _ _ _ H3 S3 Ht3) as Hst.
  exists rc. split; [unfold connected; in_tac|].
  apply (evolves_goal (policy_id_of policy) _ w2); [|done].
  revert H4 S4. apply (fun p => p : evolving _ _ _). unfold LogError. evolving_tac.
Qed.

Lemma loop_served policy clusters vars w t o w' (c : Cluster) :
  runs (for_range clusters vars (reconcileCluster policy)) t o -> steps serves w t w' -> served t ->
  c ∈ clusters -> eligible c = true -> in_place policy t w' c.
Proof.
  revert vars w t. induction clusters as [|c0 cs IH]; intros vars w t; cbn [for_range]; [by intros _ _ _ ?%elem_of_nil|].
  intros (t1 & [[d ok]|[]] & t2 & -> & H1 & H2)%runs_bind (w1 & S1 & S2)%steps_app [Ht1 Ht2]%served_app Hc He.
  destruct o as [[d2 ok2]|[]]. destruct (loop_effect _ _ _ _ _ _ _ _ H2 S2) as [Hev _].
  unfold in_place, connected in *. apply elem_of_cons in Hc as [->|Hc].
  - destruct (reconcileCluster_served _ _ _ _ _ _ _ H1 S1 Ht1 He) as (rc & Hrc & Hst).
    exists rc. split; [unfold connected in Hrc; in_tac|by eapply evolves_goal].
  - destruct (IH _ _ _ H2 S2 Ht2 Hc He) as (rc & Hrc & Hst). exists rc. split; [in_tac|done].
Qed.

End Served.

(** ** Histories of the world *)

Section World.
Context `{P : Platform} {W : Type} `{Wo : !World W}.

(** The rest of the world removes no installed annotation and leaves the
    policies stored in the workload clusters alone. *)
Record undisturbed : Prop := {
  und_annotated : forall (w w' : W) k, elsewhere w w' -> annotated w k -> annotated w' k;
  und_stored : forall (w w' : W) rc id, elsewhere w w' -> stored w' rc id = stored w rc id;
  und_terminating : forall (w w' : W) rc id, elsewhere w w' -> terminating w rc id -> terminating w' rc id;
}.

(** The workload servers, with the rest of the world moving before a call, keep
    their contract. *)
Definition around (Hu : undisturbed) : ApiServer W.
Proof.
  refine {|
    serves := fun w a r w' => exists w1, elsewhere w w1 /\ serves w1 a r w';
    stored := stored; admitted := admitted; terminating := terminating |}.
  - intros w a r w' (w1 & He & Hs) rc id Ht. rewrite <- (und_stored Hu _ _ rc id He). by eapply serves_frame.
  - intros w a r w' (w1 & He & Hs) rc id Ht Hd. eapply serves_terminating; [done..|]. by eapply und_terminating.
  - intros w rc k p w' (w1 & _ & Hs). by eapply serves_get_cap.
  - intros w rc k p w' (w1 & _ & Hs). by eapply serves_get_ap.
  - intros w rc o id r w' (w1 & He & Hs) Ht. rewrite <- (und_stored Hu _ _ rc id He). by eapply serves_create.
  - intros w rc o id r w' (w1 & He & Hs) Ht. rewrite <- (und_stored Hu _ _ rc id He). by eapply serves_update.
  - intros w rc o id r w' (w1 & He & Hs) Ht. rewrite <- (und_stored Hu _ _ rc id He).
    pose proof (serves_delete _ _ _ _ _ _ Hs Ht) as H. destruct r as [e|]; [|done].
    destruct H as (H1 & H2 & H3). split_and!; [done| |done].
    intros Hd. apply H2. by eapply und_terminating.
Defined.

Lemma history_around (Hu : undisturbed) (w : W) h w' :
  history elsewhere happens w h w' ->
  exists wm, steps (@serves P W (around Hu)) w h.*2 wm /\ elsewhere wm w'.
Proof.
  revert w. induction h as [|[w1 e] h IH]; intros w; simpl; [by exists w|].
  intros (He & w2 & [Hs _] & (wm & Hm & Hw)%IH). exists wm. split; [|done].
  exists w2. split; [by exists w1|done].
Qed.

Lemma history_answers (w : W) h w' :
  history elsewhere happens w h w' -> history elsewhere answers w h w'.
Proof. apply history_impl; [done|]. intros w1 a r w2 [_ H]. exact H. Qed.

(** A call that writes no cluster leaves the annotations alone. *)
Lemma frame_annotated (w : W) (a : go_action) r w' k :
  happens w a r w' -> written_cluster a = None -> annotated w k -> annotated w' k.
Proof. intros [_ Ha] Hn. unfold annotated. by rewrite (answers_frame _ _ _ _ Ha Hn). Qed.

(** ** The addon *)

Lemma selected_in s cs (c : Cluster) selected :
  selectClusters cs s = inr selected -> (c ∈ selected <-> c ∈ cs /\ selected_by s c).
Proof.
  unfold selected_by. destruct (LabelSelectorAsSelector s) as [e|sel] eqn:E.
  { unfold selectClusters. by rewrite E. }
  rewrite (selectClusters_ok _ _ _ E). intros [= <-]. rewrite !list_elem_of_In, filter_In. naive_solver.
Qed.

Definition read_addon (e : event) : option Addon.KubewardenAddon :=
  match e with Ev (AGet _ _ KAddon) (inr addon) => Some addon | _ => None end.

(** A reconcile without failing answers, to which the selected clusters are
    shown ready and not annotated, installs all of them. *)
Lemma addon_trace req (addon : Addon.KubewardenAddon) cs t r (c : Cluster) :
  runs (AddonController.Reconcile req) t r -> all_ok t ->
  head t ≫= read_addon = Some addon -> t !! 1 ≫= answered_clusters = Some cs ->
  (forall c', c' ∈ cs -> selected_by (Addon.ClusterSelector (Addon.Spec addon)) c' ->
     controlPlaneNotReady c' = false /\ installed c' = false) ->
  c ∈ cs -> selected_by (Addon.ClusterSelector (Addon.Spec addon)) c ->
  Time_IsZero (DeletionTimestamp addon) = true ->
  r = (Result_zero, None) /\ ObjectKeyFromObject c ∈ marked_in t /\
  exists rc, connected t c rc /\ kubewarden_installed t addon (Remote rc).
Proof.
  intros H Hok Hg Hl Hall Hc Hsel Hd.
  assert (r = (Result_zero, None)) as Hr.
  { clear Hc. unfold AddonController.Reconcile, Get in H.
    apply runs_bind in H as (t1 & g & t2 & -> & ->%(@runs_call GoSignature (AGet _ _ _)) & H).
    destruct g as [e|a]; [done|]. simpl in Hg. injection Hg as ->. rewrite Hd in H. cbn [negb] in H.
    apply all_ok_app in Hok as [_ Hok]. simpl in Hl. rewrite <- head_lookup in Hl.
    destruct Hsel as (sel & Es & _).
    edestruct (reconcileNormal_installs addon t2 r cs) as (Hr & _); [done..|by apply selectClusters_ok| |exact Hr].
    intros c' [Hc' Hm]%list_elem_of_In%filter_In.
    apply Hall; [by apply list_elem_of_In|by exists sel]. }
  destruct (Reconcile_outcome _ _ _ H) as [| | | | |a cs' worked stop rest t1 t2 r _ Es Hw Hstop|a cs' sel t st _ Es (ts & -> & Hts)];
    try done; simpl in Hg, Hl; simplify_eq.
  - pose proof (proj1 (selected_in _ _ stop _ Es) ltac:(set_solver)) as [Hi Hs].
    destruct (Hall stop Hi Hs) as [Hready Hfresh]. unfold stopped_at in Hstop. unfold installed in Hfresh.
    rewrite Hready, Hfresh in Hstop. by destruct Hstop as (_ & _ & ? & ? & _ & ?).
  - pose proof (proj2 (selected_in _ _ c _ Es) (conj Hc Hsel)) as (i & Hi)%list_elem_of_lookup.
    destruct (Forall2_lookup_l _ _ _ _ _ Hts Hi) as (u & Hu & [[[_ _ (rc & Hrc & Hinst)] Hp] _]).
    assert (forall e, e ∈ u -> e ∈ concat ts) as Hsub.
    { intros e He. apply list_elem_of_In, in_concat. exists u.
      split; apply list_elem_of_In; [by eapply list_elem_of_lookup_2|done]. }
    split; [done|]. split.
    + apply list_elem_of_omap. exists (@Ev GoSignature (annotation_patch c) None).
      split; [right; right; apply elem_of_app; left; by apply Hsub|]. simpl. by rewrite annotateInstalled_eq.
    + exists rc. split; [right; right; apply elem_of_app; left; by apply Hsub|].
      eapply kubewarden_installed_mono; [|destruct Hinst; constructor; eassumption].
      intros e He. right. right. apply elem_of_app. left. by apply Hsub.
Qed.

(** ** The event *)

Lemma event_enqueues (w w' : W) (c : Cluster) h reqs req (p : Policy.KubewardenPolicy) :
  runs (clusterToKubewardenPolicy (OCluster c)) h.*2 reqs -> history elsewhere happens w h w' -> all_ok h.*2 ->
  (forall w1 e, (w1, e) ∈ h -> cached_policies w1 req = Some p) -> nn_Namespace req = Namespace c ->
  selected_by (Policy.ClusterSelector (Policy.Spec p)) c ->
  req ∈ reqs /\ ObjectKeyFromObject p = req /\
  (forall k, (forall w1 w2, elsewhere w1 w2 -> annotated w1 k -> annotated w2 k) -> annotated w k -> annotated w' k).
Proof.
  intros (a & E & ->)%cluster_event_runs Hh Hok Hp Hns (sel & Hsel & Hm).
  apply (history_split h []) in E as (h1 & w1 & h2 & -> & Eh1%fmap_nil_inv & Eh2%fmap_nil_inv). subst h1 h2.
  destruct Hh as (He & w2 & Hl & He'). cbn [ev_action ev_result] in Hl. pose proof (Hp w1 _ ltac:(left)) as Hpol.
  destruct a as [e|l]; [by destruct Hok as [? _]|].
  destruct (list_policies _ _ _ _ Hl _ _ Hpol Hns) as [Hin Hk].
  split_and!; [|done|].
  - apply list_elem_of_In, in_map_iff. exists p. split; [done|]. apply filter_In.
    split; [by apply list_elem_of_In|]. unfold selects. by rewrite Hsel.
  - intros k Hu Ha. eapply Hu; [exact He'|]. eapply frame_annotated; [exact Hl|done|]. by eapply Hu.
Qed.

(** ** The policy *)

(** Whenever a call of the run is answered, the cache has caught up with the
    cluster [k], and the cluster is ready and selected. *)
Definition caught_up (k : NamespacedName) (s : LabelSelector) (h : list (W * event)) : Prop :=
  forall w1 e, (w1, e) ∈ h -> cached w1 !! k = clusters w1 !! k /\
    forall c : Cluster, clusters w1 !! k = Some c -> clusterNotReady c = false /\ selected_by s c.

Lemma policy_run req (p : Policy.KubewardenPolicy) (w w' : W) h r k :
  undisturbed ->
  runs (PolicyController.Reconcile req) h.*2 r -> history elsewhere happens w h w' -> served h.*2 ->
  (forall w1 e, (w1, e) ∈ h -> cached_policies w1 req = Some p) -> Time_IsZero (DeletionTimestamp p) = true ->
  annotated w k -> nn_Namespace k = Namespace p ->
  caught_up k (Policy.ClusterSelector (Policy.Spec p)) h ->
  r = ({| Requeue := false; RequeueAfter := 5 * Minute |}, None) /\
  exists c : Cluster, ObjectKeyFromObject c = k /\ in_place p h.*2 w' c.
Proof.
  intros Hu H Hh Ht Hp Hdel Ha Hns Hcu.
  unfold PolicyController.Reconcile, Get in H.
  apply runs_bind in H as (t1 & g & t2 & E & ->%(@runs_call GoSignature (AGet _ _ _)) & H).
  apply (history_split h []) in E as (h1 & wg & h2 & -> & Eh1%fmap_nil_inv & Eh2). subst h1. simpl app in *.
  destruct Hh as (Hg1 & w2 & Hg & Hh). cbn [ev_action ev_result] in Hg.
  rewrite fmap_cons in Ht |- *. cbn [snd] in *. apply Forall_cons_1 in Ht as [Ht1 Ht].
  pose proof (Hp wg _ ltac:(left)) as Hpg. apply (und_annotated Hu _ _ _ Hg1) in Ha.
  destruct (Hcu wg _ ltac:(left)) as [_ Hcg]. pose proof Ha as (cg & Ecg & _).
  destruct (Hcg _ Ecg) as [_ (sel & Hsel & _)].
  pose proof (get_policy _ _ _ _ Hg) as Hg'. destruct g as [e|p'].
  { cbn in Ht1, Hg'. rewrite Hg' in Hpg; done. }
  cbn in Hg'. rewrite Hpg in Hg'. injection Hg' as <-. cbn beta iota in H. rewrite Hdel in H. cbn [negb] in H.
  apply (frame_annotated _ _ _ _ _ Hg eq_refl) in Ha.
  unfold PolicyController.reconcileNormal, getMatchingClusters, ListClusters in H. rewrite Hsel in H.
  apply runs_bind in H as (t3 & r3 & t4 & Et2 & H3 & H4).
  apply runs_bind in H3 as (t5 & l & t6 & -> & ->%(@runs_call GoSignature (AListClusters _ _ _)) & H6).
  rewrite Et2 in Eh2. rewrite <- app_assoc in Eh2.
  apply (history_split h2 []) in Eh2 as (h1 & wl & h3 & -> & Eh1%fmap_nil_inv & Eh3). subst h1. simpl app in *.
  destruct Hh as (Hl1 & w4 & Hl & Hh). cbn [ev_action ev_result] in Hl.
  rewrite fmap_cons in Ht |- *. cbn [snd] in *. apply Forall_cons_1 in Ht as [Ht2 Ht].
  apply (und_annotated Hu _ _ _ Hl1) in Ha.
  destruct l as [e|cs]; [done|]. apply runs_ret in H6 as [-> ->]. simpl app in Eh3.
  destruct Ha as (c & Ec & Hi). destruct (Hcu wl _ ltac:(right; left)) as [Hcache Hcl].
  destruct (Hcl _ Ec) as [Hr (sel' & Hsel' & Hm)]. rewrite Hsel in Hsel'. injection Hsel' as <-.
  rewrite <- Hcache in Ec. destruct (list_clusters _ _ _ _ _ Hl _ _ Ec Hns Hm) as [Hin Hkey].
  rewrite decide_False in H4 by (intros E%nil_length_inv; subst; by apply elem_of_nil in Hin).
  destruct (history_around Hu _ _ _ Hh) as (wm & Hs & Hend). rewrite Eh3 in Hs, Ht.
  assert (eligible c = true) as He by (unfold eligible; rewrite Hr; exact Hi).
  apply runs_bind in H4 as (t7 & o & t8 & -> & H7 & H8). apply steps_app in Hs as (w5 & S7 & S8).
  apply Forall_app in Ht as [Ht7 Ht8].
  destruct (@loop_served P W (around Hu) _ _ _ _ _ _ _ c H7 S7 Ht7 Hin He) as (rc & Hrc & Hst).
  destruct o as [[deployed ready]|[]]. unfold StatusUpdate in H8.
  apply runs_bind in H8 as (t9 & a & t10 & -> & ->%(@runs_call GoSignature (AStatusUpdate _ _)) & H10).
  apply Forall_app in Ht8 as [Ht9 _].
  destruct a as [e|]; [by apply Forall_cons_1 in Ht9 as [? _]|]. apply runs_ret in H10 as [-> ->].
  split; [done|]. exists c. split; [done|]. exists rc. split.
  { rewrite Eh3. unfold connected in *. in_tac. }
  rewrite (und_stored Hu _ _ _ _ Hend).
  destruct S8 as (w6 & S8 & ->).
  exact (@evolves_goal P W (around Hu) _ _ _ _ rc (@read_evolves P W (around Hu) _ _ _ _ _ _ S8 eq_refl) Hst).
Qed.

(** ** Together *)

(** C7: from an addon to a deployed policy.  Three runs one after the other,
    with the rest of the world moving before every call, but removing no
    annotation and changing no policy stored in a workload cluster.  An addon
    that is not being deleted is reconciled, no call fails, and the list shows
    every cluster it selects as ready and not annotated; [c] is one of them.
    Then an event of [c], in any later version that a cached policy of its
    namespace selects, is mapped without a failing call.  Then that policy,
    still cached and not being deleted, is reconciled, no call failing but
    reads of what does not exist; by then the cache has caught up with [c],
    which is ready and selected.  Then Kubewarden was installed through a
    client obtained for [c], the policy is among the requests of the event, in
    the end [c]'s workload cluster stores exactly the specification the policy
    asks for, and both reconciles end normally. *)
Theorem addon_to_deployed_policy (w0 w1 w2 w3 : W) areq (addon : Addon.KubewardenAddon) cs (c : Cluster) h1 r1
    (c1 : Cluster) h2 reqs preq (p : Policy.KubewardenPolicy) h3 r3 :
  undisturbed ->
  runs (AddonController.Reconcile areq) h1.*2 r1 -> history elsewhere happens w0 h1 w1 -> all_ok h1.*2 ->
  head h1.*2 ≫= read_addon = Some addon -> Time_IsZero (DeletionTimestamp addon) = true ->
  h1.*2 !! 1 ≫= answered_clusters = Some cs ->
  (forall c', c' ∈ cs -> selected_by (Addon.ClusterSelector (Addon.Spec addon)) c' ->
     controlPlaneNotReady c' = false /\ installed c' = false) ->
  c ∈ cs -> selected_by (Addon.ClusterSelector (Addon.Spec addon)) c ->
  runs (clusterToKubewardenPolicy (OCluster c1)) h2.*2 reqs -> history elsewhere happens w1 h2 w2 -> all_ok h2.*2 ->
  ObjectKeyFromObject c1 = ObjectKeyFromObject c ->
  selected_by (Policy.ClusterSelector (Policy.Spec p)) c1 ->
  nn_Namespace preq = Namespace c -> Time_IsZero (DeletionTimestamp p) = true ->
  (forall w e, (w, e) ∈ h2 ++ h3 -> cached_policies w preq = Some p) ->
  runs (PolicyController.Reconcile preq) h3.*2 r3 -> history elsewhere happens w2 h3 w3 -> served h3.*2 ->
  caught_up (ObjectKeyFromObject c) (Policy.ClusterSelector (Policy.Spec p)) h3 ->
  (exists rc, connected h1.*2 c rc /\ kubewarden_installed h1.*2 addon (Remote rc)) /\
  preq ∈ reqs /\
  (exists c' : Cluster, ObjectKeyFromObject c' = ObjectKeyFromObject c /\ in_place p h3.*2 w3 c') /\
  r1 = (Result_zero, None) /\ r3 = ({| Requeue := false; RequeueAfter := 5 * Minute |}, None).
Proof.
  intros Hu H1 S1 Ok1 Hg Hda Hl Hall Hc Hsel H2 S2 Ok2 Hk1 Hpsel Hns Hdp Hp H3 S3 Ok3 Hcu.
  destruct (addon_trace _ _ _ _ _ _ H1 Ok1 Hg Hl Hall Hc Hsel Hda) as (-> & Hm & Hinst).
  assert (annotated w1 (ObjectKeyFromObject c)) as Ha.
  { eapply marked_annotated; [by intros ? ?; apply (und_annotated Hu)|exact H1|by apply history_answers|done]. }
  destruct (event_enqueues _ _ _ _ _ preq p H2 S2 Ok2) as (Hreq & Hpk & Hkeep); [|by injection Hk1 as -> _|done|].
  { intros w e Hin. apply (Hp w e). apply elem_of_app. by left. }
  apply Hkeep in Ha; [|by intros ? ?; apply (und_annotated Hu)].
  destruct (policy_run preq p w2 w3 h3 r3 (ObjectKeyFromObject c)) as [-> Hin]; try done.
  - intros w e Hin. apply (Hp w e). apply elem_of_app. by right.
  - simpl. rewrite <- Hns, <- Hpk. done.
Qed.
End World.
