(* ===== verification/ToyServer.v ===== *)
(** * ToyServer: the executable environment keeps the API servers' contracts

    The in-memory workload clusters of Toy.v are an instance of the class
    [ApiServer].  With a cache that the reads of the management cluster are
    answered from, and that catches up with the server in moves of its own, the
    environment is an instance of [ManagementServer] and a [World]: the
    contracts are satisfiable, and runs of the executable environments are runs
    against them. *)
From S2P Require Import Prelude GoProg GoError ApiTypes Platform Traces.
From S2P Require Import Toy AddonController AddonConvergence PolicyRefinement EndToEnd.
Open Scope go_scope.

(** Policies are stored under their own keys. *)
Definition toy_wf (w : toy) : Prop :=
  map_Forall (fun rk (p : ClusterAdmissionPolicy) => toy_key p = rk.2) (toy_caps w) /\
  map_Forall (fun rk (p : AdmissionPolicy) => toy_key p = rk.2) (toy_aps w).

Definition toy_serves (fails : go_action -> bool) (w : toy) (a : go_action) (r : go_result a) (w' : toy) : Prop :=
  toy_wf w /\ toy_handler fails a w = (r, w').

Definition toy_stored (w : toy) (rc : NamespacedName) (id : bool * NamespacedName) : option PolicySpec :=
  if id.1 then cap_Spec <$> toy_caps w !! (rc, id.2) else ap_Spec <$> toy_aps w !! (rc, id.2).

Lemma toy_stored_caps w m rc id :
  toy_stored (with_caps w m) rc id = if id.1 then cap_Spec <$> m !! (rc, id.2) else toy_stored w rc id.
Proof. by destruct id as [[] k]. Qed.
Lemma toy_stored_aps w m rc id :
  toy_stored (with_aps w m) rc id = if id.1 then toy_stored w rc id else ap_Spec <$> m !! (rc, id.2).
Proof. by destruct id as [[] k]. Qed.

Ltac toy_cases :=
  repeat match goal with
  | H : toy_handler _ _ _ = _ |- _ => cbn in H
  | H : context [match ?x with _ => _ end] |- _ => destruct x eqn:?
  end; simplify_eq.

(** The policies a write changes are at its target. *)
Lemma toy_frame fails w a r w' :
  toy_handler fails a w = (r, w') ->
  forall rc id, target a <> Some (rc, id) -> toy_stored w' rc id = toy_stored w rc id.
Proof.
  intros H rc id Ht. destruct a; toy_cases; try done;
    cbn [target] in Ht; rewrite ?toy_stored_caps, ?toy_stored_aps; destruct id as [[] k]; cbn; try done;
    rewrite ?lookup_insert_ne, ?lookup_delete_ne by (unfold toy_key in *; congruence); done.
Qed.

Lemma toy_wf_step fails w a r w' : toy_handler fails a w = (r, w') -> toy_wf w -> toy_wf w'.
Proof.
  intros H [Hc Ha]. destruct a; toy_cases; try done; split; cbn; try done;
    first [by apply map_Forall_insert_2 | by apply map_Forall_delete].
Qed.

Lemma toy_steps_wf fails p w (a : Result * option error) t w' :
  toy_wf w -> exec (toy_handler fails) p w = (a, t, w') -> steps (toy_serves fails) w t w'.
Proof.
  intros Hw H. apply exec_steps in H. revert w Hw H. induction t as [|e t IH]; intros w Hw; simpl; [done|].
  intros (w1 & H1 & H2). exists w1. split; [done|]. apply IH; [by eapply toy_wf_step|done].
Qed.

#[export] Instance toy_server (fails : go_action -> bool) : ApiServer toy.
Proof.
  refine {|
    remote_eq := NamespacedName_eq_dec;
    serves := toy_serves fails;
    stored := toy_stored;
    admitted := fun s => s;
    terminating := fun _ _ _ => False;
  |}.
  - intros w a r w' [_ H]. by apply (toy_frame fails _ _ _ _ H).
  - done.
  - intros w rc k p w' [[Hc _] H]. toy_cases.
    match goal with H : found _ = inr _ |- _ => unfold found in H end. toy_cases.
    match goal with H : toy_caps _ !! _ = Some _ |- _ => apply (Hc _ _) in H end. done.
  - intros w rc k p w' [[_ Ha] H]. toy_cases.
    match goal with H : found _ = inr _ |- _ => unfold found in H end. toy_cases.
    match goal with H : toy_aps _ !! _ = Some _ |- _ => apply (Ha _ _) in H end. done.
  - intros w rc o id r w' [_ H] Ht. destruct o; simplify_eq/=; toy_cases; unfold wrote;
      rewrite ?toy_stored_caps, ?toy_stored_aps; cbn; rewrite ?lookup_insert_eq; by try left.
  - intros w rc o id r w' [_ H] Ht. destruct o; simplify_eq/=; toy_cases; unfold wrote;
      rewrite ?toy_stored_caps, ?toy_stored_aps; cbn; rewrite ?lookup_insert_eq; by try left.
  - intros w rc o id r w' [_ H] Ht. destruct o; simplify_eq/=; toy_cases; unfold wrote;
      rewrite ?toy_stored_caps, ?toy_stored_aps; cbn; rewrite ?lookup_delete_eq;
      try (by left); (split_and!; [by left|done|]); try done;
      intros _; cbn; unfold toy_key in *;
      by match goal with H : _ !! _ = None |- _ => rewrite H end.
Defined.

