(* ===== verification/ToyCache.v ===== *)
(** * ToyCache: the executable environment behind a cache that lags

    The state is what the management cluster's server stores, with the workload
    clusters, and what the manager's cache holds.  Reads through the manager's
    client are answered from the cache, everything else by the server; the cache
    catches up in moves of its own.  This is an instance of the contracts
    [ApiServer], [ManagementServer] and [World], in which stale reads happen. *)
From S2P Require Import Prelude GoProg GoError ApiTypes Platform Traces Helpers.
From S2P Require Import Toy AddonController AddonConvergence PolicyRefinement EndToEnd ToyServer.
Open Scope go_scope.

(** ** The stored clusters *)

Definition toy_keys (w : toy) : list NamespacedName :=
  map (fun c : Cluster => ObjectKeyFromObject c) (toy_clusters w).

Definition toy_cluster_map (w : toy) : gmap NamespacedName Cluster :=
  list_to_map (map (fun c : Cluster => (ObjectKeyFromObject c, c)) (toy_clusters w)).

Lemma toy_cluster_lookup w k (c : Cluster) :
  NoDup (toy_keys w) ->
  toy_cluster_map w !! k = Some c <-> c ∈ toy_clusters w /\ k = ObjectKeyFromObject c.
Proof.
  intros Hn. unfold toy_cluster_map. rewrite <- elem_of_list_to_map.
  - rewrite list_elem_of_fmap. split; [by intros (c' & [= -> ->] & Hc)|]. intros [Hc ->]. by exists c.
  - unfold toy_keys in Hn. by rewrite <- list_fmap_compose.
Qed.

Lemma toy_replace_keys w (c : Cluster) :
  toy_keys (with_clusters w (replace Cluster_ObjectMeta c (toy_clusters w))) = toy_keys w.
Proof.
  unfold toy_keys, replace. simpl. rewrite map_map. apply map_ext. intros b.
  case_decide as H; [|done]. by unfold toy_key in H.
Qed.

Lemma toy_replace_map w (c : Cluster) :
  NoDup (toy_keys w) ->
  is_Some (toy_cluster_map w !! ObjectKeyFromObject c) ->
  toy_cluster_map (with_clusters w (replace Cluster_ObjectMeta c (toy_clusters w)))
    = <[ObjectKeyFromObject c := c]> (toy_cluster_map w).
Proof.
  intros Hn [c0 [Hc0 Hk]%toy_cluster_lookup]; [|done]. apply map_eq. intros k.
  apply option_eq. intros c1. rewrite toy_cluster_lookup by (by rewrite toy_replace_keys).
  unfold replace. simpl. rewrite list_elem_of_fmap, lookup_insert_Some, toy_cluster_lookup by done.
  split.
  - intros [(b & -> & Hb) ->]. case_decide as E; [by left|]. right. unfold toy_key in E. done.
  - intros [[<- <-]|[Hne [Hc1 ->]]].
    + split; [|done]. exists c0. by rewrite decide_True by (by unfold toy_key).
    + split; [|done]. exists c1. by rewrite decide_False by (by unfold toy_key).
Qed.

Lemma toy_clusters_frame fails w a r w' :
  toy_handler fails a w = (r, w') -> written_cluster a = None -> toy_clusters w' = toy_clusters w.
Proof. intros H Ha. destruct a; toy_cases; done. Qed.

Lemma toy_keys_step fails w a r w' : toy_handler fails a w = (r, w') -> toy_keys w' = toy_keys w.
Proof. intros H. destruct a; toy_cases; try done. apply toy_replace_keys. Qed.

(** ** The server and its cache *)

Record lag := { server : toy; cache : toy }.

Definition from_cache (a : go_action) : bool :=
  match a with
  | AGet Management _ _ | AListClusters _ _ _ | AListAddons _ | AListPolicies _ _ => true
  | _ => false
  end.

Definition lag_handler (fails : go_action -> bool) (a : go_action) (w : lag) : go_result a * lag :=
  if from_cache a then ((toy_handler fails a (cache w)).1, w)
  else let '(r, s) := toy_handler fails a (server w) in (r, {| server := s; cache := cache w |}).

Definition lag_wf (w : lag) : Prop :=
  toy_wf (server w) /\ NoDup (toy_keys (server w)) /\ NoDup (toy_keys (cache w)).

Definition lag_serves (fails : go_action -> bool) (w : lag) (a : go_action) (r : go_result a) (w' : lag) : Prop :=
  lag_wf w /\ lag_handler fails a w = (r, w').

(** Nothing, or the cache catches up. *)
Definition lag_elsewhere (w w' : lag) : Prop :=
  server w' = server w /\ (cache w' = cache w \/ cache w' = server w).

Lemma lag_cached fails w a r w' :
  lag_serves fails w a r w' -> from_cache a = true ->
  w' = w /\ (toy_handler fails a (cache w)).1 = r.
Proof. intros [_ H] Ha. unfold lag_handler in H. rewrite Ha in H. by injection H as <- <-. Qed.

Lemma lag_direct fails w a r w' :
  lag_serves fails w a r w' -> from_cache a = false ->
  toy_serves fails (server w) a r (server w') /\ cache w' = cache w.
Proof.
  intros [(Hw & _) H] Ha. unfold lag_handler in H. rewrite Ha in H.
  destruct (toy_handler _ _ _) as [r' s] eqn:E. injection H as <- <-. done.
Qed.

Lemma lag_wf_step fails w a r w' : lag_serves fails w a r w' -> lag_wf w'.
Proof.
  intros H. destruct (from_cache a) eqn:Ha.
  { pose proof (proj1 H) as Hw. by apply lag_cached in H as [-> _]. }
  destruct (lag_direct _ _ _ _ _ H Ha) as [[Hw Hs] Hc]. destruct H as [(_ & Hn & Hn') _].
  unfold lag_wf. rewrite Hc, (toy_keys_step _ _ _ _ _ Hs). split_and!; [by eapply toy_wf_step|done..].
Qed.

#[export] Instance lag_server (fails : go_action -> bool) : ApiServer lag.
Proof.
  refine {|
    remote_eq := NamespacedName_eq_dec;
    serves := lag_serves fails;
    stored := fun w => toy_stored (server w);
    admitted := fun s => s;
    terminating := fun _ _ _ => False;
  |}.
  - intros w a r w' H rc id Ht. destruct (from_cache a) eqn:Ha.
    + by apply lag_cached in H as [-> _].
    + apply lag_direct in H as [[_ H] _]; [|done]. by eapply toy_frame.
  - done.
  - intros w rc k p w' H. apply lag_direct in H as [H _]; [|done]. by apply (@serves_get_cap _ _ (toy_server fails) _ _ _ _ _ H).
  - intros w rc k p w' H. apply lag_direct in H as [H _]; [|done]. by apply (@serves_get_ap _ _ (toy_server fails) _ _ _ _ _ H).
  - intros w rc o id r w' H. apply lag_direct in H as [H _]; [|done]. by apply (@serves_create _ _ (toy_server fails) _ _ _ _ _ _ H).
  - intros w rc o id r w' H. apply lag_direct in H as [H _]; [|done]. by apply (@serves_update _ _ (toy_server fails) _ _ _ _ _ _ H).
  - intros w rc o id r w' H. apply lag_direct in H as [H _]; [|done]. by apply (@serves_delete _ _ (toy_server fails) _ _ _ _ _ _ H).
Defined.

#[export] Instance lag_management (fails : go_action -> bool) : ManagementServer lag.
Proof.
  refine {| answers := lag_serves fails; elsewhere := lag_elsewhere;
            clusters := fun w => toy_cluster_map (server w) |}.
  - intros w a r w' H Ha. destruct (from_cache a) eqn:Hc.
    + by apply lag_cached in H as [-> _].
    + apply lag_direct in H as [[_ H] _]; [|done]. unfold toy_cluster_map. by rewrite (toy_clusters_frame _ _ _ _ _ H Ha).
  - intros w ns cs w' H. pose proof H as [(_ & _ & Hn) _]. apply lag_cached in H as [_ H]; [|done].
    simpl in H. destruct (fails _); [done|]. injection H as <-.
    apply (sublist_NoDup _ _ Hn). apply cluster_keys_filter.
  - intros w c base r w' H Hk. pose proof H as [(_ & Hn & _) _]. apply lag_direct in H as [[_ H] _]; [|done].
    simpl in H. destruct (fails _); [by injection H as <- <-; right|].
    destruct (existsb _ _) eqn:He; injection H as <- Hs; rewrite <- Hs; [left|by right].
    apply existsb_exists in He as (b & Hb%list_elem_of_In & Hbk%bool_decide_eq_true).
    assert (is_Some (toy_cluster_map (server w) !! ObjectKeyFromObject c)) as Hsome.
    { exists b. apply toy_cluster_lookup; [done|]. by split. }
    exists c. split_and!; [done|by apply toy_replace_map|done].
Defined.

(** ** The world *)

Definition toy_policy_at (w : toy) (k : NamespacedName) : option Policy.KubewardenPolicy :=
  List.find (fun x : Policy.KubewardenPolicy => bool_decide (toy_key x = k)) (toy_policies w).

Lemma found_inr {A} (o : option A) a : found o = inr a -> o = Some a.
Proof. by destruct o as [a'|]; simpl; intros [= <-]. Qed.

#[export] Instance lag_world : World lag.
Proof.
  refine {|
    world_policies := lag_server never;
    world_clusters := lag_management never;
    cached := fun w => toy_cluster_map (cache w);
    cached_policies := fun w => toy_policy_at (cache w);
  |}.
  - intros w k r w' [H _]. apply lag_cached in H as [_ H]; [|done]. simpl in H. unfold toy_policy_at.
    subst r. by destruct (List.find _ _).
  - intros w ns l w' [H _] k p Hp <-. apply lag_cached in H as [_ H]; [|done]. simpl in H.
    injection H as <-. cbn [Policy.Items].
    unfold toy_policy_at in Hp. apply find_some in Hp as [Hin Hk%bool_decide_eq_true].
    unfold toy_key in Hk. split; [|done].
    apply list_elem_of_In, filter_In. split; [done|]. apply bool_decide_eq_true. by rewrite <- Hk.
  - intros w ns sel cs w' [H _] k c Hc Hns Hsel. pose proof H as [(_ & _ & Hn) _].
    apply lag_cached in H as [_ H]; [|done]. simpl in H. injection H as <-.
    apply (toy_cluster_lookup (cache w) k c Hn) in Hc as [Hc ->]. split; [|done].
    apply list_elem_of_In, filter_In. split; [by apply list_elem_of_In|].
    apply andb_true_iff. split; [by apply bool_decide_eq_true|]. by destruct sel.
Defined.

Lemma lag_undisturbed : undisturbed (W := lag).
Proof.
  split.
  - intros w w' k [E _] (c & Hc & Hi). exists c. split; [|done]. simpl in *. by rewrite E.
  - intros w w' rc id [E _]. simpl. by rewrite E.
  - done.
Qed.

(** ** Runs as histories *)

(** The events of a run with the states it went through. *)
Fixpoint with_states (fails : go_action -> bool) (w : lag) (t : list event) : list (lag * event) :=
  match t with
  | [] => []
  | e :: t' => (w, e) :: with_states fails (lag_handler fails (ev_action e) w).2 t'
  end.

Lemma with_states_events fails w t : (with_states fails w t).*2 = t.
Proof. revert w. induction t as [|e t IH]; intros w; simpl; [done|]. by rewrite IH. Qed.

(** Every run, after a move of the rest of the world. *)
Lemma lag_history fails {A} (p : prog A) w0 w a t w' :
  lag_elsewhere w0 w -> lag_wf w -> exec (lag_handler fails) p w = (a, t, w') ->
  history lag_elsewhere (lag_serves fails) w0 (with_states fails w t) w'.
Proof.
  intros H0 Hw H. apply exec_steps in H. revert w0 w H0 Hw H.
  induction t as [|e t IH]; intros w0 w H0 Hw; simpl; [by intros <-|].
  intros (w1 & H1 & H2). rewrite H1. split; [done|]. exists w1. split; [by split|].
  apply IH; [by split; [|left]| |done]. by eapply lag_wf_step.
Qed.

Lemma lag_steps fails {A} (p : prog A) w a t w' :
  lag_wf w -> exec (lag_handler fails) p w = (a, t, w') -> steps (lag_serves fails) w t w'.
Proof.
  intros Hw H. apply exec_steps in H. revert w Hw H.
  induction t as [|e t IH]; intros w Hw; simpl; [done|]. intros (w1 & H1 & H2).
  exists w1. split; [by split|]. apply IH; [|done]. by eapply lag_wf_step.
Qed.
