(* ===== verification/System.v ===== *)
(** * System: the two controllers running together

    The manager runs reconciles of both controllers concurrently.  A system is
    a family of programs, one per reconcile; its behaviours are the
    interleavings of their calls, built one call at a time by the relation
    [reach].  The theorem of this file is about the whole system: a policy is
    created on a workload cluster only after the addon controller installed
    Kubewarden there. *)
From S2P Require Import Prelude GoProg GoError GoPath ApiTypes Platform Traces Helpers HelpersFacts.
From S2P Require Import Toy AddonController AddonFacts AddonSpec PolicyController PolicyFacts PolicySpec.
Open Scope go_scope.

(** ** Interleavings *)

Section Interleaving.
Context `{Sig : Signature} {A : Type}.

(** A call of the system: which reconcile made it, and its answer. *)
Notation history := (list (nat * event)).

(** The calls of reconcile [i]. *)
Definition thread (i : nat) (g : history) : list event :=
  omap (fun ie => if decide (ie.1 = i) then Some ie.2 else None) g.

(** [reach ps g]: running concurrently, the programs [ps] can produce [g]. *)
Inductive reach (ps : nat -> prog A) : history -> Prop :=
| reach_nil : reach ps []
| reach_call g i e :
    reach ps g -> issues (ps i) (thread i g) (ev_action e) -> reach ps (g ++ [(i, e)]).

Lemma thread_app i g1 g2 : thread i (g1 ++ g2) = thread i g1 ++ thread i g2.
Proof. apply omap_app. Qed.

Lemma thread_in i g e : e ∈ thread i g -> (i, e) ∈ g.
Proof.
  unfold thread. intros ([j e'] & Hin & H)%list_elem_of_omap. simpl in H.
  destruct (decide (j = i)) as [->|]; simplify_eq. done.
Qed.

Lemma thread_sub i g : thread i g ⊆ g.*2.
Proof. intros e He%thread_in. apply list_elem_of_fmap. by exists (i, e). Qed.

(** Every call was issued by its reconcile at its place. *)
Lemma reach_issues ps g1 i e g2 :
  reach ps (g1 ++ (i, e) :: g2) -> issues (ps i) (thread i g1) (ev_action e).
Proof.
  intros H. remember (g1 ++ (i, e) :: g2) as g eqn:E. revert g2 E.
  induction H as [|g j e' H IH Hi]; intros g2 E; [by destruct g1|].
  destruct g2 as [|x g2 _] using rev_ind.
  - apply app_inj_tail in E as [-> [= -> ->]]. done.
  - rewrite app_comm_cons, app_assoc in E. apply app_inj_tail in E as [E _]. by eapply IH.
Qed.

Lemma thread_own i t : thread i (map (pair i) t) = t.
Proof.
  unfold thread. induction t as [|e t IH]; [done|]. cbn. rewrite decide_True by done. by f_equal.
Qed.

Lemma reach_app ps g t i :
  reach ps g -> thread i g = [] ->
  (forall n e, t !! n = Some e -> issues (ps i) (take n t) (ev_action e)) ->
  reach ps (g ++ map (pair i) t).
Proof.
  intros Hg Hi Ht.
  assert (forall n, reach ps (g ++ map (pair i) (take n t))) as H.
  { induction n as [|n IH]; [by rewrite app_nil_r|].
    destruct (t !! n) as [e|] eqn:En.
    - rewrite (take_S_r _ _ _ En), map_app, app_assoc. apply reach_call; [done|].
      rewrite thread_app, Hi, thread_own. by apply Ht.
    - apply lookup_ge_None in En. by rewrite !take_ge in * by lia. }
  specialize (H (length t)). by rewrite take_ge in H by done.
Qed.
End Interleaving.
Arguments reach {_ _} ps g.

(** ** The system *)

Section System.
Context `{P : Platform}.

Inductive request := AddonRequest (key : NamespacedName) | PolicyRequest (key : NamespacedName).

Definition reconciler (r : request) : prog (Result * option error) :=
  match r with
  | AddonRequest key => AddonController.Reconcile key
  | PolicyRequest key => PolicyController.Reconcile key
  end.

(** The clusters an answer shows with the installed annotation, and the
    cluster on which a patch sets it, whatever the answer: a patch can have been
    applied although its answer is an error. *)
Definition shows_installed (e : event) : list NamespacedName :=
  match e with
  | Ev (AListClusters _ _ _) (inr cs) =>
      map (fun c : Cluster => ObjectKeyFromObject c)
        (List.filter (fun c : Cluster => HasAnnotation c KubewardenInstalledAnnotation) cs)
  | _ => []
  end.
Definition marks_installed (e : event) : option NamespacedName :=
  match e with
  | Ev (APatch Management (OCluster c) _) _ =>
      if HasAnnotation c KubewardenInstalledAnnotation then Some (ObjectKeyFromObject c) else None
  | _ => None
  end.

(** Nothing but this system sets the installed annotation, and no cluster
    carries it at the start: a list that shows it comes after a patch of this
    system that sets it. *)
Fixpoint provenance (marked : list NamespacedName) (g : list (nat * event)) : bool :=
  match g with
  | [] => true
  | (_, e) :: g' =>
      forallb (fun k => bool_decide (k ∈ marked)) (shows_installed e) &&
      provenance (option_list (marks_installed e) ++ marked) g'
  end.

Lemma provenance_at g1 i e g2 marked k :
  provenance marked (g1 ++ (i, e) :: g2) = true -> k ∈ shows_installed e ->
  k ∈ marked \/ k ∈ omap marks_installed g1.*2.
Proof.
  revert marked. induction g1 as [|[j e'] g1 IH]; intros marked; cbn.
  - intros [H _]%andb_true_iff Hk. left.
    rewrite forallb_forall in H. apply list_elem_of_In, H, bool_decide_eq_true in Hk. done.
  - intros [_ H]%andb_true_iff Hk. destruct (IH _ H Hk) as [Hm|Hm].
    + destruct (marks_installed e') as [k'|]; cbn in Hm; [|by left].
      apply elem_of_cons in Hm as [->|Hm]; [right; left|by left].
    + right. destruct (marks_installed e'); [by right|done].
Qed.

Lemma marks_installed_patch e k :
  marks_installed e = Some k ->
  exists c p r, e = @Ev GoSignature (APatch Management (OCluster c) p) r /\ k = ObjectKeyFromObject c.
Proof.
  destruct e as [a r]. destruct a; try done. destruct c; try done. destruct o; try done.
  cbn. destruct (HasAnnotation _ _); [|done]. intros [= <-]. eauto.
Qed.

Lemma annotateInstalled_key cluster :
  ObjectKeyFromObject (annotateInstalled cluster).1 = ObjectKeyFromObject cluster.
Proof. by rewrite annotateInstalled_eq. Qed.

(** A policy reconcile patches nothing. *)
Lemma policy_never_patches key t o p :
  ~ issues (PolicyController.Reconcile key) t (APatch Management o p).
Proof.
  intros [?|(policy & t' & -> & H)]%policy_Reconcile_issues; [done|].
  destruct (being_deleted policy).
  - by apply reconcileDelete_writes in H as (? & ? & ? & ? & _ & _ & _ & ? & _); [|done].
  - apply reconcileNormal_writes in H as (? & _ & [(? & ?)|(? & ? & _ & _ & _ & Hw)]); [|inversion Hw|]; done.
Qed.

(** Every annotation patch of a history follows an installation. *)
Lemma marked_installed rs g k :
  reach (fun i => reconciler (rs i)) g -> k ∈ omap marks_installed g.*2 ->
  exists (cluster : Cluster) addon rc, k = ObjectKeyFromObject cluster /\
    connected g.*2 cluster rc /\ kubewarden_installed g.*2 addon (Remote rc).
Proof.
  intros Hreach (e & He & Hk)%list_elem_of_omap.
  apply list_elem_of_fmap in He as ([j e'] & -> & He). simpl in Hk.
  apply list_elem_of_split in He as (g1 & g2 & ->).
  apply marks_installed_patch in Hk as (c & p & r & -> & ->).
  pose proof (reach_issues _ _ _ _ _ Hreach) as Hi. simpl in Hi.
  destruct (rs j) as [key|key]; [|by apply policy_never_patches in Hi].
  apply AddonSpec.Reconcile_writes in Hi as (addon & cs & sel & _ & [(cl & _ & Hit & E)|[_ E]]); [|done..].
  injection E as -> ->. destruct Hit as [_ _ (rc & Hrc & Hinst)].
  assert (thread j g1 ⊆ (g1 ++ (j, @Ev GoSignature (APatch Management (OCluster (annotateInstalled cl).1)
    (MergeFrom (OCluster cl))) r) :: g2).*2) as Hsub
    by (intros x Hx%thread_sub; rewrite fmap_app; by apply in_app_l).
  exists cl, (Addon.SetMatchingClusters addon sel), rc. split_and!.
  - apply annotateInstalled_key.
  - unfold connected. auto.
  - by eapply kubewarden_installed_mono.
Qed.

(** C2: policies only reach clusters where Kubewarden was installed.  In every
    interleaving of any number of reconciles of both controllers that starts
    with no annotated cluster and in which nobody else sets the installed
    annotation (a list shows it only on a cluster that an earlier patch of this
    system annotates, whatever that patch was answered), whenever a policy is
    about to be created or updated on a workload cluster (it is not the deletion of a
    policy), some reconcile of an addon earlier in the history obtained a
    client for that very cluster and through it installed the namespace, the
    CRDs, both charts and the tolerations successfully. *)
Theorem policies_after_installation rs g i rc o a :
  reach (fun i => reconciler (rs i)) g ->
  provenance [] g = true ->
  a = ACreate (Remote rc) o \/ a = AUpdate (Remote rc) o ->
  (exists key, rs i = PolicyRequest key) ->
  issues (reconciler (rs i)) (thread i g) a ->
  exists (cluster cluster' : Cluster) addon rc',
    connected g.*2 cluster rc /\
    ObjectKeyFromObject (Cluster_ObjectMeta cluster') = ObjectKeyFromObject (Cluster_ObjectMeta cluster) /\
    connected g.*2 cluster' rc' /\
    kubewarden_installed g.*2 addon (Remote rc').
Proof.
  intros Hreach Hprov Ha [key Hkey] H. rewrite Hkey in H. cbn in H.
  assert (is_write a = true) as Hw by (by destruct Ha as [->| ->]).
  apply policy_Reconcile_issues in H as [->|(policy & t & Ht & H)]; [done|].
  destruct (being_deleted policy).
  { apply reconcileDelete_writes in H as (? & ? & ? & ? & _ & _ & _ & -> & _); [|done].
    by destruct Ha. }
  apply reconcileNormal_writes in H as (cs & [(sel & _ & Hl)] & [(p & ->)|(cluster & rc1 & Hin & Hc & He & Hd)]);
    [by destruct Ha| |done].
  assert (rc1 = rc) as -> by (destruct Ha as [->| ->]; inversion Hd; congruence).
  assert (forall e, e ∈ t -> (i, e) ∈ g) as Hsub.
  { intros e Het. apply thread_in. rewrite Ht. by right. }
  apply Hsub, list_elem_of_split in Hl as (g1 & g2 & Hg).
  rewrite Hg in Hprov. apply (provenance_at _ _ _ _ _ (ObjectKeyFromObject cluster)) in Hprov as [Hm|Hm].
  - by inversion Hm.
  - destruct (marked_installed rs g (ObjectKeyFromObject cluster)) as (cl & addon & rc' & Hk & Hrc & Hinst);
      [done|rewrite Hg, fmap_app, omap_app; by apply in_app_l|].
    exists cluster, cl, addon, rc'. split_and!; [|done..].
    unfold connected in *. apply list_elem_of_fmap. eexists (i, _). split; [reflexivity|]. by apply Hsub.
  - unfold shows_installed. apply list_elem_of_In, in_map_iff. exists cluster. split; [done|].
    apply filter_In. split; [by apply list_elem_of_In|]. by apply andb_true_iff in He as [_ ?].
Qed.
End System.
