(* ===== verification/Witnesses.v ===== *)
(** * Witnesses: the theorems at concrete inputs

    Runs of the reconcilers in the executable environment of Toy.v, on which
    the hypotheses of the theorems hold. *)
From S2P Require Import Prelude GoProg GoError GoPath ApiTypes Platform Traces Helpers HelpersFacts Webhooks Toy.
From S2P Require Import AddonController AddonFacts AddonSpec AddonInstall AddonLiveness AddonOutcome.
From S2P Require Import PolicyController PolicyFacts PolicySpec PolicyBounds PolicyRefinement ToyServer ToyCache System.
From S2P Require Import AddonConvergence Startup EndToEnd.
Open Scope go_scope.

(** ** Concrete runs *)

(** The calls of a run in the executable environment. *)
Definition toy_trace {A} (fails : go_action -> bool) (p : prog A) (w : toy) : list event :=
  (exec (toy_handler fails) p w).1.2.

Lemma toy_issues {A} fails (p : prog A) w n e :
  toy_trace fails p w !! n = Some e -> issues p (take n (toy_trace fails p w)) (ev_action e).
Proof.
  unfold toy_trace. destruct (exec _ p w) as [[a t] w'] eqn:E. by eapply exec_issues.
Qed.

Lemma toy_runs {A} fails (p : prog A) w :
  runs p (toy_trace fails p w) (exec (toy_handler fails) p w).1.1.
Proof. unfold toy_trace. destruct (exec _ p w) as [[a t] w'] eqn:E. by eapply exec_runs. Qed.

Lemma toy_steps fails (p : prog (Result * option error)) w :
  toy_wf w -> steps (toy_serves fails) w (toy_trace fails p w) (exec (toy_handler fails) p w).2.
Proof.
  intros Hw. unfold toy_trace. destruct (exec _ p w) as [[a t] w'] eqn:E. by eapply toy_steps_wf.
Qed.

(** One fresh cluster, and one that carries the installed annotation. *)
Definition fresh_cluster : Cluster := toy_cluster "c1" true None.
Definition marked_cluster : Cluster := toy_cluster "c1" true installed_annotations.

Definition addon_run : list event := toy_trace never (AddonController.Reconcile addon_req) (toy_world [fresh_cluster]).
Definition policy_run : list event := toy_trace never (PolicyController.Reconcile policy_req) (toy_world [marked_cluster]).

(** ** KubewardenAddon *)

Section AddonWitnesses.
Import Addon.

Lemma annotates_only_installed_witness :
  exists addon cs selected cluster rc,
    started addon_req addon cs selected (take 50 addon_run) /\ cluster ∈ selected /\
    kubewarden_installed (take 50 addon_run) addon (Remote rc).
Proof.
  destruct (annotates_only_installed addon_req (take 50 addon_run)
    (OCluster (annotateInstalled fresh_cluster).1) (MergeFrom (OCluster fresh_cluster)))
    as (addon & cs & sel & cl & rc & H1 & H2 & _ & _ & _ & H3 & _).
  - refine (toy_issues never (AddonController.Reconcile addon_req) (toy_world [fresh_cluster]) 50
      (@Ev GoSignature (APatch Management (OCluster (annotateInstalled fresh_cluster).1)
                          (MergeFrom (OCluster fresh_cluster))) None) _).
    reflexivity.
  - exists addon, cs, sel, cl, rc. split_and!; assumption.
Defined.

(** The status patch of the run. *)
Definition toy_status_patch : go_action :=
  AStatusPatch Management
    (OAddon (SetReady (SetMatchingClusters toy_addon [fresh_cluster]) true))
    (MergeFrom (OAddon (SetMatchingClusters toy_addon [fresh_cluster]))).

Lemma toy_status_issued : issues (AddonController.Reconcile addon_req) (take 51 addon_run) toy_status_patch.
Proof.
  refine (toy_issues never (AddonController.Reconcile addon_req) (toy_world [fresh_cluster]) 51
    (@Ev GoSignature toy_status_patch None) _).
  reflexivity.
Qed.

Lemma ready_means_all_installed_witness :
  exists addon cs selected,
    started addon_req addon cs selected (take 51 addon_run) /\
    forall cluster, cluster ∈ selected ->
      exists rc, kubewarden_installed (take 51 addon_run) addon (Remote rc).
Proof.
  destruct (ready_means_all_installed addon_req (take 51 addon_run) _ _ toy_status_issued)
    as (addon & cs & sel & H1 & _ & H2).
  exists addon, cs, sel. split; [exact H1|]. intros c Hc.
  destruct (H2 c Hc) as (_ & _ & rc & _ & H & _). exists rc. exact H.
Defined.

Lemma matching_clusters_not_in_patch_witness :
  exists addon base : KubewardenAddon,
    OAddon (SetReady (SetMatchingClusters toy_addon [fresh_cluster]) true) = OAddon addon /\
    MatchingClusters (Status addon) = MatchingClusters (Status base).
Proof.
  destruct (matching_clusters_not_in_patch addon_req (take 51 addon_run) _ _ toy_status_issued)
    as (addon & base & H1 & _ & _ & H2).
  exists addon, base. split; assumption.
Defined.

(** The second cluster is fresh, and is not reached. *)
Definition stopped_run : list event :=
  toy_trace never (AddonController.reconcileNormal toy_addon)
    (toy_world [marked_cluster; toy_cluster "c2" true None]).

Lemma installed_cluster_stops_reconcile_witness :
  stopped_run = [@Ev GoSignature (AListClusters Management "default" None)
                   (inr [marked_cluster; toy_cluster "c2" true None])].
Proof.
  refine (proj1 (installed_cluster_stops_reconcile toy_addon stopped_run (AddonController.Result_zero, None)
    [marked_cluster; toy_cluster "c2" true None] marked_cluster [toy_cluster "c2" true None] _ _ _ _ _)).
  - exact (toy_runs never (AddonController.reconcileNormal toy_addon)
             (toy_world [marked_cluster; toy_cluster "c2" true None])).
  - reflexivity.
  - reflexivity.
  - reflexivity.
  - reflexivity.
Defined.

Definition no_addons : toy :=
  {| toy_addons := []; toy_policies := []; toy_clusters := []; toy_caps := ∅; toy_aps := ∅ |}.

Lemma missing_addon_requeued_witness :
  length (toy_trace never (AddonController.Reconcile addon_req) no_addons) = 1.
Proof.
  refine (proj1 (missing_addon_requeued addon_req (toy_trace never (AddonController.Reconcile addon_req) no_addons)
    _ ("NotFound" : @ext_error toy_errors) (toy_runs never (AddonController.Reconcile addon_req) no_addons) _)).
  reflexivity.
Defined.

(** The first patch through a workload client fails. *)
Definition fails_patch (a : go_action) : bool := match a with APatch _ _ _ => true | _ => false end.

Lemma reconcile_releases_resources_witness :
  flat_map acquired (toy_trace fails_patch (AddonController.Reconcile addon_req) (toy_world [fresh_cluster])) ≡ₚ
  flat_map released (toy_trace fails_patch (AddonController.Reconcile addon_req) (toy_world [fresh_cluster])).
Proof.
  exact (reconcile_releases_resources addon_req _ _
           (toy_runs fails_patch (AddonController.Reconcile addon_req) (toy_world [fresh_cluster]))).
Defined.

Definition install_run : list event :=
  toy_trace never (AddonController.reconcileNormal toy_addon) (toy_world [fresh_cluster]).

(** The run reads one archive and three manifests. *)
(** An installing run reads one archive and three manifests. *)
Lemma toy_run_ok t :
  forallb ok_event t = true -> omap archive_read t = ["/tmp/file"] ->
  manifests_read t = ["/tmp/kubewarden-crds-1/policies.yaml"; "/tmp/file"; "/tmp/file"] -> all_ok t.
Proof.
  intros Ht Ha Hm. split; [done|]. rewrite Ha, Hm.
  split; repeat constructor; by do 3 eexists.
Qed.

Lemma install_run_ok : all_ok install_run.
Proof. by apply toy_run_ok. Qed.

Lemma reconcile_installs_all_witness :
  all_ok install_run /\
  exists rc, kubewarden_installed install_run toy_addon (Remote rc).
Proof.
  split; [exact install_run_ok|].
  destruct (reconcile_installs_all toy_addon install_run (AddonController.Result_zero, @None error)
    [fresh_cluster] [fresh_cluster]) as (_ & H & _).
  - exact (toy_runs never (AddonController.reconcileNormal toy_addon) (toy_world [fresh_cluster])).
  - exact install_run_ok.
  - reflexivity.
  - reflexivity.
  - intros c Hc. apply list_elem_of_singleton in Hc as ->. split; reflexivity.
  - destruct (H fresh_cluster) as [Hi _]; [left|exact Hi].
Defined.

Lemma removes_only_crds_temp_witness :
  exists f, @Ev GoSignature (ACreateTemp "" "kubewarden-*.tar.gz") (inr f) ∈ take 22 addon_run /\
            "/tmp/file" = file_Name f.
Proof.
  refine (proj1 (removes_only_crds_temp addon_req (take 22 addon_run) "/tmp/file") _).
  refine (toy_issues never (AddonController.Reconcile addon_req) (toy_world [fresh_cluster]) 22
    (@Ev GoSignature (ARemove "/tmp/file") None) _). reflexivity.
Defined.

Lemma install_sources_witness :
  exists addon, @Ev GoSignature (AGet Management addon_req KAddon) (inr addon) ∈ take 4 addon_run /\
    crdsURL "v1.18.0" = crdsURL (crd_version addon).
Proof.
  refine (proj1 (install_sources addon_req (take 4 addon_run)) (crdsURL "v1.18.0") _).
  refine (toy_issues never (AddonController.Reconcile addon_req) (toy_world [fresh_cluster]) 4
    (@Ev GoSignature (AHttpGet (crdsURL "v1.18.0")) (inr {| StatusCode := 200; Body := ("body" : reader) |})) _).
  reflexivity.
Defined.

Definition extract_run : list event := toy_trace never (extractTarGz "/tmp/file") (toy_world []).

Lemma extractTarGz_complete_witness :
  exists g, Forall (written extract_run "/tmp/kubewarden-crds-1") (regular (tar_entries g)).
Proof.
  destruct (extractTarGz_complete "/tmp/file" extract_run "/tmp/kubewarden-crds-1") as (f & g & _ & _ & _ & H).
  - exact (toy_runs never (extractTarGz "/tmp/file") (toy_world [])).
  - exists g. exact H.
Defined.

Lemma extraction_stays_below_witness :
  exists dir g flag name body,
    inr (flag, name, body) ∈ tar_entries g /\ "/tmp/kubewarden-crds-1/policies.yaml" = Join dir name.
Proof.
  destruct (extraction_stays_below "/tmp/file" (take 3 extract_run) "/tmp/kubewarden-crds-1/policies.yaml")
    as (dir & g & flag & name & body & _ & H1 & H2 & _).
  - refine (toy_issues never (extractTarGz "/tmp/file") (toy_world []) 3
      (@Ev GoSignature (ACreateFile "/tmp/kubewarden-crds-1/policies.yaml")
         (inr ("/tmp/kubewarden-crds-1/policies.yaml" : file))) _). reflexivity.
  - exists dir, g, flag, name, body. split; [exact H1|exact H2].
Defined.

(** A manifest of the archive that overwrites a file outside of it. *)
Lemma extraction_can_escape_witness :
  issues (extractEntries "/tmp/kubewarden-crds-1"
            [inr (48%Z, "../../etc/passwd", ("evil" : reader))]) []
    (ACreateFile "/etc/passwd").
Proof.
  exact (extraction_can_escape ["tmp"; "kubewarden-crds-1"] ["etc"; "passwd"] 48%Z "evil" []
    ltac:(discriminate) eq_refl ltac:(discriminate) eq_refl ltac:(discriminate)).
Defined.

Lemma kindless_document_truncates_witness :
  applyDocuments Management ([inr "a"] ++ inr "" :: [inr "b"]) ≡ applyDocuments Management [inr "a"].
Proof.
  exact (kindless_document_truncates Management [inr "a"] "" [inr "b"] None
           (Some ("Object 'Kind' is missing" : @ext_error toy_errors)) eq_refl).
Defined.

(** One fresh cluster, then one that is not ready: the first is worked through,
    the second stops the run. *)
Definition waiting_run : list event :=
  toy_trace never (AddonController.Reconcile addon_req)
    (toy_world [fresh_cluster; toy_cluster "c2" false None]).

Lemma addon_reconcile_outcome_witness :
  marked_in waiting_run = [ObjectKeyFromObject fresh_cluster] /\
  reconcile_outcome addon_req waiting_run ({| Requeue := false; RequeueAfter := Minute |}, @None error).
Proof.
  split; [reflexivity|].
  exact (addon_reconcile_outcome addon_req waiting_run _ (toy_runs never (AddonController.Reconcile addon_req)
           (toy_world [fresh_cluster; toy_cluster "c2" false None]))).
Defined.
End AddonWitnesses.

(** ** KubewardenPolicy *)

Section PolicyWitnesses.
Import Policy.

(** The status that the run on the annotated cluster reports. *)
Definition toy_reported (active : bool) : KubewardenPolicy :=
  SetDeployed (SetMatchingClusters toy_policy [marked_cluster]) true
    (entries toy_policy [marked_cluster] [Deployed 1%Z active]).

Lemma toy_status_update :
  issues (PolicyController.Reconcile policy_req) (take 7 policy_run)
    (AStatusUpdate Management (OPolicy (toy_reported false))).
Proof.
  refine (toy_issues never (PolicyController.Reconcile policy_req) (toy_world [marked_cluster]) 7
    (@Ev GoSignature (AStatusUpdate Management (OPolicy (toy_reported false))) None) _). reflexivity.
Qed.

Lemma policy_status_accurate_witness :
  exists policy clusters policy',
    selected policy clusters (take 7 policy_run) /\ reported policy clusters (take 7 policy_run) policy' /\
    OPolicy (toy_reported false) = OPolicy policy'.
Proof.
  destruct (policy_status_accurate policy_req (take 7 policy_run) _ toy_status_update)
    as (p & cs & p' & _ & _ & H1 & H2 & H3).
  exists p, cs, p'. split_and!; assumption.
Defined.

Lemma policy_ready_means_deployed_witness :
  exists policy clusters, selected policy clusters (take 7 policy_run) /\ clusters <> [] /\
    forall cluster, cluster ∈ clusters ->
      exists rc, deployed_on (take 7 policy_run) policy (Remote rc).
Proof.
  destruct (policy_ready_means_deployed policy_req (take 7 policy_run) _ toy_status_update eq_refl)
    as (p & cs & _ & H1 & H2 & _ & H3).
  exists p, cs. split; [exact H1|]. split; [exact H2|]. intros c Hc.
  destruct (H3 c Hc) as (_ & rc & _ & _ & H & _). exists rc. exact H.
Defined.

Definition toy_handle : remote_client := {| nn_Namespace := "default"; nn_Name := "c1" |}.

Lemma policy_writes_witness :
  exists policy, @Ev GoSignature (AGet Management policy_req KPolicy) (inr policy) ∈ take 5 policy_run.
Proof.
  destruct (policy_writes policy_req (take 5 policy_run)
    (ACreate (Remote toy_handle) (OClusterAdmissionPolicy (newClusterAdmissionPolicy toy_policy))) eq_refl)
    as (p & H & _).
  - refine (toy_issues never (PolicyController.Reconcile policy_req) (toy_world [marked_cluster]) 5
      (@Ev GoSignature (ACreate (Remote toy_handle)
         (OClusterAdmissionPolicy (newClusterAdmissionPolicy toy_policy))) None) _). reflexivity.
  - exists p. exact H.
Defined.

(** The first of two clusters cannot be reached. *)
Definition unreachable_c1 (a : go_action) : bool :=
  match a with ARemoteClient name _ => bool_decide (name = "c1") | _ => false end.
Definition other_cluster : Cluster := toy_cluster "c2" true installed_annotations.
Definition partial_run : list event :=
  toy_trace unreachable_c1 (PolicyController.reconcileNormal toy_policy) (toy_world [marked_cluster; other_cluster]).

Lemma policy_attempts_all_witness :
  exists a, @Ev GoSignature (ARemoteClient "c2" (ObjectKeyFromObject other_cluster)) a ∈ partial_run.
Proof.
  destruct (policy_attempts_all toy_policy partial_run
    {| Requeue := false; RequeueAfter := (5 * Minute)%Z |} None [marked_cluster; other_cluster]) as [H _].
  - exact (toy_runs unreachable_c1 (PolicyController.reconcileNormal toy_policy)
             (toy_world [marked_cluster; other_cluster])).
  - reflexivity.
  - exact (H other_cluster ltac:(right; left) eq_refl).
Defined.

(** A deletion on a cluster that stores the policy, and one that fails. *)
Definition deployed_world : toy := (exec (toy_handler never) (PolicyController.Reconcile policy_req)
                                      (toy_world [marked_cluster])).2.
Definition delete_run (fails : go_action -> bool) : list event :=
  toy_trace fails (reconcileDelete toy_policy) deployed_world.

Lemma deletion_attempts_all_witness :
  deletion_attempted toy_policy (delete_run unreachable_c1) marked_cluster.
Proof.
  refine (proj2 (deletion_attempts_all toy_policy (delete_run unreachable_c1) (Done, None) [marked_cluster] _ _)
    marked_cluster ltac:(left)).
  - exact (toy_runs unreachable_c1 (reconcileDelete toy_policy) deployed_world).
  - reflexivity.
Defined.

Lemma missing_policy_is_done_witness :
  length (toy_trace never (PolicyController.Reconcile policy_req) no_addons) = 1.
Proof.
  refine (proj1 (missing_policy_is_done policy_req
    (toy_trace never (PolicyController.Reconcile policy_req) no_addons) _ ("NotFound" : @ext_error toy_errors)
    (toy_runs never (PolicyController.Reconcile policy_req) no_addons) _)).
  reflexivity.
Defined.

(** The bound for one cluster is ten calls; the run makes eight. *)
Lemma policy_calls_bounded_witness : length policy_run = 8 /\ length policy_run <= 10.
Proof.
  split; [reflexivity|].
  exact (policy_calls_bounded policy_req policy_run _
    (toy_runs never (PolicyController.Reconcile policy_req) (toy_world [marked_cluster]))).
Defined.

Lemma admitted_policy_deploys_complete_witness :
  ps_PolicyServer (buildPolicySpec (PolicyWebhook.Default toy_policy)) <> "".
Proof.
  refine (proj1 (proj2 (proj2 (admitted_policy_deploys_complete toy_policy _ _)))).
  - discriminate.
  - reflexivity.
Defined.

(** ** Against API servers *)

#[local] Instance the_server : ApiServer toy := toy_server never.

Lemma toy_world_wf cs : toy_wf (toy_world cs).
Proof. split; apply map_Forall_empty. Qed.

Definition normal_run : list event :=
  toy_trace never (PolicyController.reconcileNormal toy_policy) (toy_world [marked_cluster]).
Definition normal_end : toy :=
  (exec (toy_handler never) (PolicyController.reconcileNormal toy_policy) (toy_world [marked_cluster])).2.

Lemma policy_reconcile_refines_witness :
  in_place toy_policy normal_run normal_end marked_cluster.
Proof.
  destruct (policy_reconcile_refines toy_policy (toy_world [marked_cluster]) normal_run
    ({| Requeue := false; RequeueAfter := (5 * Minute)%Z |}, None) normal_end) as [_ H].
  - exact (toy_runs never (PolicyController.reconcileNormal toy_policy) (toy_world [marked_cluster])).
  - exact (toy_steps never (PolicyController.reconcileNormal toy_policy) (toy_world [marked_cluster])
             (toy_world_wf _)).
  - apply (proj1 (Forall_cons _ marked_cluster []) (H (take 6 normal_run) (toy_reported false) None [marked_cluster]
      eq_refl eq_refl eq_refl)).
Defined.

Lemma deployed_world_wf : toy_wf deployed_world.
Proof.
  split; [|apply map_Forall_empty]. intros rk p H.
  change (toy_caps deployed_world) with
    (<[(toy_handle, toy_key (newClusterAdmissionPolicy toy_policy)) := newClusterAdmissionPolicy toy_policy]>
       (∅ : gmap (NamespacedName * NamespacedName) ClusterAdmissionPolicy)) in H.
  by apply lookup_insert_Some in H as [[<- <-]|[_ ?]].
Qed.

Lemma policy_delete_refines_witness :
  Forall (gone toy_policy (delete_run never)
            (exec (toy_handler never) (reconcileDelete toy_policy) deployed_world).2) [marked_cluster].
Proof.
  refine (proj2 (policy_delete_refines toy_policy deployed_world (delete_run never) (Done, None) _
    [marked_cluster] _ _ _)).
  - exact (toy_runs never (reconcileDelete toy_policy) deployed_world).
  - exact (toy_steps never (reconcileDelete toy_policy) deployed_world deployed_world_wf).
  - reflexivity.
Defined.
(** A second reconcile after the first. *)
Lemma normal_end_wf : toy_wf normal_end.
Proof. exact deployed_world_wf. Qed.

Lemma policy_reconcile_converges_witness :
  stored (exec (toy_handler never) (PolicyController.reconcileNormal toy_policy) normal_end).2 toy_handle
    (policy_id_of toy_policy) = stored normal_end toy_handle (policy_id_of toy_policy).
Proof.
  refine (policy_reconcile_converges toy_policy normal_end _ toy_handle _ _ (policy_id_of toy_policy)).
  - eapply rounds_more; [| |apply rounds_none].
    + exact (toy_runs never (PolicyController.reconcileNormal toy_policy) normal_end).
    + exact (toy_steps never (PolicyController.reconcileNormal toy_policy) normal_end normal_end_wf).
  - reflexivity.
Defined.
End PolicyWitnesses.

(** ** Webhooks *)

Section WebhookWitnesses.
Import Policy.

(** The second rule has an unknown operation. *)
Definition bad_rule : PolicyRule :=
  {| APIGroups := [""]; APIVersions := ["v1"]; Resources := ["pods"]; Operations := ["PATCH"]; Scope := "" |}.
Definition bad_policy : KubewardenPolicy :=
  with_Spec toy_policy
    {| ClusterSelector := prod_selector; PolicyType := "ClusterAdmissionPolicy"; PolicyName := "p";
       TargetNamespace := ""; PolicyServer := "default"; Module_ := "registry://m"; Rules := [toy_rule; bad_rule];
       Mutating := false; Settings := {| Raw := "" |}; FailurePolicy := "Fail"; MatchConditions := [] |}.
Definition bad_rule_error : error :=
  New "rule[1]: invalid operation 'PATCH', must be one of: CREATE, UPDATE, DELETE, CONNECT".

Lemma validate_rule_error_first_witness :
  (PolicyWebhook.validateKubewardenPolicy bad_policy).2 = Some bad_rule_error.
Proof.
  exact (proj1 (PolicyWebhook.validate_rule_error_first bad_policy bad_rule_error
    ltac:(discriminate) eq_refl)).
Defined.
End WebhookWitnesses.

(** ** The two controllers together *)

Section SystemWitness.
(** The addon is reconciled first, then the policy. *)
Definition both (i : nat) : request :=
  match i with 0 => AddonRequest addon_req | _ => PolicyRequest policy_req end.
Definition after_addon : toy :=
  (exec (toy_handler never) (AddonController.Reconcile addon_req) (toy_world [fresh_cluster])).2.
Definition second_run : list event := toy_trace never (PolicyController.Reconcile policy_req) after_addon.
Definition both_history : list (nat * event) :=
  map (pair 0) addon_run ++ map (pair 1) (take 5 second_run).

Lemma both_reached : reach (fun i => reconciler (both i)) both_history.
Proof.
  unfold both_history. apply reach_app; [|reflexivity|].
  - apply (reach_app _ [] addon_run 0); [constructor|reflexivity|]. intros n e. apply toy_issues.
  - intros n e Hn. apply lookup_take_Some in Hn as [Hn Hlt]. rewrite take_take, Nat.min_l by lia.
    by apply toy_issues.
Qed.

Lemma policies_after_installation_witness :
  exists (cluster : Cluster) addon rc,
    connected both_history.*2 cluster rc /\ kubewarden_installed both_history.*2 addon (Remote rc).
Proof.
  destruct (policies_after_installation both both_history 1 toy_handle
    (OClusterAdmissionPolicy (newClusterAdmissionPolicy toy_policy))
    (ACreate (Remote toy_handle) (OClusterAdmissionPolicy (newClusterAdmissionPolicy toy_policy))))
    as (cl & cl' & addon & rc & _ & _ & H1 & H2).
  - exact both_reached.
  - reflexivity.
  - left. reflexivity.
  - exists policy_req. reflexivity.
  - refine (toy_issues never (PolicyController.Reconcile policy_req) after_addon 5
      (@Ev GoSignature (ACreate (Remote toy_handle)
         (OClusterAdmissionPolicy (newClusterAdmissionPolicy toy_policy))) None) _). reflexivity.
  - exists cl', addon, rc. split; [exact H1|exact H2].
Defined.
End SystemWitness.

(** ** Behind a cache *)

Section CacheWitnesses.
#[local] Instance lag_never : ManagementServer lag := lag_management never.

(** The run of a program from a state of the server and its cache: the calls,
    with their states, and the state at the end. *)
Definition lag_trace {A} (p : @prog GoSignature A) (w : lag) : list event := (exec (lag_handler never) p w).1.2.
Definition lag_run {A} (p : @prog GoSignature A) (w : lag) : list (lag * event) :=
  with_states never w (lag_trace p w).
Definition lag_end {A} (p : @prog GoSignature A) (w : lag) : lag := (exec (lag_handler never) p w).2.
Definition catch_up (w : lag) : lag := {| server := server w; cache := server w |}.

Lemma lag_runs {A} (p : @prog GoSignature A) w :
  runs p (lag_run p w).*2 (exec (lag_handler never) p w).1.1.
Proof.
  unfold lag_run, lag_trace. rewrite with_states_events.
  destruct (exec _ p w) as [[a t] w'] eqn:E. by eapply exec_runs.
Qed.
Lemma lag_runs_to {A} (p : @prog GoSignature A) w0 w :
  lag_elsewhere w0 w -> lag_wf w ->
  history lag_elsewhere (lag_serves never) w0 (lag_run p w) (lag_end p w).
Proof.
  intros H0 Hw. unfold lag_run, lag_trace, lag_end.
  destruct (exec _ p w) as [[a t] w'] eqn:E. by eapply lag_history.
Qed.
Lemma lag_stays w : lag_elsewhere w w.
Proof. split; [done|by left]. Qed.
Lemma lag_catches_up w : lag_elsewhere w (catch_up w).
Proof. split; [done|by right]. Qed.
Lemma one_cluster_wf w (c c' : Cluster) :
  toy_caps (server w) = ∅ -> toy_aps (server w) = ∅ ->
  toy_clusters (server w) = [c] -> toy_clusters (cache w) = [c'] -> lag_wf w.
Proof.
  intros E1 E2 E3 E4. split; [split|]; rewrite ?E1, ?E2; try apply map_Forall_empty.
  unfold toy_keys. rewrite E3, E4. split; apply NoDup_singleton.
Qed.

(** *** Repeated reconciles *)

Definition addon_prog : @prog GoSignature (Result * option error) := AddonController.Reconcile addon_req.

(** The first reconcile installs the cluster; the second reads the old cache and
    installs it again; the third, after the cache caught up, leaves it alone. *)
Definition lag0 : lag := {| server := toy_world [fresh_cluster]; cache := toy_world [fresh_cluster] |}.
Definition lag1 : lag := lag_end addon_prog lag0.
Definition lag2 : lag := lag_end addon_prog lag1.
Definition lag3 : lag := lag_end addon_prog (catch_up lag2).

Definition annotated_cluster : Cluster := (annotateInstalled fresh_cluster).1.

Lemma lag0_wf : lag_wf lag0.
Proof. apply (one_cluster_wf _ fresh_cluster fresh_cluster); reflexivity. Qed.
Lemma lag1_wf : lag_wf lag1.
Proof. apply (one_cluster_wf _ annotated_cluster fresh_cluster); vm_compute; reflexivity. Qed.
Lemma lag2_wf : lag_wf (catch_up lag2).
Proof. apply (one_cluster_wf _ annotated_cluster annotated_cluster); vm_compute; reflexivity. Qed.

Lemma lag_rounds :
  addon_rounds (W := lag) lag0 [lag_run addon_prog lag0; lag_run addon_prog lag1; lag_run addon_prog (catch_up lag2)] lag3.
Proof.
  eapply addon_rounds_more; [apply lag_runs|exact (lag_runs_to addon_prog _ _ (lag_stays _) lag0_wf)|].
  eapply addon_rounds_more; [apply lag_runs|exact (lag_runs_to addon_prog _ _ (lag_stays _) lag1_wf)|].
  eapply addon_rounds_more; [apply lag_runs|exact (lag_runs_to addon_prog _ _ (lag_catches_up _) lag2_wf)|].
  constructor.
Qed.

Lemma lag_keeps_annotated (w1 w2 : lag) k : elsewhere w1 w2 -> annotated w1 k -> annotated w2 k.
Proof. apply (und_annotated lag_undisturbed). Qed.

Lemma installs_at_most_once_witness :
  marked_in (lag_run addon_prog (catch_up lag2)).*2 = [] /\
  stale (W := lag) (lag_run addon_prog lag1) (ObjectKeyFromObject fresh_cluster).
Proof.
  split; [reflexivity|].
  refine (proj2 (installs_at_most_once _ _ _ lag_keeps_annotated lag_rounds) 0 1 _ _ _ _ eq_refl eq_refl _ _);
    [by constructor|left..].
Defined.

Lemma lag_pending (w w' : lag) : elsewhere w w' -> pending w' ⊆ pending w.
Proof. intros [E _]. unfold pending. simpl. by rewrite E. Qed.

(** The list of the first reconcile is current. *)
Lemma lag0_current : current (W := lag) (lag_run addon_prog lag0).
Proof.
  intros w1 ns cs c Hin Hc _.
  assert (w1 = lag0 /\ cs = [fresh_cluster]) as [-> ->].
  { assert ((w1, cs) ∈ omap (fun we : lag * event =>
      match we.2 with Ev (AListClusters _ _ _) (inr cs) => Some (we.1, cs) | _ => None end) (lag_run addon_prog lag0)) as H.
    { apply list_elem_of_omap. eexists. split; [exact Hin|reflexivity]. }
    replace (omap _ _) with [(lag0, [fresh_cluster])] in H by reflexivity.
    by apply list_elem_of_singleton in H as [= -> ->]. }
  apply list_elem_of_singleton in Hc as ->. apply pending_spec. exists fresh_cluster.
  split; [|reflexivity]. apply toy_cluster_lookup; [apply NoDup_singleton|]. split; [left|done].
Qed.

Lemma installing_terminates_witness :
  installs (W := lag) lag1 lag0 /\ Acc (installs (W := lag)) lag0.
Proof.
  split; [|exact (installing_terminates lag_pending lag0)].
  exists addon_req, (lag_run addon_prog lag0). eexists. split; [apply lag_runs|].
  split; [exact (lag_runs_to addon_prog _ _ (lag_stays _) lag0_wf)|].
  split; [exact lag0_current|by vm_compute].
Defined.

Definition third_run : list event := lag_trace addon_prog (catch_up lag2).
Lemma third_run_shown : shown_installed third_run.
Proof.
  intros ns cs c Hin Hc.
  assert (cs ∈ omap answered_clusters third_run) as H.
  { apply list_elem_of_omap. eexists. split; [exact Hin|reflexivity]. }
  replace (omap answered_clusters third_run) with [[annotated_cluster]] in H by reflexivity.
  apply list_elem_of_singleton in H as ->. apply list_elem_of_singleton in Hc as ->. reflexivity.
Qed.
Lemma third_run_steps : steps (lag_serves never) (catch_up lag2) third_run lag3.
Proof.
  unfold third_run, lag3, lag_trace, lag_end. destruct (exec _ addon_prog (catch_up lag2)) as [[a t] w'] eqn:E.
  by apply (lag_steps _ _ _ _ _ _ lag2_wf) in E.
Qed.

Lemma third_run_runs :
  runs (AddonController.Reconcile addon_req) third_run (exec (lag_handler never) addon_prog (catch_up lag2)).1.1.
Proof.
  unfold third_run. rewrite <- (with_states_events never (catch_up lag2) (lag_trace addon_prog (catch_up lag2))). exact (lag_runs addon_prog (catch_up lag2)).
Qed.

Lemma installed_clusters_left_alone_witness :
  Forall (fun e => quiet (ev_action e)) third_run /\ clusters (W := lag) lag3 = clusters (catch_up lag2).
Proof.
  pose proof (installed_clusters_left_alone addon_req (catch_up lag2) third_run) as H.
  specialize (H _ lag3 third_run_shown third_run_runs). exact (H third_run_steps).
Defined.
End CacheWitnesses.

(** *** From an addon to a deployed policy *)

Section EndToEndWitness.
Definition event_prog : @prog GoSignature (list NamespacedName) :=
  clusterToKubewardenPolicy (OCluster annotated_cluster).
Definition policy_prog : @prog GoSignature (Result * option error) := PolicyController.Reconcile policy_req.

(** The cache catches up between the addon's reconcile and the event. *)
Definition caught : lag := catch_up lag1.
Lemma caught_wf : lag_wf caught.
Proof. apply (one_cluster_wf _ annotated_cluster annotated_cluster); vm_compute; reflexivity. Qed.

Definition rollout : list (lag * event) := lag_run policy_prog caught.
Definition rolled_out : lag := lag_end policy_prog caught.

Lemma happens_history w0 h w :
  history lag_elsewhere (lag_serves never) w0 h w -> history elsewhere happens w0 h w.
Proof. by apply history_impl. Qed.

Lemma prod_selects (c : Cluster) : Labels c = {["env" := "prod"]} -> selected_by prod_selector c.
Proof. intros E. exists (MatchLabels prod_selector). rewrite E. split; reflexivity. Qed.

Lemma lag_run_ok : all_ok (lag_run addon_prog lag0).*2.
Proof. by apply toy_run_ok. Qed.

(** The cache holds the policy at every call. *)
Lemma rollout_policy w e :
  (w, e) ∈ lag_run event_prog caught ++ rollout -> cached_policies w policy_req = Some toy_policy.
Proof.
  intros H. assert (Forall (fun we : lag * event => toy_policies (cache we.1) = [toy_policy])
    (lag_run event_prog caught ++ rollout)) as Ha by (repeat constructor).
  eapply Forall_forall in Ha; [|exact H]. simpl in *. unfold toy_policy_at. by rewrite Ha.
Qed.

(** At every call of the rollout the cache holds the annotated cluster. *)
Lemma rollout_caught : caught_up (ObjectKeyFromObject fresh_cluster) prod_selector rollout.
Proof.
  intros w e H. assert (Forall (fun we : lag * event =>
    toy_clusters (cache we.1) = [annotated_cluster] /\
    toy_clusters (server we.1) = [annotated_cluster]) rollout) as Ha by (repeat constructor).
  eapply Forall_forall in Ha; [|exact H]. destruct Ha as [E1 E2]. simpl in E1, E2. simpl.
  unfold toy_cluster_map. rewrite E1, E2. split; [done|].
  intros c Hc%elem_of_list_to_map_2%list_elem_of_singleton%(f_equal snd).
  change (c = annotated_cluster) in Hc. rewrite Hc. split; [reflexivity|by apply prod_selects].
Qed.

Lemma addon_to_deployed_policy_witness :
  (exists rc, connected (lag_run addon_prog lag0).*2 fresh_cluster rc) /\
  exists c' : Cluster, ObjectKeyFromObject c' = ObjectKeyFromObject fresh_cluster /\
    in_place toy_policy rollout.*2 rolled_out c'.
Proof.
  destruct (addon_to_deployed_policy lag0 lag1 (lag_end event_prog caught) rolled_out addon_req toy_addon
    [fresh_cluster] fresh_cluster (lag_run addon_prog lag0) (Result_zero, None) annotated_cluster
    (lag_run event_prog caught) [policy_req] policy_req toy_policy rollout
    ({| Requeue := false; RequeueAfter := 5 * Minute |}, None)) as ((rc & Hc & _) & _ & Hp & _).
  - exact lag_undisturbed.
  - exact (lag_runs addon_prog lag0).
  - apply happens_history. exact (lag_runs_to addon_prog _ _ (lag_stays _) lag0_wf).
  - exact lag_run_ok.
  - reflexivity.
  - reflexivity.
  - reflexivity.
  - intros c' ->%list_elem_of_singleton _. split; reflexivity.
  - left.
  - by apply prod_selects.
  - exact (lag_runs event_prog caught).
  - apply happens_history. exact (lag_runs_to event_prog _ _ (lag_catches_up _) caught_wf).
  - split_and!; [reflexivity| |]; constructor.
  - reflexivity.
  - by apply prod_selects.
  - reflexivity.
  - reflexivity.
  - exact rollout_policy.
  - exact (lag_runs policy_prog caught).
  - apply happens_history. exact (lag_runs_to policy_prog _ _ (lag_stays _) caught_wf).
  - by repeat constructor.
  - exact rollout_caught.
  - split; [by exists rc|exact Hp].
Defined.
End EndToEndWitness.

(** ** Start-up *)

(** A controller-runtime whose handles carry no information, and which
    succeeds. *)
#[local] Instance toy_runtime : ControllerRuntime := {|
  webhook_server := unit; rest_config := unit; manager := unit; manager_client := unit;
  manager_scheme := unit; manager_cache := unit; context := unit; controller := unit;
  ClusterClientGetter := unit; NewClusterClient := tt;
  GetClient := fun _ => tt; GetScheme := fun _ => tt; GetCache := fun _ => tt;
|}.

Definition startup_handler (args : Arguments_) (stop : option string)
    (a : startup_action) (w : unit) : startup_result a * unit :=
  (match a return startup_result a with
   | ABindZapFlags | ASetLogger | ASetupError _ _ _ | AExit _ => tt
   | AParse _ => Some args
   | ANewServer _ => tt
   | AGetConfigOrDie => Some tt
   | ANewManager _ _ | ABuild _ _ _ => inr tt
   | ASetupSignalHandler => tt
   | AStart _ _ => stop
   | AAddToScheme _ | AWatch _ _ _ _ | AWebhook _ _ | AAddHealthzCheck _ _ | AAddReadyzCheck _ _ => None
   end, w).

Definition no_args : Arguments_ := {| string_args := ∅; bool_args := ∅ |}.

(** A process whose manager stops with an error. *)
Definition startup_run (stop : option string) :=
  @exec StartupSignature unit (startup_handler no_args stop) outcome program tt.


Lemma servers_follow_flags_witness :
  exists opts, @issues StartupSignature outcome program (take 8 (startup_run None).1.2) (ANewServer opts) /\
    exists args, @Ev StartupSignature (AParse flags) (Some args) ∈ take 8 (startup_run None).1.2 /\
      http_follows args opts.
Proof.
  exists [disableHTTP2].
  assert (@issues StartupSignature outcome program (take 8 (startup_run None).1.2)
            (ANewServer [disableHTTP2])) as Hi.
  { refine (@exec_issues StartupSignature unit outcome (startup_handler no_args None) program tt Finished (startup_run None).1.2 tt 8
      (@Ev StartupSignature (ANewServer [disableHTTP2]) tt) _ _); reflexivity. }
  split; [exact Hi|].
  destruct (proj1 (servers_follow_flags (take 8 (startup_run None).1.2)) _ Hi) as (args & Ha & Hh).
  exists args. split; [exact Ha|exact Hh].
Defined.
